(** * OsmApiDbBulkWriter: a shallow embedding of the bulk element writer

    This development embeds [hoot/core/io/OsmApiDbBulkWriter.cpp] and checks
    the properties its specification states about it.

    Conventions of the embedding.
    - A [QString] is a [string] of 8-bit code units; a null [QString] (what
      [QTextStream::readLine] returns at the end of a file) is [None] in an
      [option QString].
    - [long] is a 64-bit two's-complement integer: a [Z] wrapped by
      [wrap64]; [int] and [unsigned int] are wrapped by [wrap32s] and
      [wrap32u].
    - A temporary file together with its text stream is the [QString] of
      the characters written so far.
    - The file system and the database answer: a temporary file is created,
      flushed and opened for reading, and the text read back is the text
      written.  The exceptions the source throws when they do not (a file
      that cannot be created, flushed or opened, in [_createTable],
      [finalizePartial], [_writeCombinedSqlFile],
      [_updateIdOffsetsInNewFile] and [_lockIds]; [psql] failing in
      [_executeElementSql]) have no counterpart here.  What is proved of a
      call that returns is proved of a run where none of them occurred.
    - Exceptions, and the dereference of a null [shared_ptr] or an index
      outside a [QStringList], end the call with an [Exn]; the writer
      state reached at that point is kept. *)

From stdpp Require Import gmap strings list.
From Stdlib Require Import ZArith Lia Ascii String DecimalString DecimalZ QArith Qround.

Local Open Scope Z_scope.

(** ** QString *)

Module QStr.

Abbreviation QString := string.

Definition QChar (code : nat) : ascii := ascii_of_nat code.

Definition TAB : ascii := QChar 9.
Definition LF : ascii := QChar 10.
Definition CR : ascii := QChar 13.
Definition BACKSLASH : ascii := QChar 92.
Definition QUOTE : ascii := QChar 34.

(** One-character string. *)
Definition chr (c : ascii) : QString := String c EmptyString.

(** [QString::replace(QChar before, const QString &after)]: every occurrence
    of [before] is replaced by [after]. *)
Fixpoint replace (before : ascii) (after : QString) (s : QString) : QString :=
  match s with
  | EmptyString => EmptyString
  | String c s' =>
      if Ascii.eqb c before then after +:+ replace before after s'
      else String c (replace before after s')
  end.

(** Character-wise substitution, the reference point for [replace] chains. *)
Fixpoint flat_map_chars (f : ascii -> QString) (s : QString) : QString :=
  match s with
  | EmptyString => EmptyString
  | String c s' => f c +:+ flat_map_chars f s'
  end.

Fixpoint forall_chars (p : ascii -> bool) (s : QString) : bool :=
  match s with
  | EmptyString => true
  | String c s' => p c && forall_chars p s'
  end.

Definition has_char (c : ascii) (s : QString) : bool :=
  negb (forall_chars (fun d => negb (Ascii.eqb d c)) s).

End QStr.

Import QStr.

(** ** Encoder: [_escapeCopyToData] *)

Definition _escapeCopyToData (stringToOutput : QString) : QString :=
  let escapedString := stringToOutput in
  (* Escape single backslashes first *)
  let escapedString := replace (QChar 92) "\\" escapedString in
  let escapedString := replace (QChar 8) "\b" escapedString in
  let escapedString := replace (QChar 9) "\t" escapedString in
  let escapedString := replace (QChar 10) "\n" escapedString in
  let escapedString := replace (QChar 11) "\v" escapedString in
  let escapedString := replace (QChar 12) "\f" escapedString in
  let escapedString := replace (QChar 13) "\r" escapedString in
  escapedString.

(** What one character becomes under [_escapeCopyToData]. *)
Definition escape_char (c : ascii) : QString :=
  if Ascii.eqb c (QChar 92) then "\\"
  else if Ascii.eqb c (QChar 8) then "\b"
  else if Ascii.eqb c (QChar 9) then "\t"
  else if Ascii.eqb c (QChar 10) then "\n"
  else if Ascii.eqb c (QChar 11) then "\v"
  else if Ascii.eqb c (QChar 12) then "\f"
  else if Ascii.eqb c (QChar 13) then "\r"
  else chr c.

(** ** Machine integers *)

(** [long]: 64-bit two's complement. *)
Definition wrap64 (z : Z) : Z := (z + 2 ^ 63) mod 2 ^ 64 - 2 ^ 63.
(** [int]: 32-bit two's complement. *)
Definition wrap32s (z : Z) : Z := (z + 2 ^ 31) mod 2 ^ 32 - 2 ^ 31.
(** [unsigned int]. *)
Definition wrap32u (z : Z) : Z := z mod 2 ^ 32.

Definition long_add (a b : Z) : Z := wrap64 (a + b).
Definition long_sub (a b : Z) : Z := wrap64 (a - b).
(** [x++] and [x--] on a [long]. *)
Definition long_incr (a : Z) : Z := long_add a 1.
Definition long_decr (a : Z) : Z := long_sub a 1.

Definition in_long (z : Z) : bool := (- 2 ^ 63 <=? z) && (z <? 2 ^ 63).

(** ** More of the QString interface *)

Module QStrOps.

Definition isSpace (c : ascii) : bool :=
  let n := nat_of_ascii c in
  ((9 <=? n)%nat && (n <=? 13)%nat) || (n =? 32)%nat.

(** [QString::contains(const QString &)]. *)
Fixpoint contains (needle s : QString) : bool :=
  String.prefix needle s ||
  match s with
  | EmptyString => false
  | String _ s' => contains needle s'
  end.

Fixpoint drop_leading_spaces (s : QString) : QString :=
  match s with
  | EmptyString => EmptyString
  | String c s' => if isSpace c then drop_leading_spaces s' else s
  end.

Fixpoint drop_trailing_spaces (s : QString) : QString :=
  match s with
  | EmptyString => EmptyString
  | String c s' =>
      match drop_trailing_spaces s' with
      | EmptyString => if isSpace c then EmptyString else chr c
      | r => String c r
      end
  end.

(** [QString::trimmed()]. *)
Definition trimmed (s : QString) : QString :=
  drop_trailing_spaces (drop_leading_spaces s).

(** [QString::split] with the default [KeepEmptyParts]: the separators are
    the characters that satisfy [sep]. *)
Fixpoint split_by (sep : ascii -> bool) (s : QString) : list QString :=
  match s with
  | EmptyString => [EmptyString]
  | String c s' =>
      if sep c then EmptyString :: split_by sep s'
      else match split_by sep s' with
           | [] => [chr c]
           | p :: ps => String c p :: ps
           end
  end.

(** [line.split("\t")]. *)
Definition split_tab (s : QString) : list QString :=
  split_by (fun c => Ascii.eqb c TAB) s.

(** [line.split(QRegExp("\\s"))]. *)
Definition split_space (s : QString) : list QString := split_by isSpace s.

(** [QStringList::join]. *)
Fixpoint join (sep : QString) (parts : list QString) : QString :=
  match parts with
  | [] => EmptyString
  | [p] => p
  | p :: ps => p +:+ sep +:+ join sep ps
  end.

Definition toLower_char (c : ascii) : ascii :=
  let n := nat_of_ascii c in
  if ((65 <=? n)%nat && (n <=? 90)%nat) then ascii_of_nat (n + 32) else c.

(** [QString::toLower()]. *)
Fixpoint toLower (s : QString) : QString :=
  match s with
  | EmptyString => EmptyString
  | String c s' => String (toLower_char c) (toLower s')
  end.

(** [QString::number(long)]: the decimal numeral, with a leading [-] for a
    negative number. *)
Definition number (z : Z) : QString := NilEmpty.string_of_int (Z.to_int z).

(** [QString::toLong()]: the value of a decimal numeral that fits a
    [long]; 0 when the conversion fails. *)
Definition toLong (s : QString) : Z :=
  match NilEmpty.int_of_string s with
  | Some i => let z := Z.of_int i in if in_long z then z else 0
  | None => 0
  end.

(** The values successive [QTextStream::readLine()] calls return before
    the null string that marks the end, for a text without CR: lines end
    at LF.  [readLine()] also drops a CR that comes right before the LF or
    at the very end of the text; this function keeps it, so it stands for
    [readLine()] on text without CR only.  The text the writer itself
    writes holds none: numbers, fixed text, timestamps and escaped strings
    have no CR. *)
Fixpoint readLines (s : QString) : list QString :=
  match s with
  | EmptyString => []
  | String c s' =>
      if Ascii.eqb c LF then EmptyString :: readLines s'
      else match readLines s' with
           | [] => [chr c]
           | l :: ls => String c l :: ls
           end
  end.

(** Every value [readLine()] returns in a [do ... while (!line.isNull())]
    loop: the lines, then the null string. *)
Definition readLine_loop (s : QString) : list (option QString) :=
  map Some (readLines s) ++ [None].

(** A null [QString] streams as no characters. *)
Definition of_nullable (l : option QString) : QString :=
  match l with Some s => s | None => EmptyString end.

End QStrOps.

Import QStrOps.

(** ** Elements *)

Module ElementType.
Inductive Type_ : Set := Node | Way | Relation | Unknown.
End ElementType.

Abbreviation ElementType := ElementType.Type_.

#[export] Instance ElementType_eq_dec : EqDecision ElementType.
Proof. solve_decision. Defined.

Definition ElementType_to_nat (t : ElementType) : nat :=
  match t with
  | ElementType.Node => 0
  | ElementType.Way => 1
  | ElementType.Relation => 2
  | ElementType.Unknown => 3
  end.

Definition ElementType_of_nat (n : nat) : ElementType :=
  match n with
  | O => ElementType.Node
  | 1%nat => ElementType.Way
  | 2%nat => ElementType.Relation
  | _ => ElementType.Unknown
  end.

#[export] Instance ElementType_countable : Countable ElementType.
Proof.
  apply (inj_countable' ElementType_to_nat ElementType_of_nat).
  intros []; reflexivity.
Defined.

(** [ElementId]: the kind and the source id. *)
Definition ElementId : Type := ElementType * Z.

Definition Tags : Type := list (QString * QString).

(** ** Character classes *)

Definition not_char (c : ascii) : ascii -> bool := fun d => negb (Ascii.eqb d c).

(** The characters of [QString::number]. *)
Definition numeral_char (c : ascii) : bool :=
  match c with
  | "0" | "1" | "2" | "3" | "4" | "5" | "6" | "7" | "8" | "9" | "-" => true
  | _ => false
  end%char.

(** The characters of a [yyyy-MM-dd hh:mm:ss.zzz] timestamp. *)
Definition timestamp_char (c : ascii) : bool :=
  match c with
  | "0" | "1" | "2" | "3" | "4" | "5" | "6" | "7" | "8" | "9"
  | "-" | ":" | "." | " " => true
  | _ => false
  end%char.

Definition first_char (p : ascii -> bool) (s : QString) : bool :=
  match s with
  | EmptyString => false
  | String c _ => p c
  end.

(** The text of lines, each ended by LF. *)
Definition unlines (ls : list QString) : QString :=
  fold_right (fun l acc => l +:+ chr LF +:+ acc) EmptyString ls.

(** ** Collaborators outside this file

    Floating point, the tile helper, the envelope of the changeset bounds
    and the clock are collaborators of the writer.  They enter the
    embedding through this interface. *)
Class External := {
  (** C++ [double] *)
  double : Type;
  (** [round(degrees * ApiDb::COORDINATE_SCALE)]: the integer that [round]
      returns, before any conversion to an integer type *)
  roundScaled : double -> Z;
  (** [ApiDb::tileForPoint(lat, lon)] *)
  tileForPoint : double -> double -> Z;
  (** [Envelope], with [init()] and [expandToInclude(x, y)] *)
  Envelope : Type;
  Envelope_init : Envelope;
  expandToInclude : Envelope -> double -> double -> Envelope;
  (** [(qlonglong)OsmApiDb::toOsmApiDbCoord(e.getMinY())] and the like *)
  minYCoord : Envelope -> Z;
  maxYCoord : Envelope -> Z;
  minXCoord : Envelope -> Z;
  maxXCoord : Envelope -> Z;
  (** [QDateTime::currentDateTime().toUTC().toString("yyyy-MM-dd hh:mm:ss.zzz")] *)
  datestring : QString;
  (** the format yields digits, [-], [:], [.] and blanks only *)
  datestring_chars : forall_chars timestamp_char datestring = true
}.

(** ** Failures

    The exceptions the writer throws, named as the specification names
    them, and the three ways a call can leave defined behaviour. *)
Inductive Exn :=
| AlreadyOpen                  (* "Database already open. ..." *)
| UpdateNotSupported           (* "Writer class does not support update operations" *)
| UnresolvedWayNode            (* "Unresolved waynodes are not supported. ..." *)
| UnsupportedUnresolvedWayNode (* "Found unresolved waynode ref! ..." *)
| InvalidUserId                (* "Invalid changeset user ID: ..." *)
| InvalidLatitude              (* "Invalid latitude conversion, ..." *)
| InvalidLongitude             (* "Invalid longitude conversion, ..." *)
| UnsupportedElementKind       (* "Unsupported element type", "Unsupported element member type" *)
| CannotLockIds                (* "... cannot lock out element ID range if no element SQL ..." *)
| AssertionFailed              (* a failed [assert] *)
| NullPointer                  (* a null [shared_ptr] dereferenced *)
| IndexOutOfRange.             (* [QStringList::operator[]] outside the list *)

(** ** Table and sequence names *)

Module ApiDb.

(** Modelled from the spec: the [ApiDb::get...TableName()] getters are not
    in this file; the names are those of the canonical section order. *)
Definition getChangesetsTableName : QString := "changesets".
Definition getCurrentNodesTableName : QString := "current_nodes".
Definition getCurrentNodeTagsTableName : QString := "current_node_tags".
Definition getNodesTableName : QString := "nodes".
Definition getNodeTagsTableName : QString := "node_tags".
Definition getCurrentWaysTableName : QString := "current_ways".
Definition getCurrentWayNodesTableName : QString := "current_way_nodes".
Definition getCurrentWayTagsTableName : QString := "current_way_tags".
Definition getWaysTableName : QString := "ways".
Definition getWayNodesTableName : QString := "way_nodes".
Definition getWayTagsTableName : QString := "way_tags".
Definition getCurrentRelationsTableName : QString := "current_relations".
Definition getCurrentRelationMembersTableName : QString := "current_relation_members".
Definition getCurrentRelationTagsTableName : QString := "current_relation_tags".
Definition getRelationsTableName : QString := "relations".
Definition getRelationMembersTableName : QString := "relation_members".
Definition getRelationTagsTableName : QString := "relation_tags".

(** Modelled from the spec: the [ApiDb::get...SequenceName()] getters are
    not in this file and the specification writes [<sequence_name>]; each
    sequence is named after its table here. *)
Definition getChangesetsSequenceName : QString := "changesets_id_seq".
Definition getCurrentNodesSequenceName : QString := "current_nodes_id_seq".
Definition getCurrentWaysSequenceName : QString := "current_ways_id_seq".
Definition getCurrentRelationsSequenceName : QString := "current_relations_id_seq".

End ApiDb.

(** The end of a line. *)
Definition NL : QString := chr LF.

(** A row: the fields joined by tabs, ended by LF.  This is what the
    [%1\t%2...\n] formats produce once [arg] has filled them. *)
Definition tsv (fields : list QString) : QString :=
  join (chr TAB) fields +:+ NL.

Section Writer.

Context `{Ext : External}.

Record Node := mkNode {
  Node_id : Z;
  Node_tags : Tags;
  Node_x : double;   (* longitude *)
  Node_y : double    (* latitude *)
}.

Record Way := mkWay {
  Way_id : Z;
  Way_tags : Tags;
  Way_nodeIds : list Z
}.

(** [RelationData::Entry] *)
Record Entry := mkEntry {
  Entry_role : QString;
  Entry_elementId : ElementId
}.

Record Relation := mkRelation {
  Relation_id : Z;
  Relation_tags : Tags;
  Relation_members : list Entry
}.

Inductive Element :=
| ENode (n : Node)
| EWay (w : Way)
| ERelation (r : Relation).

Definition getElementId (e : Element) : ElementId :=
  match e with
  | ENode n => (ElementType.Node, Node_id n)
  | EWay w => (ElementType.Way, Way_id w)
  | ERelation r => (ElementType.Relation, Relation_id r)
  end.

(** ** Writer state *)

Record WriteStats := mkWriteStats {
  nodesWritten : Z;
  nodeTagsWritten : Z;
  waysWritten : Z;
  wayNodesWritten : Z;
  wayTagsWritten : Z;
  relationsWritten : Z;
  relationMembersWritten : Z;
  relationMembersUnresolved : Z;
  relationTagsWritten : Z
}.

Record ChangesetData := mkChangesetData {
  changesetUserId : Z;
  currentChangesetId : Z;
  changesInChangeset : Z;
  changesetsWritten : Z;
  changesetBounds : Envelope
}.

(** The id maps are [shared_ptr<BigMap<long, long> >]: [None] is the null
    pointer. *)
Record IdMappings := mkIdMappings {
  currentNodeId : Z;
  nodeIdMap : option (gmap Z Z);
  currentWayId : Z;
  wayIdMap : option (gmap Z Z);
  currentRelationId : Z;
  relationIdMap : option (gmap Z Z)
}.

Record UnresolvedRelationReference := mkUnresolvedRelationReference {
  sourceRelationId : Z;
  sourceDbRelationId : Z;
  relationMemberData : Entry;
  relationMemberSequenceId : Z
}.

(** [map<ElementId, UnresolvedRelationReference>]; the way-node index is
    only ever reset. *)
Record UnresolvedRefs := mkUnresolvedRefs {
  unresolvedWaynodeRefs : option (gmap Z (list (Z * Z)));
  unresolvedRelationRefs :
    option (gmap (ElementType * Z) UnresolvedRelationReference)
}.

(** What the writer does to the database, in order. *)
Inductive DbEvent :=
| NextIdRequested (table : QString)
| SqlExecuted (sql : QString)
| ScriptExecuted (script : QString).

(** [OsmApiDb]: the value each sequence hands out next, and the calls
    made so far. *)
Record Database := mkDatabase {
  db_isOpen : bool;
  db_nextNodeId : Z;
  db_nextWayId : Z;
  db_nextRelationId : Z;
  db_nextChangesetId : Z;
  db_events : list DbEvent
}.

Record OsmApiDbBulkWriter := mkWriter {
  _mode : QString;
  _maxChangesetSize : Z;
  _executeSql : bool;
  (** whether [assert] is compiled out *)
  NDEBUG : bool;
  _writeStats : WriteStats;
  _changesetData : ChangesetData;
  _idMappings : IdMappings;
  _unresolvedRefs : UnresolvedRefs;
  (** table name to the text of its temporary file *)
  _outputSections : gmap string string;
  _sectionNames : list QString;
  _database : Database
}.

Definition with_writeStats (f : WriteStats -> WriteStats)
  (w : OsmApiDbBulkWriter) : OsmApiDbBulkWriter :=
  mkWriter (_mode w) (_maxChangesetSize w) (_executeSql w) (NDEBUG w)
    (f (_writeStats w)) (_changesetData w) (_idMappings w)
    (_unresolvedRefs w) (_outputSections w) (_sectionNames w) (_database w).

Definition with_changesetData (f : ChangesetData -> ChangesetData)
  (w : OsmApiDbBulkWriter) : OsmApiDbBulkWriter :=
  mkWriter (_mode w) (_maxChangesetSize w) (_executeSql w) (NDEBUG w)
    (_writeStats w) (f (_changesetData w)) (_idMappings w)
    (_unresolvedRefs w) (_outputSections w) (_sectionNames w) (_database w).

Definition with_idMappings (f : IdMappings -> IdMappings)
  (w : OsmApiDbBulkWriter) : OsmApiDbBulkWriter :=
  mkWriter (_mode w) (_maxChangesetSize w) (_executeSql w) (NDEBUG w)
    (_writeStats w) (_changesetData w) (f (_idMappings w))
    (_unresolvedRefs w) (_outputSections w) (_sectionNames w) (_database w).

Definition with_unresolvedRefs (f : UnresolvedRefs -> UnresolvedRefs)
  (w : OsmApiDbBulkWriter) : OsmApiDbBulkWriter :=
  mkWriter (_mode w) (_maxChangesetSize w) (_executeSql w) (NDEBUG w)
    (_writeStats w) (_changesetData w) (_idMappings w)
    (f (_unresolvedRefs w)) (_outputSections w) (_sectionNames w) (_database w).

Definition with_outputSections (f : gmap string string -> gmap string string)
  (w : OsmApiDbBulkWriter) : OsmApiDbBulkWriter :=
  mkWriter (_mode w) (_maxChangesetSize w) (_executeSql w) (NDEBUG w)
    (_writeStats w) (_changesetData w) (_idMappings w)
    (_unresolvedRefs w) (f (_outputSections w)) (_sectionNames w) (_database w).

Definition with_database (f : Database -> Database)
  (w : OsmApiDbBulkWriter) : OsmApiDbBulkWriter :=
  mkWriter (_mode w) (_maxChangesetSize w) (_executeSql w) (NDEBUG w)
    (_writeStats w) (_changesetData w) (_idMappings w)
    (_unresolvedRefs w) (_outputSections w) (_sectionNames w) (f (_database w)).

(** Field updates of the inner records. *)
Definition set_nodesWritten (v : Z) (s : WriteStats) : WriteStats :=
  mkWriteStats v (nodeTagsWritten s) (waysWritten s) (wayNodesWritten s)
    (wayTagsWritten s) (relationsWritten s) (relationMembersWritten s)
    (relationMembersUnresolved s) (relationTagsWritten s).
Definition set_nodeTagsWritten (v : Z) (s : WriteStats) : WriteStats :=
  mkWriteStats (nodesWritten s) v (waysWritten s) (wayNodesWritten s)
    (wayTagsWritten s) (relationsWritten s) (relationMembersWritten s)
    (relationMembersUnresolved s) (relationTagsWritten s).
Definition set_waysWritten (v : Z) (s : WriteStats) : WriteStats :=
  mkWriteStats (nodesWritten s) (nodeTagsWritten s) v (wayNodesWritten s)
    (wayTagsWritten s) (relationsWritten s) (relationMembersWritten s)
    (relationMembersUnresolved s) (relationTagsWritten s).
Definition set_wayNodesWritten (v : Z) (s : WriteStats) : WriteStats :=
  mkWriteStats (nodesWritten s) (nodeTagsWritten s) (waysWritten s) v
    (wayTagsWritten s) (relationsWritten s) (relationMembersWritten s)
    (relationMembersUnresolved s) (relationTagsWritten s).
Definition set_wayTagsWritten (v : Z) (s : WriteStats) : WriteStats :=
  mkWriteStats (nodesWritten s) (nodeTagsWritten s) (waysWritten s)
    (wayNodesWritten s) v (relationsWritten s) (relationMembersWritten s)
    (relationMembersUnresolved s) (relationTagsWritten s).
Definition set_relationsWritten (v : Z) (s : WriteStats) : WriteStats :=
  mkWriteStats (nodesWritten s) (nodeTagsWritten s) (waysWritten s)
    (wayNodesWritten s) (wayTagsWritten s) v (relationMembersWritten s)
    (relationMembersUnresolved s) (relationTagsWritten s).
Definition set_relationMembersWritten (v : Z) (s : WriteStats) : WriteStats :=
  mkWriteStats (nodesWritten s) (nodeTagsWritten s) (waysWritten s)
    (wayNodesWritten s) (wayTagsWritten s) (relationsWritten s) v
    (relationMembersUnresolved s) (relationTagsWritten s).
Definition set_relationTagsWritten (v : Z) (s : WriteStats) : WriteStats :=
  mkWriteStats (nodesWritten s) (nodeTagsWritten s) (waysWritten s)
    (wayNodesWritten s) (wayTagsWritten s) (relationsWritten s)
    (relationMembersWritten s) (relationMembersUnresolved s) v.

Definition set_currentChangesetId (v : Z) (c : ChangesetData) : ChangesetData :=
  mkChangesetData (changesetUserId c) v (changesInChangeset c)
    (changesetsWritten c) (changesetBounds c).
Definition set_changesInChangeset (v : Z) (c : ChangesetData) : ChangesetData :=
  mkChangesetData (changesetUserId c) (currentChangesetId c) v
    (changesetsWritten c) (changesetBounds c).
Definition set_changesetsWritten (v : Z) (c : ChangesetData) : ChangesetData :=
  mkChangesetData (changesetUserId c) (currentChangesetId c)
    (changesInChangeset c) v (changesetBounds c).
Definition set_changesetBounds (v : Envelope) (c : ChangesetData) : ChangesetData :=
  mkChangesetData (changesetUserId c) (currentChangesetId c)
    (changesInChangeset c) (changesetsWritten c) v.

Definition set_currentNodeId (v : Z) (m : IdMappings) : IdMappings :=
  mkIdMappings v (nodeIdMap m) (currentWayId m) (wayIdMap m)
    (currentRelationId m) (relationIdMap m).
Definition set_nodeIdMap (v : option (gmap Z Z)) (m : IdMappings) : IdMappings :=
  mkIdMappings (currentNodeId m) v (currentWayId m) (wayIdMap m)
    (currentRelationId m) (relationIdMap m).
Definition set_currentWayId (v : Z) (m : IdMappings) : IdMappings :=
  mkIdMappings (currentNodeId m) (nodeIdMap m) v (wayIdMap m)
    (currentRelationId m) (relationIdMap m).
Definition set_wayIdMap (v : option (gmap Z Z)) (m : IdMappings) : IdMappings :=
  mkIdMappings (currentNodeId m) (nodeIdMap m) (currentWayId m) v
    (currentRelationId m) (relationIdMap m).
Definition set_currentRelationId (v : Z) (m : IdMappings) : IdMappings :=
  mkIdMappings (currentNodeId m) (nodeIdMap m) (currentWayId m) (wayIdMap m)
    v (relationIdMap m).
Definition set_relationIdMap (v : option (gmap Z Z)) (m : IdMappings) : IdMappings :=
  mkIdMappings (currentNodeId m) (nodeIdMap m) (currentWayId m) (wayIdMap m)
    (currentRelationId m) v.

Definition set_unresolvedRelationRefs
  (v : option (gmap (ElementType * Z) UnresolvedRelationReference))
  (u : UnresolvedRefs) : UnresolvedRefs :=
  mkUnresolvedRefs (unresolvedWaynodeRefs u) v.

Definition log_event (e : DbEvent) (d : Database) : Database :=
  mkDatabase (db_isOpen d) (db_nextNodeId d) (db_nextWayId d)
    (db_nextRelationId d) (db_nextChangesetId d) (db_events d ++ [e]).

Definition set_isOpen (b : bool) (d : Database) : Database :=
  mkDatabase b (db_nextNodeId d) (db_nextWayId d)
    (db_nextRelationId d) (db_nextChangesetId d) (db_events d).

(** ** The monad of the writer's methods *)

Inductive Result (A : Type) :=
| Ok (a : A) (w : OsmApiDbBulkWriter)
| Throw (e : Exn) (w : OsmApiDbBulkWriter).

Arguments Ok {A} a w.
Arguments Throw {A} e w.

Definition M (A : Type) : Type := OsmApiDbBulkWriter -> Result A.

Definition ret {A} (a : A) : M A := fun w => Ok a w.

Definition bind {A B} (m : M A) (k : A -> M B) : M B :=
  fun w => match m w with
           | Ok a w' => k a w'
           | Throw e w' => Throw e w'
           end.

Definition throw {A} (e : Exn) : M A := fun w => Throw e w.
Definition get : M OsmApiDbBulkWriter := fun w => Ok w w.
Definition modify (f : OsmApiDbBulkWriter -> OsmApiDbBulkWriter) : M unit :=
  fun w => Ok tt (f w).

Notation "'let*' x := m 'in' k" := (bind m (fun x => k))
  (at level 10, x name, m at level 100, k at level 200).
Notation "m ;; k" := (bind m (fun _ => k))
  (at level 100, k at level 200, right associativity).

Definition when (b : bool) (m : M unit) : M unit := if b then m else ret tt.

Fixpoint forEach {A} (l : list A) (body : A -> M unit) : M unit :=
  match l with
  | [] => ret tt
  | x :: xs => body x ;; forEach xs body
  end.

(** ** Sections *)

(** [_createTable]: a fresh temporary file takes the place of whatever the
    table had, and the header is its first text.  The byte-order mark is a
    property of the codec, not a character of the text. *)
Definition _createTable (tableName tableHeader : QString)
  (addByteOrderMark : bool) : M unit :=
  modify (with_outputSections (<[tableName := tableHeader]>)).

(** [*(_outputSections[tableName].second) << text].  For a table that has
    no entry, [operator[]] makes one of null pointers and the stream is
    dereferenced all the same. *)
Definition stream_out (tableName text : QString) : M unit :=
  fun w => match _outputSections w !! tableName with
           | Some content =>
               Ok tt (with_outputSections (<[tableName := content +:+ text]>) w)
           | None => Throw NullPointer w
           end.

Definition _createSectionNameList : list QString :=
  [ "byte_order_mark"; "sequence_updates";
    ApiDb.getChangesetsTableName;
    ApiDb.getCurrentNodesTableName;
    ApiDb.getCurrentNodeTagsTableName;
    ApiDb.getNodesTableName;
    ApiDb.getNodeTagsTableName;
    ApiDb.getCurrentWaysTableName;
    ApiDb.getCurrentWayNodesTableName;
    ApiDb.getCurrentWayTagsTableName;
    ApiDb.getWaysTableName;
    ApiDb.getWayNodesTableName;
    ApiDb.getWayTagsTableName;
    ApiDb.getCurrentRelationsTableName;
    ApiDb.getCurrentRelationMembersTableName;
    ApiDb.getCurrentRelationTagsTableName;
    ApiDb.getRelationsTableName;
    ApiDb.getRelationMembersTableName;
    ApiDb.getRelationTagsTableName ].

Definition copy_header (table columns : QString) : QString :=
  "COPY " +:+ table +:+ " (" +:+ columns +:+ ") FROM stdin;" +:+ NL.

Definition quoted_timestamp : QString :=
  chr QUOTE +:+ "timestamp" +:+ chr QUOTE.

Definition _createNodeTables : M unit :=
  _createTable ApiDb.getCurrentNodesTableName
    (copy_header ApiDb.getCurrentNodesTableName
       ("id, latitude, longitude, changeset_id, visible, " +:+ quoted_timestamp
        +:+ ", tile, version")) false ;;
  _createTable ApiDb.getCurrentNodeTagsTableName
    (copy_header ApiDb.getCurrentNodeTagsTableName "node_id, k, v") false ;;
  _createTable ApiDb.getNodesTableName
    (copy_header ApiDb.getNodesTableName
       ("node_id, latitude, longitude, changeset_id, visible, " +:+ quoted_timestamp
        +:+ ", tile, version, redaction_id")) false ;;
  _createTable ApiDb.getNodeTagsTableName
    (copy_header ApiDb.getNodeTagsTableName "node_id, version, k, v") false.

Definition _createWayTables : M unit :=
  _createTable ApiDb.getCurrentWaysTableName
    (copy_header ApiDb.getCurrentWaysTableName
       ("id, changeset_id, " +:+ quoted_timestamp +:+ ", visible, version")) false ;;
  _createTable ApiDb.getCurrentWayTagsTableName
    (copy_header ApiDb.getCurrentWayTagsTableName "way_id, k, v") false ;;
  _createTable ApiDb.getCurrentWayNodesTableName
    (copy_header ApiDb.getCurrentWayNodesTableName "way_id, node_id, sequence_id") false ;;
  _createTable ApiDb.getWaysTableName
    (copy_header ApiDb.getWaysTableName
       ("way_id, changeset_id, " +:+ quoted_timestamp
        +:+ ", version, visible, redaction_id")) false ;;
  _createTable ApiDb.getWayTagsTableName
    (copy_header ApiDb.getWayTagsTableName "way_id, version, k, v") false ;;
  _createTable ApiDb.getWayNodesTableName
    (copy_header ApiDb.getWayNodesTableName "way_id, node_id, version, sequence_id") false.

Definition _createRelationTables : M unit :=
  _createTable ApiDb.getCurrentRelationsTableName
    (copy_header ApiDb.getCurrentRelationsTableName
       ("id, changeset_id, " +:+ quoted_timestamp +:+ ", visible, version")) false ;;
  _createTable ApiDb.getCurrentRelationTagsTableName
    (copy_header ApiDb.getCurrentRelationTagsTableName "relation_id, k, v") false ;;
  _createTable ApiDb.getCurrentRelationMembersTableName
    (copy_header ApiDb.getCurrentRelationMembersTableName
       "relation_id, member_type, member_id, member_role, sequence_id") false ;;
  _createTable ApiDb.getRelationsTableName
    (copy_header ApiDb.getRelationsTableName
       ("relation_id, changeset_id, " +:+ quoted_timestamp
        +:+ ", version, visible, redaction_id")) false ;;
  _createTable ApiDb.getRelationTagsTableName
    (copy_header ApiDb.getRelationTagsTableName "relation_id, version, k, v") false ;;
  _createTable ApiDb.getRelationMembersTableName
    (copy_header ApiDb.getRelationMembersTableName
       "relation_id, member_type, member_id, member_role, version, sequence_id") false.

(** ** Sequence reservation *)

Definition getNextId (table : QString) (value : Database -> Z) : M Z :=
  let* w := get in
  modify (with_database (log_event (NextIdRequested table))) ;;
  ret (value (_database w)).

Definition _getLatestIdsFromDb : M unit :=
  let* n := getNextId "current_nodes" db_nextNodeId in
  modify (with_idMappings (set_currentNodeId n)) ;;
  let* y := getNextId "current_ways" db_nextWayId in
  modify (with_idMappings (set_currentWayId y)) ;;
  let* r := getNextId "current_relations" db_nextRelationId in
  modify (with_idMappings (set_currentRelationId r)) ;;
  let* c := getNextId ApiDb.getChangesetsTableName db_nextChangesetId in
  modify (with_changesetData (set_currentChangesetId c)) ;;
  let* w := get in
  when (String.eqb (_mode w) "online")
    (modify (with_idMappings (fun m =>
       set_currentRelationId (long_decr (currentRelationId m))
         (set_currentWayId (long_decr (currentWayId m))
            (set_currentNodeId (long_decr (currentNodeId m)) m)))) ;;
     modify (with_changesetData (fun c =>
       set_currentChangesetId (long_decr (currentChangesetId c)) c))).

Definition setval (sequenceName : QString) (value : Z) : QString :=
  "SELECT pg_catalog.setval('" +:+ sequenceName +:+ "', " +:+ number value
  +:+ ");" +:+ NL.

Definition assert (cond : bool) : M unit :=
  let* w := get in
  if NDEBUG w then ret tt else if cond then ret tt else throw AssertionFailed.

Definition _writeSequenceUpdates (changesetId nodeId wayId relationId : Z) : M unit :=
  _createTable "sequence_updates" EmptyString false ;;
  assert (0 <? changesetId) ;;
  stream_out "sequence_updates" (setval ApiDb.getChangesetsSequenceName changesetId) ;;
  assert (0 <? nodeId) ;;
  stream_out "sequence_updates" (setval ApiDb.getCurrentNodesSequenceName nodeId) ;;
  when (0 <? wayId)
    (stream_out "sequence_updates" (setval ApiDb.getCurrentWaysSequenceName wayId)) ;;
  when (0 <? relationId)
    (stream_out "sequence_updates"
       (setval ApiDb.getCurrentRelationsSequenceName relationId) ;;
     stream_out "sequence_updates" (NL +:+ NL)).

(** ** Changesets *)

Definition _writeChangesetToTable : M unit :=
  let* w := get in
  if changesetUserId (_changesetData w) =? -1 then throw InvalidUserId
  else
    when (currentChangesetId (_changesetData w) =? 1)
      (_createTable ApiDb.getChangesetsTableName
         (copy_header ApiDb.getChangesetsTableName
            "id, user_id, created_at, min_lat, max_lat, min_lon, max_lon, closed_at, num_changes")
         false) ;;
    let c := _changesetData w in
    stream_out ApiDb.getChangesetsTableName
      (tsv [ number (currentChangesetId c);
             number (changesetUserId c);
             datestring;
             number (minYCoord (changesetBounds c));
             number (maxYCoord (changesetBounds c));
             number (minXCoord (changesetBounds c));
             number (maxXCoord (changesetBounds c));
             datestring;
             number (changesInChangeset c) ]) ;;
    modify (with_changesetData (set_changesInChangeset 0)).

Definition _incrementChangesInChangeset : M unit :=
  modify (with_changesetData (fun c =>
    set_changesInChangeset (long_incr (changesInChangeset c)) c)) ;;
  let* w := get in
  when (changesInChangeset (_changesetData w) =? _maxChangesetSize w)
    (_writeChangesetToTable ;;
     modify (with_changesetData (fun c =>
       set_currentChangesetId (long_incr (currentChangesetId c)) c)) ;;
     modify (with_changesetData (set_changesInChangeset 0)) ;;
     modify (with_changesetData (set_changesetBounds Envelope_init)) ;;
     modify (with_changesetData (fun c =>
       set_changesetsWritten (long_incr (changesetsWritten c)) c))).

(** ** Identifier allocation *)

(** [BigMap::insert] through the shared pointer. *)
Definition BigMap_insert (key value : Z) (m : option (gmap Z Z)) :
  Exn + option (gmap Z Z) :=
  match m with
  | Some m => inr (Some (<[key := value]> m))
  | None => inl NullPointer
  end.

Definition _establishNewIdMapping (sourceId : ElementId) : M Z :=
  let* w := get in
  match fst sourceId with
  | ElementType.Node =>
      let dbIdentifier := currentNodeId (_idMappings w) in
      match BigMap_insert (snd sourceId) dbIdentifier (nodeIdMap (_idMappings w)) with
      | inl e => throw e
      | inr m =>
          modify (with_idMappings (set_nodeIdMap m)) ;;
          modify (with_idMappings (fun i =>
            set_currentNodeId (long_incr (currentNodeId i)) i)) ;;
          ret dbIdentifier
      end
  | ElementType.Way =>
      let dbIdentifier := currentWayId (_idMappings w) in
      match BigMap_insert (snd sourceId) dbIdentifier (wayIdMap (_idMappings w)) with
      | inl e => throw e
      | inr m =>
          modify (with_idMappings (set_wayIdMap m)) ;;
          modify (with_idMappings (fun i =>
            set_currentWayId (long_incr (currentWayId i)) i)) ;;
          ret dbIdentifier
      end
  | ElementType.Relation =>
      let dbIdentifier := currentRelationId (_idMappings w) in
      match BigMap_insert (snd sourceId) dbIdentifier (relationIdMap (_idMappings w)) with
      | inl e => throw e
      | inr m =>
          modify (with_idMappings (set_relationIdMap m)) ;;
          modify (with_idMappings (fun i =>
            set_currentRelationId (long_incr (currentRelationId i)) i)) ;;
          ret dbIdentifier
      end
  | ElementType.Unknown => throw UnsupportedElementKind
  end.

(** ** Nodes *)

(** The function returns [unsigned int]: the rounded value is reduced
    modulo 2^32. *)
Definition _convertDegreesToNanodegrees (degrees : double) : Z :=
  wrap32u (roundScaled degrees).

Definition _writeNodeToTables (node : Node) (nodeDbId : Z) : M unit :=
  let* w := get in
  let nodeY := Node_y node in
  let nodeX := Node_x node in
  (* [const int] initialised from [unsigned int] *)
  let nodeYNanodegrees := wrap32s (_convertDegreesToNanodegrees nodeY) in
  let nodeXNanodegrees := wrap32s (_convertDegreesToNanodegrees nodeX) in
  (* [const int] initialised from [long] *)
  let changesetId := wrap32s (currentChangesetId (_changesetData w)) in
  let tileNumberString := number (tileForPoint nodeY nodeX) in
  if (nodeYNanodegrees <? -900000000) || (900000000 <? nodeYNanodegrees)
  then throw InvalidLatitude
  else if (nodeXNanodegrees <? -1800000000) || (1800000000 <? nodeXNanodegrees)
  then throw InvalidLongitude
  else
    stream_out ApiDb.getCurrentNodesTableName
      (tsv [ number nodeDbId; number nodeYNanodegrees; number nodeXNanodegrees;
             number changesetId; "t"; datestring; tileNumberString; "1" ]) ;;
    stream_out ApiDb.getNodesTableName
      (tsv [ number nodeDbId; number nodeYNanodegrees; number nodeXNanodegrees;
             number changesetId; "t"; datestring; tileNumberString; "1"; "\N" ]).

(** The formats ["%1\\t%2\\t%3\\n"] and ["%1\\t1\\t%2\\t%3\\n"]. *)
Definition currentTagFormat (id k v : QString) : QString := tsv [id; k; v].
Definition historicalTagFormat (id k v : QString) : QString := tsv [id; "1"; k; v].

Definition _writeTagsToTables (tags : Tags) (nodeDbId : Z)
  (currentTable : QString) (currentTableFormatString : QString -> QString -> QString -> QString)
  (historicalTable : QString)
  (historicalTableFormatString : QString -> QString -> QString -> QString) : M unit :=
  let nodeDbIdString := number nodeDbId in
  forEach tags (fun it =>
    let key := _escapeCopyToData (fst it) in
    let value := _escapeCopyToData (snd it) in
    stream_out currentTable (currentTableFormatString nodeDbIdString key value) ;;
    stream_out historicalTable (historicalTableFormatString nodeDbIdString key value)).

(** ** Ways *)

Definition _writeWayToTables (wayDbId : Z) : M unit :=
  let* w := get in
  let changesetId := wrap32s (currentChangesetId (_changesetData w)) in
  stream_out ApiDb.getCurrentWaysTableName
    (tsv [ number wayDbId; number changesetId; datestring; "t"; "1" ]) ;;
  stream_out ApiDb.getWaysTableName
    (tsv [ number wayDbId; number changesetId; datestring; "1"; "t"; "\N" ]).

(** The loop of [_writeWaynodesToTables]; [nodeIndex] is an
    [unsigned int]. *)
Fixpoint _writeWaynodesToTables_loop (dbWayIdString : QString)
  (waynodeIds : list Z) (nodeIndex : Z) : M unit :=
  match waynodeIds with
  | [] => ret tt
  | it :: rest =>
      let* w := get in
      match nodeIdMap (_idMappings w) with
      | None => throw NullPointer
      | Some m =>
          match m !! it with
          | Some dbNodeId =>
              let dbNodeIdString := number dbNodeId in
              let nodeIndexString := number nodeIndex in
              stream_out ApiDb.getCurrentWayNodesTableName
                (tsv [ dbWayIdString; dbNodeIdString; nodeIndexString ]) ;;
              stream_out ApiDb.getWayNodesTableName
                (tsv [ dbWayIdString; dbNodeIdString; "1"; nodeIndexString ])
          | None => throw UnresolvedWayNode
          end
      end ;;
      _writeWaynodesToTables_loop dbWayIdString rest (wrap32u (nodeIndex + 1))
  end.

Definition _writeWaynodesToTables (dbWayId : Z) (waynodeIds : list Z) : M unit :=
  _writeWaynodesToTables_loop (number dbWayId) waynodeIds 1.

(** ** Relations *)

Definition _writeRelationToTables (relationDbId : Z) : M unit :=
  let* w := get in
  let changesetId := wrap32s (currentChangesetId (_changesetData w)) in
  stream_out ApiDb.getCurrentRelationsTableName
    (tsv [ number relationDbId; number changesetId; datestring; "t"; "1" ]) ;;
  stream_out ApiDb.getRelationsTableName
    (tsv [ number relationDbId; number changesetId; datestring; "1"; "t"; "\N" ]).

Definition _writeRelationMember (sourceRelationDbId : Z) (memberEntry : Entry)
  (memberDbId : Z) (memberSequenceIndex : Z) : M unit :=
  let memberElementId := Entry_elementId memberEntry in
  let* memberType :=
    match fst memberElementId with
    | ElementType.Node => ret "Node"
    | ElementType.Way => ret "Way"
    | ElementType.Relation => ret "Relation"
    | ElementType.Unknown => throw UnsupportedElementKind
    end in
  let dbRelationIdString := number sourceRelationDbId in
  let memberRefIdString := number memberDbId in
  let memberSequenceString := number memberSequenceIndex in
  let memberRole := _escapeCopyToData (Entry_role memberEntry) in
  stream_out ApiDb.getCurrentRelationMembersTableName
    (tsv [ dbRelationIdString; memberType; memberRefIdString; memberRole;
           memberSequenceString ]) ;;
  stream_out ApiDb.getRelationMembersTableName
    (tsv [ dbRelationIdString; memberType; memberRefIdString; memberRole; "1";
           memberSequenceString ]) ;;
  modify (with_writeStats (fun s =>
    set_relationMembersWritten (long_incr (relationMembersWritten s)) s)).

(** [std::map::insert]: an entry whose key is present stays as it is. *)
Definition map_insert {V} (key : ElementType * Z) (value : V)
  (m : gmap (ElementType * Z) V) : gmap (ElementType * Z) V :=
  match m !! key with
  | Some _ => m
  | None => <[key := value]> m
  end.

(** The loop of [_writeRelationMembersToTables]; [memberSequenceIndex] is
    an [unsigned int]. *)
Fixpoint _writeRelationMembersToTables_loop (relationId dbRelationId : Z)
  (relationMembers : list Entry) (memberSequenceIndex : Z) : M unit :=
  match relationMembers with
  | [] => ret tt
  | it :: rest =>
      let memberElementId := Entry_elementId it in
      let* w := get in
      let* knownElementMap :=
        match fst memberElementId with
        | ElementType.Node => ret (nodeIdMap (_idMappings w))
        | ElementType.Way => ret (wayIdMap (_idMappings w))
        | ElementType.Relation => ret (relationIdMap (_idMappings w))
        | ElementType.Unknown => throw UnsupportedElementKind
        end in
      match knownElementMap ≫= (fun m => m !! snd memberElementId) with
      | Some memberDbId =>
          _writeRelationMember dbRelationId it memberDbId memberSequenceIndex
      | None =>
          let refs := default ∅ (unresolvedRelationRefs (_unresolvedRefs w)) in
          let relationRef :=
            mkUnresolvedRelationReference relationId dbRelationId it
              memberSequenceIndex in
          modify (with_unresolvedRefs (set_unresolvedRelationRefs
            (Some (map_insert memberElementId relationRef refs))))
      end ;;
      _writeRelationMembersToTables_loop relationId dbRelationId rest
        (wrap32u (memberSequenceIndex + 1))
  end.

Definition _writeRelationMembersToTables (relation : Relation) : M unit :=
  let relationId := Relation_id relation in
  let* w := get in
  match relationIdMap (_idMappings w) with
  | None => throw NullPointer
  | Some m =>
      match m !! relationId with
      | None => throw NullPointer
      | Some dbRelationId =>
          _writeRelationMembersToTables_loop relationId dbRelationId
            (Relation_members relation) 1
      end
  end.

(** ** Forward references *)

Definition _checkUnresolvedReferences (element : Element) (elementDbId : Z) : M unit :=
  let* w := get in
  match unresolvedRelationRefs (_unresolvedRefs w) with
  | Some refs =>
      match refs !! getElementId element with
      | Some relationRef =>
          _writeRelationMember (sourceDbRelationId relationRef)
            (relationMemberData relationRef) elementDbId
            (relationMemberSequenceId relationRef) ;;
          (* Remove entry from unresolved list *)
          modify (with_unresolvedRefs (set_unresolvedRelationRefs
            (Some (delete (getElementId element) refs))))
      | None => ret tt
      end
  | None => ret tt
  end ;;
  let* w := get in
  match element with
  | ENode n =>
      match unresolvedWaynodeRefs (_unresolvedRefs w) with
      | Some refs =>
          if decide (is_Some (refs !! Node_id n))
          then throw UnsupportedUnresolvedWayNode else ret tt
      | None => ret tt
      end
  | _ => ret tt
  end.

(** [BigMap::contains] through the shared pointer. *)
Definition BigMap_contains (key : Z) (m : option (gmap Z Z)) : Exn + bool :=
  match m with
  | Some m => inr (bool_decide (is_Some (m !! key)))
  | None => inl NullPointer
  end.

Definition rejectKnown (key : Z) (m : option (gmap Z Z)) : M unit :=
  match BigMap_contains key m with
  | inl e => throw e
  | inr true => throw UpdateNotSupported
  | inr false => ret tt
  end.

(** ** [writePartial] *)

Definition size_of {A} (l : list A) : Z := Z.of_nat (List.length l).

Definition writePartial_Node (n : Node) : M unit :=
  modify (with_changesetData (fun c =>
    set_changesetBounds (expandToInclude (changesetBounds c) (Node_x n) (Node_y n)) c)) ;;
  let* w := get in
  when (nodesWritten (_writeStats w) =? 0)
    (_createNodeTables ;;
     modify (with_idMappings (set_nodeIdMap (Some ∅)))) ;;
  let* w := get in
  (* Do we already know about this node? *)
  rejectKnown (Node_id n) (nodeIdMap (_idMappings w)) ;;
  (* Have to establish new mapping *)
  let* nodeDbId := _establishNewIdMapping (ElementType.Node, Node_id n) in
  _writeNodeToTables n nodeDbId ;;
  _writeTagsToTables (Node_tags n) nodeDbId
    ApiDb.getCurrentNodeTagsTableName currentTagFormat
    ApiDb.getNodeTagsTableName historicalTagFormat ;;
  modify (with_writeStats (fun s => set_nodesWritten (long_incr (nodesWritten s)) s)) ;;
  modify (with_writeStats (fun s =>
    set_nodeTagsWritten (long_add (nodeTagsWritten s) (size_of (Node_tags n))) s)) ;;
  _incrementChangesInChangeset ;;
  _checkUnresolvedReferences (ENode n) nodeDbId.

Definition writePartial_Way (y : Way) : M unit :=
  let* w := get in
  when (waysWritten (_writeStats w) =? 0)
    (_createWayTables ;;
     modify (with_idMappings (set_wayIdMap (Some ∅)))) ;;
  let* w := get in
  (* Do we already know about this way? *)
  rejectKnown (Way_id y) (wayIdMap (_idMappings w)) ;;
  (* Have to establish new mapping *)
  let* wayDbId := _establishNewIdMapping (ElementType.Way, Way_id y) in
  _writeWayToTables wayDbId ;;
  let* w := get in
  match wayIdMap (_idMappings w) ≫= (fun m => m !! Way_id y) with
  | Some dbWayId => _writeWaynodesToTables dbWayId (Way_nodeIds y)
  | None => throw NullPointer
  end ;;
  _writeTagsToTables (Way_tags y) wayDbId
    ApiDb.getCurrentWayTagsTableName currentTagFormat
    ApiDb.getWayTagsTableName historicalTagFormat ;;
  modify (with_writeStats (fun s => set_waysWritten (long_incr (waysWritten s)) s)) ;;
  modify (with_writeStats (fun s =>
    set_wayTagsWritten (long_add (wayTagsWritten s) (size_of (Way_tags y))) s)) ;;
  modify (with_writeStats (fun s =>
    set_wayNodesWritten (long_add (wayNodesWritten s) (size_of (Way_nodeIds y))) s)) ;;
  _incrementChangesInChangeset ;;
  _checkUnresolvedReferences (EWay y) wayDbId.

Definition writePartial_Relation (r : Relation) : M unit :=
  let* w := get in
  when (relationsWritten (_writeStats w) =? 0)
    (_createRelationTables ;;
     modify (with_idMappings (set_relationIdMap (Some ∅)))) ;;
  let* w := get in
  rejectKnown (Relation_id r) (relationIdMap (_idMappings w)) ;;
  (* Have to establish new mapping *)
  let* relationDbId := _establishNewIdMapping (ElementType.Relation, Relation_id r) in
  _writeRelationToTables relationDbId ;;
  _writeRelationMembersToTables r ;;
  _writeTagsToTables (Relation_tags r) relationDbId
    ApiDb.getCurrentRelationTagsTableName currentTagFormat
    ApiDb.getRelationTagsTableName historicalTagFormat ;;
  modify (with_writeStats (fun s =>
    set_relationsWritten (long_incr (relationsWritten s)) s)) ;;
  modify (with_writeStats (fun s =>
    set_relationTagsWritten (long_add (relationTagsWritten s) (size_of (Relation_tags r))) s)) ;;
  modify (with_writeStats (fun s =>
    set_relationMembersWritten
      (long_add (relationMembersWritten s) (size_of (Relation_members r))) s)) ;;
  _incrementChangesInChangeset ;;
  _checkUnresolvedReferences (ERelation r) relationDbId.

Definition writePartial (e : Element) : M unit :=
  match e with
  | ENode n => writePartial_Node n
  | EWay y => writePartial_Way y
  | ERelation r => writePartial_Relation r
  end.

(** ** Assembly: [_writeCombinedSqlFile] *)

(** The [do ... while (!line.isNull())] loop that appends a section file
    to the output: every value [readLine()] returns, the closing null
    string too, goes out followed by LF. *)
Definition copyLines (content : QString) (outStream : QString) : QString :=
  fold_left (fun out line => out +:+ of_nullable line +:+ NL)
    (readLine_loop content) outStream.

(** The loop over the section names.  The two exceptions of the source
    loop, for a section file that cannot be flushed and for one that
    cannot be opened for reading, do not arise here (see the conventions):
    the loop fails on a missing stream only.  The temporary file is
    removed after it is copied; the section keeps its text here. *)
Fixpoint _writeCombinedSqlFile_loop (names : list QString) (outStream : QString) :
  M QString :=
  match names with
  | [] => ret outStream
  | it :: rest =>
      let* w := get in
      match _outputSections w !! it with
      | None => _writeCombinedSqlFile_loop rest outStream
      | Some _ =>
          if String.eqb (_mode w) "online" && String.eqb it "sequence_updates"
          then _writeCombinedSqlFile_loop rest outStream
          else
            (* Write close marker for table *)
            when (negb (String.eqb it "byte_order_mark")
                  && negb (String.eqb it "sequence_updates"))
              (stream_out it ("\." +:+ NL +:+ NL +:+ NL)) ;;
            let* w := get in
            match _outputSections w !! it with
            | None => throw NullPointer
            | Some content =>
                _writeCombinedSqlFile_loop rest (copyLines content outStream)
            end
      end
  end.

Definition _writeCombinedSqlFile : M QString :=
  let* w := get in
  let* outStream :=
    _writeCombinedSqlFile_loop (_sectionNames w) ("BEGIN TRANSACTION;" +:+ NL) in
  ret (outStream +:+ "COMMIT;").

(** ** Offset rewrite: [_updateIdOffsetsInNewFile] *)

(** [lineParts[i] = QString::number(lineParts[i].toLong() + offset)]. *)
Definition addOffset (i : nat) (offset : Z) (lineParts : list QString) :
  Exn + list QString :=
  match lineParts !! i with
  | Some part => inr (<[i := number (long_add (toLong part) offset)]> lineParts)
  | None => inl IndexOutOfRange
  end.

Definition andThen {A B} (r : Exn + A) (k : A -> Exn + B) : Exn + B :=
  match r with
  | inl e => inl e
  | inr a => k a
  end.

(** The chain of comparisons on [currentTableName]; [None] is
    [lineUpdated = false]. *)
Definition updateLineParts (ids : IdMappings) (currentChangesetId : Z)
  (currentTableName : QString) (lineParts : list QString) :
  Exn + option (list QString) :=
  let some r := andThen r (fun parts => inr (Some parts)) in
  if String.eqb currentTableName ApiDb.getChangesetsTableName then
    some (addOffset 0 currentChangesetId lineParts)
  else if String.eqb currentTableName ApiDb.getCurrentNodesTableName
          || String.eqb currentTableName ApiDb.getNodesTableName then
    some (andThen (addOffset 0 (currentNodeId ids) lineParts)
            (addOffset 3 currentChangesetId))
  else if String.eqb currentTableName ApiDb.getCurrentWaysTableName
          || String.eqb currentTableName ApiDb.getWaysTableName then
    some (andThen (addOffset 0 (currentWayId ids) lineParts)
            (addOffset 1 currentChangesetId))
  else if String.eqb currentTableName ApiDb.getCurrentWayNodesTableName
          || String.eqb currentTableName ApiDb.getWayNodesTableName then
    some (andThen (addOffset 0 (currentWayId ids) lineParts)
            (addOffset 1 (currentNodeId ids)))
  else if String.eqb currentTableName ApiDb.getCurrentRelationsTableName
          || String.eqb currentTableName ApiDb.getRelationsTableName then
    some (andThen (addOffset 0 (currentRelationId ids) lineParts)
            (addOffset 1 currentChangesetId))
  else if String.eqb currentTableName ApiDb.getCurrentRelationMembersTableName
          || String.eqb currentTableName ApiDb.getRelationMembersTableName then
    some (andThen (addOffset 0 (currentRelationId ids) lineParts) (fun lineParts =>
      match lineParts !! 2%nat, lineParts !! 1%nat with
      | Some _, Some memberKind =>
          if String.eqb (toLower memberKind) "node" then
            addOffset 2 (currentNodeId ids) lineParts
          else if String.eqb (toLower memberKind) "way" then
            addOffset 2 (currentWayId ids) lineParts
          else inr lineParts
      | _, _ => inl IndexOutOfRange
      end))
  else if String.eqb currentTableName ApiDb.getCurrentNodeTagsTableName
          || String.eqb currentTableName ApiDb.getNodeTagsTableName then
    some (addOffset 0 (currentNodeId ids) lineParts)
  else if String.eqb currentTableName ApiDb.getCurrentWayTagsTableName
          || String.eqb currentTableName ApiDb.getWayTagsTableName then
    some (addOffset 0 (currentWayId ids) lineParts)
  else if String.eqb currentTableName ApiDb.getCurrentRelationTagsTableName
          || String.eqb currentTableName ApiDb.getRelationTagsTableName then
    some (addOffset 0 (currentRelationId ids) lineParts)
  else inr None.

(** One turn of the loop: the table name after the line, and the
    characters written for it. *)
Definition updateLine (ids : IdMappings) (currentChangesetId : Z)
  (currentTableName : QString) (read : option QString) :
  Exn + (QString * QString) :=
  let line := trimmed (of_nullable read) in
  andThen
    (if contains "COPY" line then
       match split_space line !! 1%nat with
       | Some name => inr (trimmed name, line)
       | None => inl IndexOutOfRange
       end
     else if negb (String.eqb line EmptyString) && negb (String.eqb line "\.") then
       andThen (updateLineParts ids currentChangesetId currentTableName (split_tab line))
         (fun updated =>
            match updated with
            | Some lineParts => inr (currentTableName, join (chr TAB) lineParts)
            | None => inr (currentTableName, line)
            end)
     else
       (* next line is not a record *)
       inr (EmptyString, line))
    (fun r => inr (fst r, snd r +:+ NL)).

Fixpoint updateLines (ids : IdMappings) (currentChangesetId : Z)
  (currentTableName : QString) (reads : list (option QString)) (outStream : QString) :
  Exn + QString :=
  match reads with
  | [] => inr outStream
  | read :: rest =>
      andThen (updateLine ids currentChangesetId currentTableName read) (fun r =>
        updateLines ids currentChangesetId (fst r) rest (outStream +:+ snd r))
  end.

Definition _updateIdOffsetsInNewFile (inputSqlFile : QString) : M QString :=
  let* w := get in
  match updateLines (_idMappings w) (currentChangesetId (_changesetData w))
          EmptyString (readLine_loop inputSqlFile) EmptyString with
  | inl e => throw e
  | inr updateSqlOutputFile => ret updateSqlOutputFile
  end.

(** ** Online reservation: [_lockIds] *)

Definition _lockIds : M unit :=
  let* w := get in
  if nodesWritten (_writeStats w) =? 0 then throw CannotLockIds
  else
    _getLatestIdsFromDb ;;
    let* w := get in
    _writeSequenceUpdates
      (long_add (currentChangesetId (_changesetData w)) (changesetsWritten (_changesetData w)))
      (long_add (currentNodeId (_idMappings w)) (nodesWritten (_writeStats w)))
      (long_add (currentWayId (_idMappings w)) (waysWritten (_writeStats w)))
      (long_add (currentRelationId (_idMappings w)) (relationsWritten (_writeStats w))) ;;
    let* w := get in
    match _outputSections w !! "sequence_updates" with
    | Some lockElementIdsSql =>
        modify (with_database (log_event (SqlExecuted lockElementIdsSql)))
    | None => throw NullPointer
    end.

Definition _executeElementSql (sqlFile : QString) : M unit :=
  modify (with_database (log_event (ScriptExecuted sqlFile))).

(** ** The public interface *)

(** [finalizePartial]: [None] when no data was written, else the final
    script.  The copy to [_sqlFileCopyLocation] is a file-system effect
    outside the embedding. *)
Definition finalizePartial : M (option QString) :=
  let* w := get in
  if (nodesWritten (_writeStats w) =? 0) && (waysWritten (_writeStats w) =? 0)
     && (relationsWritten (_writeStats w) =? 0)
  then ret None
  else
    (* Start initial section that holds nothing but UTF-8 byte-order mark *)
    _createTable "byte_order_mark" NL true ;;
    (* Do we have an unfinished changeset that needs flushing? *)
    let* w := get in
    when (0 <? changesInChangeset (_changesetData w)) _writeChangesetToTable ;;
    let* w := get in
    when (changesetsWritten (_changesetData w) =? 0)
      (modify (with_changesetData (fun c =>
         set_changesetsWritten (long_incr (changesetsWritten c)) c))) ;;
    let* w := get in
    when (String.eqb (_mode w) "offline")
      (_writeSequenceUpdates
         (long_sub (currentChangesetId (_changesetData w)) 1)
         (long_sub (currentNodeId (_idMappings w)) 1)
         (long_sub (currentWayId (_idMappings w)) 1)
         (long_sub (currentRelationId (_idMappings w)) 1)) ;;
    let* sqlOutputFile := _writeCombinedSqlFile in
    (* if we're in online mode, we'll be writing a completely new sql output file *)
    let* w := get in
    let* finalSqlOutputFile :=
      (if String.eqb (_mode w) "online"
       then _lockIds ;; _updateIdOffsetsInNewFile sqlOutputFile
       else ret sqlOutputFile) in
    when (_executeSql w) (_executeElementSql finalSqlOutputFile) ;;
    ret (Some finalSqlOutputFile).

(** [open], once the URL is accepted. *)
Definition open : M unit :=
  let* w := get in
  if db_isOpen (_database w) then throw AlreadyOpen
  else
    modify (with_database (set_isOpen true)) ;;
    when (String.eqb (_mode w) "offline") _getLatestIdsFromDb.

(** The writer as the constructor leaves it ([_reset], then the
    configuration), attached to a database. *)
Definition newWriter (mode : QString) (userId maxChangesetSize : Z)
  (executeSql ndebug : bool) (db : Database) : OsmApiDbBulkWriter :=
  mkWriter (toLower mode) maxChangesetSize executeSql ndebug
    (mkWriteStats 0 0 0 0 0 0 0 0 0)
    (mkChangesetData userId 1 0 0 Envelope_init)
    (mkIdMappings 1 None 1 None 1 None)
    (mkUnresolvedRefs None None)
    ∅ _createSectionNameList db.

(** A whole session: [open], one [writePartial] per element, then
    [finalizePartial].  The first exception ends it. *)
Definition session (elements : list Element) : M (option QString) :=
  open ;;
  forEach elements writePartial ;;
  finalizePartial.

(** ** Configuration, [_reset] and [close] *)

(** The options [setConfiguration] reads that the embedding keeps: the
    changeset user id, the mode and whether the script is executed.  (The
    line buffer size, the status update interval and the copy location
    steer flushing, logging and the copy of the script to a second file,
    which are outside the embedding.) *)
Record Settings := mkSettings {
  getChangesetUserId : Z;
  getOsmapidbBulkWriterMode : QString;
  getOsmapidbBulkWriterExecuteSql : bool
}.

Definition set_sectionNames (names : list QString) (w : OsmApiDbBulkWriter) :
  OsmApiDbBulkWriter :=
  mkWriter (_mode w) (_maxChangesetSize w) (_executeSql w) (NDEBUG w)
    (_writeStats w) (_changesetData w) (_idMappings w)
    (_unresolvedRefs w) (_outputSections w) names (_database w).

Definition setMode (mode : QString) (w : OsmApiDbBulkWriter) : OsmApiDbBulkWriter :=
  mkWriter mode (_maxChangesetSize w) (_executeSql w) (NDEBUG w)
    (_writeStats w) (_changesetData w) (_idMappings w)
    (_unresolvedRefs w) (_outputSections w) (_sectionNames w) (_database w).

Definition setExecuteSql (executeSql : bool) (w : OsmApiDbBulkWriter) :
  OsmApiDbBulkWriter :=
  mkWriter (_mode w) (_maxChangesetSize w) executeSql (NDEBUG w)
    (_writeStats w) (_changesetData w) (_idMappings w)
    (_unresolvedRefs w) (_outputSections w) (_sectionNames w) (_database w).

Definition set_changesetUserId (v : Z) (c : ChangesetData) : ChangesetData :=
  mkChangesetData v (currentChangesetId c) (changesInChangeset c)
    (changesetsWritten c) (changesetBounds c).

Definition setConfiguration (conf : Settings) : M unit :=
  modify (with_changesetData (set_changesetUserId (getChangesetUserId conf))) ;;
  modify (setMode (toLower (getOsmapidbBulkWriterMode conf))) ;;
  modify (setExecuteSql (getOsmapidbBulkWriterExecuteSql conf)).

(** [_reset]: the counters, the changeset but for its bounds, the id
    mappings, the unresolved references, the section files and the section
    names. *)
Definition _reset : M unit :=
  modify (with_writeStats (fun _ => mkWriteStats 0 0 0 0 0 0 0 0 0)) ;;
  modify (with_changesetData (set_changesetUserId (-1))) ;;
  modify (with_changesetData (set_currentChangesetId 1)) ;;
  modify (with_changesetData (set_changesInChangeset 0)) ;;
  modify (with_changesetData (set_changesetsWritten 0)) ;;
  modify (with_idMappings (fun _ => mkIdMappings 1 None 1 None 1 None)) ;;
  modify (with_unresolvedRefs (fun _ => mkUnresolvedRefs None None)) ;;
  modify (with_outputSections (fun _ => ∅)) ;;
  modify (set_sectionNames []).

(** [close], which is also what the destructor does; [conf] is what
    [conf()] returns. *)
Definition close (conf : Settings) : M unit :=
  modify (with_database (set_isOpen false)) ;;
  _reset ;;
  modify (set_sectionNames _createSectionNameList) ;;
  setConfiguration conf.

(** [_getTotalRecordsWritten]. *)
Definition _getTotalRecordsWritten (w : OsmApiDbBulkWriter) : Z :=
  let s := _writeStats w in
  long_add (long_add (long_add (long_add (long_add (long_add (long_add (long_add
    (nodesWritten s) (nodeTagsWritten s)) (relationMembersWritten s))
    (relationsWritten s)) (relationTagsWritten s)) (wayNodesWritten s))
    (waysWritten s)) (wayTagsWritten s)) (changesetsWritten (_changesetData w)).

End Writer.

Arguments Ok {Ext A} a w.
Arguments Throw {Ext A} e w.

(** ** A reference environment

    Coordinates are rationals, [round] is exact rounding half away from
    zero and the scale is 1e7; the tile helper is not modelled and every
    point falls in tile 0; the envelope is the list of points seen. *)

Definition round_half_away (q : Q) : Z :=
  if Qle_bool 0 q then Qfloor (q + (1 # 2)) else Qceiling (q - (1 # 2)).

Definition exact_scaled (q : Q) : Z := round_half_away (q * 10000000).

Definition list_min (d : Z) (l : list Z) : Z := fold_right Z.min d l.
Definition list_max (d : Z) (l : list Z) : Z := fold_right Z.max d l.

#[export] Instance exactExternal : External := {|
  double := Q;
  roundScaled := exact_scaled;
  tileForPoint := fun _ _ => 0;
  Envelope := list (Q * Q);
  Envelope_init := [];
  expandToInclude := fun e x y => (x, y) :: e;
  minYCoord := fun e => match e with [] => 0 | p :: r => list_min (exact_scaled (snd p)) (map (fun p => exact_scaled (snd p)) r) end;
  maxYCoord := fun e => match e with [] => -10000000 | p :: r => list_max (exact_scaled (snd p)) (map (fun p => exact_scaled (snd p)) r) end;
  minXCoord := fun e => match e with [] => 0 | p :: r => list_min (exact_scaled (fst p)) (map (fun p => exact_scaled (fst p)) r) end;
  maxXCoord := fun e => match e with [] => -10000000 | p :: r => list_max (exact_scaled (fst p)) (map (fun p => exact_scaled (fst p)) r) end;
  datestring := "2017-01-01 00:00:00.000";
  datestring_chars := eq_refl
|}.

Definition freshDb : Database := mkDatabase false 1 1 1 1 [].

(** ** Observation of a script *)

(** The inverse of [_escapeCopyToData], used to show that no two strings
    share an escaped form. *)
Fixpoint unescape (s : QString) : QString :=
  match s with
  | EmptyString => EmptyString
  | String c s' =>
      if Ascii.eqb c BACKSLASH then
        match s' with
        | EmptyString => chr c
        | String d s'' =>
            String (if Ascii.eqb d "b" then QChar 8
                    else if Ascii.eqb d "t" then QChar 9
                    else if Ascii.eqb d "n" then QChar 10
                    else if Ascii.eqb d "v" then QChar 11
                    else if Ascii.eqb d "f" then QChar 12
                    else if Ascii.eqb d "r" then QChar 13
                    else d) (unescape s'')
        end
      else String c (unescape s')
  end.

(** The data rows of a script that follow the [COPY] header of [table], up
    to the terminator. *)
Fixpoint rows_until_terminator (ls : list QString) : list QString :=
  match ls with
  | [] => []
  | l :: ls' => if String.eqb l "\." then [] else l :: rows_until_terminator ls'
  end.

Fixpoint table_rows_of_lines (table : QString) (ls : list QString) : list QString :=
  match ls with
  | [] => []
  | l :: ls' =>
      if String.prefix ("COPY " +:+ table +:+ " ") l then rows_until_terminator ls'
      else table_rows_of_lines table ls'
  end.

Definition table_rows (table : QString) (script : QString) : list QString :=
  table_rows_of_lines table (readLines script).

(** Column [i] of a row, as a number. *)
Definition column (i : nat) (row : QString) : Z :=
  toLong (default EmptyString (split_tab row !! i)).

(** The last column of a row, as a number. *)
Definition last_column (row : QString) : Z :=
  toLong (List.last (split_tab row) EmptyString).

(** How many empty lines follow each terminator line. *)
Fixpoint leading_blank_lines (ls : list QString) : nat :=
  match ls with
  | [] => O
  | l :: ls' => if String.eqb l EmptyString then S (leading_blank_lines ls') else O
  end.

Fixpoint blank_lines_after_terminators (ls : list QString) : list nat :=
  match ls with
  | [] => []
  | l :: ls' =>
      if String.eqb l "\." then leading_blank_lines ls' :: blank_lines_after_terminators ls'
      else blank_lines_after_terminators ls'
  end.

(** The [COPY] headers of a script, in the order they appear. *)
Definition copy_headers (script : QString) : list QString :=
  filter (fun l => String.prefix "COPY " l = true) (readLines script).

(** The outcome of a call without the state. *)
Definition outcome `{Ext : External} {A} (r : Result A) : Exn + A :=
  match r with
  | Ok a _ => inr a
  | Throw e _ => inl e
  end.

Definition final_state `{Ext : External} {A} (r : Result A) : OsmApiDbBulkWriter :=
  match r with
  | Ok _ w => w
  | Throw _ w => w
  end.

(** The bounds the node emitter checks. *)
Definition latitude_in_range (lat : Z) : Prop := -900000000 <= lat <= 900000000.
Definition longitude_in_range (lon : Z) : Prop := -1800000000 <= lon <= 1800000000.

(** The source id of [n] would pass the check for known nodes: no node is
    written yet, or the node map lacks the id. *)
Definition is_new_node `{Ext : External} (n : Node) (w : OsmApiDbBulkWriter) : Prop :=
  nodesWritten (_writeStats w) = 0
  \/ exists m, nodeIdMap (_idMappings w) = Some m /\ m !! Node_id n = None.

(** The writer after [open] and one [writePartial] per element. *)
Definition written `{Ext : External} (elements : list Element) : M unit :=
  bind open (fun _ => forEach elements writePartial).

(** Observations of the writer that do not look at the section files, at
    the unresolved references, or at the count of relation members. *)
Definition ignores_section `{Ext : External} {X}
  (f : OsmApiDbBulkWriter -> X) (table : QString) : Prop :=
  forall v w, f (with_outputSections (<[table := v]>) w) = f w.

Definition ignores_sections `{Ext : External} {X}
  (f : OsmApiDbBulkWriter -> X) : Prop :=
  forall table, ignores_section f table.

Definition ignores_unresolvedRefs `{Ext : External} {X}
  (f : OsmApiDbBulkWriter -> X) : Prop :=
  forall g w, f (with_unresolvedRefs g w) = f w.

Definition ignores_relationMembersWritten `{Ext : External} {X}
  (f : OsmApiDbBulkWriter -> X) : Prop :=
  forall v w, f (with_writeStats (fun s => set_relationMembersWritten (v s) s) w) = f w.

Definition is_node `{Ext : External} (e : Element) : bool :=
  match e with ENode _ => true | _ => false end.

Definition kind_of `{Ext : External} (e : Element) : ElementType :=
  fst (getElementId e).

(** How many elements of a kind a stream holds. *)
Definition count_kind `{Ext : External} (k : ElementType) (elements : list Element) : Z :=
  Z.of_nat (List.length (List.filter (fun e => bool_decide (kind_of e = k)) elements)).

(** [m] fails from [w] and leaves the observation [f] as it was at [w0]. *)
Definition fails_keeping `{Ext : External} {X A} (f : OsmApiDbBulkWriter -> X)
  (m : M A) (w0 w : OsmApiDbBulkWriter) : Prop :=
  exists e w', m w = Throw e w' /\ f w' = f w0.

(** The id map and the counter of a kind. *)
Definition idMap `{Ext : External} (k : ElementType) (w : OsmApiDbBulkWriter) :
  option (gmap Z Z) :=
  match k with
  | ElementType.Node => nodeIdMap (_idMappings w)
  | ElementType.Way => wayIdMap (_idMappings w)
  | ElementType.Relation => relationIdMap (_idMappings w)
  | ElementType.Unknown => None
  end.

Definition written_count `{Ext : External} (k : ElementType) (w : OsmApiDbBulkWriter) : Z :=
  match k with
  | ElementType.Node => nodesWritten (_writeStats w)
  | ElementType.Way => waysWritten (_writeStats w)
  | ElementType.Relation => relationsWritten (_writeStats w)
  | ElementType.Unknown => 0
  end.

(** The id map of a kind when the next element of that kind arrives: a new
    map if none was written, the current one otherwise. *)
Definition idMap_in_use `{Ext : External} (k : ElementType) (w : OsmApiDbBulkWriter) :
  option (gmap Z Z) :=
  if written_count k w =? 0 then Some ∅ else idMap k w.

(** What is known of the written elements: the counters count them, and
    the id map of each kind holds their source ids. *)
Definition knows `{Ext : External} (pre : list Element) (w : OsmApiDbBulkWriter) : Prop :=
  (forall k, k <> ElementType.Unknown -> written_count k w = count_kind k pre)
  /\ (forall e, In e pre ->
        exists m, idMap (kind_of e) w = Some m /\ is_Some (m !! snd (getElementId e))).

(** ** Observation of the changesets *)

(** The header of the changesets section, as [_writeChangesetToTable]
    writes it. *)
Definition changesets_header : QString :=
  copy_header ApiDb.getChangesetsTableName
    "id, user_id, created_at, min_lat, max_lat, min_lon, max_lon, closed_at, num_changes".

(** The row of a changeset, without its LF. *)
Definition changeset_line `{Ext : External} (c : ChangesetData) : QString :=
  join (chr TAB)
    [ number (currentChangesetId c); number (changesetUserId c); datestring;
      number (minYCoord (changesetBounds c)); number (maxYCoord (changesetBounds c));
      number (minXCoord (changesetBounds c)); number (maxXCoord (changesetBounds c));
      datestring; number (changesInChangeset c) ].

(** The terminator of a copy section, [n] times. *)
Fixpoint terminators (n : nat) : QString :=
  match n with
  | O => EmptyString
  | S n => ("\." +:+ NL +:+ NL +:+ NL) +:+ terminators n
  end.

(** A data row: one line that begins like a number. *)
Definition data_row (r : QString) : Prop :=
  forall_chars (not_char LF) r = true /\ first_char numeral_char r = true.

(** The changesets flushed so far, [rows], as the section file and the
    changeset id show them. *)
Definition changesets_state `{Ext : External} (rows : list QString)
  (w : OsmApiDbBulkWriter) : Prop :=
  match _outputSections w !! ApiDb.getChangesetsTableName with
  | None => rows = []
  | Some content =>
      content = changesets_header +:+ unlines rows
      /\ rows <> []
      /\ currentChangesetId (_changesetData w) = wrap64 (1 + Z.of_nat (List.length rows))
  end.

(** After [k] elements: the open changeset holds fewer changes than the
    maximum, each flushed row holds the maximum, and together they
    account for the [k] elements. *)
Definition accumulating `{Ext : External} (k : Z) (rows : list QString)
  (w : OsmApiDbBulkWriter) : Prop :=
  0 <= changesInChangeset (_changesetData w) < _maxChangesetSize w
  /\ Forall (fun r => data_row r /\ last_column r = _maxChangesetSize w) rows
  /\ Z.of_nat (List.length rows) * _maxChangesetSize w
     + changesInChangeset (_changesetData w) = k
  /\ changesets_state rows w.

(** What the changeset accumulator looks at. *)
Definition changeset_view `{Ext : External} (w : OsmApiDbBulkWriter) :=
  (_maxChangesetSize w, changesetUserId (_changesetData w),
   changesInChangeset (_changesetData w), currentChangesetId (_changesetData w),
   _outputSections w !! ApiDb.getChangesetsTableName).

(** What the accumulator keeps across [open]. *)
Definition accumulator_view `{Ext : External} (w : OsmApiDbBulkWriter) :=
  (_maxChangesetSize w, changesInChangeset (_changesetData w),
   _outputSections w !! ApiDb.getChangesetsTableName).

Definition changesets_section `{Ext : External} (w : OsmApiDbBulkWriter) :
  option QString :=
  _outputSections w !! ApiDb.getChangesetsTableName.

(** The changeset rows flushed to the section file, and the count each
    holds in its last column. *)
Definition flushed_changesets `{Ext : External} (w : OsmApiDbBulkWriter) :
  list QString :=
  table_rows ApiDb.getChangesetsTableName (default EmptyString (changesets_section w)).

Definition num_changes (row : QString) : Z := last_column row.

Definition total (l : list Z) : Z := fold_right Z.add 0 l.

(** The elements the writer counts as written. *)
Definition elements_written `{Ext : External} (w : OsmApiDbBulkWriter) : Z :=
  nodesWritten (_writeStats w) + waysWritten (_writeStats w)
  + relationsWritten (_writeStats w).

(** The rows once [finalizePartial] has flushed the open changeset. *)
Definition settled (k max : Z) (rows : list QString) (section : option QString) : Prop :=
  Forall (fun r => data_row r /\ num_changes r <= max) rows
  /\ total (map num_changes rows) = k
  /\ (section = Some (changesets_header +:+ unlines rows)
      \/ section = None /\ rows = []).

(** ** Observation of the node rows *)

(** What the copy loop writes for a section file. *)
Definition copied (content : QString) : QString := copyLines content EmptyString.

(** The close marker of a table. *)
Definition close_marker : QString := "\." +:+ NL +:+ NL +:+ NL.

(** What the assembly writes for a table, from the section files as they
    are when it starts. *)
Definition piece (mode : QString) (sections : gmap string string) (it : QString) :
  QString :=
  match sections !! it with
  | None => EmptyString
  | Some content =>
      if String.eqb mode "online" && String.eqb it "sequence_updates" then EmptyString
      else if negb (String.eqb it "byte_order_mark")
              && negb (String.eqb it "sequence_updates")
           then copied (content +:+ close_marker)
           else copied content
  end.

Definition assembled (mode : QString) (sections : gmap string string)
  (names : list QString) : QString :=
  fold_right (fun it acc => piece mode sections it +:+ acc) EmptyString names.

(** The headers of the node sections, as [_createNodeTables] writes them. *)
Definition current_nodes_header : QString :=
  copy_header ApiDb.getCurrentNodesTableName
    ("id, latitude, longitude, changeset_id, visible, " +:+ quoted_timestamp
     +:+ ", tile, version").

Definition current_node_tags_header : QString :=
  copy_header ApiDb.getCurrentNodeTagsTableName "node_id, k, v".

Definition nodes_header : QString :=
  copy_header ApiDb.getNodesTableName
    ("node_id, latitude, longitude, changeset_id, visible, " +:+ quoted_timestamp
     +:+ ", tile, version, redaction_id").

(** What a node row holds besides the id: latitude, longitude, changeset
    and tile. *)
Definition NodeData : Type := Z * Z * Z * Z.

(** The rows of a node in [current_nodes] and in [nodes], without LF. *)
Definition current_nodes_line `{Ext : External} (id : Z) (d : NodeData) : QString :=
  let '(lat, lon, cs, tile) := d in
  join (chr TAB)
    [ number id; number lat; number lon; number cs; "t"; datestring; number tile; "1" ].

Definition nodes_line `{Ext : External} (id : Z) (d : NodeData) : QString :=
  let '(lat, lon, cs, tile) := d in
  join (chr TAB)
    [ number id; number lat; number lon; number cs; "t"; datestring; number tile; "1";
      "\N" ].

(** What [writePartial] for a node looks at in the node sections. *)
Definition node_view `{Ext : External} (w : OsmApiDbBulkWriter) :=
  (nodesWritten (_writeStats w), currentNodeId (_idMappings w),
   _outputSections w !! ApiDb.getCurrentNodesTableName,
   _outputSections w !! ApiDb.getCurrentNodeTagsTableName,
   _outputSections w !! ApiDb.getNodesTableName).

(** The node sections after the nodes [data] were written from id [id0],
    with [tags] the rows of their tags. *)
Definition node_sections `{Ext : External} (id0 : Z) (data : list NodeData)
  (tags : list QString) (w : OsmApiDbBulkWriter) : Prop :=
  nodesWritten (_writeStats w) = Z.of_nat (List.length data)
  /\ currentNodeId (_idMappings w) = id0 + Z.of_nat (List.length data)
  /\ Forall data_row tags
  /\ (data = [] -> tags = [])
  /\ (data <> [] ->
      _outputSections w !! ApiDb.getCurrentNodesTableName
      = Some (current_nodes_header
              +:+ unlines (imap (fun i => current_nodes_line (id0 + Z.of_nat i)) data))
      /\ _outputSections w !! ApiDb.getCurrentNodeTagsTableName
         = Some (current_node_tags_header +:+ unlines tags)
      /\ _outputSections w !! ApiDb.getNodesTableName
         = Some (nodes_header
                 +:+ unlines (imap (fun i => nodes_line (id0 + Z.of_nat i)) data))).

(** A section file of rows that are not looked into. *)
Definition opaque_section (header : QString) (s : option QString) : Prop :=
  match s with
  | None => True
  | Some c => exists rows, c = header +:+ unlines rows /\ Forall data_row rows
  end.

(** The sections that come before the changesets, with the order of the
    sections and the mode. *)
Definition prelude_view `{Ext : External} (w : OsmApiDbBulkWriter) :=
  (_outputSections w !! "byte_order_mark", _outputSections w !! "sequence_updates",
   _sectionNames w, _mode w).

(** Whether a line is the [COPY] header of [table]. *)
Definition header_of (table l : QString) : bool :=
  String.prefix ("COPY " +:+ table +:+ " ") l.

(** A line that is not the header of [table]; a line that is not the
    header either once trimmed. *)
Definition unmarked (table : QString) (l : QString) : Prop :=
  forall_chars (not_char LF) l = true /\ header_of table l = false.

Definition plain (table : QString) (l : QString) : Prop :=
  unmarked table l /\ header_of table (trimmed l) = false.

(** A line that begins neither with [C] nor with a space. *)
Definition quiet (l : QString) : Prop :=
  forall_chars (not_char LF) l = true
  /\ first_char (fun c => Ascii.eqb c "C" || isSpace c) l = false.

(** The first line of a text. *)
Definition first_line (s : QString) : QString := hd EmptyString (readLines s).

(** The lines the assembly writes for a table: header, rows, and the
    close marker with the line of the copy loop. *)
Definition table_block (header : QString) (rows : list QString) : list QString :=
  first_line header :: rows ++ ["\."; EmptyString; EmptyString; EmptyString].

(** The lines around the node rows: lines that begin neither with [C] nor
    with a space, and the headers of the changesets and of the node tags. *)
Definition filler (l : QString) : Prop :=
  quiet l \/ l = first_line changesets_header
  \/ l = first_line current_node_tags_header.

Definition filler_text (s : QString) : Prop :=
  exists ls, s = unlines ls /\ Forall filler ls.

(** A section file of lines that do not begin with [C]. *)
Definition quiet_text (s : QString) : Prop :=
  exists ls, s = unlines ls /\ Forall quiet ls.

(** The sequence updates: lines that do not begin with [C]; the other
    section files are as they were. *)
Definition quiet_section `{Ext : External} (t : QString) (w0 w : OsmApiDbBulkWriter) : Prop :=
  (exists c, _outputSections w !! t = Some c /\ quiet_text c)
  /\ forall t', t' <> t -> _outputSections w !! t' = _outputSections w0 !! t'.

(** The section files and the settings the assembly reads. *)
Definition files_view `{Ext : External} (w : OsmApiDbBulkWriter) :=
  (_outputSections w !! "byte_order_mark",
   _outputSections w !! ApiDb.getCurrentNodesTableName,
   _outputSections w !! ApiDb.getCurrentNodeTagsTableName,
   _outputSections w !! ApiDb.getNodesTableName,
   _sectionNames w, _mode w).

Definition sequence_updates_section `{Ext : External} (w : OsmApiDbBulkWriter) :=
  _outputSections w !! "sequence_updates".

(** What the rewrite takes from the writer. *)
Definition offsets_view `{Ext : External} (w : OsmApiDbBulkWriter) :=
  (_idMappings w, currentChangesetId (_changesetData w)).

Definition next_node_id `{Ext : External} (w : OsmApiDbBulkWriter) : Z :=
  db_nextNodeId (_database w).

(** Fields whose first is a number. *)
Definition numbered (parts : list QString) : Prop :=
  exists z, parts !! 0%nat = Some (number z).

(** The data of a node row once the changeset base is added. *)
Definition rebased (c : Z) (d : NodeData) : NodeData :=
  let '(lat, lon, cs, tile) := d in (lat, lon, long_add (toLong (number cs)) c, tile).

(** A line that is not the header of a node table. *)
Definition separator (l : QString) : Prop :=
  unmarked ApiDb.getCurrentNodesTableName l /\ unmarked ApiDb.getNodesTableName l.

(** A script that holds [rows1] as the block of [current_nodes] and
    [rows2] as the block of [nodes], between lines that are not headers of
    these tables. *)
Definition node_layout (script : QString) (rows1 rows2 : list QString) : Prop :=
  exists pre mid rest,
    script = unlines (pre ++ table_block current_nodes_header rows1
                      ++ mid ++ table_block nodes_header rows2) +:+ rest
    /\ Forall separator pre /\ Forall separator mid.

(** The id the first node of a session gets while it is written: the
    next id of the database when [open] fetches it, else 1. *)
Definition start_node_id (mode : QString) (db : Database) : Z :=
  if String.eqb mode "offline" then db_nextNodeId db else 1.

(** The base [_lockIds] leaves for the rewrite of the node ids (online);
    no base is added in the other modes. *)
Definition reserved_base (mode : QString) (db : Database) : Z :=
  if String.eqb mode "online" then long_decr (db_nextNodeId db) else 0.

(** ** Observation of rows, ids and counters *)

(** The characters [_escapeCopyToData] replaces besides the backslash:
    codes 8 to 13. *)
Definition copy_control_char (c : ascii) : bool :=
  let n := nat_of_ascii c in ((8 <=? n)%nat && (n <=? 13)%nat).

(** The characters [_escapeCopyToData] replaces. *)
Definition escaped_char (c : ascii) : bool :=
  Ascii.eqb c BACKSLASH || copy_control_char c.

(** How many characters of a string satisfy [p]. *)
Fixpoint count_chars (p : ascii -> bool) (s : QString) : nat :=
  match s with
  | EmptyString => O
  | String c s' => ((if p c then 1 else 0) + count_chars p s')%nat
  end.

(** The fields of a row as PostgreSQL reads them: split at the tabs, the
    escapes undone. *)
Definition decode_row (row : QString) : list QString :=
  map unescape (split_tab row).

(** Whether a text is empty or ends with LF. *)
Fixpoint complete_lines (s : QString) : bool :=
  match s with
  | EmptyString => true
  | String c s' =>
      match s' with
      | EmptyString => Ascii.eqb c LF
      | _ => complete_lines s'
      end
  end.

(** The user and the count of the open changeset. *)
Definition open_changeset_view `{Ext : External} (w : OsmApiDbBulkWriter) :=
  (changesetUserId (_changesetData w), changesInChangeset (_changesetData w)).

(** The four requests of [_getLatestIdsFromDb], in its order. *)
Definition id_requests : list DbEvent :=
  [ NextIdRequested "current_nodes"; NextIdRequested "current_ways";
    NextIdRequested "current_relations"; NextIdRequested ApiDb.getChangesetsTableName ].

(** The source ids of the elements of a kind, in the order of the stream. *)
Definition source_ids `{Ext : External} (k : ElementType) (elements : list Element) : list Z :=
  map (fun e => snd (getElementId e))
    (List.filter (fun e => bool_decide (kind_of e = k)) elements).

(** The next database id of a kind. *)
Definition current_id `{Ext : External} (k : ElementType) (w : OsmApiDbBulkWriter) : Z :=
  match k with
  | ElementType.Node => currentNodeId (_idMappings w)
  | ElementType.Way => currentWayId (_idMappings w)
  | ElementType.Relation => currentRelationId (_idMappings w)
  | ElementType.Unknown => 0
  end.

(** The next id the database would hand out for a kind. *)
Definition db_nextId (k : ElementType) (db : Database) : Z :=
  match k with
  | ElementType.Node => db_nextNodeId db
  | ElementType.Way => db_nextWayId db
  | ElementType.Relation => db_nextRelationId db
  | ElementType.Unknown => 0
  end.

(** The id the first element of a kind gets while it is written: the next
    id of the database when [open] fetches it, else 1. *)
Definition first_id (k : ElementType) (mode : QString) (db : Database) : Z :=
  if String.eqb mode "offline" then db_nextId k db else 1.

(** The map [m] sends the [i]-th source id of [ids] to [first + i], and
    holds nothing else. *)
Definition allocated (first : Z) (ids : list Z) (m : gmap Z Z) : Prop :=
  forall id v, m !! id = Some v
               <-> exists i : nat, ids !! i = Some id /\ v = wrap64 (first + Z.of_nat i).

(** What a run of writes leaves for a kind. *)
Definition ids_state `{Ext : External} (k : ElementType) (first : Z) (pre : list Element)
  (w : OsmApiDbBulkWriter) : Prop :=
  List.NoDup (source_ids k pre)
  /\ current_id k w = wrap64 (first + count_kind k pre)
  /\ exists m, idMap_in_use k w = Some m /\ allocated first (source_ids k pre) m.

(** The table has a section file. *)
Definition present `{Ext : External} (t : QString) (w : OsmApiDbBulkWriter) : bool :=
  bool_decide (is_Some (_outputSections w !! t)).

(** The tables [_createWayTables] creates. *)
Definition way_tables : list QString :=
  [ ApiDb.getCurrentWaysTableName; ApiDb.getCurrentWayTagsTableName;
    ApiDb.getCurrentWayNodesTableName; ApiDb.getWaysTableName;
    ApiDb.getWayTagsTableName; ApiDb.getWayNodesTableName ].

(** Once a way is written the way tables have their files. *)
Definition ways_ready `{Ext : External} (w : OsmApiDbBulkWriter) : Prop :=
  waysWritten (_writeStats w) <> 0 -> Forall (fun t => present t w = true) way_tables.

(** The id map of a kind holds the source ids written of the kind and no
    other key. *)
Definition keys `{Ext : External} (k : ElementType) (pre : list Element)
  (w : OsmApiDbBulkWriter) : Prop :=
  exists m, idMap_in_use k w = Some m
            /\ forall id, is_Some (m !! id) <-> In id (source_ids k pre).

Definition tags_of `{Ext : External} (e : Element) : Tags :=
  match e with
  | ENode n => Node_tags n
  | EWay y => Way_tags y
  | ERelation r => Relation_tags r
  end.

(** How many tags the elements of a kind carry, and how many node
    references the ways. *)
Definition tag_count `{Ext : External} (k : ElementType) (elements : list Element) : Z :=
  total (map (fun e => if bool_decide (kind_of e = k) then size_of (tags_of e) else 0)
           elements).

Definition way_node_count `{Ext : External} (elements : list Element) : Z :=
  total (map (fun e => match e with EWay y => size_of (Way_nodeIds y) | _ => 0 end)
           elements).

(** The counters the elements themselves determine. *)
Definition tally_view `{Ext : External} (w : OsmApiDbBulkWriter) :=
  (nodeTagsWritten (_writeStats w), wayTagsWritten (_writeStats w),
   wayNodesWritten (_writeStats w), relationTagsWritten (_writeStats w),
   relationMembersUnresolved (_writeStats w)).

(** The rows of a way in [current_way_nodes] and in [way_nodes]: the way,
    the node and the place of the node in the way, counted from [first]. *)
Definition current_way_node_rows (way : QString) (first : Z) (dbNodeIds : list Z) :
  list QString :=
  imap (fun k dbNodeId =>
          join (chr TAB) [way; number dbNodeId; number (first + Z.of_nat k)]) dbNodeIds.

Definition way_node_rows (way : QString) (first : Z) (dbNodeIds : list Z) :
  list QString :=
  imap (fun k dbNodeId =>
          join (chr TAB) [way; number dbNodeId; "1"; number (first + Z.of_nat k)])
    dbNodeIds.

(** The number of columns a COPY header lists: one more than the commas
    of its column list. *)
Definition header_columns (columns : QString) : nat :=
  S (count_chars (Ascii.eqb ",") columns).

(** A row of [n] fields on one line. *)
Definition row_of (n : nat) (row : QString) : Prop :=
  forall_chars (not_char LF) row = true /\ List.length (split_tab row) = n.

(** The file of a table holds the COPY header of the table, on one line,
    and rows of [n] fields. *)
Definition table_file (table : QString) (n : nat) (content : QString) : Prop :=
  exists columns rows,
    content = copy_header table columns +:+ unlines rows
    /\ forall_chars (not_char LF) columns = true
    /\ header_columns columns = n
    /\ Forall (row_of n) rows.

(** The fields the rows of each element table have. *)
Definition arity (table : QString) : nat :=
  default 0%nat
    (snd <$> List.find (fun p => String.eqb (fst p) table)
       [ (ApiDb.getChangesetsTableName, 9);
         (ApiDb.getCurrentNodesTableName, 8);
         (ApiDb.getCurrentNodeTagsTableName, 3);
         (ApiDb.getNodesTableName, 9);
         (ApiDb.getNodeTagsTableName, 4);
         (ApiDb.getCurrentWaysTableName, 5);
         (ApiDb.getCurrentWayNodesTableName, 3);
         (ApiDb.getCurrentWayTagsTableName, 3);
         (ApiDb.getWaysTableName, 6);
         (ApiDb.getWayNodesTableName, 4);
         (ApiDb.getWayTagsTableName, 4);
         (ApiDb.getCurrentRelationsTableName, 5);
         (ApiDb.getCurrentRelationMembersTableName, 5);
         (ApiDb.getCurrentRelationTagsTableName, 3);
         (ApiDb.getRelationsTableName, 6);
         (ApiDb.getRelationMembersTableName, 6);
         (ApiDb.getRelationTagsTableName, 4) ]%nat).

(** Every section file is the file of its table. *)
Definition table_files `{Ext : External} (w : OsmApiDbBulkWriter) : Prop :=
  forall table content,
    _outputSections w !! table = Some content -> table_file table (arity table) content.

(** [m], when it returns, leaves table files if it found table files. *)
Definition keeps_files `{Ext : External} {A} (m : M A) : Prop :=
  forall w a w', m w = Ok a w' -> table_files w -> table_files w'.

(** The statements [_writeSequenceUpdates] writes. *)
Definition sequence_text (changesetId nodeId wayId relationId : Z) : QString :=
  setval ApiDb.getChangesetsSequenceName changesetId
  +:+ setval ApiDb.getCurrentNodesSequenceName nodeId
  +:+ (if 0 <? wayId then setval ApiDb.getCurrentWaysSequenceName wayId else EmptyString)
  +:+ (if 0 <? relationId
       then setval ApiDb.getCurrentRelationsSequenceName relationId +:+ NL +:+ NL
       else EmptyString).

(** The last id of a kind once the elements are in a database that would
    have handed out [db_nextId] next. *)
Definition last_id `{Ext : External} (k : ElementType) (db : Database)
  (elements : list Element) : Z :=
  wrap64 (db_nextId k db + count_kind k elements - 1).

(** The next ids of the database. *)
Definition next_ids_view `{Ext : External} (w : OsmApiDbBulkWriter) :=
  (db_nextNodeId (_database w), db_nextWayId (_database w),
   db_nextRelationId (_database w)).

(** The file of the byte-order mark, and the section list. *)
Definition mark_view `{Ext : External} (w : OsmApiDbBulkWriter) :=
  (_outputSections w !! "byte_order_mark", _sectionNames w).

(** What the later steps of [finalizePartial] read. *)
Definition finalize_view `{Ext : External} (w : OsmApiDbBulkWriter) :=
  (_mode w, _writeStats w, _idMappings w, next_ids_view w, _executeSql w).

(** The database id of the element a member refers to, if the element
    was written. *)
Definition resolve `{Ext : External} (ids : IdMappings) (member : Entry) : option Z :=
  match fst (Entry_elementId member) with
  | ElementType.Node => nodeIdMap ids
  | ElementType.Way => wayIdMap ids
  | ElementType.Relation => relationIdMap ids
  | ElementType.Unknown => None
  end ≫= (fun m => m !! snd (Entry_elementId member)).

Definition member_type (t : ElementType) : QString :=
  match t with
  | ElementType.Node => "Node"
  | ElementType.Way => "Way"
  | ElementType.Relation => "Relation"
  | ElementType.Unknown => EmptyString
  end.

(** The row of a member in [current_relation_members], and in
    [relation_members] with the version 1. *)
Definition member_row `{Ext : External} (historical : bool) (relation : Z)
  (place : Z) (member : Entry) (memberDbId : Z) : QString :=
  join (chr TAB)
    ([ number relation; member_type (fst (Entry_elementId member)); number memberDbId;
       _escapeCopyToData (Entry_role member) ]
     ++ (if historical then ["1"] else []) ++ [ number place ]).

(** The rows of the members that resolve; a member keeps the place it has
    among all members, counted from [first]. *)
Definition member_rows `{Ext : External} (historical : bool) (relation : Z) (first : Z)
  (ids : IdMappings) (members : list Entry) : list QString :=
  omap (fun p => member_row historical relation (fst p) (snd p) <$> resolve ids (snd p))
    (zip (seqZ first (Z.of_nat (List.length members))) members).

(** The element id is a key of the unresolved references. *)
Definition awaited `{Ext : External} (id : ElementId) (w : OsmApiDbBulkWriter) : Prop :=
  exists refs, unresolvedRelationRefs (_unresolvedRefs w) = Some refs
               /\ is_Some (refs !! id).

(** ** Observation of the rows of the elements *)

(** The tables that take one row per element of a kind: the current table
    and the historical one. *)
Definition element_tables (k : ElementType) : list QString :=
  match k with
  | ElementType.Node => [ApiDb.getCurrentNodesTableName; ApiDb.getNodesTableName]
  | ElementType.Way => [ApiDb.getCurrentWaysTableName; ApiDb.getWaysTableName]
  | ElementType.Relation =>
      [ApiDb.getCurrentRelationsTableName; ApiDb.getRelationsTableName]
  | ElementType.Unknown => []
  end.

(** The rows of the file of a table: its lines after the COPY header; a
    table without a file has none. *)
Definition file_rows `{Ext : External} (table : QString) (w : OsmApiDbBulkWriter) :
  list QString :=
  match _outputSections w !! table with
  | Some content => List.tail (readLines content)
  | None => []
  end.

(** The first field of a row. *)
Definition first_field (row : QString) : option QString := head (split_tab row).

(** The database id the id map of a kind holds for a source id, as the
    rows print it. *)
Definition printed_id `{Ext : External} (k : ElementType) (w : OsmApiDbBulkWriter)
  (id : Z) : option QString :=
  number <$> (idMap k w ≫= (fun m => m !! id)).

(** The file of [table] is a header line followed by [rows], one line
    each; without a file there are no rows. *)
Definition file_of_rows `{Ext : External} (table : QString) (rows : list QString)
  (w : OsmApiDbBulkWriter) : Prop :=
  Forall (fun r => forall_chars (not_char LF) r = true) rows
  /\ match _outputSections w !! table with
     | Some content =>
         exists header, forall_chars (not_char LF) header = true
                        /\ content = header +:+ NL +:+ unlines rows
     | None => rows = []
     end.

(** What [writePartial] looks at in the tables of the ways and of the
    relations. *)
Definition way_view `{Ext : External} (w : OsmApiDbBulkWriter) :=
  (currentWayId (_idMappings w),
   _outputSections w !! ApiDb.getCurrentWaysTableName,
   _outputSections w !! ApiDb.getWaysTableName).

Definition relation_view `{Ext : External} (w : OsmApiDbBulkWriter) :=
  (currentRelationId (_idMappings w),
   _outputSections w !! ApiDb.getCurrentRelationsTableName,
   _outputSections w !! ApiDb.getRelationsTableName).

(** A row on one line whose first field is the id [id]. *)
Definition clean_row (id : Z) (row : QString) : Prop :=
  forall_chars (not_char LF) row = true /\ first_field row = Some (number id).

(** The open changeset while no changeset has been flushed: the changes
    it holds, its id, and no changesets table. *)
Definition unflushed `{Ext : External} (changes id : Z) (w : OsmApiDbBulkWriter) : Prop :=
  changesInChangeset (_changesetData w) = changes
  /\ currentChangesetId (_changesetData w) = id
  /\ _outputSections w !! ApiDb.getChangesetsTableName = None.

(** ** Scenarios in the reference environment *)

Module Scenario.

Definition node (id : Z) (lon lat : Q) : Element (Ext := exactExternal) :=
  ENode (mkNode id [] lon lat).
Definition way (id : Z) (nodeIds : list Z) : Element (Ext := exactExternal) :=
  EWay (mkWay id [] nodeIds).
Definition relation (id : Z) (members : list Entry) : Element (Ext := exactExternal) :=
  ERelation (mkRelation id [] members).

(** A database whose sequences hand out 101, 1001, 2001 and 3001 next
    (changesets, nodes, ways, relations): in online mode the reserved bases
    are 100, 1000, 2000 and 3000. *)
Definition busyDb : Database := mkDatabase false 1001 2001 3001 101 [].

(** Two relations, the second with the first as its member. *)
Definition relation_of_relation : list Element :=
  [ node 1 2 1;
    relation (-100) [];
    relation (-101) [mkEntry "inner" (ElementType.Relation, -100)] ].

(** Two relations that refer to the same way, which arrives after both. *)
Definition shared_forward_reference : list Element :=
  [ node 1 2 1;
    relation (-100) [mkEntry "first" (ElementType.Way, -50)];
    relation (-101) [mkEntry "second" (ElementType.Way, -50)];
    way (-50) [1] ].

Definition single_node : list Element := [ node (-1) 2 1 ].

Definition three_nodes : list Element := [ node 1 2 1; node 2 2 1; node 3 2 1 ].

(** Three nodes, two of them with tags; one tag value holds the word
    [COPY]. *)
Definition tagged_nodes : list (Node (Ext := exactExternal)) :=
  [ mkNode 7 [("name", "COPY nodes here"); ("note", " x ")] 2%Q 1%Q;
    mkNode 8 [] 2%Q 1%Q;
    mkNode 9 [("k", "v")] 2%Q 1%Q ].

(** Two nodes with a tag each; the tag of the first has the value
    [COPY]. *)
Definition copy_tagged_nodes : list Element :=
  [ ENode (mkNode 1 [("nodes", "COPY")] 2%Q 1%Q);
    ENode (mkNode 2 [("k", "v")] 2%Q 1%Q) ].

Definition online (elements : list Element) : Exn + option QString :=
  outcome (session elements (newWriter "online" 17 50000 false false busyDb)).

Definition offline (maxChangesetSize : Z) (elements : list Element) :
  Exn + option QString :=
  outcome (session elements (newWriter "offline" 17 maxChangesetSize false false freshDb)).

Definition script_of (r : Exn + option QString) : QString :=
  match r with
  | inr (Some script) => script
  | _ => EmptyString
  end.

End Scenario.

(* ===================================================================== *)
(** * Properties *)
(* ===================================================================== *)

(** ** Strings *)

Lemma app_cons_s (x : ascii) (a b : QString) :
  String x a +:+ b = String x (a +:+ b).
Proof. reflexivity. Qed.

Lemma app_nil_l_s (a : QString) : EmptyString +:+ a = a.
Proof. reflexivity. Qed.

Lemma app_assoc_s (a b c : QString) : (a +:+ b) +:+ c = a +:+ (b +:+ c).
Proof.
  induction a as [|x a IH]; [reflexivity |].
  now rewrite !app_cons_s, IH.
Qed.

Lemma app_nil_r_s (a : QString) : a +:+ EmptyString = a.
Proof.
  induction a as [|x a IH]; [reflexivity |].
  now rewrite app_cons_s, IH.
Qed.

Lemma replace_app (c : ascii) (after a b : QString) :
  replace c after (a +:+ b) = replace c after a +:+ replace c after b.
Proof.
  induction a as [|x a IH]; [reflexivity |].
  rewrite app_cons_s. simpl. rewrite IH.
  destruct (Ascii.eqb x c); [now rewrite app_assoc_s | reflexivity].
Qed.

Lemma flat_map_chars_app (f : ascii -> QString) (a b : QString) :
  flat_map_chars f (a +:+ b) = flat_map_chars f a +:+ flat_map_chars f b.
Proof.
  induction a as [|x a IH]; [reflexivity |].
  rewrite app_cons_s. simpl. now rewrite IH, app_assoc_s.
Qed.

Lemma flat_map_chars_ext (f g : ascii -> QString) (s : QString) :
  (forall c, f c = g c) -> flat_map_chars f s = flat_map_chars g s.
Proof. intros E. induction s as [|x s IH]; simpl; [reflexivity | now rewrite E, IH]. Qed.

Lemma replace_flat_map (c : ascii) (after : QString) (f : ascii -> QString) (s : QString) :
  replace c after (flat_map_chars f s)
  = flat_map_chars (fun d => replace c after (f d)) s.
Proof.
  induction s as [|x s IH]; simpl; [reflexivity |].
  now rewrite replace_app, IH.
Qed.

Lemma flat_map_chars_chr (s : QString) : flat_map_chars chr s = s.
Proof.
  induction s as [|x s IH]; [reflexivity |].
  simpl. now rewrite IH.
Qed.

(** The chain of seven replacements acts on each character on its own. *)
Lemma escape_charwise (s : QString) :
  _escapeCopyToData s = flat_map_chars escape_char s.
Proof.
  unfold _escapeCopyToData.
  rewrite <- (flat_map_chars_chr s) at 1.
  rewrite !replace_flat_map.
  apply flat_map_chars_ext.
  intros [[] [] [] [] [] [] [] []]; reflexivity.
Qed.

Lemma escape_app (a b : QString) :
  _escapeCopyToData (a +:+ b) = _escapeCopyToData a +:+ _escapeCopyToData b.
Proof. rewrite !escape_charwise. apply flat_map_chars_app. Qed.

Lemma unescape_escape_char (c : ascii) (t : QString) :
  unescape (escape_char c +:+ flat_map_chars escape_char t)
  = String c (unescape (flat_map_chars escape_char t)).
Proof.
  destruct t as [|d t].
  - destruct c as [[] [] [] [] [] [] [] []]; reflexivity.
  - simpl flat_map_chars.
    destruct c as [[] [] [] [] [] [] [] []]; reflexivity.
Qed.

Lemma unescape_escape (s : QString) : unescape (_escapeCopyToData s) = s.
Proof.
  rewrite escape_charwise.
  induction s as [|c s IH]; [reflexivity |].
  simpl flat_map_chars. rewrite unescape_escape_char. now rewrite IH.
Qed.

Lemma escape_injective (a b : QString) :
  _escapeCopyToData a = _escapeCopyToData b -> a = b.
Proof.
  intros E. rewrite <- (unescape_escape a), <- (unescape_escape b). now rewrite E.
Qed.

(** C7.  [_escapeCopyToData] replaces the backslash first and then the
    characters 8 to 13, which comes to replacing each character by its
    escape; it therefore distributes over concatenation, and two strings
    without a backslash that have the same escaped form are equal. *)
Theorem escape_substitution_morphism_injective (a b : QString) :
  _escapeCopyToData a = flat_map_chars escape_char a
  /\ _escapeCopyToData (a +:+ b) = _escapeCopyToData a +:+ _escapeCopyToData b
  /\ (has_char BACKSLASH a = false -> has_char BACKSLASH b = false ->
      _escapeCopyToData a = _escapeCopyToData b -> a = b).
Proof.
  split; [apply escape_charwise |].
  split; [apply escape_app |].
  intros _ _. apply escape_injective.
Qed.

Lemma escape_substitution_morphism_injective_witness :
  _escapeCopyToData ("a" +:+ chr TAB) = "a\t"
  /\ has_char BACKSLASH ("a" +:+ chr TAB) = false
  /\ "a" +:+ chr TAB = "a" +:+ chr TAB.
Proof.
  split; [reflexivity |]. split; [reflexivity |].
  exact (proj2 (proj2 (escape_substitution_morphism_injective
                         ("a" +:+ chr TAB) ("a" +:+ chr TAB)))
           eq_refl eq_refl eq_refl).
Defined.

(** ** Numbers, lines and fields *)

Lemma forall_chars_app p a b :
  forall_chars p (a +:+ b) = forall_chars p a && forall_chars p b.
Proof.
  induction a as [|x a IH]; [reflexivity |].
  rewrite app_cons_s. simpl. rewrite IH. now rewrite andb_assoc.
Qed.

Lemma forall_chars_impl (p q : ascii -> bool) s :
  (forall c, p c = true -> q c = true) ->
  forall_chars p s = true -> forall_chars q s = true.
Proof.
  intros Hpq. induction s as [|x s IH]; [reflexivity |].
  simpl. rewrite !andb_true_iff. intros [Hx Hs]. auto.
Qed.

Lemma forall_chars_join p sep fields :
  forall_chars p sep = true ->
  Forall (fun f => forall_chars p f = true) fields ->
  forall_chars p (join sep fields) = true.
Proof.
  intros Hsep. induction 1 as [|f fs Hf Hfs IH]; [reflexivity |].
  destruct fs as [|g fs]; [exact Hf |].
  change (join sep (f :: g :: fs)) with (f +:+ sep +:+ join sep (g :: fs)).
  rewrite !forall_chars_app, Hf, Hsep, IH. reflexivity.
Qed.

Lemma string_of_uint_numeral d :
  forall_chars numeral_char (NilEmpty.string_of_uint d) = true.
Proof. induction d; simpl; auto. Qed.

Lemma number_numeral z : forall_chars numeral_char (number z) = true.
Proof.
  unfold number. destruct (Z.to_int z) as [d|d]; simpl.
  - apply string_of_uint_numeral.
  - apply string_of_uint_numeral.
Qed.

Lemma number_parses z : NilEmpty.int_of_string (number z) = Some (Z.to_int z).
Proof. unfold number. apply NilEmpty.isi. Qed.

Lemma toLong_number z : in_long z = true -> toLong (number z) = z.
Proof.
  intros H. unfold toLong. rewrite number_parses, DecimalZ.of_to, H. reflexivity.
Qed.

Lemma number_nonempty z : number z <> EmptyString.
Proof.
  intros E. pose proof (number_parses z) as P. rewrite E in P.
  change (NilEmpty.int_of_string EmptyString) with (Some (Decimal.Pos Decimal.Nil)) in P.
  injection P as P.
  assert (H : Z.of_int (Z.to_int z) = 0) by (rewrite <- P; reflexivity).
  rewrite DecimalZ.of_to in H. subst z. discriminate E.
Qed.

Lemma number_first_char z : first_char numeral_char (number z) = true.
Proof.
  pose proof (number_numeral z) as H. pose proof (number_nonempty z) as N.
  destruct (number z) as [|c s]; [contradiction |].
  simpl in *. now apply andb_true_iff in H as [H _].
Qed.

(** *** Lines *)

Lemma readLines_line (l rest : QString) :
  forall_chars (not_char LF) l = true ->
  readLines (l +:+ NL +:+ rest) = l :: readLines rest.
Proof.
  induction l as [|c l IH]; intros H.
  - reflexivity.
  - simpl in H. apply andb_true_iff in H as [Hc Hl].
    rewrite app_cons_s. simpl.
    unfold not_char in Hc. apply negb_true_iff in Hc. rewrite Hc.
    rewrite (IH Hl). reflexivity.
Qed.

Lemma readLines_unlines (ls : list QString) (rest : QString) :
  Forall (fun l => forall_chars (not_char LF) l = true) ls ->
  readLines (unlines ls +:+ rest) = ls ++ readLines rest.
Proof.
  induction 1 as [|l ls Hl Hls IH]; [reflexivity |].
  simpl unlines. rewrite !app_assoc_s, readLines_line by exact Hl.
  now rewrite IH.
Qed.

Lemma readLines_last (l : QString) :
  forall_chars (not_char LF) l = true -> l <> EmptyString -> readLines l = [l].
Proof.
  induction l as [|c l IH]; intros H N; [contradiction |].
  simpl in H. apply andb_true_iff in H as [Hc Hl].
  unfold not_char in Hc. apply negb_true_iff in Hc. simpl. rewrite Hc.
  destruct l as [|d l]; [reflexivity |].
  rewrite (IH Hl) by discriminate. reflexivity.
Qed.

Lemma unlines_app a b : unlines (a ++ b) = unlines a +:+ unlines b.
Proof.
  induction a as [|x a IH]; [reflexivity |].
  simpl. now rewrite IH, !app_assoc_s.
Qed.

(** *** Fields *)

Lemma split_by_field sep (f rest : QString) c :
  forall_chars (fun d => negb (sep d)) f = true -> sep c = true ->
  split_by sep (f +:+ String c rest) = f :: split_by sep rest.
Proof.
  intros Hf Hc. induction f as [|x f IH].
  - rewrite app_nil_l_s. simpl. now rewrite Hc.
  - simpl in Hf. apply andb_true_iff in Hf as [Hx Hf]. apply negb_true_iff in Hx.
    rewrite app_cons_s. simpl. rewrite Hx, (IH Hf). reflexivity.
Qed.

Lemma split_by_single sep (f : QString) :
  forall_chars (fun d => negb (sep d)) f = true -> split_by sep f = [f].
Proof.
  induction f as [|x f IH]; intros Hf; [reflexivity |].
  simpl in Hf. apply andb_true_iff in Hf as [Hx Hf]. apply negb_true_iff in Hx.
  simpl. rewrite Hx, (IH Hf). reflexivity.
Qed.

Lemma split_tab_join (fields : list QString) :
  fields <> [] ->
  Forall (fun f => forall_chars (not_char TAB) f = true) fields ->
  split_tab (join (chr TAB) fields) = fields.
Proof.
  intros N H. induction H as [|f fs Hf Hfs IH]; [contradiction |].
  destruct fs as [|g fs].
  - simpl. now apply split_by_single.
  - change (join (chr TAB) (f :: g :: fs))
      with (f +:+ String TAB (join (chr TAB) (g :: fs))).
    unfold split_tab. rewrite split_by_field; [| exact Hf | reflexivity].
    f_equal. apply IH. discriminate.
Qed.


(** ** Scenarios: where the code leaves its specification *)

(** C1.  Online rewrite of a member row whose kind is [Relation]: the
    relation id in column 0 gets the relation base 3000, the member id in
    column 2 keeps its local value 1 (the member is relation 3001). *)
Theorem relation_member_id_not_rebased :
  table_rows "current_relation_members"
    (Scenario.script_of (Scenario.online Scenario.relation_of_relation))
  = [ join (chr TAB) ["3002"; "Relation"; "1"; "inner"; "1"] ]
  /\ table_rows "current_relations"
       (Scenario.script_of (Scenario.online Scenario.relation_of_relation))
     = [ join (chr TAB) ["3001"; "101"; "2017-01-01 00:00:00.000"; "t"; "1"];
         join (chr TAB) ["3002"; "101"; "2017-01-01 00:00:00.000"; "t"; "1"] ].
Proof. split; vm_compute; reflexivity. Qed.

(** C2.  Two relations refer to a way that arrives after both: only the
    first reference gets its member rows; the reference of relation 3002
    has none, in either table. *)
Theorem second_forward_reference_dropped :
  table_rows "current_relation_members"
    (Scenario.script_of (Scenario.online Scenario.shared_forward_reference))
  = [ join (chr TAB) ["3001"; "Way"; "2001"; "first"; "1"] ]
  /\ table_rows "relation_members"
       (Scenario.script_of (Scenario.online Scenario.shared_forward_reference))
     = [ join (chr TAB) ["3001"; "Way"; "2001"; "first"; "1"; "1"] ].
Proof. split; vm_compute; reflexivity. Qed.

(** C4.  One node, offline: the five copy sections come in the canonical
    order, and three empty lines follow each terminator. *)
Theorem three_blank_lines_after_terminator :
  copy_headers (Scenario.script_of (Scenario.offline 1 Scenario.single_node))
  = [ "COPY changesets (id, user_id, created_at, min_lat, max_lat, min_lon, max_lon, closed_at, num_changes) FROM stdin;";
      "COPY current_nodes (id, latitude, longitude, changeset_id, visible, " +:+ quoted_timestamp +:+ ", tile, version) FROM stdin;";
      "COPY current_node_tags (node_id, k, v) FROM stdin;";
      "COPY nodes (node_id, latitude, longitude, changeset_id, visible, " +:+ quoted_timestamp +:+ ", tile, version, redaction_id) FROM stdin;";
      "COPY node_tags (node_id, version, k, v) FROM stdin;" ]
  /\ blank_lines_after_terminators
       (readLines (Scenario.script_of (Scenario.offline 1 Scenario.single_node)))
     = [3; 3; 3; 3; 3]%nat.
Proof. split; vm_compute; reflexivity. Qed.

(** C5.  Three nodes, offline, two changes per changeset: changesets 1 and
    2 are written, and the sequence of changesets is set to 1. *)
Theorem changeset_sequence_behind_last_id :
  map (column 0)
    (table_rows "changesets"
       (Scenario.script_of (Scenario.offline 2 Scenario.three_nodes)))
  = [1; 2]
  /\ filter (fun l => String.prefix "SELECT " l = true)
       (readLines (Scenario.script_of (Scenario.offline 2 Scenario.three_nodes)))
     = [ "SELECT pg_catalog.setval('changesets_id_seq', 1);";
         "SELECT pg_catalog.setval('current_nodes_id_seq', 3);" ].
Proof. split; vm_compute; reflexivity. Qed.

(** C3.  Three streams of nodes with distinct source ids for which no
    script is assembled, so that no node row is put out.  Offline, on a
    database whose next changeset id is 101: [_writeChangesetToTable]
    creates the changesets table for changeset 1 only and streams to a
    table that is not there.  Offline, from a database whose ids start at
    1, one node and room for 50000 changes per changeset: no changeset
    rotates, [finalizePartial] passes changeset id 0 to
    [_writeSequenceUpdates], and the assertion on it fails.  Online, two
    nodes with a tag each, the first tag [nodes] = [COPY]: the rewrite
    takes that tag row for a COPY header and reads the table name [nodes]
    from it; the next tag row is then rewritten as a row of [nodes], whose
    fourth field it does not have. *)
Theorem nodes_with_distinct_ids_left_without_rows :
  outcome (session Scenario.three_nodes
             (newWriter "offline" 17 50000 false false Scenario.busyDb))
  = inl NullPointer
  /\ Scenario.offline 50000 Scenario.single_node = inl AssertionFailed
  /\ Scenario.online Scenario.copy_tagged_nodes = inl IndexOutOfRange.
Proof. repeat split; vm_compute; reflexivity. Qed.

(** For every row of a relation-member section the rewrite adds the
    relation base to column 0; the member id in column 2 gets the node
    base for the kind [node], the way base for [way], and stays as it is
    for any other kind, [Relation] included. *)
Lemma updateLineParts_relation_members (ids : IdMappings) (cs : Z)
  (relationId memberKind memberId : QString) (rest : list QString) :
  updateLineParts ids cs ApiDb.getCurrentRelationMembersTableName
    (relationId :: memberKind :: memberId :: rest)
  = inr (Some
      (number (long_add (toLong relationId) (currentRelationId ids))
       :: memberKind
       :: (if String.eqb (toLower memberKind) "node"
           then number (long_add (toLong memberId) (currentNodeId ids))
           else if String.eqb (toLower memberKind) "way"
           then number (long_add (toLong memberId) (currentWayId ids))
           else memberId)
       :: rest)).
Proof.
  unfold updateLineParts. simpl.
  destruct (String.eqb (toLower memberKind) "node"); [reflexivity |].
  destruct (String.eqb (toLower memberKind) "way"); reflexivity.
Qed.

(** ** Reasoning about the writer's methods *)

Section Reasoning.

Context `{Ext : External}.

Lemma bind_Ok {A B} (m : M A) (k : A -> M B) w b w'' :
  bind m k w = Ok b w'' -> exists a w', m w = Ok a w' /\ k a w' = Ok b w''.
Proof.
  unfold bind. destruct (m w) as [a w'|e w']; [eauto | discriminate].
Qed.

Lemma bind_Throw {A B} (m : M A) (k : A -> M B) w e w'' :
  bind m k w = Throw e w'' ->
  m w = Throw e w'' \/ exists a w', m w = Ok a w' /\ k a w' = Throw e w''.
Proof.
  unfold bind. destruct (m w) as [a w'|e' w']; [eauto |].
  intros [= -> ->]. now left.
Qed.

Lemma bind_of_Ok {A B} (m : M A) (k : A -> M B) w a w' :
  m w = Ok a w' -> bind m k w = k a w'.
Proof. unfold bind. now intros ->. Qed.

Lemma bind_of_Throw {A B} (m : M A) (k : A -> M B) w e w' :
  m w = Throw e w' -> bind m k w = Throw e w'.
Proof. unfold bind. now intros ->. Qed.

Lemma forEach_app {A} (l1 l2 : list A) (body : A -> M unit) w :
  forEach (l1 ++ l2) body w
  = bind (forEach l1 body) (fun _ => forEach l2 body) w.
Proof.
  revert w. induction l1 as [|x l1 IH]; intros w; simpl.
  - reflexivity.
  - unfold bind in *. destruct (body x w) as [[] w'|e w']; [| reflexivity].
    apply IH.
Qed.

(** [m] leaves the observation [f] of the writer as it found it, whether
    it returns or throws. *)
Definition preserves {X A} (f : OsmApiDbBulkWriter -> X) (m : M A) : Prop :=
  forall w, f (final_state (m w)) = f w.

Lemma preserves_Ok {X A} (f : OsmApiDbBulkWriter -> X) (m : M A) w a w' :
  preserves f m -> m w = Ok a w' -> f w' = f w.
Proof. intros H E. specialize (H w). now rewrite E in H. Qed.

Lemma preserves_Throw {X A} (f : OsmApiDbBulkWriter -> X) (m : M A) w e w' :
  preserves f m -> m w = Throw e w' -> f w' = f w.
Proof. intros H E. specialize (H w). now rewrite E in H. Qed.

Lemma preserves_ret {X A} (f : OsmApiDbBulkWriter -> X) (a : A) :
  preserves f (ret a).
Proof. intros w. reflexivity. Qed.

Lemma preserves_throw {X A} (f : OsmApiDbBulkWriter -> X) e :
  preserves f (throw (A:=A) e).
Proof. intros w. reflexivity. Qed.

Lemma preserves_get {X} (f : OsmApiDbBulkWriter -> X) : preserves f get.
Proof. intros w. reflexivity. Qed.

Lemma preserves_modify {X} (f : OsmApiDbBulkWriter -> X) g :
  (forall w, f (g w) = f w) -> preserves f (modify g).
Proof. intros H w. apply H. Qed.

Lemma preserves_bind {X A B} (f : OsmApiDbBulkWriter -> X) (m : M A) (k : A -> M B) :
  preserves f m -> (forall a, preserves f (k a)) -> preserves f (bind m k).
Proof.
  intros Hm Hk w. unfold bind. specialize (Hm w).
  destruct (m w) as [a w'|e w']; simpl in *; [| assumption].
  now rewrite Hk.
Qed.

Lemma preserves_when {X} (f : OsmApiDbBulkWriter -> X) b m :
  preserves f m -> preserves f (when b m).
Proof. intros H. destruct b; [assumption | apply preserves_ret]. Qed.

Lemma preserves_forEach {X A} (f : OsmApiDbBulkWriter -> X) (l : list A) body :
  (forall x, preserves f (body x)) -> preserves f (forEach l body).
Proof.
  intros H. induction l as [|x l IH]; simpl; [apply preserves_ret |].
  apply preserves_bind; auto.
Qed.

Lemma preserves_stream_out {X} (f : OsmApiDbBulkWriter -> X) t x :
  ignores_section f t -> preserves f (stream_out t x).
Proof.
  intros H w. unfold stream_out.
  destruct (_outputSections w !! t); simpl; [apply H | reflexivity].
Qed.

Lemma preserves_createTable {X} (f : OsmApiDbBulkWriter -> X) t x b :
  ignores_section f t -> preserves f (_createTable t x b).
Proof. intros H w. apply H. Qed.

(** Every exception [m] can throw satisfies [S]. *)
Definition throws_only {A} (S : Exn -> Prop) (m : M A) : Prop :=
  forall w e w', m w = Throw e w' -> S e.

Lemma throws_only_ret {A} S (a : A) : throws_only S (ret a).
Proof. intros w e w'. discriminate. Qed.

Lemma throws_only_get S : throws_only S get.
Proof. intros w e w'. discriminate. Qed.

Lemma throws_only_modify S g : throws_only S (modify g).
Proof. intros w e w'. discriminate. Qed.

Lemma throws_only_throw {A} (S : Exn -> Prop) e : S e -> throws_only S (throw (A:=A) e).
Proof. intros H w e' w' [= <- _]. assumption. Qed.

Lemma throws_only_bind {A B} S (m : M A) (k : A -> M B) :
  throws_only S m -> (forall a, throws_only S (k a)) -> throws_only S (bind m k).
Proof.
  intros Hm Hk w e w' H. apply bind_Throw in H as [H | (a & w1 & _ & H)].
  - eapply Hm, H.
  - eapply Hk, H.
Qed.

Lemma throws_only_when S b m : throws_only S m -> throws_only S (when b m).
Proof. intros H. destruct b; [assumption | apply throws_only_ret]. Qed.

Lemma throws_only_forEach {A} S (l : list A) body :
  (forall x, throws_only S (body x)) -> throws_only S (forEach l body).
Proof.
  intros H. induction l as [|x l IH]; simpl; [apply throws_only_ret |].
  apply throws_only_bind; auto.
Qed.

Lemma throws_only_stream_out (S : Exn -> Prop) t x :
  S NullPointer -> throws_only S (stream_out t x).
Proof.
  intros H w e w'. unfold stream_out.
  destruct (_outputSections w !! t); [discriminate |].
  now intros [= <- _].
Qed.

Lemma throws_only_createTable S t x b : throws_only S (_createTable t x b).
Proof. intros w e w'. discriminate. Qed.

End Reasoning.

Create HintDb pres discriminated.
Create HintDb views discriminated.
Create HintDb throws discriminated.

(** Proves that an observation ignores the writes to a table: it does not
    look at the sections, or it looks at another table. *)
Ltac side_section :=
  first [ assumption
        | solve [ auto ]
        | intros ? ?; reflexivity
        | intros ? ? ?; reflexivity
        | intros ? ?; autounfold with views; cbn;
          rewrite !lookup_insert_ne
            by (let E := fresh in intro E; vm_compute in E; discriminate E);
          reflexivity ].

Ltac pres_step :=
  lazymatch goal with
  | |- preserves _ (bind _ _) => apply preserves_bind; [| intros ?]
  | |- preserves _ (ret _) => apply preserves_ret
  | |- preserves _ get => apply preserves_get
  | |- preserves _ (throw _) => apply preserves_throw
  | |- preserves _ (modify _) =>
      apply preserves_modify; intros ?;
      first [ reflexivity
            | autounfold with views; reflexivity
            | match goal with
              | H : ignores_unresolvedRefs _ |- _ => apply H
              | H : ignores_relationMembersWritten _ |- _ => apply H
              end ]
  | |- preserves _ (when _ _) => apply preserves_when
  | |- preserves _ (forEach _ _) => apply preserves_forEach; intros ?
  | |- preserves _ (stream_out _ _) =>
      apply preserves_stream_out; side_section
  | |- preserves _ (_createTable _ _ _) =>
      apply preserves_createTable; side_section
  | |- preserves _ (match (match ?y with _ => _ end) with _ => _ end) => destruct y
  | |- preserves _ (match ?x with _ => _ end) => destruct x
  end.

(** Proves [preserves f m] for a method [m] once its definition, and those
    of the methods it calls, are unfolded; loops come from the hints. *)
Ltac pres := repeat first [ assumption | solve [auto with pres] | pres_step ].

Ltac solve_exn :=
  try solve [ cbv beta; first [ reflexivity | discriminate | intuition congruence ] ].

Ltac throws_step :=
  lazymatch goal with
  | |- throws_only _ (bind _ _) => apply throws_only_bind; [| intros ?]
  | |- throws_only _ (ret _) => apply throws_only_ret
  | |- throws_only _ get => apply throws_only_get
  | |- throws_only _ (throw _) => apply throws_only_throw; solve_exn
  | |- throws_only _ (modify _) => apply throws_only_modify
  | |- throws_only _ (when _ _) => apply throws_only_when
  | |- throws_only _ (forEach _ _) => apply throws_only_forEach; intros ?
  | |- throws_only _ (stream_out _ _) => apply throws_only_stream_out; solve_exn
  | |- throws_only _ (_createTable _ _ _) => apply throws_only_createTable
  | |- throws_only _ (match (match ?y with _ => _ end) with _ => _ end) => destruct y
  | |- throws_only _ (match ?x with _ => _ end) => destruct x
  end.

Ltac throws := repeat first [ assumption | solve [auto with throws] | throws_step ].

Ltac destruct_writer w :=
  destruct w as [w_mode w_max w_exec w_ndebug
                 [nN nNT nW nWN nWT nR nRM nRU nRT]
                 [csUser csId csChanges csWritten csBounds]
                 [idN mapN idW mapW idR mapR]
                 [urW urR] secs names db].

(** One step of symbolic execution: the first call of a [bind] is run when
    it evaluates to a result. *)
Ltac mstep :=
  lazymatch goal with
  | |- context [bind ?m ?k ?w] =>
      let r := eval hnf in (m w) in
      lazymatch r with
      | Ok ?a ?w' => change (bind m k w) with (k a w'); cbv beta
      | Throw ?e ?w' => change (bind m k w) with (Throw (A:=unit) e w')
      end
  end.

(** ** Node coordinates (C8) *)

Section Coordinates.

Context `{Ext : External}.

Lemma throws_only_weaken {A} (S S' : Exn -> Prop) (m : M A) :
  (forall e, S e -> S' e) -> throws_only S m -> throws_only S' m.
Proof. intros H Hm w e w' E. eapply H, Hm, E. Qed.

Lemma wrap32_int (r : Z) : - 2 ^ 31 <= r < 2 ^ 31 -> wrap32s (wrap32u r) = r.
Proof.
  intros H. unfold wrap32s, wrap32u.
  rewrite Zplus_mod_idemp_l. rewrite Z.mod_small by lia. lia.
Qed.

Lemma writeNodeToTables_outcome (n : Node) (id : Z) (w : OsmApiDbBulkWriter) :
  let lat := roundScaled (Node_y n) in
  let lon := roundScaled (Node_x n) in
  - 2 ^ 31 <= lat < 2 ^ 31 -> - 2 ^ 31 <= lon < 2 ^ 31 ->
  (~ latitude_in_range lat -> _writeNodeToTables n id w = Throw InvalidLatitude w)
  /\ (latitude_in_range lat -> ~ longitude_in_range lon ->
      _writeNodeToTables n id w = Throw InvalidLongitude w)
  /\ (latitude_in_range lat -> longitude_in_range lon ->
      throws_only (fun e => e = NullPointer) (_writeNodeToTables n id)).
Proof.
  intros lat lon Hlat Hlon.
  unfold latitude_in_range, longitude_in_range.
  repeat split.
  - intros Hout. unfold _writeNodeToTables, _convertDegreesToNanodegrees, bind, get.
    rewrite !wrap32_int by assumption. fold lat.
    destruct ((lat <? -900000000) || (900000000 <? lat)) eqn:E; [reflexivity |].
    apply orb_false_iff in E as [E1 E2]. lia.
  - intros Hin Hout. unfold _writeNodeToTables, _convertDegreesToNanodegrees, bind, get.
    rewrite !wrap32_int by assumption. fold lat lon.
    destruct ((lat <? -900000000) || (900000000 <? lat)) eqn:E.
    { apply orb_true_iff in E as [E|E]; lia. }
    destruct ((lon <? -1800000000) || (1800000000 <? lon)) eqn:E'; [reflexivity |].
    apply orb_false_iff in E' as [E1 E2]. lia.
  - intros Hin Hin'.
    destruct ((lat <? -900000000) || (900000000 <? lat)) eqn:E.
    { apply orb_true_iff in E as [E|E]; lia. }
    destruct ((lon <? -1800000000) || (1800000000 <? lon)) eqn:E'.
    { apply orb_true_iff in E' as [E1|E1]; lia. }
    intros w0 e w' H.
    unfold _writeNodeToTables, _convertDegreesToNanodegrees in H.
    unfold bind at 1 in H. unfold get in H.
    rewrite !wrap32_int in H by assumption.
    cbv zeta in H. fold lat lon in H. rewrite E, E' in H.
    revert H. apply (throws_only_bind (fun e => e = NullPointer)); [| intros ?]; throws.
Qed.

(** A new node gets as far as its rows. *)
Lemma writePartial_Node_reaches_rows (n : Node) (w : OsmApiDbBulkWriter) :
  is_new_node n w ->
  exists id w1 K, writePartial_Node n w = bind (_writeNodeToTables n id) K w1.
Proof.
  intros Hnew. unfold writePartial_Node, is_new_node in *.
  destruct_writer w. simpl in Hnew.
  repeat mstep. simpl.
  destruct (nN =? 0) eqn:E.
  - repeat mstep. eexists _, _, _. reflexivity.
  - destruct Hnew as [H0 | (m & Hm & Hid)].
    { apply Z.eqb_neq in E. exfalso. apply E. exact H0. }
    subst. repeat mstep.
    unfold rejectKnown. simpl. rewrite Hid. simpl bool_decide.
    repeat mstep. eexists _, _, _. reflexivity.
Qed.

Lemma writePartial_Node_in_range (n : Node) :
  - 2 ^ 31 <= roundScaled (Node_y n) < 2 ^ 31 ->
  - 2 ^ 31 <= roundScaled (Node_x n) < 2 ^ 31 ->
  latitude_in_range (roundScaled (Node_y n)) ->
  longitude_in_range (roundScaled (Node_x n)) ->
  throws_only (fun e => e <> InvalidLatitude /\ e <> InvalidLongitude)
    (writePartial_Node n).
Proof.
  intros B1 B2 H1 H2.
  assert (Hrows : forall id, throws_only
            (fun e => e <> InvalidLatitude /\ e <> InvalidLongitude)
            (_writeNodeToTables n id)).
  { intros id. eapply throws_only_weaken;
      [| apply (writeNodeToTables_outcome n id
                  (newWriter EmptyString 0 0 false false (mkDatabase false 0 0 0 0 []))
                  B1 B2); assumption].
    intros e ->. split; discriminate. }
  unfold writePartial_Node, _createNodeTables, rejectKnown, _establishNewIdMapping,
    _writeTagsToTables, _incrementChangesInChangeset, _writeChangesetToTable,
    _checkUnresolvedReferences, _writeRelationMember, BigMap_contains, BigMap_insert.
  throws.
Qed.

Lemma outcome_Throw {A} (r : Result A) (e : Exn) :
  outcome r = inl e <-> exists w, r = Throw e w.
Proof.
  destruct r as [a w|e' w]; simpl; split.
  - discriminate.
  - intros (w' & [=]).
  - intros [= ->]. eauto.
  - intros (w' & [= -> _]). reflexivity.
Qed.

(** The first exception ends the session. *)
Lemma session_stops_at_failure (pre post : list Element) (e : Element)
  (w0 w : OsmApiDbBulkWriter) (err : Exn) :
  written pre w0 = Ok tt w ->
  outcome (writePartial e w) = inl err ->
  outcome (session (pre ++ e :: post) w0) = inl err.
Proof.
  unfold written, session. intros Hpre Herr.
  apply outcome_Throw in Herr as (w' & Herr). apply outcome_Throw. exists w'.
  apply bind_Ok in Hpre as ([] & w1 & Hopen & Hpre).
  rewrite (bind_of_Ok _ _ _ _ _ Hopen).
  apply bind_of_Throw. rewrite forEach_app.
  rewrite (bind_of_Ok _ _ _ _ _ Hpre). simpl.
  now apply bind_of_Throw.
Qed.

End Coordinates.

(** C8, as the code has it.  For a node whose source id is new and whose
    rounded, scaled coordinates fit an [int]: [writePartial] fails with
    [InvalidLatitude] exactly when the latitude is outside [-9e8, 9e8],
    and with [InvalidLongitude] exactly when the latitude is inside its
    range and the longitude is outside [-1.8e9, 1.8e9]; the failure ends
    the session, which returns no script. *)
Theorem node_coordinate_checks `{Ext : External} (n : Node) (w : OsmApiDbBulkWriter) :
  - 2 ^ 31 <= roundScaled (Node_y n) < 2 ^ 31 ->
  - 2 ^ 31 <= roundScaled (Node_x n) < 2 ^ 31 ->
  is_new_node n w ->
  (outcome (writePartial_Node n w) = inl InvalidLatitude
   <-> ~ latitude_in_range (roundScaled (Node_y n)))
  /\ (outcome (writePartial_Node n w) = inl InvalidLongitude
      <-> latitude_in_range (roundScaled (Node_y n))
          /\ ~ longitude_in_range (roundScaled (Node_x n)))
  /\ (forall pre post w0 e,
        written pre w0 = Ok tt w ->
        outcome (writePartial_Node n w) = inl e ->
        outcome (session (pre ++ ENode n :: post) w0) = inl e).
Proof.
  intros By Bx Hnew.
  destruct (writePartial_Node_reaches_rows n w Hnew) as (id & w1 & K & Hrun).
  destruct (writeNodeToTables_outcome n id w1 By Bx) as (Hlat & Hlon & _).
  assert (Dlat : latitude_in_range (roundScaled (Node_y n))
                 \/ ~ latitude_in_range (roundScaled (Node_y n)))
    by (unfold latitude_in_range; lia).
  assert (Dlon : longitude_in_range (roundScaled (Node_x n))
                 \/ ~ longitude_in_range (roundScaled (Node_x n)))
    by (unfold longitude_in_range; lia).
  assert (Hin : latitude_in_range (roundScaled (Node_y n)) ->
                longitude_in_range (roundScaled (Node_x n)) ->
                forall e, outcome (writePartial_Node n w) = inl e ->
                          e <> InvalidLatitude /\ e <> InvalidLongitude).
  { intros H1 H2 e He. apply outcome_Throw in He as (w' & He).
    exact (writePartial_Node_in_range n By Bx H1 H2 w e w' He). }
  assert (Hout1 : ~ latitude_in_range (roundScaled (Node_y n)) ->
                  outcome (writePartial_Node n w) = inl InvalidLatitude).
  { intros H. rewrite Hrun, (bind_of_Throw _ _ _ _ _ (Hlat H)). reflexivity. }
  assert (Hout2 : latitude_in_range (roundScaled (Node_y n)) ->
                  ~ longitude_in_range (roundScaled (Node_x n)) ->
                  outcome (writePartial_Node n w) = inl InvalidLongitude).
  { intros H H'. rewrite Hrun, (bind_of_Throw _ _ _ _ _ (Hlon H H')). reflexivity. }
  split; [| split].
  - split; [| exact Hout1].
    intros He Hy. destruct Dlon as [Hx | Hx].
    + destruct (Hin Hy Hx _ He) as [C _]. now apply C.
    + rewrite (Hout2 Hy Hx) in He. discriminate.
  - split.
    + intros He. destruct Dlat as [Hy | Hy].
      * split; [exact Hy |]. intros Hx.
        destruct (Hin Hy Hx _ He) as [_ C]. now apply C.
      * rewrite (Hout1 Hy) in He. discriminate.
    + intros [Hy Hx]. now apply Hout2.
  - intros pre post w0 e Hpre He.
    exact (session_stops_at_failure pre post (ENode n) w0 w e Hpre He).
Qed.

Lemma node_coordinate_checks_witness :
  let n := mkNode (Ext := exactExternal) 5 [] 2%Q 91%Q in
  let w := final_state (open (newWriter "online" 17 50000 false false Scenario.busyDb)) in
  outcome (writePartial_Node n w) = inl InvalidLatitude
  <-> ~ latitude_in_range (roundScaled (Node_y n)).
Proof.
  intros n w.
  refine (proj1 (node_coordinate_checks n w _ _ _)).
  - split; [vm_compute; discriminate | vm_compute; reflexivity].
  - split; [vm_compute; discriminate | vm_compute; reflexivity].
  - left. reflexivity.
Defined.

(** The claim fails for a node with both coordinates out of range: the
    longitude 181 is outside its range, and the failure is
    [InvalidLatitude], not [InvalidLongitude]. *)
Lemma longitude_error_masked_by_latitude :
  let n := mkNode (Ext := exactExternal) 5 [] 181%Q 91%Q in
  let w := final_state (open (newWriter "online" 17 50000 false false Scenario.busyDb)) in
  is_new_node n w
  /\ ~ longitude_in_range (roundScaled (Node_x n))
  /\ outcome (writePartial_Node n w) = inl InvalidLatitude
  /\ outcome (writePartial_Node n w) <> inl InvalidLongitude.
Proof.
  intros n w. split; [left; reflexivity |].
  split; [intros [_ H]; vm_compute in H; now apply H |].
  split; [vm_compute; reflexivity | vm_compute; discriminate].
Qed.

(** The reduction modulo 2^32: latitude 429 is written as -4967296 and
    the node is accepted. *)
Lemma wrapped_latitude_accepted :
  map (column 1)
    (table_rows "current_nodes"
       (Scenario.script_of (Scenario.online [Scenario.node 5 2 429])))
  = [-4967296].
Proof. vm_compute. reflexivity. Qed.

(** ** Loops, and the steps of a method *)

Section Loops.
Context `{Ext : External}.

Lemma preserves_writeWaynodesToTables_loop {X} (f : OsmApiDbBulkWriter -> X) s l i :
  ignores_section f ApiDb.getCurrentWayNodesTableName ->
  ignores_section f ApiDb.getWayNodesTableName ->
  preserves f (_writeWaynodesToTables_loop s l i).
Proof.
  intros Hs Hs'. revert i. induction l as [|x l IH]; intros i; simpl; pres.
Qed.

Lemma preserves_writeRelationMember {X} (f : OsmApiDbBulkWriter -> X) a b c d :
  ignores_section f ApiDb.getCurrentRelationMembersTableName ->
  ignores_section f ApiDb.getRelationMembersTableName ->
  ignores_relationMembersWritten f ->
  preserves f (_writeRelationMember a b c d).
Proof. intros Hs Hs' Hr. unfold _writeRelationMember. pres. Qed.

Lemma preserves_writeRelationMembersToTables_loop {X} (f : OsmApiDbBulkWriter -> X)
  r d l i :
  ignores_section f ApiDb.getCurrentRelationMembersTableName ->
  ignores_section f ApiDb.getRelationMembersTableName ->
  ignores_unresolvedRefs f -> ignores_relationMembersWritten f ->
  preserves f (_writeRelationMembersToTables_loop r d l i).
Proof.
  intros Hs Hs' Hu Hr. revert i.
  induction l as [|x l IH]; intros i; simpl; unfold _writeRelationMember; pres.
Qed.

Lemma preserves_writeCombinedSqlFile_loop {X} (f : OsmApiDbBulkWriter -> X) names out :
  ignores_sections f -> preserves f (_writeCombinedSqlFile_loop names out).
Proof.
  intros Hs. revert out. induction names as [|x names IH]; intros out; simpl; pres.
  all: apply preserves_stream_out, Hs.
Qed.

End Loops.

Ltac side_ignores := first [ assumption | intros ? ?; reflexivity | side_section ].

Ltac pres_loops :=
  lazymatch goal with
  | |- preserves _ (_writeWaynodesToTables_loop _ _ _) =>
      apply preserves_writeWaynodesToTables_loop; side_ignores
  | |- preserves _ (_writeRelationMembersToTables_loop _ _ _ _) =>
      apply preserves_writeRelationMembersToTables_loop; side_ignores
  | |- preserves _ (_writeCombinedSqlFile_loop _ _) =>
      apply preserves_writeCombinedSqlFile_loop; side_ignores
  end.

Ltac pres ::= repeat first [ assumption | solve [auto with pres] | pres_loops | pres_step ].

Ltac unfold_methods :=
  unfold session, written, finalizePartial, open, writePartial;
  unfold writePartial_Node, writePartial_Way, writePartial_Relation, _lockIds,
    _writeCombinedSqlFile, _updateIdOffsetsInNewFile, _executeElementSql;
  unfold _createNodeTables, _createWayTables, _createRelationTables, rejectKnown,
    _establishNewIdMapping, _writeNodeToTables, _writeTagsToTables,
    _writeWayToTables, _writeWaynodesToTables, _writeRelationToTables,
    _writeRelationMembersToTables, _incrementChangesInChangeset,
    _checkUnresolvedReferences, _writeSequenceUpdates, _getLatestIdsFromDb;
  unfold _writeChangesetToTable, _writeRelationMember, getNextId, assert,
    BigMap_contains, BigMap_insert.

(** Splits [H : (m1 ;; m2 ;; ...) w = Ok b w'] into its steps; a step that
    is not [get], [modify] or [ret] gives the equation [f w1 = f w0]. *)
Ltac inv_chain f H :=
  repeat (
    let a := fresh "a" in
    let w1 := fresh "w" in
    let H1 := fresh "H1" in
    apply bind_Ok in H as (a & w1 & H1 & H);
    lazymatch type of H1 with
    | get _ = _ => injection H1 as <- <-
    | modify _ _ = _ => injection H1 as _ <-
    | ret _ _ = _ => injection H1 as <- <-
    | ?m ?w0 = _ =>
        let E := fresh "E" in
        assert (E : f w1 = f w0)
          by (refine (preserves_Ok f m w0 _ w1 _ H1); unfold_methods; pres);
        clear H1
    end).

Ltac inv_last f H :=
  lazymatch type of H with
  | get _ = _ => injection H as <- <-
  | modify _ _ = _ => injection H as <-
  | ret _ _ = _ => injection H as <-
  | ?m ?w0 = Ok _ ?w1 =>
      let E := fresh "E" in
      assert (E : f w1 = f w0)
        by (refine (preserves_Ok f m w0 _ w1 _ H); unfold_methods; pres);
      clear H
  end.

Ltac inv_all f H := inv_chain f H; inv_last f H; cbv beta in *; simpl in *.

Section Counts.
Context `{Ext : External}.

Lemma writePartial_Way_counts y w w' :
  writePartial_Way y w = Ok tt w' ->
  nodesWritten (_writeStats w') = nodesWritten (_writeStats w)
  /\ waysWritten (_writeStats w') = long_incr (waysWritten (_writeStats w))
  /\ relationsWritten (_writeStats w') = relationsWritten (_writeStats w).
Proof.
  intros H. unfold writePartial_Way in H.
  inv_all (fun w => (nodesWritten (_writeStats w), waysWritten (_writeStats w),
                     relationsWritten (_writeStats w))) H.
  repeat split; congruence.
Qed.

Lemma writePartial_Relation_counts r w w' :
  writePartial_Relation r w = Ok tt w' ->
  nodesWritten (_writeStats w') = nodesWritten (_writeStats w)
  /\ waysWritten (_writeStats w') = waysWritten (_writeStats w)
  /\ relationsWritten (_writeStats w') = long_incr (relationsWritten (_writeStats w)).
Proof.
  intros H. unfold writePartial_Relation in H.
  inv_all (fun w => (nodesWritten (_writeStats w), waysWritten (_writeStats w),
                     relationsWritten (_writeStats w))) H.
  repeat split; congruence.
Qed.

Lemma writePartial_Node_counts n w w' :
  writePartial_Node n w = Ok tt w' ->
  nodesWritten (_writeStats w') = long_incr (nodesWritten (_writeStats w))
  /\ waysWritten (_writeStats w') = waysWritten (_writeStats w)
  /\ relationsWritten (_writeStats w') = relationsWritten (_writeStats w).
Proof.
  intros H. unfold writePartial_Node in H.
  inv_all (fun w => (nodesWritten (_writeStats w), waysWritten (_writeStats w),
                     relationsWritten (_writeStats w))) H.
  repeat split; congruence.
Qed.
End Counts.

Section Online.
Context `{Ext : External}.

Lemma wrap64_small (z : Z) : - 2 ^ 63 <= z < 2 ^ 63 -> wrap64 z = z.
Proof. intros H. unfold wrap64. rewrite Z.mod_small by lia. lia. Qed.

Lemma wrap64_add_l (a b : Z) : wrap64 (wrap64 a + b) = wrap64 (a + b).
Proof.
  unfold wrap64.
  replace ((a + 2 ^ 63) mod 2 ^ 64 - 2 ^ 63 + b + 2 ^ 63)
    with ((a + 2 ^ 63) mod 2 ^ 64 + b) by lia.
  rewrite Zplus_mod_idemp_l. f_equal. f_equal. lia.
Qed.

Lemma long_incr_wrap (c : Z) : long_incr (wrap64 c) = wrap64 (c + 1).
Proof. unfold long_incr, long_add. apply wrap64_add_l. Qed.

Lemma count_kind_cons k e l :
  count_kind k (e :: l) = (if bool_decide (kind_of e = k) then 1 else 0) + count_kind k l.
Proof.
  unfold count_kind. simpl. destruct (bool_decide (kind_of e = k)); simpl List.length; lia.
Qed.

Lemma count_kind_nonneg k l : 0 <= count_kind k l.
Proof. unfold count_kind. lia. Qed.

Lemma count_kind_total l :
  count_kind ElementType.Node l + count_kind ElementType.Way l
  + count_kind ElementType.Relation l = Z.of_nat (List.length l).
Proof.
  induction l as [|e l IH]; [reflexivity |].
  rewrite !count_kind_cons. simpl List.length.
  destruct e; unfold kind_of; simpl; lia.
Qed.

Lemma writePartial_counts e w w' :
  writePartial e w = Ok tt w' ->
  forall cn cw cr,
    nodesWritten (_writeStats w) = wrap64 cn ->
    waysWritten (_writeStats w) = wrap64 cw ->
    relationsWritten (_writeStats w) = wrap64 cr ->
    nodesWritten (_writeStats w') = wrap64 (cn + count_kind ElementType.Node [e])
    /\ waysWritten (_writeStats w') = wrap64 (cw + count_kind ElementType.Way [e])
    /\ relationsWritten (_writeStats w') = wrap64 (cr + count_kind ElementType.Relation [e]).
Proof.
  intros H cn cw cr Hn Hw Hr.
  rewrite !count_kind_cons. change (count_kind _ []) with 0.
  destruct e as [n|y|r]; unfold kind_of; simpl fst; unfold writePartial in H;
    [ apply writePartial_Node_counts in H as (-> & -> & ->)
    | apply writePartial_Way_counts in H as (-> & -> & ->)
    | apply writePartial_Relation_counts in H as (-> & -> & ->) ];
    rewrite Hn, Hw, Hr, long_incr_wrap;
    repeat case_bool_decide; try congruence;
    rewrite ?Z.add_0_r; auto.
Qed.

Lemma forEach_counts elements : forall w w' cn cw cr,
  forEach elements writePartial w = Ok tt w' ->
  nodesWritten (_writeStats w) = wrap64 cn ->
  waysWritten (_writeStats w) = wrap64 cw ->
  relationsWritten (_writeStats w) = wrap64 cr ->
  nodesWritten (_writeStats w') = wrap64 (cn + count_kind ElementType.Node elements)
  /\ waysWritten (_writeStats w') = wrap64 (cw + count_kind ElementType.Way elements)
  /\ relationsWritten (_writeStats w') = wrap64 (cr + count_kind ElementType.Relation elements).
Proof.
  induction elements as [|e l IH]; intros w w' cn cw cr H Hn Hw Hr.
  - injection H as <-. unfold count_kind. simpl. now rewrite !Z.add_0_r.
  - simpl in H. apply bind_Ok in H as ([] & w1 & H1 & H).
    destruct (writePartial_counts e w w1 H1 cn cw cr Hn Hw Hr) as (Hn1 & Hw1 & Hr1).
    destruct (IH w1 w' _ _ _ H Hn1 Hw1 Hr1) as (Hn2 & Hw2 & Hr2).
    rewrite Hn2, Hw2, Hr2. rewrite !(count_kind_cons _ e).
    change (count_kind _ []) with 0.
    repeat split; f_equal; lia.
Qed.

Lemma written_counts elements mode user max exec ndebug db w :
  written elements (newWriter mode user max exec ndebug db) = Ok tt w ->
  nodesWritten (_writeStats w) = wrap64 (count_kind ElementType.Node elements)
  /\ waysWritten (_writeStats w) = wrap64 (count_kind ElementType.Way elements)
  /\ relationsWritten (_writeStats w) = wrap64 (count_kind ElementType.Relation elements).
Proof.
  unfold written. intros H. apply bind_Ok in H as ([] & w1 & Hopen & H).
  pose (f := fun w : OsmApiDbBulkWriter =>
               (nodesWritten (_writeStats w), waysWritten (_writeStats w),
                relationsWritten (_writeStats w))).
  assert (E : f w1 = f (newWriter mode user max exec ndebug db))

    by (refine (preserves_Ok f open _ _ _ _ Hopen); unfold_methods; pres).
  injection E as En Ew Er.
  apply (forEach_counts elements w1 w 0 0 0 H); assumption.
Qed.

Lemma written_mode elements mode user max exec ndebug db w :
  written elements (newWriter mode user max exec ndebug db) = Ok tt w ->
  _mode w = toLower mode.
Proof.
  unfold written. intros H.
  refine (preserves_Ok _mode _ _ _ _ _ H). unfold_methods. pres.
Qed.


Lemma fails_keeping_bind {X A B} (f : OsmApiDbBulkWriter -> X) (m : M A)
  (k : A -> M B) w0 w :
  f w = f w0 -> preserves f m ->
  (forall a w1, f w1 = f w0 -> fails_keeping f (k a) w0 w1) ->
  fails_keeping f (bind m k) w0 w.
Proof.
  intros E Hm Hk. unfold fails_keeping, bind.
  destruct (m w) as [a w1|e w1] eqn:R.
  - apply Hk. rewrite <- E. exact (preserves_Ok f m w a w1 Hm R).
  - exists e, w1. split; [reflexivity |].
    rewrite <- E. exact (preserves_Throw f m w e w1 Hm R).
Qed.

Lemma fails_keeping_get {X B} (f : OsmApiDbBulkWriter -> X)
  (k : OsmApiDbBulkWriter -> M B) w0 w :
  fails_keeping f (k w) w0 w -> fails_keeping f (bind get k) w0 w.
Proof. intros H. exact H. Qed.

Lemma finalize_online_without_nodes (w : OsmApiDbBulkWriter) :
  _mode w = "online" ->
  nodesWritten (_writeStats w) = 0 ->
  waysWritten (_writeStats w) <> 0 \/ relationsWritten (_writeStats w) <> 0 ->
  exists e w', finalizePartial w = Throw e w' /\ _database w' = _database w.
Proof.
  intros Hmode Hn Hdata.
  pose (f := fun w : OsmApiDbBulkWriter =>
               (_mode w, nodesWritten (_writeStats w), _database w)).
  assert (H : fails_keeping f finalizePartial w w).
  { unfold finalizePartial. apply fails_keeping_get.
    cbv beta.
    destruct ((nodesWritten (_writeStats w) =? 0) && (waysWritten (_writeStats w) =? 0)
              && (relationsWritten (_writeStats w) =? 0)) eqn:C.
    { apply andb_true_iff in C as [C Cr]. apply andb_true_iff in C as [_ Cw].
      apply Z.eqb_eq in Cr, Cw. tauto. }
    apply fails_keeping_bind; [reflexivity | pres |]. intros _ w1 E1.
    apply fails_keeping_get.
    apply fails_keeping_bind; [assumption | unfold_methods; pres |]. intros _ w2 E2.
    apply fails_keeping_get.
    apply fails_keeping_bind; [assumption | unfold_methods; pres |]. intros _ w3 E3.
    apply fails_keeping_get.
    apply fails_keeping_bind; [assumption | unfold_methods; pres |]. intros _ w4 E4.
    apply fails_keeping_bind; [assumption | unfold_methods; pres |]. intros script w5 E5.
    apply fails_keeping_get.
    injection E5 as Em En Ed. rewrite Em, Hmode. simpl String.eqb. cbv iota.
    exists CannotLockIds, w5. split.
    - unfold _lockIds, bind, get. rewrite En, Hn. reflexivity.
    - unfold f. now rewrite Em, En, Ed. }
  destruct H as (e & w' & H & E). exists e, w'. split; [exact H |].
  now injection E.
Qed.
End Online.

(** ** Online reservation without nodes (C10) *)

Lemma count_kind_none `{Ext : External} (k : ElementType) (elements : list Element) :
  Forall (fun e => kind_of e <> k) elements -> count_kind k elements = 0.
Proof.
  induction 1 as [|e l He Hl IH]; [reflexivity |].
  rewrite count_kind_cons, IH. case_bool_decide; [contradiction | reflexivity].
Qed.

(** C10, as the code has it.  Online, after a stream without nodes that
    holds at least one way or relation, all written: [finalizePartial]
    fails, and the database is as it was (no id was requested, no
    statement executed). *)
Theorem online_finalize_needs_a_node `{Ext : External} (elements : list Element)
  (userId maxChangesetSize : Z) (executeSql ndebug : bool) (db : Database)
  (w : OsmApiDbBulkWriter) :
  elements <> [] ->
  Forall (fun e => is_node e = false) elements ->
  Z.of_nat (List.length elements) < 2 ^ 63 ->
  written elements (newWriter "online" userId maxChangesetSize executeSql ndebug db)
  = Ok tt w ->
  exists e w', finalizePartial w = Throw e w' /\ _database w' = _database w.
Proof.
  intros Hne Hnodes Hlen Hrun.
  pose proof (written_mode _ _ _ _ _ _ _ _ Hrun) as Hmode.
  destruct (written_counts _ _ _ _ _ _ _ _ Hrun) as (Hn & Hw & Hr).
  assert (H0 : count_kind ElementType.Node elements = 0).
  { apply count_kind_none. eapply Forall_impl; [exact Hnodes |].
    intros [n|y|r]; simpl; intros H; [discriminate H | discriminate | discriminate]. }
  pose proof (count_kind_total elements) as Htotal.
  pose proof (count_kind_nonneg ElementType.Way elements) as Hwn.
  pose proof (count_kind_nonneg ElementType.Relation elements) as Hrn.
  assert (Hpos : 0 < Z.of_nat (List.length elements)).
  { destruct elements; [contradiction | simpl; lia]. }
  apply finalize_online_without_nodes.
  - exact Hmode.
  - rewrite Hn, H0. reflexivity.
  - rewrite Hw, Hr, !wrap64_small by lia. lia.
Qed.

Lemma online_finalize_needs_a_node_witness :
  let w0 := newWriter "online" 17 50000 false false Scenario.busyDb in
  let w := final_state (written [Scenario.way 7 []] w0) in
  exists e w', finalizePartial w = Throw e w' /\ _database w' = _database w.
Proof.
  intros w0 w.
  apply (online_finalize_needs_a_node [Scenario.way 7 []] 17 50000 false false
           Scenario.busyDb w).
  - discriminate.
  - repeat constructor.
  - vm_compute. reflexivity.
  - vm_compute. reflexivity.
Defined.

(** The claim fails for the stream without elements: online,
    [finalizePartial] returns, with no script, and the database is not
    touched. *)
Lemma online_finalize_returns_without_elements :
  let r := session (Ext := exactExternal) []
             (newWriter "online" 17 50000 false false Scenario.busyDb) in
  outcome r = inr None
  /\ db_events (_database (final_state r)) = [].
Proof. split; vm_compute; reflexivity. Qed.

(** ** Duplicates *)

(** As [inv_chain], but the steps that decide the fate of the source id
    are kept as they are. *)
Ltac inv_chain_keep f H :=
  repeat (
    let a := fresh "a" in
    let w1 := fresh "w" in
    let H1 := fresh "H1" in
    apply bind_Ok in H as (a & w1 & H1 & H);
    lazymatch type of H1 with
    | get _ = _ => injection H1 as <- <-
    | modify _ _ = _ => injection H1 as _ <-
    | ret _ _ = _ => injection H1 as <- <-
    | rejectKnown _ _ _ = _ => idtac
    | ?m ?w0 = _ =>
        first [ let E := fresh "E" in
                assert (E : f w1 = f w0)
                  by (refine (preserves_Ok f m w0 _ w1 _ H1); unfold_methods; pres);
                clear H1
              | idtac ]
    end).

Section Duplicates.
Context `{Ext : External}.

Lemma rejectKnown_Ok key m w a w1 :
  rejectKnown key m w = Ok a w1 ->
  w1 = w /\ exists mm, m = Some mm /\ mm !! key = None.
Proof.
  unfold rejectKnown, BigMap_contains. destruct m as [mm|]; [| discriminate].
  case_bool_decide as Hk; [discriminate |].
  intros [= _ <-]. split; [reflexivity |]. exists mm. split; [reflexivity |].
  destruct (mm !! key) eqn:E; [| reflexivity]. exfalso. apply Hk. eauto.
Qed.

Ltac idMappings_effect cond :=
  unfold idMap_in_use, written_count, idMap; cbv beta iota;
  destruct cond eqn:Ec;
  match goal with
  | Hw : when ?c _ _ = Ok _ _ |- _ =>
      try (change c with cond in Hw; rewrite Ec in Hw); simpl in Hw;
      injection Hw as Hw; subst
  end;
  match goal with
  | Hr : rejectKnown _ _ _ = Ok _ _ |- _ =>
      let m := fresh "m" in
      let Hm := fresh "Hm" in
      let Hid := fresh "Hid" in
      apply rejectKnown_Ok in Hr as (-> & m & Hm & Hid);
      simpl in Hm; try (injection Hm as Hm; subst m);
      match goal with
      | He : _establishNewIdMapping _ _ = Ok _ _ |- _ =>
          unfold _establishNewIdMapping, bind, get in He; simpl in He;
          try rewrite Hm in He; simpl in He; injection He as He1 He2; subst
      end;
      eexists; split; [first [ reflexivity | exact Hm ] |];
      split; [exact Hid |]
  end;
  repeat match goal with
         | E : _idMappings ?w1 = _ |- context [_idMappings ?w1] => rewrite E; simpl
         end;
  reflexivity.

Lemma writePartial_Node_idMappings n w w' :
  writePartial_Node n w = Ok tt w' ->
  exists m, idMap_in_use ElementType.Node w = Some m
    /\ m !! Node_id n = None
    /\ _idMappings w'
       = set_currentNodeId (long_incr (currentNodeId (_idMappings w)))
           (set_nodeIdMap (Some (<[Node_id n := currentNodeId (_idMappings w)]> m))
              (_idMappings w)).
Proof.
  intros H. unfold writePartial_Node in H.
  inv_chain_keep _idMappings H. inv_last _idMappings H.
  idMappings_effect (nodesWritten (_writeStats w) =? 0).
Qed.

Lemma writePartial_Way_idMappings y w w' :
  writePartial_Way y w = Ok tt w' ->
  exists m, idMap_in_use ElementType.Way w = Some m
    /\ m !! Way_id y = None
    /\ _idMappings w'
       = set_currentWayId (long_incr (currentWayId (_idMappings w)))
           (set_wayIdMap (Some (<[Way_id y := currentWayId (_idMappings w)]> m))
              (_idMappings w)).
Proof.
  intros H. unfold writePartial_Way in H.
  inv_chain_keep _idMappings H. inv_last _idMappings H.
  idMappings_effect (waysWritten (_writeStats w) =? 0).
Qed.

Lemma writePartial_Relation_idMappings r w w' :
  writePartial_Relation r w = Ok tt w' ->
  exists m, idMap_in_use ElementType.Relation w = Some m
    /\ m !! Relation_id r = None
    /\ _idMappings w'
       = set_currentRelationId (long_incr (currentRelationId (_idMappings w)))
           (set_relationIdMap
              (Some (<[Relation_id r := currentRelationId (_idMappings w)]> m))
              (_idMappings w)).
Proof.
  intros H. unfold writePartial_Relation in H.
  inv_chain_keep _idMappings H. inv_last _idMappings H.
  idMappings_effect (relationsWritten (_writeStats w) =? 0).
Qed.

Lemma count_kind_app k l1 l2 :
  count_kind k (l1 ++ l2) = count_kind k l1 + count_kind k l2.
Proof.
  unfold count_kind. rewrite List.filter_app, List.length_app. lia.
Qed.

Lemma count_kind_pos k e l : In e l -> kind_of e = k -> 1 <= count_kind k l.
Proof.
  induction l as [|x l IH]; intros Hin Hk; [destruct Hin |].
  rewrite count_kind_cons. pose proof (count_kind_nonneg k l).
  destruct Hin as [-> | Hin].
  - case_bool_decide; [lia | contradiction].
  - specialize (IH Hin Hk). case_bool_decide; lia.
Qed.

Lemma count_kind_le k l : count_kind k l <= Z.of_nat (List.length l).
Proof.
  unfold count_kind. pose proof (List.filter_length_le
    (fun e => bool_decide (kind_of e = k)) l). lia.
Qed.

Lemma writePartial_effect e w w' :
  writePartial e w = Ok tt w' ->
  (forall k, k <> ElementType.Unknown ->
     written_count k w'
     = if bool_decide (kind_of e = k) then long_incr (written_count k w)
       else written_count k w)
  /\ (forall k, kind_of e <> k -> idMap k w' = idMap k w)
  /\ exists m, idMap_in_use (kind_of e) w = Some m
       /\ m !! snd (getElementId e) = None
       /\ exists v, idMap (kind_of e) w' = Some (<[snd (getElementId e) := v]> m).
Proof.
  intros H. destruct e as [n|y|r]; unfold writePartial in H.
  - destruct (writePartial_Node_counts n w w' H) as (Hn & Hw & Hr).
    destruct (writePartial_Node_idMappings n w w' H) as (m & Hm & Hid & Hi).
    split; [| split].
    + intros [] Hk; unfold kind_of; simpl; try case_bool_decide; congruence.
    + intros [] Hk; unfold kind_of in *; simpl in *; try congruence; now rewrite Hi.
    + exists m. split; [exact Hm |]. split; [exact Hid |]. eexists.
      unfold kind_of. simpl. rewrite Hi. reflexivity.
  - destruct (writePartial_Way_counts y w w' H) as (Hn & Hw & Hr).
    destruct (writePartial_Way_idMappings y w w' H) as (m & Hm & Hid & Hi).
    split; [| split].
    + intros [] Hk; unfold kind_of; simpl; try case_bool_decide; congruence.
    + intros [] Hk; unfold kind_of in *; simpl in *; try congruence; now rewrite Hi.
    + exists m. split; [exact Hm |]. split; [exact Hid |]. eexists.
      unfold kind_of. simpl. rewrite Hi. reflexivity.
  - destruct (writePartial_Relation_counts r w w' H) as (Hn & Hw & Hr).
    destruct (writePartial_Relation_idMappings r w w' H) as (m & Hm & Hid & Hi).
    split; [| split].
    + intros [] Hk; unfold kind_of; simpl; try case_bool_decide; congruence.
    + intros [] Hk; unfold kind_of in *; simpl in *; try congruence; now rewrite Hi.
    + exists m. split; [exact Hm |]. split; [exact Hid |]. eexists.
      unfold kind_of. simpl. rewrite Hi. reflexivity.
Qed.

Lemma kind_of_known e : kind_of e <> ElementType.Unknown.
Proof. destruct e; discriminate. Qed.

Lemma knows_step pre e w w' :
  Z.of_nat (List.length (pre ++ [e])) < 2 ^ 63 ->
  knows pre w -> writePartial e w = Ok tt w' -> knows (pre ++ [e]) w'.
Proof.
  intros Hlen [Hcount Hmaps] H.
  destruct (writePartial_effect e w w' H) as (Hc & Hother & m & Hm & Hid & v & Hown).
  rewrite List.length_app in Hlen. simpl in Hlen.
  split.
  - intros k Hk. rewrite (Hc k Hk), count_kind_app, count_kind_cons.
    change (count_kind k []) with 0. rewrite (Hcount k Hk).
    pose proof (count_kind_nonneg k pre). pose proof (count_kind_le k pre).
    case_bool_decide; [| lia].
    unfold long_incr, long_add. rewrite wrap64_small; lia.
  - intros e' Hin. apply in_app_or in Hin as [Hin | [<- | []]].
    + destruct (Hmaps e' Hin) as (m' & Hm' & Hin').
      destruct (decide (kind_of e = kind_of e')) as [Heq | Hne].
      * rewrite <- Heq, Hown. eexists. split; [reflexivity |].
        assert (Hsame : m = m').
        { unfold idMap_in_use in Hm.
          rewrite (Hcount _ (kind_of_known e)) in Hm.
          pose proof (count_kind_pos (kind_of e) e' pre Hin (eq_sym Heq)).
          destruct (count_kind (kind_of e) pre =? 0) eqn:Z0; [apply Z.eqb_eq in Z0; lia |].
          rewrite Heq, Hm' in Hm. now injection Hm. }
        subst m'. rewrite lookup_insert. case_decide; [eauto | exact Hin'].
      * rewrite (Hother _ Hne). eauto.
    + rewrite Hown. eexists. split; [reflexivity |].
      rewrite lookup_insert_eq. eauto.
Qed.

Lemma knows_opened mode user max exec ndebug db w :
  open (newWriter mode user max exec ndebug db) = Ok tt w -> knows [] w.
Proof.
  intros H. split; [| intros e []].
  pose (f := fun w : OsmApiDbBulkWriter =>
               (nodesWritten (_writeStats w), waysWritten (_writeStats w),
                relationsWritten (_writeStats w))).
  assert (E : f w = f (newWriter mode user max exec ndebug db))
    by (refine (preserves_Ok f open _ _ _ _ H); unfold_methods; pres).
  injection E as En Ew Er.
  intros [] Hk; simpl; try assumption. contradiction.
Qed.

Lemma written_snoc pre e w0 w :
  written (pre ++ [e]) w0 = Ok tt w ->
  exists w1, written pre w0 = Ok tt w1 /\ writePartial e w1 = Ok tt w.
Proof.
  unfold written. intros H. apply bind_Ok in H as ([] & wo & Hopen & H).
  rewrite forEach_app in H. apply bind_Ok in H as ([] & w1 & Hpre & H).
  simpl in H. apply bind_Ok in H as ([] & w2 & He & H). injection H as <-.
  exists w1. split; [| exact He].
  rewrite (bind_of_Ok _ _ _ _ _ Hopen). exact Hpre.
Qed.

Lemma written_knows elements mode user max exec ndebug db : forall w,
  Z.of_nat (List.length elements) < 2 ^ 63 ->
  written elements (newWriter mode user max exec ndebug db) = Ok tt w ->
  knows elements w.
Proof.
  induction elements as [|e pre IH] using rev_ind; intros w Hlen H.
  - unfold written in H. apply bind_Ok in H as ([] & w1 & Hopen & H).
    injection H as <-. eapply knows_opened, Hopen.
  - apply written_snoc in H as (w1 & Hpre & He).
    eapply knows_step; [exact Hlen | | exact He].
    apply IH; [| exact Hpre]. rewrite List.length_app in Hlen. simpl in Hlen. lia.
Qed.

(** An element whose kind and source id are known is rejected. *)
Lemma writePartial_known e w m :
  written_count (kind_of e) w <> 0 ->
  idMap (kind_of e) w = Some m ->
  is_Some (m !! snd (getElementId e)) ->
  exists w', writePartial e w = Throw UpdateNotSupported w'.
Proof.
  intros Hc Hm Hin. apply Z.eqb_neq in Hc.
  destruct e as [n|y|r]; unfold kind_of in *; simpl in *;
    destruct_writer w; simpl in *; subst.
  - unfold writePartial_Node. repeat mstep. simpl. rewrite Hc. repeat mstep.
    unfold rejectKnown. simpl. rewrite bool_decide_eq_true_2 by assumption.
    eexists. reflexivity.
  - unfold writePartial_Way. repeat mstep. simpl. rewrite Hc. repeat mstep.
    unfold rejectKnown. simpl. rewrite bool_decide_eq_true_2 by assumption.
    eexists. reflexivity.
  - unfold writePartial_Relation. repeat mstep. simpl. rewrite Hc. repeat mstep.
    unfold rejectKnown. simpl. rewrite bool_decide_eq_true_2 by assumption.
    eexists. reflexivity.
Qed.

End Duplicates.

(** ** Changesets (C6) *)

#[export] Hint Unfold changeset_view accumulator_view changesets_section
  elements_written : views.

Ltac destruct_unit := repeat match goal with u : unit |- _ => destruct u end.

Section Changesets.
Context `{Ext : External}.

Lemma timestamp_not_LF c : timestamp_char c = true -> not_char LF c = true.
Proof. revert c. intros [[] [] [] [] [] [] [] []]; vm_compute; congruence. Qed.

Lemma timestamp_not_TAB c : timestamp_char c = true -> not_char TAB c = true.
Proof. revert c. intros [[] [] [] [] [] [] [] []]; vm_compute; congruence. Qed.

Lemma numeral_not_LF c : numeral_char c = true -> not_char LF c = true.
Proof. revert c. intros [[] [] [] [] [] [] [] []]; vm_compute; congruence. Qed.

Lemma numeral_not_TAB c : numeral_char c = true -> not_char TAB c = true.
Proof. revert c. intros [[] [] [] [] [] [] [] []]; vm_compute; congruence. Qed.

Lemma number_no_LF z : forall_chars (not_char LF) (number z) = true.
Proof. eapply forall_chars_impl; [apply numeral_not_LF | apply number_numeral]. Qed.

Lemma number_no_TAB z : forall_chars (not_char TAB) (number z) = true.
Proof. eapply forall_chars_impl; [apply numeral_not_TAB | apply number_numeral]. Qed.

Lemma datestring_no_LF : forall_chars (not_char LF) datestring = true.
Proof. eapply forall_chars_impl; [apply timestamp_not_LF | apply datestring_chars]. Qed.

Lemma datestring_no_TAB : forall_chars (not_char TAB) datestring = true.
Proof. eapply forall_chars_impl; [apply timestamp_not_TAB | apply datestring_chars]. Qed.

Lemma first_char_app p a b :
  first_char p a = true -> first_char p (a +:+ b) = true.
Proof. destruct a; [discriminate | now rewrite app_cons_s]. Qed.

Lemma changeset_line_data_row c : data_row (changeset_line c).
Proof.
  split.
  - apply forall_chars_join; [reflexivity |].
    repeat constructor; auto using number_no_LF, datestring_no_LF.
  - unfold changeset_line.
    change (join (chr TAB) (?a :: ?b :: ?r)) with (a +:+ chr TAB +:+ join (chr TAB) (b :: r)).
    apply first_char_app, number_first_char.
Qed.

Lemma changeset_line_last_column c :
  in_long (changesInChangeset c) = true ->
  last_column (changeset_line c) = changesInChangeset c.
Proof.
  intros H. unfold last_column, changeset_line.
  rewrite split_tab_join; [| discriminate |].
  - simpl. now apply toLong_number.
  - repeat constructor; auto using number_no_TAB, datestring_no_TAB.
Qed.


(** [_writeChangesetToTable]: the row of the open changeset goes to the
    section file, which is new when the changeset id is 1. *)
Lemma writeChangesetToTable_Ok w w' :
  _writeChangesetToTable w = Ok tt w' ->
  exists base,
    (if currentChangesetId (_changesetData w) =? 1 then base = changesets_header
     else _outputSections w !! ApiDb.getChangesetsTableName = Some base)
    /\ changeset_view w'
       = (_maxChangesetSize w, changesetUserId (_changesetData w), 0,
          currentChangesetId (_changesetData w),
          Some (base +:+ changeset_line (_changesetData w) +:+ NL)).
Proof.
  unfold _writeChangesetToTable. destruct_writer w. unfold changeset_view. simpl.
  unfold bind at 1. unfold get at 1. simpl.
  destruct (csUser =? -1); [discriminate |].
  destruct (csId =? 1) eqn:Eid.
  - repeat mstep. simpl.
    unfold bind, stream_out, modify. simpl. rewrite lookup_insert_eq.
    intros [= <-]. simpl. rewrite lookup_insert_eq.
    exists changesets_header. split; reflexivity.
  - repeat mstep. unfold bind, stream_out, modify. simpl.
    destruct (secs !! ApiDb.getChangesetsTableName) as [base|] eqn:Es; [| discriminate].
    intros [= <-]. simpl. rewrite lookup_insert_eq.
    exists base. split; reflexivity.
Qed.

Lemma incrementChangesInChangeset_Ok w w' :
  _incrementChangesInChangeset w = Ok tt w' ->
  let c1 := long_incr (changesInChangeset (_changesetData w)) in
  ((c1 =? _maxChangesetSize w) = false
   /\ changeset_view w'
      = (_maxChangesetSize w, changesetUserId (_changesetData w), c1,
         currentChangesetId (_changesetData w),
         _outputSections w !! ApiDb.getChangesetsTableName))
  \/ ((c1 =? _maxChangesetSize w) = true
      /\ exists base,
          (if currentChangesetId (_changesetData w) =? 1 then base = changesets_header
           else _outputSections w !! ApiDb.getChangesetsTableName = Some base)
          /\ changeset_view w'
             = (_maxChangesetSize w, changesetUserId (_changesetData w), 0,
                long_incr (currentChangesetId (_changesetData w)),
                Some (base
                      +:+ changeset_line
                            (set_changesInChangeset c1 (_changesetData w))
                      +:+ NL))).
Proof.
  intros H c1. unfold _incrementChangesInChangeset in H.
  apply bind_Ok in H as ([] & w1 & H1 & H). injection H1 as <-.
  apply bind_Ok in H as (? & w2 & H1 & H). injection H1 as <- <-.
  simpl in H. fold c1 in H.
  destruct (c1 =? _maxChangesetSize w) eqn:E; simpl in H.
  - right. split; [reflexivity |].
    apply bind_Ok in H as ([] & w3 & Hflush & H).
    apply writeChangesetToTable_Ok in Hflush as (base & Hbase & Hview).
    simpl in Hbase, Hview. exists base. split; [exact Hbase |].
    unfold bind, modify in H. injection H as <-.
    unfold changeset_view in *. simpl.
    injection Hview as -> -> _ -> ->. reflexivity.
  - left. split; [reflexivity |]. injection H as <-. reflexivity.
Qed.


Lemma wrap64_succ_ne_1 (n : Z) : 1 <= n < 2 ^ 63 -> wrap64 (1 + n) <> 1.
Proof.
  intros H. unfold wrap64.
  destruct (Z.eq_dec (1 + n) (2 ^ 63)) as [E | E].
  - rewrite E. vm_compute. discriminate.
  - rewrite Z.mod_small by lia. lia.
Qed.

(** The accumulator sees an element only through
    [_incrementChangesInChangeset]. *)
Lemma writePartial_changeset_view e w w' :
  writePartial e w = Ok tt w' ->
  exists w1 w2,
    changeset_view w1 = changeset_view w
    /\ _incrementChangesInChangeset w1 = Ok tt w2
    /\ changeset_view w' = changeset_view w2.
Proof.
  intros H. destruct e as [n|y|r]; unfold writePartial in H;
    [ unfold writePartial_Node in H
    | unfold writePartial_Way in H
    | unfold writePartial_Relation in H ];
    inv_chain_keep changeset_view H; inv_last changeset_view H;
    match goal with
    | Hr : rejectKnown _ _ _ = Ok _ _ |- _ => apply rejectKnown_Ok in Hr as (-> & _)
    end;
    match goal with
    | Hi : _incrementChangesInChangeset ?wa = Ok _ ?wb |- _ =>
        exists wa, wb; destruct_unit; repeat split; [| exact Hi |];
        unfold changeset_view in *; simpl in *; congruence
    end.
Qed.


Lemma accumulating_view k rows w w' :
  changeset_view w' = changeset_view w -> accumulating k rows w -> accumulating k rows w'.
Proof.
  unfold changeset_view, accumulating, changesets_state.
  intros [= -> _ -> -> ->]. tauto.
Qed.

Lemma unlines_snoc rows line : unlines (rows ++ [line]) = unlines rows +:+ line +:+ NL.
Proof. rewrite unlines_app. simpl. now rewrite app_nil_r_s. Qed.

Lemma accumulating_step k rows e w w' :
  accumulating k rows w -> k + 1 < 2 ^ 63 -> writePartial e w = Ok tt w' ->
  exists rows', accumulating (k + 1) rows' w'.
Proof.
  intros Hacc Hk H.
  destruct (writePartial_changeset_view e w w' H) as (w1 & w2 & E1 & Hi & E2).
  apply (accumulating_view _ _ _ _ E1) in Hacc.
  apply incrementChangesInChangeset_Ok in Hi.
  destruct Hacc as (Hc & Hrows & Hsum & Hstate).
  pose proof (Nat2Z.is_nonneg (List.length rows)) as Hlen.
  assert (Hc1 : long_incr (changesInChangeset (_changesetData w1))
                = changesInChangeset (_changesetData w1) + 1).
  { unfold long_incr, long_add. apply wrap64_small. nia. }
  rewrite Hc1 in Hi. destruct Hi as [(Hne & Hview) | (Heq & base & Hbase & Hview)].
  - exists rows. apply (accumulating_view _ _ w2 _ E2).
    apply Z.eqb_neq in Hne.
    unfold accumulating, changesets_state, changeset_view in *.
    injection Hview as -> _ -> -> ->. repeat split; try assumption; lia.
  - apply Z.eqb_eq in Heq.
    set (line := changeset_line
                   (set_changesInChangeset (changesInChangeset (_changesetData w1) + 1)
                      (_changesetData w1))) in *.
    exists (rows ++ [line]). apply (accumulating_view _ _ w2 _ E2).
    assert (Hline : data_row line /\ last_column line = _maxChangesetSize w1).
    { split; [apply changeset_line_data_row |].
      unfold line. rewrite changeset_line_last_column; simpl; [lia |].
      unfold in_long. apply andb_true_iff. split; [apply Z.leb_le | apply Z.ltb_lt]; nia. }
    unfold accumulating, changesets_state, changeset_view in *.
    injection Hview as Hmax _ Hch Hid Hsec. rewrite Hmax, Hch, Hid, Hsec.
    split; [lia |]. split; [apply Forall_app; split; [exact Hrows | constructor; [exact Hline | constructor]] |].
    split; [rewrite List.length_app; simpl; nia |].
    split; [| split; [intros E; now apply app_eq_nil in E as [_ E] |]].
    + destruct (_outputSections w1 !! ApiDb.getChangesetsTableName) as [c0|] eqn:Es.
      * destruct Hstate as (-> & Hne & Hcur).
        assert (H1 : currentChangesetId (_changesetData w1) <> 1).
        { rewrite Hcur. apply wrap64_succ_ne_1. destruct rows; [contradiction |].
          simpl List.length in *. nia. }
        apply Z.eqb_neq in H1. rewrite H1 in Hbase. injection Hbase as <-.
        now rewrite unlines_snoc, !app_assoc_s.
      * subst rows. destruct (currentChangesetId (_changesetData w1) =? 1); [| discriminate].
        subst base. simpl. now rewrite app_nil_r_s.
    + destruct (_outputSections w1 !! ApiDb.getChangesetsTableName) as [c0|] eqn:Es.
      * destruct Hstate as (_ & _ & ->). rewrite long_incr_wrap, List.length_app.
        simpl. f_equal. lia.
      * subst rows. destruct (currentChangesetId (_changesetData w1) =? 1) eqn:E1';
          [| discriminate].
        apply Z.eqb_eq in E1'. rewrite E1'. reflexivity.
Qed.

Lemma forEach_accumulating elements : forall k rows w w',
  accumulating k rows w -> k + Z.of_nat (List.length elements) < 2 ^ 63 ->
  forEach elements writePartial w = Ok tt w' ->
  exists rows', accumulating (k + Z.of_nat (List.length elements)) rows' w'.
Proof.
  induction elements as [|e l IH]; intros k rows w w' Hacc Hk H.
  - injection H as <-. exists rows. simpl. now rewrite Z.add_0_r.
  - simpl in H. apply bind_Ok in H as ([] & w1 & H1 & H).
    simpl List.length in *.
    destruct (accumulating_step k rows e w w1 Hacc ltac:(lia) H1) as (rows1 & Hacc1).
    destruct (IH (k + 1) rows1 w1 w' Hacc1 ltac:(lia) H) as (rows' & Hacc').
    exists rows'. replace (k + Z.of_nat (S (List.length l)))
      with (k + 1 + Z.of_nat (List.length l)) by lia.
    exact Hacc'.
Qed.

Lemma open_accumulating mode user max exec ndebug db w :
  0 < max ->
  open (newWriter mode user max exec ndebug db) = Ok tt w ->
  accumulating 0 [] w.
Proof.
  intros Hmax H.
  assert (E : accumulator_view w
              = accumulator_view (newWriter mode user max exec ndebug db))
    by (refine (preserves_Ok accumulator_view open _ _ _ _ H); unfold_methods; pres).
  unfold accumulator_view in E. simpl in E. injection E as E1 E2 E3.
  unfold accumulating, changesets_state. rewrite E1, E2, E3.
  repeat split; [lia | lia | constructor].
Qed.

Lemma terminators_S c n :
  (c +:+ "\." +:+ NL +:+ NL +:+ NL) +:+ terminators n = c +:+ terminators (S n).
Proof. simpl. now rewrite !app_assoc_s. Qed.

(** The assembly appends terminators to the section files and does
    nothing else to them. *)
Lemma writeCombinedSqlFile_loop_sections t names : forall out w r w',
  _writeCombinedSqlFile_loop names out w = Ok r w' ->
  exists n, _outputSections w' !! t
            = (fun c => c +:+ terminators n) <$> (_outputSections w !! t).
Proof.
  induction names as [|it rest IH]; intros out w r w' H.
  - injection H as _ <-. exists O. destruct (_outputSections w !! t); simpl; [| reflexivity].
    now rewrite app_nil_r_s.
  - simpl in H. apply bind_Ok in H as (? & w1 & H1 & H). injection H1 as <- <-.
    destruct (_outputSections w !! it) as [c|] eqn:Ec; [| eauto].
    destruct (String.eqb (_mode w) "online" && String.eqb it "sequence_updates"); [eauto |].
    apply bind_Ok in H as ([] & w1 & H1 & H).
    apply bind_Ok in H as (? & w2 & H2 & H). injection H2 as <- <-.
    destruct (negb (String.eqb it "byte_order_mark")
              && negb (String.eqb it "sequence_updates")); simpl in H1.
    + unfold stream_out in H1. rewrite Ec in H1. injection H1 as <-.
      simpl in H. rewrite lookup_insert_eq in H.
      apply IH in H as (n & Hn). simpl in Hn.
      destruct (decide (it = t)) as [-> | Hne].
      * rewrite lookup_insert_eq in Hn. exists (S n). rewrite Hn, Ec. simpl.
        f_equal. apply terminators_S.
      * rewrite lookup_insert_ne in Hn by exact Hne. eauto.
    + injection H1 as <-. rewrite Ec in H. eauto.
Qed.

Lemma data_row_not_terminator r : data_row r -> String.eqb r "\." = false.
Proof. intros [_ H]. destruct r as [|c r]; [reflexivity |]. simpl in H.
  apply String.eqb_neq. intros [= -> _]. discriminate H. Qed.

Lemma rows_until_terminator_app rows rest :
  Forall data_row rows ->
  rows_until_terminator (rows ++ rest) = rows ++ rows_until_terminator rest.
Proof.
  induction 1 as [|r rows Hr Hrows IH]; [reflexivity |].
  simpl. rewrite (data_row_not_terminator r Hr), IH. reflexivity.
Qed.

Lemma rows_until_terminators n : rows_until_terminator (readLines (terminators n)) = [].
Proof. destruct n; reflexivity. Qed.

Lemma table_rows_changesets rows n :
  Forall data_row rows ->
  table_rows ApiDb.getChangesetsTableName
    (changesets_header +:+ unlines rows +:+ terminators n) = rows.
Proof.
  intros H. unfold table_rows.
  change changesets_header
    with ("COPY changesets (id, user_id, created_at, min_lat, max_lat, min_lon, max_lon, closed_at, num_changes) FROM stdin;" +:+ NL).
  rewrite !app_assoc_s, readLines_line by reflexivity.
  change (table_rows_of_lines _ (?h :: ?l)) with (rows_until_terminator l).
  rewrite readLines_unlines.
  - rewrite rows_until_terminator_app by exact H.
    rewrite rows_until_terminators. apply app_nil_r.
  - eapply Forall_impl; [exact H |]. now intros r [Hr _].
Qed.

Lemma total_app a b : total (a ++ b) = total a + total b.
Proof. induction a as [|x a IH]; simpl; [reflexivity | rewrite IH; lia]. Qed.

Lemma total_constant (c : Z) (l : list Z) :
  Forall (fun x => x = c) l -> total l = Z.of_nat (List.length l) * c.
Proof. induction 1 as [|x l -> _ IH]; [reflexivity |]. simpl List.length. simpl total. lia. Qed.

Lemma accumulating_settled k rows w :
  accumulating k rows w -> changesInChangeset (_changesetData w) = 0 ->
  settled k (_maxChangesetSize w) rows (changesets_section w).
Proof.
  intros (Hc & Hrows & Hsum & Hstate) H0. unfold settled, changesets_section.
  split; [| split].
  - eapply Forall_impl; [exact Hrows |]. intros r [Hr Hn]. unfold num_changes.
    split; [exact Hr | lia].
  - rewrite (total_constant (_maxChangesetSize w)).
    + rewrite List.length_map. lia.
    + apply Forall_map. eapply Forall_impl; [exact Hrows |]. now intros r [_ Hn].
  - unfold changesets_state in Hstate.
    destruct (_outputSections w !! ApiDb.getChangesetsTableName).
    + left. now destruct Hstate as (-> & _).
    + now right.
Qed.

Lemma flush_settled k rows w w' :
  accumulating k rows w -> k < 2 ^ 63 ->
  when (0 <? changesInChangeset (_changesetData w)) _writeChangesetToTable w = Ok tt w' ->
  exists rows', settled k (_maxChangesetSize w) rows' (changesets_section w').
Proof.
  intros Hacc Hk H.
  destruct (0 <? changesInChangeset (_changesetData w)) eqn:Epos; simpl in H.
  - apply Z.ltb_lt in Epos.
    apply writeChangesetToTable_Ok in H as (base & Hbase & Hview).
    destruct Hacc as (Hc & Hrows & Hsum & Hstate).
    pose proof (Nat2Z.is_nonneg (List.length rows)) as Hlen.
    exists (rows ++ [changeset_line (_changesetData w)]).
    unfold changeset_view in Hview. injection Hview as _ _ _ _ Hsec.
    unfold settled, changesets_section. rewrite Hsec.
    assert (Hlast : last_column (changeset_line (_changesetData w))
                    = changesInChangeset (_changesetData w)).
    { apply changeset_line_last_column. unfold in_long.
      apply andb_true_iff. split; [apply Z.leb_le | apply Z.ltb_lt]; nia. }
    split; [| split].
    + apply Forall_app. split.
      * eapply Forall_impl; [exact Hrows |]. intros r [Hr Hn]. unfold num_changes.
        split; [exact Hr | lia].
      * constructor; [| constructor]. split; [apply changeset_line_data_row |].
        unfold num_changes. rewrite Hlast. lia.
    + rewrite map_app, total_app. simpl. unfold num_changes at 2. rewrite Hlast.
      rewrite (total_constant (_maxChangesetSize w)).
      * rewrite List.length_map. lia.
      * apply Forall_map. eapply Forall_impl; [exact Hrows |]. now intros r [_ Hn].
    + left. f_equal. rewrite unlines_snoc. unfold changesets_state in Hstate.
      destruct (_outputSections w !! ApiDb.getChangesetsTableName) as [c0|] eqn:Es.
      * destruct Hstate as (-> & Hne & Hcur).
        assert (H1 : currentChangesetId (_changesetData w) <> 1).
        { rewrite Hcur. apply wrap64_succ_ne_1. destruct rows; [contradiction |].
          simpl List.length in *. nia. }
        apply Z.eqb_neq in H1. rewrite H1 in Hbase. injection Hbase as <-.
        now rewrite !app_assoc_s.
      * subst rows. destruct (currentChangesetId (_changesetData w) =? 1); [| discriminate].
        subst base. reflexivity.
  - injection H as <-. exists rows. apply accumulating_settled; [exact Hacc |].
    apply Z.ltb_ge in Epos. destruct Hacc as (Hc & _). lia.
Qed.

Lemma finalize_flushed k rows w o w' :
  accumulating k rows w -> k < 2 ^ 63 ->
  finalizePartial w = Ok o w' ->
  (w' = w /\ nodesWritten (_writeStats w) = 0 /\ waysWritten (_writeStats w) = 0
   /\ relationsWritten (_writeStats w) = 0)
  \/ (Forall (fun r => num_changes r <= _maxChangesetSize w) (flushed_changesets w')
      /\ total (map num_changes (flushed_changesets w')) = k).
Proof.
  intros Hacc Hk H. unfold finalizePartial in H.
  apply bind_Ok in H as (? & ? & H1 & H). injection H1 as <- <-.
  destruct ((nodesWritten (_writeStats w) =? 0) && (waysWritten (_writeStats w) =? 0)
            && (relationsWritten (_writeStats w) =? 0)) eqn:Enone.
  { injection H as <- <-. left.
    apply andb_true_iff in Enone as [Enone Er]. apply andb_true_iff in Enone as [En Ew].
    apply Z.eqb_eq in En, Ew, Er. auto. }
  right.
  apply bind_Ok in H as ([] & w1 & H1 & H).
  assert (E1 : changeset_view w1 = changeset_view w)
    by (refine (preserves_Ok changeset_view _ w _ w1 _ H1); pres).
  apply (accumulating_view _ _ _ _ E1) in Hacc.
  assert (Emax : _maxChangesetSize w1 = _maxChangesetSize w)
    by (unfold changeset_view in E1; congruence).
  clear H1 E1.
  apply bind_Ok in H as (? & ? & H1 & H). injection H1 as <- <-.
  apply bind_Ok in H as ([] & w2 & Hflush & H).
  apply (flush_settled k rows w1 w2 Hacc Hk) in Hflush as (rows' & Hrows & Htotal & Hsec).
  rewrite Emax in Hrows. clear Hacc.
  inv_chain_keep changesets_section H. inv_last changesets_section H.
  subst w'. unfold _writeCombinedSqlFile in H1.
  apply bind_Ok in H1 as (? & ? & H1 & Hloop). injection H1 as <- <-.
  apply bind_Ok in Hloop as (out & w7 & Hloop & H1). injection H1 as _ <-.
  apply (writeCombinedSqlFile_loop_sections ApiDb.getChangesetsTableName) in Hloop
    as (n & Hn).
  assert (Eflushed : flushed_changesets w6 = rows').
  { unfold flushed_changesets. rewrite E2, E1. unfold changesets_section at 1.
    rewrite Hn. fold (changesets_section w3). rewrite E0, E.
    destruct Hsec as [-> | [-> ->]]; simpl.
    - rewrite app_assoc_s. apply table_rows_changesets.
      eapply Forall_impl; [exact Hrows |]. now intros r [Hr _].
    - reflexivity. }
  rewrite Eflushed. split; [| exact Htotal].
  eapply Forall_impl; [exact Hrows |]. now intros r [_ Hr].
Qed.

Lemma accumulating_nothing rows w :
  accumulating 0 rows w -> flushed_changesets w = [].
Proof.
  intros (Hc & _ & Hsum & Hstate).
  pose proof (Nat2Z.is_nonneg (List.length rows)) as Hlen.
  assert (rows = []) as -> by (destruct rows; [reflexivity | simpl List.length in *; nia]).
  unfold flushed_changesets, changesets_section. unfold changesets_state in Hstate.
  destruct (_outputSections w !! ApiDb.getChangesetsTableName); [| reflexivity].
  now destruct Hstate as (_ & Hne & _).
Qed.

End Changesets.

(** C6.  After a session of fewer than 2^63 elements that finalizes,
    with a positive maximum: each changeset row flushed to the section
    file holds at most the maximum in [num_changes], and the counts of the
    rows add up to the nodes, ways and relations written, which are the
    elements of the stream. *)
Theorem changeset_rows_account_for_elements `{Ext : External} (elements : list Element)
  (mode : QString) (userId maxChangesetSize : Z) (executeSql ndebug : bool)
  (db : Database) (o : option QString) (w : OsmApiDbBulkWriter) :
  0 < maxChangesetSize ->
  Z.of_nat (List.length elements) < 2 ^ 63 ->
  session elements (newWriter mode userId maxChangesetSize executeSql ndebug db) = Ok o w ->
  Forall (fun row => num_changes row <= maxChangesetSize) (flushed_changesets w)
  /\ total (map num_changes (flushed_changesets w)) = elements_written w
  /\ elements_written w = Z.of_nat (List.length elements).
Proof.
  intros Hmax Hlen H. unfold session in H.
  apply bind_Ok in H as ([] & w1 & Hopen & H).
  apply bind_Ok in H as ([] & w2 & Hrun & Hfin).
  assert (Hwritten : written elements
                       (newWriter mode userId maxChangesetSize executeSql ndebug db)
                     = Ok tt w2).
  { unfold written. rewrite (bind_of_Ok _ _ _ _ _ Hopen). exact Hrun. }
  destruct (written_counts _ _ _ _ _ _ _ _ Hwritten) as (Hn & Hw & Hr).
  assert (Emax : _maxChangesetSize w2 = maxChangesetSize)
    by (refine (preserves_Ok _maxChangesetSize _ _ _ _ _ Hwritten); unfold_methods; pres).
  assert (Estats : elements_written w = elements_written w2)
    by (refine (preserves_Ok elements_written _ _ _ _ _ Hfin); unfold_methods; pres).
  pose proof (count_kind_total elements) as Htotal.
  pose proof (count_kind_nonneg ElementType.Node elements) as Hnn.
  pose proof (count_kind_nonneg ElementType.Way elements) as Hwn.
  pose proof (count_kind_nonneg ElementType.Relation elements) as Hrn.
  rewrite wrap64_small in Hn, Hw, Hr by lia.
  assert (Hcount : elements_written w2 = Z.of_nat (List.length elements))
    by (unfold elements_written; lia).
  apply (open_accumulating _ _ _ _ _ _ _ Hmax) in Hopen.
  destruct (forEach_accumulating elements 0 [] w1 w2 Hopen ltac:(lia) Hrun)
    as (rows & Hacc).
  rewrite Z.add_0_l in Hacc.
  destruct (finalize_flushed _ rows w2 o w Hacc Hlen Hfin)
    as [(-> & Hn0 & Hw0 & Hr0) | (Hrows & Hsum)].
  - assert (H0 : Z.of_nat (List.length elements) = 0) by lia.
    rewrite H0 in Hacc. rewrite (accumulating_nothing rows w2 Hacc).
    repeat split; [constructor | simpl; lia | lia].
  - rewrite Emax in Hrows. repeat split; [exact Hrows | lia | lia].
Qed.

Lemma changeset_rows_account_for_elements_witness :
  let w0 := newWriter "offline" 17 2 false false freshDb in
  let r := session Scenario.three_nodes w0 in
  Forall (fun row => num_changes row <= 2) (flushed_changesets (final_state r))
  /\ total (map num_changes (flushed_changesets (final_state r)))
     = elements_written (final_state r)
  /\ elements_written (final_state r) = 3.
Proof.
  intros w0 r.
  refine (changeset_rows_account_for_elements Scenario.three_nodes "offline" 17 2
            false false freshDb
            (match r with Ok o _ => o | Throw _ _ => None end) (final_state r) _ _ _).
  - lia.
  - vm_compute. reflexivity.
  - vm_compute. reflexivity.
Defined.

(** ** Node rows of a session that returns *)

(** *** The assembly, as a function of the section files *)

Section Assembly.
Context `{Ext : External}.

Lemma copyLines_out content out : copyLines content out = out +:+ copied content.
Proof.
  unfold copied, copyLines. generalize (readLine_loop content) as reads.
  intros reads. revert out. induction reads as [|l reads IH]; intros out; simpl.
  - now rewrite app_nil_r_s.
  - rewrite IH, (IH (_ +:+ _)). now rewrite !app_assoc_s.
Qed.

Lemma copied_unlines ls :
  Forall (fun l => forall_chars (not_char LF) l = true) ls ->
  copied (unlines ls) = unlines ls +:+ NL.
Proof.
  intros H. unfold copied, copyLines, readLine_loop.
  rewrite <- (app_nil_r_s (unlines ls)) at 1.
  rewrite readLines_unlines by exact H. simpl readLines. rewrite app_nil_r.
  rewrite fold_left_app. simpl.
  assert (E : forall out, fold_left (fun out line => out +:+ of_nullable line +:+ NL)
                            (map Some ls) out = out +:+ unlines ls).
  { clear H. induction ls as [|l ls IH]; intros out; simpl.
    - now rewrite app_nil_r_s.
    - rewrite IH. now rewrite !app_assoc_s. }
  rewrite E. reflexivity.
Qed.

Lemma piece_ext mode s s' it : s !! it = s' !! it -> piece mode s it = piece mode s' it.
Proof. unfold piece. now intros ->. Qed.

Lemma assembled_ext mode s s' names :
  (forall it, In it names -> s !! it = s' !! it) ->
  assembled mode s names = assembled mode s' names.
Proof.
  induction names as [|it names IH]; intros H; [reflexivity |].
  simpl. rewrite (piece_ext mode s s' it) by (apply H; now left).
  rewrite IH; [reflexivity |]. intros t Ht. apply H. now right.
Qed.

(** The assembly loop writes the pieces of the tables in order. *)
Lemma writeCombinedSqlFile_loop_output names :
  List.NoDup names -> forall out w r w',
  _writeCombinedSqlFile_loop names out w = Ok r w' ->
  r = out +:+ assembled (_mode w) (_outputSections w) names.
Proof.
  induction 1 as [|it rest Hnotin Hnodup IH]; intros out w r w' H.
  - injection H as <- _. simpl. now rewrite app_nil_r_s.
  - simpl in H. apply bind_Ok in H as (? & w1 & H1 & H). injection H1 as <- <-.
    simpl assembled. unfold piece at 1.
    destruct (_outputSections w !! it) as [c|] eqn:Ec; [| now apply IH in H].
    destruct (String.eqb (_mode w) "online" && String.eqb it "sequence_updates");
      [now apply IH in H |].
    apply bind_Ok in H as ([] & w1 & H1 & H).
    apply bind_Ok in H as (? & w2 & H2 & H). injection H2 as <- <-.
    destruct (negb (String.eqb it "byte_order_mark")
              && negb (String.eqb it "sequence_updates")); simpl in H1.
    + unfold stream_out in H1. rewrite Ec in H1. injection H1 as <-.
      simpl in H. rewrite lookup_insert_eq in H.
      apply IH in H. simpl in H. rewrite H, copyLines_out, app_assoc_s.
      f_equal. f_equal. apply assembled_ext. intros t Ht.
      rewrite lookup_insert_ne; [reflexivity |]. intros ->. contradiction.
    + injection H1 as <-. rewrite Ec in H.
      apply IH in H. rewrite H, copyLines_out, app_assoc_s. reflexivity.
Qed.

Lemma sectionNames_NoDup : List.NoDup _createSectionNameList.
Proof.
  apply NoDup_ListNoDup, (bool_decide_unpack _). vm_compute. exact I.
Qed.

End Assembly.

#[export] Hint Unfold node_view prelude_view : views.

Ltac lookup_tables :=
  repeat first
    [ rewrite lookup_insert_eq
    | rewrite lookup_insert_ne
        by (let E := fresh in intro E; vm_compute in E; discriminate E) ].

(** *** The node sections while nodes are written *)

Section NodeSections.
Context `{Ext : External}.

Lemma stream_out_Ok t x w w' :
  stream_out t x w = Ok tt w' ->
  exists c, _outputSections w !! t = Some c
            /\ w' = with_outputSections (<[t := c +:+ x]>) w.
Proof.
  unfold stream_out. destruct (_outputSections w !! t) as [c|]; [| discriminate].
  intros [= <-]. eauto.
Qed.

Lemma createNodeTables_view w w' :
  bind _createNodeTables (fun _ => modify (with_idMappings (set_nodeIdMap (Some ∅)))) w
  = Ok tt w' ->
  node_view w'
  = (nodesWritten (_writeStats w), currentNodeId (_idMappings w),
     Some current_nodes_header, Some current_node_tags_header, Some nodes_header).
Proof.
  unfold _createNodeTables, _createTable, bind, modify. intros [= <-].
  unfold node_view. simpl. lookup_tables. reflexivity.
Qed.

Lemma establishNewIdMapping_node_view k w id w' :
  _establishNewIdMapping (ElementType.Node, k) w = Ok id w' ->
  id = currentNodeId (_idMappings w)
  /\ node_view w'
     = (nodesWritten (_writeStats w), long_incr (currentNodeId (_idMappings w)),
        _outputSections w !! ApiDb.getCurrentNodesTableName,
        _outputSections w !! ApiDb.getCurrentNodeTagsTableName,
        _outputSections w !! ApiDb.getNodesTableName).
Proof.
  unfold _establishNewIdMapping, bind, get. simpl.
  destruct (BigMap_insert k _ _); [discriminate |].
  unfold modify, ret. intros [= <- <-]. split; reflexivity.
Qed.

Lemma writeNodeToTables_view n id w w' :
  _writeNodeToTables n id w = Ok tt w' ->
  exists d c1 c2,
    _outputSections w !! ApiDb.getCurrentNodesTableName = Some c1
    /\ _outputSections w !! ApiDb.getNodesTableName = Some c2
    /\ node_view w'
       = (nodesWritten (_writeStats w), currentNodeId (_idMappings w),
          Some (c1 +:+ current_nodes_line id d +:+ NL),
          _outputSections w !! ApiDb.getCurrentNodeTagsTableName,
          Some (c2 +:+ nodes_line id d +:+ NL)).
Proof.
  unfold _writeNodeToTables. intros H.
  apply bind_Ok in H as (? & ? & H1 & H). injection H1 as <- <-.
  destruct (_ || _); [discriminate |]. destruct (_ || _); [discriminate |].
  apply bind_Ok in H as ([] & w1 & H1 & H).
  apply stream_out_Ok in H1 as (c1 & Hc1 & ->).
  apply stream_out_Ok in H as (c2 & Hc2 & ->).
  simpl in Hc2. rewrite lookup_insert_ne in Hc2
    by (let E := fresh in intro E; vm_compute in E; discriminate E).
  eexists (_, _, _, _), c1, c2. split; [exact Hc1 |]. split; [exact Hc2 |].
  unfold node_view. simpl. lookup_tables. reflexivity.
Qed.

Lemma forall_chars_flat_map p f s :
  (forall c, forall_chars p (f c) = true) ->
  forall_chars p (flat_map_chars f s) = true.
Proof.
  intros H. induction s as [|c s IH]; [reflexivity |].
  simpl. now rewrite forall_chars_app, H, IH.
Qed.

Lemma escape_char_no_LF c : forall_chars (not_char LF) (escape_char c) = true.
Proof. destruct c as [[] [] [] [] [] [] [] []]; vm_compute; reflexivity. Qed.

Lemma escape_no_LF s : forall_chars (not_char LF) (_escapeCopyToData s) = true.
Proof. rewrite escape_charwise. apply forall_chars_flat_map, escape_char_no_LF. Qed.

(** A row that starts with a number and has no LF in its fields. *)
Lemma numbered_row_data_row id fields :
  Forall (fun f => forall_chars (not_char LF) f = true) fields ->
  data_row (join (chr TAB) (number id :: fields)).
Proof.
  intros H. split.
  - apply forall_chars_join; [reflexivity |]. constructor; [apply number_no_LF | exact H].
  - destruct fields as [|f fields]; [apply number_first_char |].
    change (join (chr TAB) (?a :: ?b :: ?r)) with (a +:+ chr TAB +:+ join (chr TAB) (b :: r)).
    apply first_char_app, number_first_char.
Qed.

Lemma writeTagsToTables_node_view tags id : forall w w',
  _writeTagsToTables tags id ApiDb.getCurrentNodeTagsTableName currentTagFormat
    ApiDb.getNodeTagsTableName historicalTagFormat w = Ok tt w' ->
  exists rows,
    Forall data_row rows
    /\ node_view w'
       = (nodesWritten (_writeStats w), currentNodeId (_idMappings w),
          _outputSections w !! ApiDb.getCurrentNodesTableName,
          (fun c => c +:+ unlines rows)
            <$> (_outputSections w !! ApiDb.getCurrentNodeTagsTableName),
          _outputSections w !! ApiDb.getNodesTableName).
Proof.
  unfold _writeTagsToTables. induction tags as [|[k v] tags IH]; intros w w' H.
  - injection H as <-. exists []. split; [constructor |]. unfold node_view. simpl.
    destruct (_outputSections w !! ApiDb.getCurrentNodeTagsTableName); simpl;
      [| reflexivity].
    now rewrite app_nil_r_s.
  - simpl in H. apply bind_Ok in H as ([] & w1 & H1 & H).
    apply bind_Ok in H1 as ([] & w2 & H1 & H2).
    apply stream_out_Ok in H1 as (c1 & Hc1 & ->).
    apply stream_out_Ok in H2 as (c2 & Hc2 & ->).
    apply IH in H as (rows & Hrows & Hview). clear IH.
    exists (join (chr TAB) [number id; _escapeCopyToData k; _escapeCopyToData v] :: rows).
    split.
    + constructor; [| exact Hrows]. apply numbered_row_data_row.
      repeat constructor; apply escape_no_LF.
    + rewrite Hview. unfold node_view. simpl. lookup_tables. rewrite Hc1. simpl.
      unfold currentTagFormat, tsv. cbn [join]. rewrite !app_assoc_s. reflexivity.
Qed.

(** The node sections after [writePartial] for a node. *)
Lemma writePartial_Node_view n w w' :
  writePartial_Node n w = Ok tt w' ->
  exists d rows c1 c3,
    Forall data_row rows
    /\ (if nodesWritten (_writeStats w) =? 0
        then c1 = current_nodes_header /\ c3 = nodes_header
        else _outputSections w !! ApiDb.getCurrentNodesTableName = Some c1
             /\ _outputSections w !! ApiDb.getNodesTableName = Some c3)
    /\ node_view w'
       = (long_incr (nodesWritten (_writeStats w)),
          long_incr (currentNodeId (_idMappings w)),
          Some (c1 +:+ current_nodes_line (currentNodeId (_idMappings w)) d +:+ NL),
          (fun c => c +:+ unlines rows)
            <$> (if nodesWritten (_writeStats w) =? 0
                 then Some current_node_tags_header
                 else _outputSections w !! ApiDb.getCurrentNodeTagsTableName),
          Some (c3 +:+ nodes_line (currentNodeId (_idMappings w)) d +:+ NL)).
Proof.
  intros H. unfold writePartial_Node in H.
  inv_chain_keep node_view H. inv_last node_view H. destruct_unit.
  apply rejectKnown_Ok in H0 as (-> & _).
  apply establishNewIdMapping_node_view in H2 as (-> & V2).
  apply writeNodeToTables_view in H3 as (d & c1 & c3 & Hc1 & Hc3 & V3).
  apply writeTagsToTables_node_view in H4 as (rows & Hrows & V4).
  rewrite E1, E0, E. clear E1 E0 E.
  unfold node_view in *. simpl in *.
  injection V4 as N4 C4 S4a S4b S4c. injection V3 as N3 C3 S3a S3b S3c.
  injection V2 as N2 C2 S2a S2b S2c.
  rewrite N4, C4, S4a, S4b, S4c, N3, C3, S3a, S3b, S3c, N2, C2, S2b.
  rewrite S2a in Hc1. rewrite S2c in Hc3. clear N4 C4 S4a S4b S4c N3 C3 S3a S3b S3c S2a S2b S2c.
  exists d, rows, c1, c3. split; [exact Hrows |].
  destruct (nodesWritten (_writeStats w) =? 0) eqn:Enone; simpl in H1.
  - apply createNodeTables_view in H1. unfold node_view in H1. simpl in H1.
    injection H1 as N1 C1 S1a S1b S1c.
    rewrite S1a in Hc1. rewrite S1c in Hc3. injection Hc1 as <-. injection Hc3 as <-.
    split; [auto |]. rewrite N1, C1, S1b. reflexivity.
  - injection H1 as <-. simpl in *. split; [auto |]. reflexivity.
Qed.

Lemma node_sections_step id0 data tags n w w' :
  node_sections id0 data tags w ->
  - 2 ^ 63 <= id0 -> id0 + Z.of_nat (List.length data) + 1 < 2 ^ 63 ->
  Z.of_nat (List.length data) + 1 < 2 ^ 63 ->
  writePartial_Node n w = Ok tt w' ->
  exists d rows, node_sections id0 (data ++ [d]) (tags ++ rows) w'.
Proof.
  intros (Hn & Hid & Htags & Hnil & Hsec) Hlo Hhi Hlen H.
  apply writePartial_Node_view in H as (d & rows & c1 & c3 & Hrows & Hbase & Hview).
  exists d, rows. unfold node_view in Hview. injection Hview as N C S1 S2 S3.
  unfold node_sections. rewrite N, C, S1, S2, S3, Hn, Hid, List.length_app.
  simpl List.length. unfold long_incr, long_add. rewrite !wrap64_small by lia.
  split; [lia |]. split; [lia |]. split; [now apply Forall_app |].
  split; [intros E; now apply app_eq_nil in E as [_ E] |]. intros _.
  rewrite !imap_app, !unlines_app. simpl imap. simpl unlines.
  rewrite !Nat.add_0_r, !app_nil_r_s.
  destruct data as [|d0 data].
  - simpl in *. rewrite Hn in *. simpl in Hbase. destruct Hbase as [-> ->].
    rewrite (Hnil eq_refl). simpl. rewrite Z.add_0_r. auto.
  - destruct (Hsec ltac:(discriminate)) as (E1 & E2 & E3).
    replace (nodesWritten (_writeStats w) =? 0) with false in *
      by (symmetry; apply Z.eqb_neq; simpl List.length in Hn; lia).
    destruct Hbase as [B1 B3]. rewrite E1 in B1. rewrite E3 in B3.
    injection B1 as <-. injection B3 as <-. rewrite E2. simpl.
    rewrite !app_assoc_s. auto.
Qed.

Lemma opaque_section_row header base line s :
  data_row line ->
  opaque_section header s ->
  (base = header \/ s = Some base) ->
  opaque_section header (Some (base +:+ line +:+ NL)).
Proof.
  intros Hline Hs [-> | ->].
  - exists [line]. split; [simpl; now rewrite app_nil_r_s | now constructor].
  - destruct Hs as (rows & -> & Hrows). exists (rows ++ [line]). split.
    + now rewrite unlines_snoc, !app_assoc_s.
    + apply Forall_app. split; [exact Hrows | now constructor].
Qed.

Lemma writePartial_changesets_opaque e w w' :
  writePartial e w = Ok tt w' ->
  opaque_section changesets_header (changesets_section w) ->
  opaque_section changesets_header (changesets_section w').
Proof.
  intros H Hs.
  destruct (writePartial_changeset_view e w w' H) as (w1 & w2 & E1 & Hi & E2).
  apply incrementChangesInChangeset_Ok in Hi.
  unfold changeset_view in *. unfold changesets_section in *.
  injection E1 as _ _ _ Eid Esec. injection E2 as _ _ _ _ Esec2.
  rewrite Esec2. rewrite <- Esec in Hs.
  destruct Hi as [(_ & Hview) | (_ & base & Hbase & Hview)];
    injection Hview as _ _ _ _ ->; [exact Hs |].
  apply (opaque_section_row _ _ _ (_outputSections w1 !! ApiDb.getChangesetsTableName));
    [apply changeset_line_data_row | exact Hs |].
  destruct (_ =? 1); [now left | now right].
Qed.

Lemma flush_changesets_opaque w w' :
  when (0 <? changesInChangeset (_changesetData w)) _writeChangesetToTable w = Ok tt w' ->
  opaque_section changesets_header (changesets_section w) ->
  opaque_section changesets_header (changesets_section w').
Proof.
  intros H Hs. destruct (0 <? _); simpl in H; [| now injection H as <-].
  apply writeChangesetToTable_Ok in H as (base & Hbase & Hview).
  unfold changeset_view in Hview. injection Hview as _ _ _ _ Hsec.
  unfold changesets_section in *. rewrite Hsec.
  apply (opaque_section_row _ _ _ (_outputSections w !! ApiDb.getChangesetsTableName));
    [apply changeset_line_data_row | exact Hs |].
  destruct (_ =? 1); [now left | now right].
Qed.

Lemma writePartial_prelude e : preserves prelude_view (writePartial e).
Proof. destruct e; unfold_methods; pres. Qed.

(** The node sections, the changesets and the sections before them after
    a stream of nodes. *)
Lemma forEach_node_sections id0 nodes : forall data tags w w',
  node_sections id0 data tags w ->
  opaque_section changesets_header (changesets_section w) ->
  - 2 ^ 63 <= id0 ->
  id0 + Z.of_nat (List.length data) + Z.of_nat (List.length nodes) < 2 ^ 63 ->
  Z.of_nat (List.length data) + Z.of_nat (List.length nodes) < 2 ^ 63 ->
  forEach (map ENode nodes) writePartial w = Ok tt w' ->
  exists data' tags',
    List.length data' = (List.length data + List.length nodes)%nat
    /\ node_sections id0 data' tags' w'
    /\ opaque_section changesets_header (changesets_section w')
    /\ prelude_view w' = prelude_view w.
Proof.
  induction nodes as [|n nodes IH]; intros data tags w w' Hinv Hcs Hlo Hhi Hlen H.
  - injection H as <-. exists data, tags. rewrite Nat.add_0_r. auto.
  - simpl in H. apply bind_Ok in H as ([] & w1 & H1 & H).
    simpl List.length in *.
    pose proof (writePartial_changesets_opaque (ENode n) _ _ H1 Hcs) as Hcs1.
    pose proof (preserves_Ok _ _ _ _ _ (writePartial_prelude (ENode n)) H1) as Hp1.
    destruct (node_sections_step id0 data tags n w w1 Hinv Hlo ltac:(lia) ltac:(lia) H1)
      as (d & rows & Hinv1).
    destruct (IH (data ++ [d]) (tags ++ rows) w1 w' Hinv1 Hcs1 Hlo) as
      (data' & tags' & Hl & Hinv' & Hcs' & Hp'); try exact H.
    + rewrite List.length_app. simpl List.length. lia.
    + rewrite List.length_app. simpl List.length. lia.
    + exists data', tags'. rewrite Hl, List.length_app. simpl List.length.
      split; [lia |]. split; [exact Hinv' |]. split; [exact Hcs' |]. congruence.
Qed.

End NodeSections.

(** *** Lines of the script that are not node rows *)

Section Script.
Context `{Ext : External}.

Lemma prefix_cons a s b t :
  String.prefix (String a s) (String b t)
  = if ascii_dec a b then String.prefix s t else false.
Proof. reflexivity. Qed.

Lemma header_of_first_char t l :
  first_char (fun c => Ascii.eqb c "C") l = false -> header_of t l = false.
Proof.
  intros H. destruct l as [|c l]; [reflexivity |]. simpl in H.
  unfold header_of. change ("COPY " +:+ t +:+ " ") with (String "C" ("OPY " +:+ t +:+ " ")).
  rewrite prefix_cons. destruct (ascii_dec "C" c) as [<- |]; [discriminate H | reflexivity].
Qed.

Lemma drop_trailing_spaces_cons c s :
  isSpace c = false ->
  drop_trailing_spaces (String c s) = String c (drop_trailing_spaces s).
Proof. intros H. simpl. rewrite H. now destruct (drop_trailing_spaces s). Qed.

Lemma trimmed_cons c s :
  isSpace c = false -> trimmed (String c s) = String c (drop_trailing_spaces s).
Proof.
  intros H. unfold trimmed. simpl drop_leading_spaces. rewrite H.
  now apply drop_trailing_spaces_cons.
Qed.

Lemma quiet_plain t l : quiet l -> plain t l.
Proof.
  intros [H1 H2]. destruct l as [|c l]; [repeat split; reflexivity |].
  simpl in H2. apply orb_false_iff in H2 as [HC Hsp].
  repeat split; [exact H1 | now apply header_of_first_char |].
  rewrite trimmed_cons by exact Hsp. now apply header_of_first_char.
Qed.

Lemma numeral_quiet c : numeral_char c = true -> Ascii.eqb c "C" || isSpace c = false.
Proof. revert c. intros [[] [] [] [] [] [] [] []]; vm_compute; congruence. Qed.

Lemma data_row_quiet l : data_row l -> quiet l.
Proof.
  intros [H1 H2]. split; [exact H1 |]. destruct l as [|c l]; [reflexivity |].
  simpl in *. now apply numeral_quiet.
Qed.

Lemma setval_quiet name v :
  forall_chars (not_char LF) name = true ->
  exists l, setval name v = l +:+ NL /\ quiet l.
Proof.
  intros Hname. exists ("SELECT pg_catalog.setval('" +:+ name +:+ "', " +:+ number v +:+ ");").
  split; [unfold setval; now rewrite !app_assoc_s |].
  split; [| reflexivity].
  rewrite !forall_chars_app, Hname, number_no_LF. reflexivity.
Qed.

Lemma assert_Ok c w w' : assert c w = Ok tt w' -> w' = w.
Proof.
  unfold assert, bind, get. destruct (NDEBUG w); [now intros [= <-] |].
  destruct c; [now intros [= <-] | discriminate].
Qed.

Lemma quiet_text_app a b : quiet_text a -> quiet_text b -> quiet_text (a +:+ b).
Proof.
  intros (la & -> & Ha) (lb & -> & Hb). exists (la ++ lb). split.
  - now rewrite unlines_app.
  - now apply Forall_app.
Qed.

Lemma quiet_text_setval name v :
  forall_chars (not_char LF) name = true -> quiet_text (setval name v).
Proof.
  intros H. destruct (setval_quiet name v H) as (l & -> & Hl).
  exists [l]. split; [simpl; now rewrite app_nil_r_s | now constructor].
Qed.

Lemma stream_out_quiet t x w w' :
  stream_out t x w = Ok tt w' -> quiet_text x ->
  (exists c, _outputSections w !! t = Some c /\ quiet_text c) ->
  (exists c, _outputSections w' !! t = Some c /\ quiet_text c)
  /\ forall t', t' <> t -> _outputSections w' !! t' = _outputSections w !! t'.
Proof.
  intros H Hx (c & Hc & Hq). apply stream_out_Ok in H as (c' & Hc' & ->).
  rewrite Hc in Hc'. injection Hc' as <-. simpl. split.
  - exists (c +:+ x). rewrite lookup_insert_eq. split; [reflexivity |].
    now apply quiet_text_app.
  - intros t' Hne. now rewrite lookup_insert_ne.
Qed.

Lemma quiet_section_stream_out t x w0 w w' :
  stream_out t x w = Ok tt w' -> quiet_text x ->
  quiet_section t w0 w -> quiet_section t w0 w'.
Proof.
  intros H Hx [Hc Ho]. destruct (stream_out_quiet t x w w' H Hx Hc) as [Hc' Ho'].
  split; [exact Hc' |]. intros t' Hne. rewrite Ho' by exact Hne. now apply Ho.
Qed.

Lemma writeSequenceUpdates_sections a b c d w w' :
  _writeSequenceUpdates a b c d w = Ok tt w' ->
  quiet_section "sequence_updates" w w'.
Proof.
  unfold _writeSequenceUpdates. intros H.
  apply bind_Ok in H as ([] & w1 & H1 & H).
  assert (Q1 : quiet_section "sequence_updates" w w1).
  { unfold _createTable, modify in H1. injection H1 as <-. split; simpl.
    - exists EmptyString. rewrite lookup_insert_eq. split; [reflexivity |].
      exists []. split; [reflexivity | constructor].
    - intros t' Hne. now rewrite lookup_insert_ne. }
  clear H1.
  apply bind_Ok in H as ([] & w2 & H1 & H). apply assert_Ok in H1 as ->.
  apply bind_Ok in H as ([] & w2 & H1 & H).
  apply (quiet_section_stream_out _ _ w) in H1;
    [| now apply quiet_text_setval | exact Q1].
  clear Q1. rename H1 into Q2.
  apply bind_Ok in H as ([] & w3 & H1 & H). apply assert_Ok in H1 as ->.
  apply bind_Ok in H as ([] & w3 & H1 & H).
  apply (quiet_section_stream_out _ _ w) in H1;
    [| now apply quiet_text_setval | exact Q2].
  clear Q2. rename H1 into Q3.
  apply bind_Ok in H as ([] & w4 & H1 & H).
  assert (Q4 : quiet_section "sequence_updates" w w4).
  { destruct (0 <? c); simpl in H1; [| now injection H1 as <-].
    apply (quiet_section_stream_out _ _ w) in H1;
      [exact H1 | now apply quiet_text_setval | exact Q3]. }
  clear H1 Q3.
  destruct (0 <? d); simpl in H; [| now injection H as <-].
  apply bind_Ok in H as ([] & w5 & H1 & H).
  apply (quiet_section_stream_out _ _ w) in H1;
    [| now apply quiet_text_setval | exact Q4].
  apply (quiet_section_stream_out _ _ w) in H; [exact H | | exact H1].
  exists [EmptyString; EmptyString]. split; [reflexivity |].
  repeat constructor.
Qed.

Lemma filler_text_app a b : filler_text a -> filler_text b -> filler_text (a +:+ b).
Proof.
  intros (la & -> & Ha) (lb & -> & Hb). exists (la ++ lb). split.
  - now rewrite unlines_app.
  - now apply Forall_app.
Qed.

Lemma filler_text_nil : filler_text EmptyString.
Proof. exists []. split; [reflexivity | constructor]. Qed.

Lemma quiet_LF l : quiet l -> forall_chars (not_char LF) l = true.
Proof. now intros [H _]. Qed.

Lemma filler_LF l : filler l -> forall_chars (not_char LF) l = true.
Proof. intros [H | [-> | ->]]; [now apply quiet_LF | reflexivity | reflexivity]. Qed.

Lemma piece_None mode secs t : secs !! t = None -> piece mode secs t = EmptyString.
Proof. unfold piece. now intros ->. Qed.

Lemma piece_byte_order_mark mode secs :
  secs !! "byte_order_mark" = Some NL ->
  piece mode secs "byte_order_mark" = unlines [EmptyString; EmptyString].
Proof.
  unfold piece. intros ->. rewrite andb_false_r. reflexivity.
Qed.

Lemma piece_sequence_updates mode secs c :
  secs !! "sequence_updates" = Some c -> quiet_text c ->
  filler_text (piece mode secs "sequence_updates").
Proof.
  unfold piece. intros -> (ls & -> & Hls). rewrite andb_true_r.
  destruct (String.eqb mode "online"); [apply filler_text_nil |]. simpl.
  rewrite copied_unlines by (eapply Forall_impl; [exact Hls | apply quiet_LF]).
  exists (ls ++ [EmptyString]). split.
  - rewrite unlines_app. reflexivity.
  - apply Forall_app. split.
    + eapply Forall_impl; [exact Hls |]. now left.
    + repeat constructor.
Qed.

(** The piece of a table whose section file holds a header and rows. *)
Lemma piece_table mode secs t header rows :
  secs !! t = Some (header +:+ unlines rows) ->
  String.eqb t "byte_order_mark" = false -> String.eqb t "sequence_updates" = false ->
  header = first_line header +:+ NL ->
  forall_chars (not_char LF) (first_line header) = true ->
  Forall data_row rows ->
  piece mode secs t = unlines (table_block header rows).
Proof.
  unfold piece. intros -> -> -> Hh Hl Hrows. rewrite andb_false_r. simpl.
  assert (E : (header +:+ unlines rows) +:+ close_marker
              = unlines (first_line header :: rows ++ ["\."; EmptyString; EmptyString])).
  { rewrite Hh at 1. simpl unlines. rewrite unlines_app, !app_assoc_s. reflexivity. }
  rewrite E, copied_unlines.
  - unfold table_block. simpl unlines. rewrite !unlines_app. simpl unlines.
    rewrite !app_assoc_s. reflexivity.
  - constructor; [exact Hl |]. apply Forall_app. split.
    + eapply Forall_impl; [exact Hrows |]. now intros r [Hr _].
    + repeat constructor.
Qed.

Lemma table_block_filler header rows :
  filler (first_line header) -> Forall data_row rows ->
  Forall filler (table_block header rows).
Proof.
  intros Hh Hrows. constructor; [exact Hh |]. apply Forall_app. split.
  - eapply Forall_impl; [exact Hrows |]. intros r Hr. left. now apply data_row_quiet.
  - repeat constructor; left; split; reflexivity.
Qed.

End Script.

#[export] Hint Unfold files_view sequence_updates_section offsets_view next_node_id : views.

(** [f] after a call is [f] before it. *)
Ltac keeps f H :=
  lazymatch type of H with
  | ?m ?w0 = Ok _ ?w1 =>
      refine (preserves_Ok f m w0 _ w1 _ H); unfold_methods; pres
  end.

(** *** [finalizePartial] after a stream of nodes *)

Section Finalize.
Context `{Ext : External}.

Lemma Forall_imap {A B} (P : B -> Prop) (l : list A) : forall (f : nat -> A -> B),
  (forall i x, P (f i x)) -> Forall P (imap f l).
Proof.
  induction l as [|x l IH]; intros f H; [constructor |].
  simpl. constructor; [apply H | apply IH]. intros i y. apply H.
Qed.

Lemma current_nodes_line_data_row id d : data_row (current_nodes_line id d).
Proof.
  destruct d as [[[lat lon] cs] tile]. apply numbered_row_data_row.
  repeat constructor; first [apply number_no_LF | apply datestring_no_LF | reflexivity].
Qed.

Lemma nodes_line_data_row id d : data_row (nodes_line id d).
Proof.
  destruct d as [[[lat lon] cs] tile]. apply numbered_row_data_row.
  repeat constructor; first [apply number_no_LF | apply datestring_no_LF | reflexivity].
Qed.

(** The assembled script: the node rows of each table in a block of their
    own, between lines that are not headers of the node tables. *)
Lemma assembled_layout mode secs rows1 tags rows2 :
  secs !! "byte_order_mark" = Some NL ->
  filler_text (piece mode secs "sequence_updates") ->
  opaque_section changesets_header (secs !! ApiDb.getChangesetsTableName) ->
  secs !! ApiDb.getCurrentNodesTableName = Some (current_nodes_header +:+ unlines rows1) ->
  secs !! ApiDb.getCurrentNodeTagsTableName
  = Some (current_node_tags_header +:+ unlines tags) ->
  secs !! ApiDb.getNodesTableName = Some (nodes_header +:+ unlines rows2) ->
  Forall data_row rows1 -> Forall data_row tags -> Forall data_row rows2 ->
  exists pre mid rest,
    ("BEGIN TRANSACTION;" +:+ NL) +:+ assembled mode secs _createSectionNameList
    +:+ "COMMIT;"
    = unlines (pre ++ table_block current_nodes_header rows1
               ++ mid ++ table_block nodes_header rows2) +:+ rest
    /\ Forall filler pre /\ Forall filler mid.
Proof.
  intros Hbom (seq & Hseq & Qseq) Hcs H1 Ht H2 R1 Rt R2.
  change (assembled mode secs _createSectionNameList)
    with (piece mode secs "byte_order_mark"
          +:+ piece mode secs "sequence_updates"
          +:+ piece mode secs ApiDb.getChangesetsTableName
          +:+ piece mode secs ApiDb.getCurrentNodesTableName
          +:+ piece mode secs ApiDb.getCurrentNodeTagsTableName
          +:+ piece mode secs ApiDb.getNodesTableName
          +:+ assembled mode secs (drop 6 _createSectionNameList)).
  rewrite (piece_byte_order_mark _ _ Hbom), Hseq.
  rewrite (piece_table _ _ _ _ rows1 H1), (piece_table _ _ _ _ tags Ht),
    (piece_table _ _ _ _ rows2 H2); try reflexivity; try assumption.
  assert (Hc : exists cs, piece mode secs ApiDb.getChangesetsTableName = unlines cs
                          /\ Forall filler cs).
  { destruct (secs !! ApiDb.getChangesetsTableName) as [c|] eqn:Ec.
    - destruct Hcs as (rows & -> & Hrows).
      exists (table_block changesets_header rows). split.
      + now apply piece_table.
      + apply table_block_filler; [right; now left | exact Hrows].
    - exists []. split; [now apply piece_None | constructor]. }
  destruct Hc as (cs & -> & Qcs).
  set (b1 := table_block current_nodes_header rows1).
  set (bt := table_block current_node_tags_header tags).
  set (b2 := table_block nodes_header rows2).
  set (tail := assembled mode secs (drop 6 _createSectionNameList)).
  exists (["BEGIN TRANSACTION;"; EmptyString; EmptyString] ++ seq ++ cs), bt,
    (tail +:+ "COMMIT;").
  split; [| split].
  - clearbody b1 bt b2 tail. rewrite !unlines_app. simpl unlines.
    rewrite !app_assoc_s. reflexivity.
  - apply Forall_app. split; [| apply Forall_app; split; [exact Qseq | exact Qcs]].
    repeat constructor; left; split; reflexivity.
  - apply table_block_filler; [right; now right | exact Rt].
Qed.

Lemma getLatestIdsFromDb_online w w' :
  _getLatestIdsFromDb w = Ok tt w' -> String.eqb (_mode w) "online" = true ->
  currentNodeId (_idMappings w') = long_decr (next_node_id w).
Proof.
  unfold _getLatestIdsFromDb, getNextId, bind, get, modify, ret. simpl.
  intros H Hmode. rewrite Hmode in H. simpl in H. injection H as <-. reflexivity.
Qed.

Lemma lockIds_node_base w w' :
  _lockIds w = Ok tt w' -> String.eqb (_mode w) "online" = true ->
  currentNodeId (_idMappings w') = long_decr (next_node_id w).
Proof.
  unfold _lockIds. intros H Hmode.
  apply bind_Ok in H as (? & ? & H1 & H). injection H1 as <- <-.
  destruct (nodesWritten (_writeStats w) =? 0); [discriminate |].
  apply bind_Ok in H as ([] & w1 & H1 & H).
  apply getLatestIdsFromDb_online in H1; [| exact Hmode].
  rewrite <- H1.
  refine (preserves_Ok (fun w => currentNodeId (_idMappings w)) _ _ _ _ _ H).
  unfold_methods. pres.
Qed.

Lemma finalize_script id0 data tags mode w o w' :
  node_sections id0 data tags w -> data <> [] ->
  Z.of_nat (List.length data) < 2 ^ 63 ->
  opaque_section changesets_header (changesets_section w) ->
  prelude_view w = (None, None, _createSectionNameList, mode) ->
  finalizePartial w = Ok o w' ->
  exists script pre mid rest,
    script = unlines (pre
                      ++ table_block current_nodes_header
                           (imap (fun i => current_nodes_line (id0 + Z.of_nat i)) data)
                      ++ mid
                      ++ table_block nodes_header
                           (imap (fun i => nodes_line (id0 + Z.of_nat i)) data))
             +:+ rest
    /\ Forall filler pre /\ Forall filler mid
    /\ if String.eqb mode "online"
       then exists final,
              o = Some final
              /\ updateLines (_idMappings w') (currentChangesetId (_changesetData w'))
                   EmptyString (readLine_loop script) EmptyString = inr final
              /\ currentNodeId (_idMappings w') = long_decr (next_node_id w)
       else o = Some script.
Proof.
  intros (Hn & Hid & Htags & _ & Hsec) Hdata Hlen Hcs Hpre H.
  destruct (Hsec Hdata) as (Scn & Scnt & Sn). clear Hsec.
  unfold prelude_view in Hpre. injection Hpre as Sbom Sseq Hnames Hmode.
  unfold finalizePartial in H.
  apply bind_Ok in H as (? & ? & H1 & H). injection H1 as <- <-.
  replace (nodesWritten (_writeStats w) =? 0) with false in H
    by (symmetry; apply Z.eqb_neq; destruct data; [contradiction | simpl List.length in Hn; lia]).
  simpl in H.
  apply bind_Ok in H as ([] & w1 & H1 & H).
  unfold _createTable, modify in H1. injection H1 as <-.
  apply bind_Ok in H as (? & ? & H1 & H). injection H1 as <- <-.
  apply bind_Ok in H as ([] & w2 & H2 & H).
  set (w1 := with_outputSections <["byte_order_mark":=NL]> w) in *.
  assert (F1 : files_view w1
               = (Some NL, _outputSections w !! ApiDb.getCurrentNodesTableName,
                  _outputSections w !! ApiDb.getCurrentNodeTagsTableName,
                  _outputSections w !! ApiDb.getNodesTableName,
                  _createSectionNameList, mode)).
  { unfold files_view, w1. simpl. lookup_tables. now rewrite Hnames, Hmode. }
  assert (Q1 : sequence_updates_section w1 = None).
  { unfold sequence_updates_section, w1. simpl. now lookup_tables. }
  assert (C1 : opaque_section changesets_header (changesets_section w1)).
  { unfold changesets_section, w1. simpl. lookup_tables. exact Hcs. }
  assert (N1 : next_node_id w1 = next_node_id w) by reflexivity.
  clearbody w1.
  (* the open changeset *)
  pose proof (flush_changesets_opaque _ _ H2 C1) as C2.
  assert (F2 : files_view w2 = files_view w1) by keeps files_view H2.
  assert (Q2 : sequence_updates_section w2 = sequence_updates_section w1)
    by keeps sequence_updates_section H2.
  assert (N2 : next_node_id w2 = next_node_id w1) by keeps next_node_id H2.
  clear H2 C1.
  apply bind_Ok in H as (? & ? & H1 & H). injection H1 as <- <-.
  apply bind_Ok in H as ([] & w3 & H3 & H).
  assert (F3 : files_view w3 = files_view w2) by keeps files_view H3.
  assert (Q3 : sequence_updates_section w3 = sequence_updates_section w2)
    by keeps sequence_updates_section H3.
  assert (C3 : changesets_section w3 = changesets_section w2)
    by keeps changesets_section H3.
  assert (N3 : next_node_id w3 = next_node_id w2) by keeps next_node_id H3.
  clear H3.
  apply bind_Ok in H as (? & ? & H1 & H). injection H1 as <- <-.
  apply bind_Ok in H as ([] & w4 & H4 & H).
  assert (F4 : files_view w4 = files_view w3) by keeps files_view H4.
  assert (C4 : changesets_section w4 = changesets_section w3)
    by keeps changesets_section H4.
  assert (N4 : next_node_id w4 = next_node_id w3) by keeps next_node_id H4.
  assert (Q4 : filler_text (piece (_mode w4) (_outputSections w4) "sequence_updates")).
  { destruct (String.eqb (_mode w3) "offline"); simpl in H4.
    - apply writeSequenceUpdates_sections in H4 as [(c & Hc & Hq) _].
      now apply (piece_sequence_updates _ _ c).
    - injection H4 as <-. rewrite piece_None; [apply filler_text_nil |].
      fold (sequence_updates_section w3). congruence. }
  clear H4 Q1 Q2 Q3.
  assert (C : opaque_section changesets_header (changesets_section w4))
    by (rewrite C4, C3; exact C2).
  assert (N : next_node_id w4 = next_node_id w) by congruence.
  assert (F : files_view w4 = files_view w1) by congruence.
  rewrite F1, Scn, Scnt, Sn in F.
  clear C4 C3 C2 F4 F3 F2 F1 N4 N3 N2 N1 Scn Scnt Sn Sbom Sseq Hcs.
  unfold files_view in F. injection F as Fbom Fcn Fcnt Fn Fnames Fmode.
  (* the assembly *)
  apply bind_Ok in H as (script & w5 & H5 & H).
  assert (O5 : offsets_view w5 = offsets_view w4) by keeps offsets_view H5.
  assert (N5 : next_node_id w5 = next_node_id w4) by keeps next_node_id H5.
  assert (M5 : _mode w5 = _mode w4) by keeps _mode H5.
  unfold _writeCombinedSqlFile in H5.
  apply bind_Ok in H5 as (? & ? & H1 & H5). injection H1 as <- <-.
  apply bind_Ok in H5 as (out & w6 & Hloop & H5). injection H5 as <- <-.
  apply writeCombinedSqlFile_loop_output in Hloop;
    [| rewrite Fnames; apply sectionNames_NoDup].
  rewrite Fnames in Hloop.
  destruct (assembled_layout (_mode w4) (_outputSections w4) _ tags _
              Fbom Q4 C Fcn Fcnt Fn) as (pre & mid & rest & Hlayout & Hpre & Hmid);
    [apply Forall_imap; intros; apply current_nodes_line_data_row | exact Htags
    | apply Forall_imap; intros; apply nodes_line_data_row |].
  exists (out +:+ "COMMIT;"), pre, mid, rest.
  split; [rewrite Hloop, app_assoc_s; exact Hlayout |].
  split; [exact Hpre |]. split; [exact Hmid |].
  apply bind_Ok in H as (? & ? & H1 & H). injection H1 as <- <-.
  rewrite M5, Fmode in H.
  apply bind_Ok in H as (final & w7 & H6 & H).
  assert (O7 : offsets_view w' = offsets_view w7) by keeps offsets_view H.
  assert (Ho : o = Some final).
  { apply bind_Ok in H as ([] & w8 & _ & H). now injection H as <- _. }
  clear H. subst o.
  destruct (String.eqb mode "online") eqn:Eonline.
  - exists final. split; [reflexivity |].
    apply bind_Ok in H6 as ([] & w8 & Hlock & H6).
    apply lockIds_node_base in Hlock; [| now rewrite M5, Fmode].
    unfold _updateIdOffsetsInNewFile in H6.
    apply bind_Ok in H6 as (? & ? & H1 & H6). injection H1 as <- <-.
    unfold offsets_view in O7. injection O7 as -> ->.
    destruct (updateLines _ _ _ _ _) as [e | final'] eqn:EU; [discriminate |].
    injection H6 as <- <-. split; [exact EU |].
    rewrite Hlock. congruence.
  - now injection H6 as <- _.
Qed.

End Finalize.

(** *** The rewrite, line by line *)

Section Rewrite.
Context `{Ext : External}.

Lemma andThen_inr {A B} (r : Exn + A) (k : A -> Exn + B) b :
  andThen r k = inr b -> exists a, r = inr a /\ k a = inr b.
Proof. destruct r as [e|a]; [discriminate | eauto]. Qed.

Lemma addOffset_inr i off parts parts' :
  addOffset i off parts = inr parts' ->
  exists part, parts !! i = Some part
               /\ parts' = <[i := number (long_add (toLong part) off)]> parts.
Proof.
  unfold addOffset. destruct (parts !! i) as [part|]; [| discriminate].
  intros [= <-]. eauto.
Qed.

Lemma addOffset_first off parts parts' :
  addOffset 0 off parts = inr parts' -> numbered parts'.
Proof.
  intros H. apply addOffset_inr in H as (part & Hpart & ->).
  eexists. apply list_lookup_insert_eq. now apply lookup_lt_Some in Hpart.
Qed.

Lemma addOffset_numbered i off parts parts' :
  addOffset i off parts = inr parts' -> numbered parts -> numbered parts'.
Proof.
  intros H [z Hz]. destruct i as [|i]; [now apply addOffset_first in H |].
  apply addOffset_inr in H as (part & Hpart & ->).
  exists z. now rewrite list_lookup_insert_ne.
Qed.

Lemma addOffset_chars p i off parts parts' :
  (forall z, forall_chars p (number z) = true) ->
  addOffset i off parts = inr parts' ->
  Forall (fun f => forall_chars p f = true) parts ->
  Forall (fun f => forall_chars p f = true) parts'.
Proof.
  intros Hp H Hparts. apply addOffset_inr in H as (part & Hpart & ->).
  apply Forall_insert; [exact Hparts | apply Hp].
Qed.

(** A rewritten row begins with a number, and holds no LF if it held
    none. *)
Lemma updateLineParts_shape ids c tn parts parts' :
  updateLineParts ids c tn parts = inr (Some parts') ->
  numbered parts'
  /\ (Forall (fun f => forall_chars (not_char LF) f = true) parts ->
      Forall (fun f => forall_chars (not_char LF) f = true) parts').
Proof.
  unfold updateLineParts. intros H.
  repeat match type of H with
         | (if ?b then _ else _) = _ => destruct b
         end;
    try discriminate H;
    apply andThen_inr in H as (p1 & H & [= <-]);
    try (apply andThen_inr in H as (p0 & H0 & H));
    try (split; [| intros Hp]);
    repeat match type of H with
           | match ?x with _ => _ end = _ => destruct x eqn:?
           | (if ?b then _ else _) = _ => destruct b
           end;
    try discriminate H;
    try (injection H as <-);
    first
      [ eapply addOffset_first; eassumption
      | eapply addOffset_numbered; [eassumption | eapply addOffset_first; eassumption]
      | eapply (addOffset_chars _ _ _ _ _ number_no_LF); eassumption
      | eapply (addOffset_chars _ _ _ _ _ number_no_LF); [eassumption |];
        eapply (addOffset_chars _ _ _ _ _ number_no_LF); eassumption ].
Qed.

Lemma forall_chars_drop_leading p s :
  forall_chars p s = true -> forall_chars p (drop_leading_spaces s) = true.
Proof.
  induction s as [|c s IH]; intros H; [reflexivity |].
  simpl. destruct (isSpace c); [| exact H].
  simpl in H. apply andb_true_iff in H as [_ H]. now apply IH.
Qed.

Lemma forall_chars_drop_trailing p s :
  forall_chars p s = true -> forall_chars p (drop_trailing_spaces s) = true.
Proof.
  induction s as [|c s IH]; intros H; [reflexivity |].
  simpl in H. apply andb_true_iff in H as [Hc H]. specialize (IH H). simpl.
  destruct (drop_trailing_spaces s) as [|d r].
  - destruct (isSpace c); [reflexivity |]. simpl. now rewrite Hc.
  - simpl. simpl in IH. now rewrite Hc, IH.
Qed.

Lemma forall_chars_trimmed p s :
  forall_chars p s = true -> forall_chars p (trimmed s) = true.
Proof. intros H. now apply forall_chars_drop_trailing, forall_chars_drop_leading. Qed.

Lemma split_by_chars p sep s :
  forall_chars p s = true ->
  Forall (fun f => forall_chars p f = true) (split_by sep s).
Proof.
  induction s as [|c s IH]; intros H; [repeat constructor |].
  simpl in H. apply andb_true_iff in H as [Hc H]. specialize (IH H). simpl.
  destruct (sep c); [constructor; [reflexivity | exact IH] |].
  destruct (split_by sep s) as [|f fs]; [repeat constructor; simpl; now rewrite Hc |].
  inversion IH as [|? ? Hf Hfs]; subst. constructor; [| exact Hfs].
  simpl. now rewrite Hc, Hf.
Qed.

Lemma numbered_join parts :
  numbered parts -> Forall (fun f => forall_chars (not_char LF) f = true) parts ->
  data_row (join (chr TAB) parts).
Proof.
  intros [z Hz] Hp. destruct parts as [|f fs]; [discriminate |].
  injection Hz as ->. apply numbered_row_data_row. now inversion Hp.
Qed.

Lemma quiet_unmarked t l : quiet l -> unmarked t l.
Proof. intros H. now destruct (quiet_plain t l H). Qed.

(** What the rewrite makes of a line: a line, and not a header of a table
    if the line was not one once trimmed. *)
Lemma updateLine_line ids c tn l r :
  forall_chars (not_char LF) l = true ->
  updateLine ids c tn (Some l) = inr r ->
  exists l', snd r = l' +:+ NL
             /\ forall_chars (not_char LF) l' = true
             /\ forall t, header_of t (trimmed l) = false -> header_of t l' = false.
Proof.
  intros Hl H. unfold updateLine in H. simpl of_nullable in H.
  pose proof (forall_chars_trimmed _ _ Hl) as Hline.
  set (line := trimmed l) in *.
  apply andThen_inr in H as (a & H & [= <-]). exists (snd a). split; [reflexivity |].
  destruct (contains "COPY" line).
  - destruct (split_space line !! 1%nat); [| discriminate].
    injection H as <-. now split.
  - destruct (negb (line =? "")%string && negb (line =? "\.")%string).
    + apply andThen_inr in H as (updated & H & Ha).
      destruct updated as [parts|]; injection Ha as <-; [| now split].
      apply updateLineParts_shape in H as [Hnum Hchars].
      assert (Hrow : data_row (join (chr TAB) parts)).
      { apply numbered_join; [exact Hnum |]. apply Hchars. now apply split_by_chars. }
      split; [apply Hrow |]. intros t _.
      now apply (quiet_unmarked t), data_row_quiet.
    + injection H as <-. now split.
Qed.

Lemma updateLines_out ids c reads : forall tn out O,
  updateLines ids c tn reads out = inr O -> exists x, O = out +:+ x.
Proof.
  induction reads as [|r reads IH]; intros tn out O H.
  - injection H as <-. exists EmptyString. now rewrite app_nil_r_s.
  - simpl in H. apply andThen_inr in H as (a & _ & H).
    apply IH in H as (x & ->). exists (snd a +:+ x). now rewrite app_assoc_s.
Qed.

(** Lines that are not headers of [t], rewritten. *)
Lemma updateLines_unmarked (P Q : QString -> Prop) ids c :
  (forall tn l r, P l -> updateLine ids c tn (Some l) = inr r ->
                  exists l', snd r = l' +:+ NL /\ Q l') ->
  forall ls tn rest out O,
    Forall P ls ->
    updateLines ids c tn (map Some ls ++ rest) out = inr O ->
    exists ls' tn',
      Forall Q ls'
      /\ updateLines ids c tn' rest (out +:+ unlines ls') = inr O.
Proof.
  intros Hstep. induction ls as [|l ls IH]; intros tn rest out O Hls H.
  - exists [], tn. split; [constructor |]. simpl. now rewrite app_nil_r_s.
  - inversion Hls as [|? ? Hl Hls']; subst. simpl in H.
    apply andThen_inr in H as (a & Ha & H).
    destruct (Hstep _ _ _ Hl Ha) as (l' & El & Hl').
    apply IH in H as (ls' & tn' & Hq & H); [| exact Hls'].
    exists (l' :: ls'), tn'. split; [now constructor |].
    simpl unlines. rewrite El, !app_assoc_s in H. exact H.
Qed.

Lemma drop_trailing_spaces_app a b :
  drop_trailing_spaces b = b -> b <> EmptyString ->
  drop_trailing_spaces (a +:+ b) = a +:+ b.
Proof.
  intros Hb Hne. induction a as [|c a IH]; [exact Hb |].
  rewrite app_cons_s. simpl. rewrite IH.
  destruct (a +:+ b) eqn:E; [| reflexivity].
  destruct a; [now rewrite app_nil_l_s in E | discriminate E].
Qed.

Lemma trimmed_row a b :
  first_char numeral_char a = true ->
  drop_trailing_spaces b = b -> b <> EmptyString ->
  trimmed (a +:+ b) = a +:+ b.
Proof.
  intros Ha Hb Hne. destruct a as [|c a]; [discriminate |]. simpl in Ha.
  apply numeral_quiet, orb_false_iff in Ha as [_ Hsp].
  unfold trimmed. rewrite app_cons_s. simpl drop_leading_spaces. rewrite Hsp.
  rewrite <- app_cons_s. now apply drop_trailing_spaces_app.
Qed.

Lemma join_snoc sep fields last :
  fields <> [] -> join sep (fields ++ [last]) = (join sep fields +:+ sep) +:+ last.
Proof.
  induction fields as [|f fs IH]; intros H; [contradiction |].
  destruct fs as [|g fs]; [simpl; now rewrite app_assoc_s |].
  change (join sep ((f :: g :: fs) ++ [last]))
    with (f +:+ sep +:+ join sep ((g :: fs) ++ [last])).
  rewrite IH by discriminate.
  change (join sep (f :: g :: fs)) with (f +:+ sep +:+ join sep (g :: fs)).
  now rewrite !app_assoc_s.
Qed.

Lemma contains_no_C s :
  forall_chars (not_char "C") s = true -> contains "COPY" s = false.
Proof.
  induction s as [|c s IH]; intros H; [reflexivity |].
  simpl in H. apply andb_true_iff in H as [Hc H].
  change (contains "COPY" (String c s))
    with (String.prefix "COPY" (String c s) || contains "COPY" s).
  rewrite (IH H), orb_false_r, prefix_cons.
  destruct (ascii_dec "C" c) as [<- |]; [discriminate Hc | reflexivity].
Qed.

Lemma timestamp_not_C c : timestamp_char c = true -> not_char "C" c = true.
Proof. revert c. intros [[] [] [] [] [] [] [] []]; vm_compute; congruence. Qed.

Lemma numeral_timestamp c : numeral_char c = true -> timestamp_char c = true.
Proof. revert c. intros [[] [] [] [] [] [] [] []]; vm_compute; congruence. Qed.

Lemma number_no_C z : forall_chars (not_char "C") (number z) = true.
Proof.
  eapply forall_chars_impl; [| apply number_numeral].
  intros c Hc. now apply timestamp_not_C, numeral_timestamp.
Qed.

Lemma datestring_no_C : forall_chars (not_char "C") datestring = true.
Proof. eapply forall_chars_impl; [apply timestamp_not_C | apply datestring_chars]. Qed.

Lemma data_row_nonempty r : data_row r -> String.eqb r EmptyString = false.
Proof. intros [_ H]. now destruct r. Qed.

(** A row of numbers and fixed fields that ends in a field without
    spaces is rewritten through [updateLineParts]. *)
Lemma updateLine_row ids c tn id fields last :
  let row := join (chr TAB) ((number id :: fields) ++ [last]) in
  Forall (fun f => forall_chars (not_char LF) f = true) (fields ++ [last]) ->
  Forall (fun f => forall_chars (not_char TAB) f = true) (fields ++ [last]) ->
  Forall (fun f => forall_chars (not_char "C") f = true) (fields ++ [last]) ->
  drop_trailing_spaces last = last -> last <> EmptyString ->
  updateLine ids c tn (Some row)
  = andThen (updateLineParts ids c tn ((number id :: fields) ++ [last]))
      (fun updated =>
         match updated with
         | Some lineParts => inr (tn, join (chr TAB) lineParts +:+ NL)
         | None => inr (tn, row +:+ NL)
         end).
Proof.
  intros row HLF HTAB HC Hlast Hne.
  assert (Hrow : data_row row) by (apply numbered_row_data_row; exact HLF).
  assert (Etrim : trimmed row = row).
  { unfold row. rewrite join_snoc by discriminate. apply trimmed_row; try assumption.
    destruct fields as [|f fs].
    - apply first_char_app, number_first_char.
    - change (join (chr TAB) (number id :: f :: fs))
        with (number id +:+ chr TAB +:+ join (chr TAB) (f :: fs)).
      rewrite !app_assoc_s. apply first_char_app, number_first_char. }
  unfold updateLine. simpl of_nullable. rewrite Etrim.
  rewrite contains_no_C.
  - rewrite (data_row_nonempty _ Hrow), (data_row_not_terminator _ Hrow). simpl.
    unfold row at 1. rewrite split_tab_join; [| discriminate |].
    + destruct (updateLineParts _ _ _ _) as [e|[parts|]]; reflexivity.
    + constructor; [apply number_no_TAB | exact HTAB].
  - apply forall_chars_join; [reflexivity |].
    constructor; [apply number_no_C | exact HC].
Qed.

Lemma updateLine_current_nodes ids c id d :
  updateLine ids c ApiDb.getCurrentNodesTableName (Some (current_nodes_line id d))
  = inr (ApiDb.getCurrentNodesTableName,
         current_nodes_line (long_add (toLong (number id)) (currentNodeId ids))
           (rebased c d) +:+ NL).
Proof.
  destruct d as [[[lat lon] cs] tile]. unfold current_nodes_line, rebased.
  change [number id; number lat; number lon; number cs; "t"; datestring; number tile; "1"]
    with ((number id :: [number lat; number lon; number cs; "t"; datestring; number tile])
          ++ ["1"]).
  rewrite updateLine_row.
  - reflexivity.
  - repeat constructor; first [apply number_no_LF | apply datestring_no_LF | reflexivity].
  - repeat constructor; first [apply number_no_TAB | apply datestring_no_TAB | reflexivity].
  - repeat constructor; first [apply number_no_C | apply datestring_no_C | reflexivity].
  - reflexivity.
  - discriminate.
Qed.

Lemma updateLine_nodes ids c id d :
  updateLine ids c ApiDb.getNodesTableName (Some (nodes_line id d))
  = inr (ApiDb.getNodesTableName,
         nodes_line (long_add (toLong (number id)) (currentNodeId ids))
           (rebased c d) +:+ NL).
Proof.
  destruct d as [[[lat lon] cs] tile]. unfold nodes_line, rebased.
  change [number id; number lat; number lon; number cs; "t"; datestring; number tile; "1";
          "\N"]
    with ((number id
             :: [number lat; number lon; number cs; "t"; datestring; number tile; "1"])
          ++ ["\N"]).
  rewrite updateLine_row.
  - reflexivity.
  - repeat constructor; first [apply number_no_LF | apply datestring_no_LF | reflexivity].
  - repeat constructor; first [apply number_no_TAB | apply datestring_no_TAB | reflexivity].
  - repeat constructor; first [apply number_no_C | apply datestring_no_C | reflexivity].
  - reflexivity.
  - discriminate.
Qed.

End Rewrite.

(** *** The layout of the script, and reading the rows back *)

Section Layout.
Context `{Ext : External}.

Lemma filler_plain t l :
  t = ApiDb.getCurrentNodesTableName \/ t = ApiDb.getNodesTableName ->
  filler l -> plain t l.
Proof.
  intros Ht [H | [-> | ->]]; [now apply quiet_plain | |];
    destruct Ht as [-> | ->]; repeat split; reflexivity.
Qed.

Lemma filler_separator l : filler l -> separator l.
Proof.
  intros H. split.
  - now destruct (filler_plain ApiDb.getCurrentNodesTableName l (or_introl eq_refl) H).
  - now destruct (filler_plain ApiDb.getNodesTableName l (or_intror eq_refl) H).
Qed.

Lemma table_rows_of_lines_skip t pre ls :
  Forall (unmarked t) pre ->
  table_rows_of_lines t (pre ++ ls) = table_rows_of_lines t ls.
Proof.
  induction 1 as [|l pre [_ Hl] _ IH]; [reflexivity |].
  simpl. unfold header_of in Hl. now rewrite Hl.
Qed.

Lemma table_rows_of_lines_block t header rows more :
  header_of t (first_line header) = true -> Forall data_row rows ->
  table_rows_of_lines t (table_block header rows ++ more) = rows.
Proof.
  intros Hh Hrows. unfold table_block. simpl. unfold header_of in Hh. rewrite Hh.
  rewrite <- app_assoc, rows_until_terminator_app by exact Hrows.
  simpl. apply app_nil_r.
Qed.

Lemma table_block_LF header rows :
  forall_chars (not_char LF) (first_line header) = true -> Forall data_row rows ->
  Forall (fun l => forall_chars (not_char LF) l = true) (table_block header rows).
Proof.
  intros Hh Hrows. constructor; [exact Hh |]. apply Forall_app. split.
  - eapply Forall_impl; [exact Hrows |]. now intros r [Hr _].
  - repeat constructor.
Qed.

Lemma table_block_unmarked t header rows :
  unmarked t (first_line header) -> Forall data_row rows ->
  Forall (unmarked t) (table_block header rows).
Proof.
  intros Hh Hrows. constructor; [exact Hh |]. apply Forall_app. split.
  - eapply Forall_impl; [exact Hrows |]. intros r Hr.
    now apply quiet_unmarked, data_row_quiet.
  - repeat constructor.
Qed.

(** The rows of the node tables of a script, from its layout. *)
Lemma node_layout_rows script rows1 rows2 :
  node_layout script rows1 rows2 ->
  Forall data_row rows1 -> Forall data_row rows2 ->
  table_rows ApiDb.getCurrentNodesTableName script = rows1
  /\ table_rows ApiDb.getNodesTableName script = rows2.
Proof.
  intros (pre & mid & rest & -> & Hpre & Hmid) H1 H2.
  unfold table_rows. rewrite readLines_unlines.
  - split.
    + rewrite <- !app_assoc.
      rewrite table_rows_of_lines_skip
        by (eapply Forall_impl; [exact Hpre |]; now intros l [Hl _]).
      now apply table_rows_of_lines_block.
    + rewrite (app_assoc pre), (app_assoc (pre ++ _)), <- (app_assoc _ _ (readLines rest)).
      rewrite table_rows_of_lines_skip.
      * now apply table_rows_of_lines_block.
      * apply Forall_app. split; [apply Forall_app; split |].
        -- eapply Forall_impl; [exact Hpre |]. now intros l [_ Hl].
        -- apply table_block_unmarked; [split; reflexivity | exact H1].
        -- eapply Forall_impl; [exact Hmid |]. now intros l [_ Hl].
  - repeat (apply Forall_app; split).
    + eapply Forall_impl; [exact Hpre |]. now intros l [[Hl _] _].
    + now apply table_block_LF.
    + eapply Forall_impl; [exact Hmid |]. now intros l [[Hl _] _].
    + now apply table_block_LF.
Qed.

Lemma updateLines_imap ids c tn data : forall (g g' : nat -> NodeData -> QString) rest out,
  (forall i d, updateLine ids c tn (Some (g i d)) = inr (tn, g' i d +:+ NL)) ->
  updateLines ids c tn (map Some (imap g data) ++ rest) out
  = updateLines ids c tn rest (out +:+ unlines (imap g' data)).
Proof.
  induction data as [|d data IH]; intros g g' rest out H.
  - simpl. now rewrite app_nil_r_s.
  - simpl. rewrite H. simpl.
    rewrite (IH (g ∘ S) (g' ∘ S)) by (intros i x; apply H).
    now rewrite !app_assoc_s.
Qed.

(** A block of node rows, rewritten. *)
Lemma updateLines_block ids c tn t header (data : list NodeData) g g' rest out :
  (forall tn, updateLine ids c tn (Some (first_line header))
              = inr (t, first_line header +:+ NL)) ->
  (forall i d, updateLine ids c t (Some (g i d)) = inr (t, g' i d +:+ NL)) ->
  updateLines ids c tn (map Some (table_block header (imap g data)) ++ rest) out
  = updateLines ids c EmptyString rest
      (out +:+ unlines (table_block header (imap g' data))).
Proof.
  intros Hh Hrows. unfold table_block. simpl map. simpl app at 1.
  simpl updateLines at 1. rewrite Hh. simpl andThen.
  rewrite map_app, <- app_assoc, (updateLines_imap _ _ _ _ g g') by exact Hrows.
  simpl. rewrite unlines_app. simpl. now rewrite !app_assoc_s.
Qed.

Lemma updateLines_fillers ids c ls tn rest out O :
  Forall filler ls ->
  updateLines ids c tn (map Some ls ++ rest) out = inr O ->
  exists ls' tn',
    Forall separator ls'
    /\ updateLines ids c tn' rest (out +:+ unlines ls') = inr O.
Proof.
  apply (updateLines_unmarked filler separator).
  intros tn0 l r Hl H.
  destruct (updateLine_line ids c tn0 l r (filler_LF l Hl) H) as (l' & El & HLF & Hh).
  exists l'. split; [exact El |].
  split; (split; [exact HLF |]); apply Hh.
  - now destruct (filler_plain ApiDb.getCurrentNodesTableName l (or_introl eq_refl) Hl).
  - now destruct (filler_plain ApiDb.getNodesTableName l (or_intror eq_refl) Hl).
Qed.

(** The rewrite of a script of nodes keeps its layout and adds the node
    base to the ids of the node rows. *)
Lemma updateLines_layout ids c id0 data pre mid rest final :
  Forall filler pre -> Forall filler mid ->
  updateLines ids c EmptyString
    (readLine_loop
       (unlines (pre
                 ++ table_block current_nodes_header
                      (imap (fun i => current_nodes_line (id0 + Z.of_nat i)) data)
                 ++ mid
                 ++ table_block nodes_header
                      (imap (fun i => nodes_line (id0 + Z.of_nat i)) data))
        +:+ rest))
    EmptyString = inr final ->
  node_layout final
    (imap (fun i d => current_nodes_line
                        (long_add (toLong (number (id0 + Z.of_nat i))) (currentNodeId ids))
                        (rebased c d)) data)
    (imap (fun i d => nodes_line
                        (long_add (toLong (number (id0 + Z.of_nat i))) (currentNodeId ids))
                        (rebased c d)) data).
Proof.
  intros Hpre Hmid H. unfold readLine_loop in H.
  rewrite readLines_unlines in H.
  - rewrite <- !app_assoc, !map_app, <- !app_assoc in H.
    apply updateLines_fillers in H as (pre' & tn1 & Qpre & H); [| exact Hpre].
    rewrite (updateLines_block _ _ _ ApiDb.getCurrentNodesTableName _ _ _
               (fun i d => current_nodes_line
                             (long_add (toLong (number (id0 + Z.of_nat i)))
                                (currentNodeId ids)) (rebased c d))) in H;
      [| reflexivity | intros i d; apply updateLine_current_nodes].
    apply updateLines_fillers in H as (mid' & tn2 & Qmid & H); [| exact Hmid].
    rewrite (updateLines_block _ _ _ ApiDb.getNodesTableName _ _ _
               (fun i d => nodes_line
                             (long_add (toLong (number (id0 + Z.of_nat i)))
                                (currentNodeId ids)) (rebased c d))) in H;
      [| reflexivity | intros i d; apply updateLine_nodes].
    apply updateLines_out in H as (x & ->).
    exists pre', mid', x. split; [| split; assumption].
    rewrite !unlines_app, !app_assoc_s. reflexivity.
  - repeat (apply Forall_app; split).
    + eapply Forall_impl; [exact Hpre | apply filler_LF].
    + apply table_block_LF; [reflexivity |].
      apply Forall_imap. intros. apply current_nodes_line_data_row.
    + eapply Forall_impl; [exact Hmid | apply filler_LF].
    + apply table_block_LF; [reflexivity |].
      apply Forall_imap. intros. apply nodes_line_data_row.
Qed.

End Layout.

(** *** The ids of the node rows *)

Section NodeIds.
Context `{Ext : External}.

Lemma column_numbered id fields :
  in_long id = true ->
  Forall (fun f => forall_chars (not_char TAB) f = true) fields ->
  column 0 (join (chr TAB) (number id :: fields)) = id.
Proof.
  intros Hid H. unfold column. rewrite split_tab_join; [| discriminate |].
  - simpl. now apply toLong_number.
  - constructor; [apply number_no_TAB | exact H].
Qed.

Lemma column_current_nodes_line id d :
  in_long id = true -> column 0 (current_nodes_line id d) = id.
Proof.
  intros H. destruct d as [[[lat lon] cs] tile]. apply column_numbered; [exact H |].
  repeat constructor; first [apply number_no_TAB | apply datestring_no_TAB | reflexivity].
Qed.

Lemma column_nodes_line id d :
  in_long id = true -> column 0 (nodes_line id d) = id.
Proof.
  intros H. destruct d as [[[lat lon] cs] tile]. apply column_numbered; [exact H |].
  repeat constructor; first [apply number_no_TAB | apply datestring_no_TAB | reflexivity].
Qed.

(** The first column of rows numbered from [first]. *)
Lemma column_ids (line : Z -> NodeData -> QString) :
  (forall id d, in_long id = true -> column 0 (line id d) = id) ->
  forall (data : list NodeData) (f : nat -> Z) (h : nat -> NodeData -> NodeData) first,
    (forall i, (i < List.length data)%nat ->
               f i = first + Z.of_nat i /\ in_long (f i) = true) ->
    map (column 0) (imap (fun i d => line (f i) (h i d)) data)
    = seqZ first (Z.of_nat (List.length data)).
Proof.
  intros Hcol. induction data as [|d data IH]; intros f h first H; [reflexivity |].
  simpl List.length. rewrite seqZ_cons by lia. simpl.
  destruct (H O ltac:(simpl; lia)) as [E0 L0]. rewrite (Hcol _ _ L0), E0, Z.add_0_r.
  f_equal. replace (Z.pred (Z.of_nat (S (List.length data))))
    with (Z.of_nat (List.length data)) by lia.
  apply (IH (f ∘ S) (h ∘ S) (Z.succ first)). intros i Hi.
  destruct (H (S i) ltac:(simpl; lia)) as [E L]. unfold compose. split; [lia | exact L].
Qed.

Lemma in_long_range z : - 2 ^ 63 <= z < 2 ^ 63 -> in_long z = true.
Proof.
  intros H. unfold in_long. apply andb_true_iff.
  split; [apply Z.leb_le | apply Z.ltb_lt]; lia.
Qed.

Lemma open_node_sections mode user max exec ndebug db w :
  open (newWriter mode user max exec ndebug db) = Ok tt w ->
  node_sections (start_node_id (toLower mode) db) [] [] w
  /\ changesets_section w = None
  /\ prelude_view w = (None, None, _createSectionNameList, toLower mode)
  /\ next_node_id w = db_nextNodeId db
  /\ waysWritten (_writeStats w) = 0 /\ relationsWritten (_writeStats w) = 0.
Proof.
  unfold open, newWriter, bind, get. simpl. destruct (db_isOpen db); [discriminate |].
  unfold modify, start_node_id. simpl.
  destruct (String.eqb (toLower mode) "offline") eqn:Eoff; simpl.
  - unfold _getLatestIdsFromDb, getNextId, bind, get, modify, ret. simpl.
    apply String.eqb_eq in Eoff. rewrite Eoff. simpl. intros [= <-].
    unfold node_sections. simpl.
    repeat split; try reflexivity; try lia; try constructor; contradiction.
  - intros [= <-]. unfold node_sections. simpl.
    repeat split; try reflexivity; try lia; try constructor; contradiction.
Qed.

End NodeIds.

(** X18.  Of a session over [N] nodes that returns; nothing is said of a
    session that fails.  The script it returns holds [N] rows for
    [current_nodes] and [N] rows for [nodes], and their first columns are
    the ids [base + start .. base + start + N - 1], in this order.
    Offline [start] is the next node id of the database and no base is
    added; online the nodes are written from 1 and the rewrite adds the
    base that [_lockIds] reserved, which is the next node id of the
    database less 1.  The ids are taken not to go beyond a [long]. *)
Theorem node_rows_numbered `{Ext : External} (nodes : list Node)
  (mode : QString) (userId maxChangesetSize : Z) (executeSql ndebug : bool)
  (db : Database) (o : option QString) (w : OsmApiDbBulkWriter) :
  let N := Z.of_nat (List.length nodes) in
  let start := start_node_id (toLower mode) db in
  let base := reserved_base (toLower mode) db in
  N < 2 ^ 63 ->
  - 2 ^ 63 <= start -> start + N < 2 ^ 63 ->
  - 2 ^ 63 <= base + start -> base + start + N < 2 ^ 63 ->
  session (map ENode nodes)
    (newWriter mode userId maxChangesetSize executeSql ndebug db) = Ok o w ->
  let script := default EmptyString o in
  map (column 0) (table_rows ApiDb.getCurrentNodesTableName script) = seqZ (base + start) N
  /\ map (column 0) (table_rows ApiDb.getNodesTableName script) = seqZ (base + start) N
  /\ (nodes <> [] -> toLower mode = "online" -> currentNodeId (_idMappings w) = base).
Proof.
  intros N start base HN Hlo Hhi Hblo Hbhi H script. unfold session in H.
  apply bind_Ok in H as ([] & w1 & Hopen & H).
  apply bind_Ok in H as ([] & w2 & Hrun & Hfin).
  apply open_node_sections in Hopen as (Hinv0 & Hcs0 & Hpre0 & Hnext0 & Hw0 & Hr0).
  fold start in Hinv0.
  assert (Hcases : nodes = [] \/ nodes <> [])
    by (destruct nodes; [now left | now right]).
  destruct Hcases as [-> | Hne].
  { simpl in Hrun. injection Hrun as <-.
    unfold finalizePartial, bind, get in Hfin.
    destruct Hinv0 as (Hn0 & _). simpl in Hn0. rewrite Hn0, Hw0, Hr0 in Hfin.
    simpl in Hfin. injection Hfin as <- <-.
    split; [reflexivity |]. split; [reflexivity | contradiction]. }
  assert (Hnext : next_node_id w2 = next_node_id w1) by keeps next_node_id Hrun.
  destruct (forEach_node_sections start nodes [] [] w1 w2 Hinv0) as
    (data & tags & Hl & Hinv & Hcs & Hpre); try exact Hrun; try (simpl; lia).
  { unfold opaque_section. now rewrite Hcs0. }
  simpl in Hl. rewrite Hpre0 in Hpre.
  assert (Hdata : data <> []).
  { intros ->. destruct nodes; [contradiction | discriminate]. }
  assert (Hlen : Z.of_nat (List.length data) = N) by (unfold N; now rewrite Hl).
  destruct (finalize_script start data tags (toLower mode) w2 o w Hinv Hdata
              ltac:(lia) Hcs Hpre Hfin)
    as (text & pre & mid & rest & Htext & Qpre & Qmid & Hcase).
  unfold base, reserved_base in *.
  destruct (String.eqb (toLower mode) "online") eqn:Eonline.
  - destruct Hcase as (final & -> & EU & Hbase).
    rewrite Hnext, Hnext0 in Hbase. rewrite Htext in EU.
    apply updateLines_layout in EU; [| exact Qpre | exact Qmid].
    apply node_layout_rows in EU as [E1 E2];
      [| apply Forall_imap; intros; apply current_nodes_line_data_row
       | apply Forall_imap; intros; apply nodes_line_data_row].
    unfold script. simpl default. rewrite E1, E2, <- Hlen, Hbase.
    assert (Hf : forall i, (i < List.length data)%nat ->
              long_add (toLong (number (start + Z.of_nat i)))
                (long_decr (db_nextNodeId db))
              = long_decr (db_nextNodeId db) + start + Z.of_nat i
              /\ in_long (long_add (toLong (number (start + Z.of_nat i)))
                            (long_decr (db_nextNodeId db))) = true).
    { intros i Hi. rewrite toLong_number by (apply in_long_range; lia).
      unfold long_add. rewrite wrap64_small by lia.
      split; [lia | apply in_long_range; lia]. }
    split; [| split; [| reflexivity]].
    + apply (column_ids current_nodes_line column_current_nodes_line data
               (fun i => long_add (toLong (number (start + Z.of_nat i)))
                           (long_decr (db_nextNodeId db)))
               (fun _ => rebased (currentChangesetId (_changesetData w)))).
      exact Hf.
    + apply (column_ids nodes_line column_nodes_line data
               (fun i => long_add (toLong (number (start + Z.of_nat i)))
                           (long_decr (db_nextNodeId db)))
               (fun _ => rebased (currentChangesetId (_changesetData w)))).
      exact Hf.
  - subst o. unfold script. simpl default.
    assert (Hlayout : node_layout text
              (imap (fun i => current_nodes_line (start + Z.of_nat i)) data)
              (imap (fun i => nodes_line (start + Z.of_nat i)) data)).
    { exists pre, mid, rest. split; [exact Htext |].
      split; (eapply Forall_impl; [eassumption | apply filler_separator]). }
    apply node_layout_rows in Hlayout as [E1 E2];
      [| apply Forall_imap; intros; apply current_nodes_line_data_row
       | apply Forall_imap; intros; apply nodes_line_data_row].
    rewrite E1, E2, <- Hlen, Z.add_0_l.
    assert (Hf : forall i, (i < List.length data)%nat ->
              start + Z.of_nat i = start + Z.of_nat i
              /\ in_long (start + Z.of_nat i) = true).
    { intros i Hi. split; [reflexivity | apply in_long_range; lia]. }
    split; [| split; [| intros _ E; rewrite E in Eonline; discriminate]].
    + apply (column_ids current_nodes_line column_current_nodes_line data
               (fun i => start + Z.of_nat i) (fun _ d => d)). exact Hf.
    + apply (column_ids nodes_line column_nodes_line data
               (fun i => start + Z.of_nat i) (fun _ d => d)). exact Hf.
Qed.

Lemma node_rows_numbered_witness :
  let r := session (map ENode Scenario.tagged_nodes)
             (newWriter "online" 17 2 false false Scenario.busyDb) in
  let script := default EmptyString (match r with Ok o _ => o | Throw _ _ => None end) in
  map (column 0) (table_rows ApiDb.getCurrentNodesTableName script) = seqZ (1000 + 1) 3
  /\ map (column 0) (table_rows ApiDb.getNodesTableName script) = seqZ (1000 + 1) 3
  /\ (Scenario.tagged_nodes <> [] -> toLower "online" = "online" ->
      currentNodeId (_idMappings (final_state r)) = 1000).
Proof.
  intros r script.
  refine (node_rows_numbered Scenario.tagged_nodes "online" 17 2 false false
            Scenario.busyDb
            (match r with Ok o _ => o | Throw _ _ => None end) (final_state r)
            _ _ _ _ _ _).
  - vm_compute. reflexivity.
  - vm_compute. discriminate.
  - vm_compute. reflexivity.
  - vm_compute. discriminate.
  - vm_compute. reflexivity.
  - vm_compute. reflexivity.
Defined.

(** The same nodes offline, from a database whose next node id is 501:
    the rows of both tables are numbered 501, 502, 503. *)
Example node_rows_offline_from_501 :
  let r := session (map ENode Scenario.tagged_nodes)
             (newWriter "offline" 17 2 false false (mkDatabase false 501 1 1 1 [])) in
  let script := default EmptyString (match r with Ok o _ => o | Throw _ _ => None end) in
  map (column 0) (table_rows ApiDb.getCurrentNodesTableName script) = [501; 502; 503]
  /\ map (column 0) (table_rows ApiDb.getNodesTableName script) = [501; 502; 503].
Proof. split; vm_compute; reflexivity. Qed.

(** ** Escaping, character by character *)

Lemma escape_char_no_control c :
  forall_chars (fun d => negb (copy_control_char d)) (escape_char c) = true.
Proof. destruct c as [[] [] [] [] [] [] [] []]; vm_compute; reflexivity. Qed.

Lemma escape_char_length c :
  String.length (escape_char c) = ((if escaped_char c then 1 else 0) + 1)%nat.
Proof. destruct c as [[] [] [] [] [] [] [] []]; vm_compute; reflexivity. Qed.

Lemma length_app_s (a b : QString) :
  String.length (a +:+ b) = (String.length a + String.length b)%nat.
Proof. induction a as [|c a IH]; [reflexivity |]. rewrite app_cons_s. simpl. now rewrite IH. Qed.

(** X1.  The text [_escapeCopyToData] returns holds none of the characters
    8 to 13 (backspace, tab, LF, vertical tab, form feed, CR), whatever the
    string. *)
Theorem escape_output_has_no_control_character (s : QString) :
  forall_chars (fun c => negb (copy_control_char c)) (_escapeCopyToData s) = true.
Proof.
  rewrite escape_charwise. apply forall_chars_flat_map. apply escape_char_no_control.
Qed.

Lemma escape_length (s : QString) :
  String.length (_escapeCopyToData s)
  = (String.length s + count_chars escaped_char s)%nat.
Proof.
  rewrite escape_charwise. induction s as [|c s IH]; [reflexivity |].
  simpl. rewrite length_app_s, IH, escape_char_length. lia.
Qed.

Lemma escape_char_plain c : escaped_char c = false -> escape_char c = chr c.
Proof. destruct c as [[] [] [] [] [] [] [] []]; vm_compute; congruence. Qed.

(** X2.  [_escapeCopyToData] adds one character for each backslash and
    each character 8 to 13 of its argument, and returns the argument
    itself exactly when it holds none of them. *)
Theorem escape_length_and_fixed_points (s : QString) :
  String.length (_escapeCopyToData s)
  = (String.length s + count_chars escaped_char s)%nat
  /\ (_escapeCopyToData s = s <-> forall_chars (fun c => negb (escaped_char c)) s = true).
Proof.
  split; [apply escape_length |]. split.
  - intros E. pose proof (escape_length s) as L. rewrite E in L.
    assert (H0 : count_chars escaped_char s = O) by lia. clear E L.
    induction s as [|c s IH]; [reflexivity |]. simpl in *.
    destruct (escaped_char c); [discriminate |]. simpl. apply IH. exact H0.
  - intros H. rewrite escape_charwise. induction s as [|c s IH]; [reflexivity |].
    simpl in H. apply andb_true_iff in H as [Hc H]. apply negb_true_iff in Hc.
    simpl. rewrite (escape_char_plain c Hc), (IH H). reflexivity.
Qed.

(** ** Tag rows *)

Section TagRows.
Context `{Ext : External}.

Lemma escape_no_control s :
  forall_chars (fun c => negb (copy_control_char c)) (_escapeCopyToData s) = true.
Proof. rewrite escape_charwise. apply forall_chars_flat_map, escape_char_no_control. Qed.

Lemma no_control_not_TAB c : negb (copy_control_char c) = true -> not_char TAB c = true.
Proof. revert c. intros [[] [] [] [] [] [] [] []]; vm_compute; congruence. Qed.

Lemma escape_no_TAB s : forall_chars (not_char TAB) (_escapeCopyToData s) = true.
Proof. eapply forall_chars_impl; [apply no_control_not_TAB | apply escape_no_control]. Qed.

Lemma unescape_plain s :
  forall_chars (not_char BACKSLASH) s = true -> unescape s = s.
Proof.
  induction s as [|c s IH]; intros H; [reflexivity |].
  simpl in H. apply andb_true_iff in H as [Hc H].
  unfold not_char in Hc. apply negb_true_iff in Hc.
  simpl. rewrite Hc, (IH H). reflexivity.
Qed.

Lemma numeral_not_BACKSLASH c : numeral_char c = true -> not_char BACKSLASH c = true.
Proof. revert c. intros [[] [] [] [] [] [] [] []]; vm_compute; congruence. Qed.

Lemma unescape_number z : unescape (number z) = number z.
Proof.
  apply unescape_plain. eapply forall_chars_impl; [| apply number_numeral].
  apply numeral_not_BACKSLASH.
Qed.

Lemma decode_current_tag id k v :
  decode_row (join (chr TAB) [number id; _escapeCopyToData k; _escapeCopyToData v])
  = [number id; k; v].
Proof.
  unfold decode_row. rewrite split_tab_join; [| discriminate |].
  - simpl. now rewrite unescape_number, !unescape_escape.
  - repeat constructor; first [apply number_no_TAB | apply escape_no_TAB].
Qed.

Lemma decode_historical_tag id k v :
  decode_row (join (chr TAB) [number id; "1"; _escapeCopyToData k; _escapeCopyToData v])
  = [number id; "1"; k; v].
Proof.
  unfold decode_row. rewrite split_tab_join; [| discriminate |].
  - simpl. now rewrite unescape_number, !unescape_escape.
  - repeat constructor; first [apply number_no_TAB | apply escape_no_TAB | reflexivity].
Qed.

End TagRows.

(** X3.  [_writeTagsToTables] appends one line per tag to each of its two
    tables and leaves the other section files alone; read back (split at
    the tabs, escapes undone) the lines are the id, the key and the value
    of each tag, with the version 1 in the historical table, whatever
    characters the keys and values hold. *)
Theorem tag_rows_read_back `{Ext : External} (tags : Tags) (id : Z)
  (currentTable historicalTable : QString) (w w' : OsmApiDbBulkWriter) :
  currentTable <> historicalTable ->
  _writeTagsToTables tags id currentTable currentTagFormat
    historicalTable historicalTagFormat w = Ok tt w' ->
  exists rows hrows,
    _outputSections w' !! currentTable
    = (fun c => c +:+ unlines rows) <$> (_outputSections w !! currentTable)
    /\ _outputSections w' !! historicalTable
       = (fun c => c +:+ unlines hrows) <$> (_outputSections w !! historicalTable)
    /\ (forall t, t <> currentTable -> t <> historicalTable ->
          _outputSections w' !! t = _outputSections w !! t)
    /\ Forall (fun r => forall_chars (not_char LF) r = true) (rows ++ hrows)
    /\ map decode_row rows = map (fun kv => [number id; fst kv; snd kv]) tags
    /\ map decode_row hrows = map (fun kv => [number id; "1"; fst kv; snd kv]) tags.
Proof.
  intros Hne. unfold _writeTagsToTables. revert w.
  induction tags as [|[k v] tags IH]; intros w H.
  - injection H as <-. exists [], []. simpl.
    repeat split; try constructor;
      match goal with |- ?x = _ <$> ?x => destruct x; simpl; [now rewrite app_nil_r_s | reflexivity] end.
  - simpl in H. apply bind_Ok in H as ([] & w1 & H1 & H).
    apply bind_Ok in H1 as ([] & w2 & H1 & H2).
    apply stream_out_Ok in H1 as (c1 & Hc1 & ->).
    apply stream_out_Ok in H2 as (c2 & Hc2 & ->).
    simpl in Hc2. rewrite lookup_insert_ne in Hc2 by exact Hne.
    apply IH in H as (rows & hrows & Hcur & Hhist & Hother & HLF & Hrows & Hhrows).
    clear IH. simpl in Hcur, Hhist, Hother.
    rewrite lookup_insert_ne, lookup_insert_eq in Hcur by congruence.
    rewrite lookup_insert_eq in Hhist.
    exists (join (chr TAB) [number id; _escapeCopyToData k; _escapeCopyToData v] :: rows),
      (join (chr TAB) [number id; "1"; _escapeCopyToData k; _escapeCopyToData v] :: hrows).
    split; [| split; [| split; [| split; [| split]]]].
    + rewrite Hcur, Hc1. simpl. unfold currentTagFormat, tsv. cbn [join].
      now rewrite !app_assoc_s.
    + rewrite Hhist, Hc2. simpl. unfold historicalTagFormat, tsv. cbn [join].
      now rewrite !app_assoc_s.
    + intros t Ht1 Ht2. rewrite Hother by assumption.
      now rewrite !lookup_insert_ne by congruence.
    + apply Forall_app in HLF as [HL1 HL2]. apply Forall_app. split.
      * constructor; [| exact HL1]. apply forall_chars_join; [reflexivity |].
        repeat constructor; first [apply number_no_LF | apply escape_no_LF].
      * constructor; [| exact HL2]. apply forall_chars_join; [reflexivity |].
        repeat constructor; first [apply number_no_LF | apply escape_no_LF | reflexivity].
    + cbn [map]. rewrite Hrows, decode_current_tag. reflexivity.
    + cbn [map]. rewrite Hhrows, decode_historical_tag. reflexivity.
Qed.

Lemma tag_rows_read_back_witness :
  let w := with_outputSections
             (fun s => <["current_node_tags" := "h1"]> (<["node_tags" := "h2"]> s))
             (newWriter (Ext := exactExternal) "offline" 17 2 false false freshDb) in
  let tags := [("name", String TAB "a" +:+ "\b"); ("k", "v")] in
  let r := _writeTagsToTables tags 5 "current_node_tags" currentTagFormat
             "node_tags" historicalTagFormat w in
  exists rows hrows,
    _outputSections (final_state r) !! "current_node_tags"
    = (fun c => c +:+ unlines rows) <$> (_outputSections w !! "current_node_tags")
    /\ _outputSections (final_state r) !! "node_tags"
       = (fun c => c +:+ unlines hrows) <$> (_outputSections w !! "node_tags")
    /\ (forall t, t <> "current_node_tags" -> t <> "node_tags" ->
          _outputSections (final_state r) !! t = _outputSections w !! t)
    /\ Forall (fun r => forall_chars (not_char LF) r = true) (rows ++ hrows)
    /\ map decode_row rows = map (fun kv => [number 5; fst kv; snd kv]) tags
    /\ map decode_row hrows = map (fun kv => [number 5; "1"; fst kv; snd kv]) tags.
Proof.
  intros w tags r.
  apply (tag_rows_read_back tags 5 "current_node_tags" "node_tags" w (final_state r)).
  - discriminate.
  - vm_compute. reflexivity.
Defined.

(** ** The copy loop and the assembly *)

Section CopyLoop.
Context `{Ext : External}.

Lemma copied_lines content : copied content = unlines (readLines content) +:+ NL.
Proof.
  unfold copied, copyLines, readLine_loop. rewrite fold_left_app. simpl.
  assert (E : forall ls out, fold_left (fun out line => out +:+ of_nullable line +:+ NL)
                               (map Some ls) out = out +:+ unlines ls).
  { induction ls as [|l ls IH]; intros out; simpl.
    - now rewrite app_nil_r_s.
    - rewrite IH. now rewrite !app_assoc_s. }
  rewrite E. reflexivity.
Qed.

Lemma readLines_nil s : readLines s = [] -> s = EmptyString.
Proof.
  destruct s as [|c s]; [reflexivity |]. simpl.
  destruct (Ascii.eqb c LF); [discriminate |].
  destruct (readLines s); discriminate.
Qed.

Lemma unlines_readLines s :
  unlines (readLines s) = s +:+ (if complete_lines s then EmptyString else NL).
Proof.
  induction s as [|c s IH]; [reflexivity |].
  cbn [readLines complete_lines]. destruct (Ascii.eqb c LF) eqn:Ec.
  - apply Ascii.eqb_eq in Ec. subst c. cbn [unlines fold_right]. fold (unlines (readLines s)).
    rewrite IH. destruct s; reflexivity.
  - destruct (readLines s) as [|l ls] eqn:El.
    + apply readLines_nil in El. subst s. reflexivity.
    + destruct s as [|d s]; [discriminate El |].
      cbn [unlines fold_right] in *. fold (unlines ls) in *.
      rewrite !app_cons_s. f_equal. exact IH.
Qed.

End CopyLoop.

(** X5.  The copy loop of [_writeCombinedSqlFile] writes a section file
    that holds no CR as it is and then one LF more; a file whose last line
    has no LF gets that LF too.  So one empty line follows each section in
    the script.  (Of a file with CR nothing is said: [readLine()] drops a
    CR before an LF.) *)
Theorem copy_loop_appends_one_line `{Ext : External} (content out : QString) :
  forall_chars (not_char CR) content = true ->
  copyLines content out
  = out +:+ content +:+ (if complete_lines content then NL else NL +:+ NL).
Proof.
  intros _. rewrite copyLines_out, copied_lines, unlines_readLines.
  destruct (complete_lines content); now rewrite ?app_assoc_s, ?app_nil_l_s.
Qed.

Lemma copy_loop_appends_one_line_witness :
  let content := "1" +:+ chr TAB +:+ "17" +:+ NL +:+ "\." in
  copyLines content "BEGIN"
  = "BEGIN" +:+ content +:+ (if complete_lines content then NL else NL +:+ NL).
Proof.
  intros content.
  apply (copy_loop_appends_one_line (Ext := exactExternal) content "BEGIN").
  vm_compute. reflexivity.
Defined.

(** X4.  When [_writeCombinedSqlFile] returns, for section names that
    are pairwise distinct and section files without CR, the script is
    [BEGIN TRANSACTION;], then for each table of the section list that has
    a file what the copy loop writes for it (with the close marker added
    first, but for the byte-order mark and the sequence updates; nothing
    for the sequence updates online), then [COMMIT;]; and the writer has
    changed in its section files only.  Whether the call returns is not
    stated: the source gives up on a section file that cannot be flushed
    or opened. *)
Theorem assembly_returns_the_sections_in_order `{Ext : External}
  (w w' : OsmApiDbBulkWriter) (script : QString) :
  List.NoDup (_sectionNames w) ->
  map_Forall (fun _ content => forall_chars (not_char CR) content = true)
    (_outputSections w) ->
  _writeCombinedSqlFile w = Ok script w' ->
  script = ("BEGIN TRANSACTION;" +:+ NL)
           +:+ assembled (_mode w) (_outputSections w) (_sectionNames w)
           +:+ "COMMIT;"
  /\ with_outputSections (fun _ => _outputSections w) w' = w.
Proof.
  intros Hnodup _ H. unfold _writeCombinedSqlFile in H.
  apply bind_Ok in H as (? & ? & H1 & H). injection H1 as <- <-.
  apply bind_Ok in H as (r & w1 & Hloop & H). injection H as <- <-.
  pose proof (writeCombinedSqlFile_loop_output _ Hnodup _ _ _ _ Hloop) as ->.
  split; [now rewrite app_assoc_s |].
  pose (f := fun w : OsmApiDbBulkWriter =>
               (_mode w, _maxChangesetSize w, _executeSql w, NDEBUG w, _writeStats w,
                _changesetData w, _idMappings w, _unresolvedRefs w, _sectionNames w,
                _database w)).
  assert (E : f w1 = f w)
    by (refine (preserves_Ok f _ _ _ _ _ Hloop); pres).
  unfold f in E. destruct w, w1. simpl in *. injection E as -> -> -> -> -> -> -> -> -> ->.
  reflexivity.
Qed.

Lemma assembly_returns_the_sections_in_order_witness :
  let w := final_state (written (Ext := exactExternal) Scenario.three_nodes
                          (newWriter "offline" 17 2 false false freshDb)) in
  let r := _writeCombinedSqlFile w in
  default EmptyString (match r with Ok script _ => Some script | Throw _ _ => None end)
  = ("BEGIN TRANSACTION;" +:+ NL)
    +:+ assembled (_mode w) (_outputSections w) (_sectionNames w)
    +:+ "COMMIT;"
  /\ with_outputSections (fun _ => _outputSections w) (final_state r) = w.
Proof.
  intros w r.
  apply (assembly_returns_the_sections_in_order w (final_state r)).
  - apply NoDup_ListNoDup, (bool_decide_unpack _). vm_compute. exact I.
  - apply (bool_decide_unpack _). vm_compute. exact I.
  - vm_compute. reflexivity.
Defined.

(** ** The lines of the rewrite *)

Section RewriteLines.
Context `{Ext : External}.

Lemma readLines_LF_free s :
  Forall (fun l => forall_chars (not_char LF) l = true) (readLines s).
Proof.
  induction s as [|c s IH]; [constructor |].
  simpl. destruct (Ascii.eqb c LF) eqn:Ec; [constructor; [reflexivity | exact IH] |].
  destruct (readLines s) as [|l ls].
  - repeat constructor. simpl. unfold not_char. now rewrite Ec.
  - inversion IH as [|? ? Hl Hls]; subst. constructor; [| exact Hls].
    simpl. unfold not_char at 1. now rewrite Ec, Hl.
Qed.

(** One line out for each line in. *)
Lemma updateLines_lines ids c : forall ls tn rest out O,
  Forall (fun l => forall_chars (not_char LF) l = true) ls ->
  updateLines ids c tn (map Some ls ++ rest) out = inr O ->
  exists ls' tn',
    List.length ls' = List.length ls
    /\ Forall (fun l => forall_chars (not_char LF) l = true) ls'
    /\ updateLines ids c tn' rest (out +:+ unlines ls') = inr O.
Proof.
  induction ls as [|l ls IH]; intros tn rest out O Hls H.
  - exists [], tn. split; [reflexivity |]. split; [constructor |].
    simpl. now rewrite app_nil_r_s.
  - inversion Hls as [|? ? Hl Hls']; subst. simpl in H.
    apply andThen_inr in H as (a & Ha & H).
    destruct (updateLine_line _ _ _ _ _ Hl Ha) as (l' & El & Hl' & _).
    apply IH in H as (ls' & tn' & Hlen & Hq & H); [| exact Hls'].
    exists (l' :: ls'), tn'. split; [simpl; now rewrite Hlen |].
    split; [now constructor |].
    simpl unlines. rewrite El, !app_assoc_s in H. exact H.
Qed.

End RewriteLines.

(** X6.  [_updateIdOffsetsInNewFile], when it returns, has written one
    line for each line of the script it read, and one empty line more for
    the null string that ends the reading; the writer is as it was.  So
    the new script is never the script that was read. *)
Theorem rewrite_writes_a_line_per_line `{Ext : External} (inputSqlFile : QString)
  (w : OsmApiDbBulkWriter) (out : QString) (w' : OsmApiDbBulkWriter) :
  _updateIdOffsetsInNewFile inputSqlFile w = Ok out w' ->
  w' = w
  /\ exists ls, readLines out = ls ++ [EmptyString]
                /\ List.length ls = List.length (readLines inputSqlFile)
                /\ out <> inputSqlFile.
Proof.
  unfold _updateIdOffsetsInNewFile, bind, get. intros H.
  destruct (updateLines _ _ _ _ _) as [e|O] eqn:EU; [discriminate |].
  injection H as <- <-. split; [reflexivity |].
  unfold readLine_loop in EU.
  apply updateLines_lines in EU as (ls & tn & Hlen & HLF & EU);
    [| apply readLines_LF_free].
  simpl in EU. injection EU as EU.
  assert (EO : O = unlines ls +:+ (EmptyString +:+ NL)) by (rewrite <- EU; reflexivity).
  clear EU. subst O.
  assert (Hout : readLines (unlines ls +:+ (EmptyString +:+ NL)) = ls ++ [EmptyString]).
  { change (EmptyString +:+ NL) with (unlines [EmptyString]).
    rewrite <- unlines_app, <- (app_nil_r_s (unlines _)), readLines_unlines.
    - simpl. now rewrite app_nil_r.
    - apply Forall_app. split; [exact HLF | repeat constructor]. }
  exists ls. split; [exact Hout |]. split; [exact Hlen |].
  intros E. rewrite E in Hout.
  apply (f_equal (@List.length QString)) in Hout.
  rewrite List.length_app in Hout. simpl in Hout. lia.
Qed.

Lemma rewrite_writes_a_line_per_line_witness :
  let w := newWriter (Ext := exactExternal) "online" 17 2 false false Scenario.busyDb in
  let script := "COPY current_node_tags (node_id, k, v) FROM stdin;" +:+ NL
                +:+ tsv ["1"; "k"; "v"] +:+ "\." +:+ NL in
  let r := _updateIdOffsetsInNewFile script w in
  let out := match r with Ok o _ => o | Throw _ _ => EmptyString end in
  final_state r = w
  /\ exists ls, readLines out = ls ++ [EmptyString]
                /\ List.length ls = List.length (readLines script)
                /\ out <> script.
Proof.
  intros w script r out.
  apply (rewrite_writes_a_line_per_line script w out (final_state r)).
  vm_compute. reflexivity.
Defined.

(** ** [open] and [close] *)

Section LifecycleFacts.
Context `{Ext : External}.

Lemma open_opens w w' :
  open w = Ok tt w' -> db_isOpen (_database w') = true.
Proof.
  unfold open. intros H. apply bind_Ok in H as (? & ? & H1 & H). injection H1 as <- <-.
  destruct (db_isOpen (_database w)); [discriminate |].
  apply bind_Ok in H as ([] & w1 & H1 & H). injection H1 as <-.
  transitivity (db_isOpen (_database (with_database (set_isOpen true) w))); [| reflexivity].
  refine (preserves_Ok (fun w => db_isOpen (_database w)) _ _ _ _ _ H).
  unfold_methods. pres.
Qed.

Lemma close_state conf w :
  close conf w
  = Ok tt (with_changesetData
             (set_changesetBounds (changesetBounds (_changesetData w)))
             (newWriter (getOsmapidbBulkWriterMode conf) (getChangesetUserId conf)
                (_maxChangesetSize w) (getOsmapidbBulkWriterExecuteSql conf)
                (NDEBUG w) (set_isOpen false (_database w)))).
Proof. reflexivity. Qed.

Lemma open_closed_returns w :
  db_isOpen (_database w) = false -> exists w', open w = Ok tt w'.
Proof.
  intros H. unfold open, bind, get. rewrite H. unfold modify.
  destruct (String.eqb _ "offline"); simpl; [| eauto].
  unfold _getLatestIdsFromDb, getNextId, bind, get, modify, ret, when. simpl.
  destruct (String.eqb _ "online"); simpl; eauto.
Qed.

End LifecycleFacts.

(** X7.  A second [open] on a writer that is open fails with the
    already-open exception and changes nothing; after [close] the writer
    can be opened again. *)
Theorem open_twice_fails_until_closed `{Ext : External} (conf : Settings)
  (w w1 : OsmApiDbBulkWriter) :
  open w = Ok tt w1 ->
  open w1 = Throw AlreadyOpen w1
  /\ exists w2, bind (close conf) (fun _ => open) w1 = Ok tt w2.
Proof.
  intros H. apply open_opens in H. split.
  - unfold open, bind, get. now rewrite H.
  - unfold bind. rewrite close_state. apply open_closed_returns. reflexivity.
Qed.

Lemma open_twice_fails_until_closed_witness :
  let w := newWriter (Ext := exactExternal) "offline" 17 2 false false Scenario.busyDb in
  let w1 := final_state (open w) in
  open w1 = Throw AlreadyOpen w1
  /\ exists w2, bind (close (mkSettings 17 "online" false)) (fun _ => open) w1 = Ok tt w2.
Proof.
  intros w w1. apply (open_twice_fails_until_closed _ w w1). vm_compute. reflexivity.
Defined.

(** X8.  [close] (and so the destructor) does not finalize: what was
    written is dropped without a script and without a statement sent to
    the database.  The writer is left as the constructor leaves it, for
    the settings read and the maximum changeset size it had, with one
    exception: the bounds of the changeset that was open are kept.  A
    [finalizePartial] that follows returns without a script. *)
Theorem close_drops_what_was_written `{Ext : External} (conf : Settings)
  (w : OsmApiDbBulkWriter) :
  exists w',
    close conf w = Ok tt w'
    /\ w' = with_changesetData
              (set_changesetBounds (changesetBounds (_changesetData w)))
              (newWriter (getOsmapidbBulkWriterMode conf) (getChangesetUserId conf)
                 (_maxChangesetSize w) (getOsmapidbBulkWriterExecuteSql conf)
                 (NDEBUG w) (set_isOpen false (_database w)))
    /\ db_events (_database w') = db_events (_database w)
    /\ finalizePartial w' = Ok None w'.
Proof.
  eexists. split; [apply close_state |]. repeat split.
Qed.

(** ** The unset user id *)

#[export] Hint Unfold open_changeset_view : views.

Section UserId.
Context `{Ext : External}.

Lemma writeChangesetToTable_user w r w' :
  _writeChangesetToTable w = Ok r w' -> changesetUserId (_changesetData w) <> -1.
Proof.
  unfold _writeChangesetToTable, bind, get. intros H E. rewrite E in H. discriminate H.
Qed.

Lemma incrementChangesInChangeset_unset_user w w' :
  changesetUserId (_changesetData w) = -1 ->
  _incrementChangesInChangeset w = Ok tt w' ->
  open_changeset_view w' = (-1, long_incr (changesInChangeset (_changesetData w))).
Proof.
  intros Hu H. unfold _incrementChangesInChangeset in H.
  apply bind_Ok in H as ([] & w1 & H1 & H). injection H1 as <-.
  apply bind_Ok in H as (? & w2 & H1 & H). injection H1 as <- <-.
  destruct (_ =? _); simpl in H.
  - apply bind_Ok in H as ([] & w3 & Hflush & _).
    apply writeChangesetToTable_user in Hflush. simpl in Hflush. contradiction.
  - injection H as <-. unfold open_changeset_view. simpl. now rewrite Hu.
Qed.

Lemma writePartial_unset_user e w w' :
  changesetUserId (_changesetData w) = -1 ->
  writePartial e w = Ok tt w' ->
  open_changeset_view w' = (-1, long_incr (changesInChangeset (_changesetData w))).
Proof.
  intros Hu H.
  destruct (writePartial_changeset_view e w w' H) as (w1 & w2 & E1 & Hi & E2).
  unfold changeset_view in E1, E2.
  injection E1 as _ Eu Ec _ _. injection E2 as _ Eu2 Ec2 _ _.
  apply incrementChangesInChangeset_unset_user in Hi; [| congruence].
  unfold open_changeset_view in *. injection Hi as Hu2 Hc2. congruence.
Qed.

Lemma forEach_unset_user elements : forall k w w',
  open_changeset_view w = (-1, k) -> 0 <= k ->
  k + Z.of_nat (List.length elements) < 2 ^ 63 ->
  forEach elements writePartial w = Ok tt w' ->
  open_changeset_view w' = (-1, k + Z.of_nat (List.length elements)).
Proof.
  induction elements as [|e l IH]; intros k w w' Hv Hk Hlen H.
  - injection H as <-. simpl. now rewrite Z.add_0_r.
  - simpl in H. apply bind_Ok in H as ([] & w1 & H1 & H). simpl List.length in *.
    unfold open_changeset_view in Hv. injection Hv as Hu Hc.
    apply (writePartial_unset_user _ _ _ Hu) in H1. rewrite Hc in H1.
    unfold long_incr, long_add in H1. rewrite wrap64_small in H1 by lia.
    rewrite (IH (k + 1) w1 w' H1 ltac:(lia) ltac:(lia) H). f_equal. lia.
Qed.

End UserId.

(** X9.  With the changeset user id -1 (the value [_reset] leaves when
    none is configured) no script comes out of a stream that has an
    element: if every element is written, [finalizePartial] fails on the
    flush of the open changeset with the invalid-user exception, before
    the database is touched. *)
Theorem unset_user_id_fails_at_finalize `{Ext : External} (elements : list Element)
  (mode : QString) (maxChangesetSize : Z) (executeSql ndebug : bool)
  (db : Database) (w : OsmApiDbBulkWriter) :
  elements <> [] ->
  Z.of_nat (List.length elements) < 2 ^ 63 ->
  written elements (newWriter mode (-1) maxChangesetSize executeSql ndebug db) = Ok tt w ->
  exists w',
    session elements (newWriter mode (-1) maxChangesetSize executeSql ndebug db)
    = Throw InvalidUserId w'
    /\ _database w' = _database w.
Proof.
  intros Hne Hlen Hrun.
  destruct (written_counts _ _ _ _ _ _ _ _ Hrun) as (Hn & Hw & Hr).
  pose proof (count_kind_total elements) as Htotal.
  pose proof (count_kind_nonneg ElementType.Node elements) as Hnn.
  pose proof (count_kind_nonneg ElementType.Way elements) as Hwn.
  pose proof (count_kind_nonneg ElementType.Relation elements) as Hrn.
  rewrite wrap64_small in Hn, Hw, Hr by lia.
  assert (Hpos : 0 < Z.of_nat (List.length elements))
    by (destruct elements; [contradiction | simpl; lia]).
  assert (Hview : open_changeset_view w = (-1, Z.of_nat (List.length elements))).
  { unfold written in Hrun. apply bind_Ok in Hrun as ([] & w1 & Hopen & Hrun).
    assert (E : open_changeset_view w1
                = open_changeset_view
                    (newWriter mode (-1) maxChangesetSize executeSql ndebug db))
      by (refine (preserves_Ok open_changeset_view open _ _ _ _ Hopen);
          unfold_methods; pres).
    apply (forEach_unset_user elements 0 w1 w E) in Hrun; [exact Hrun | lia | lia]. }
  unfold open_changeset_view in Hview. injection Hview as Hu Hc.
  assert (Hsession : session elements
                       (newWriter mode (-1) maxChangesetSize executeSql ndebug db)
                     = finalizePartial w).
  { unfold session, written in *. unfold bind in *.
    destruct (open _) as [[] w1|]; [| discriminate]. now rewrite Hrun. }
  rewrite Hsession. unfold finalizePartial, bind, get.
  replace ((nodesWritten (_writeStats w) =? 0) && (waysWritten (_writeStats w) =? 0)
           && (relationsWritten (_writeStats w) =? 0)) with false.
  - unfold _createTable, modify. simpl. rewrite Hc.
    replace (0 <? Z.of_nat (List.length elements)) with true
      by (symmetry; apply Z.ltb_lt; lia).
    simpl. unfold _writeChangesetToTable, bind, get. simpl. rewrite Hu. simpl.
    eexists. split; reflexivity.
  - symmetry. apply andb_false_iff.
    destruct (Z.eq_dec (nodesWritten (_writeStats w)) 0) as [E0 |];
      [| left; apply andb_false_iff; left; now apply Z.eqb_neq].
    destruct (Z.eq_dec (waysWritten (_writeStats w)) 0) as [E1 |];
      [| left; apply andb_false_iff; right; now apply Z.eqb_neq].
    right. apply Z.eqb_neq. lia.
Qed.

Lemma unset_user_id_fails_at_finalize_witness :
  let w0 := newWriter (Ext := exactExternal) "offline" (-1) 50 false false freshDb in
  let w := final_state (written Scenario.three_nodes w0) in
  exists w', session Scenario.three_nodes w0 = Throw InvalidUserId w'
             /\ _database w' = _database w.
Proof.
  intros w0 w.
  apply (unset_user_id_fails_at_finalize Scenario.three_nodes "offline" 50 false false
           freshDb w).
  - discriminate.
  - vm_compute. reflexivity.
  - vm_compute. reflexivity.
Defined.

(** ** Calls on the database *)

Section DatabaseCalls.
Context `{Ext : External}.

Lemma getLatestIdsFromDb_events w w' :
  _getLatestIdsFromDb w = Ok tt w' ->
  _database w' = mkDatabase (db_isOpen (_database w)) (db_nextNodeId (_database w))
                   (db_nextWayId (_database w)) (db_nextRelationId (_database w))
                   (db_nextChangesetId (_database w))
                   (db_events (_database w) ++ id_requests)
  /\ _mode w' = _mode w /\ _executeSql w' = _executeSql w.
Proof.
  unfold _getLatestIdsFromDb, getNextId, bind, get, modify, ret, when. simpl.
  destruct (String.eqb (_mode w) "online"); simpl; intros [= <-]; simpl.
  all: unfold log_event; simpl; rewrite <- !app_assoc; repeat split; reflexivity.
Qed.

Lemma open_events w w' :
  open w = Ok tt w' ->
  db_events (_database w')
  = db_events (_database w)
    ++ (if String.eqb (_mode w) "offline" then id_requests else [])
  /\ _mode w' = _mode w /\ _executeSql w' = _executeSql w.
Proof.
  unfold open, bind, get. destruct (db_isOpen (_database w)); [discriminate |].
  unfold modify. destruct (String.eqb (_mode w) "offline"); unfold when; intros H.
  - apply getLatestIdsFromDb_events in H as (Hd & Hm & Hx). rewrite Hd, Hm, Hx.
    repeat split; reflexivity.
  - injection H as <-. split; [apply eq_sym, app_nil_r | split; reflexivity].
Qed.

Lemma lockIds_events w w' :
  _lockIds w = Ok tt w' ->
  exists sql,
    db_events (_database w') = db_events (_database w) ++ id_requests ++ [SqlExecuted sql].
Proof.
  unfold _lockIds. intros H.
  apply bind_Ok in H as (? & ? & H1 & H). injection H1 as <- <-.
  destruct (nodesWritten (_writeStats w) =? 0); [discriminate |].
  apply bind_Ok in H as ([] & w1 & H1 & H).
  apply getLatestIdsFromDb_events in H1 as (Hd & _ & _).
  apply bind_Ok in H as (? & ? & H2 & H). injection H2 as <- <-.
  apply bind_Ok in H as ([] & w2 & H2 & H).
  assert (E2 : _database w2 = _database w1) by keeps _database H2.
  apply bind_Ok in H as (? & ? & H3 & H). injection H3 as <- <-.
  destruct (_outputSections w2 !! "sequence_updates") as [sql|]; [| discriminate].
  injection H as <-. exists sql. simpl. rewrite E2, Hd. simpl.
  now rewrite <- app_assoc.
Qed.

Lemma finalize_events w o w' :
  finalizePartial w = Ok o w' ->
  exists lock,
    db_events (_database w')
    = db_events (_database w)
      ++ match o with
         | None => []
         | Some script =>
             (if String.eqb (_mode w) "online"
              then id_requests ++ [SqlExecuted lock] else [])
             ++ (if _executeSql w then [ScriptExecuted script] else [])
         end.
Proof.
  intros H. unfold finalizePartial in H.
  apply bind_Ok in H as (? & ? & H1 & H). injection H1 as <- <-.
  destruct (_ && _).
  { injection H as <- <-. exists EmptyString. now rewrite app_nil_r. }
  inv_chain_keep (fun w => (_database w, _mode w, _executeSql w)) H.
  injection H as <- <-. cbv beta in *.
  assert (E4 : (_database w4, _mode w4, _executeSql w4)
               = (_database w, _mode w, _executeSql w)) by congruence.
  clear E E0 E1 E2 E3. injection E4 as D4 M4 X4. rewrite M4 in H1. rewrite X4 in H0.
  rewrite <- D4. clear D4 M4 X4.
  assert (Hlock : exists lock,
            db_events (_database w5)
            = db_events (_database w4)
              ++ (if String.eqb (_mode w) "online"
                  then id_requests ++ [SqlExecuted lock] else [])).
  { destruct (String.eqb (_mode w) "online").
    - apply bind_Ok in H1 as ([] & w7 & Hl & Hu).
      apply lockIds_events in Hl as (sql & Hl). exists sql. rewrite <- Hl.
      f_equal. keeps _database Hu.
    - injection H1 as _ <-. exists EmptyString. now rewrite app_nil_r. }
  destruct Hlock as (lock & Hlock). exists lock.
  rewrite app_assoc, <- Hlock.
  destruct (_executeSql w); simpl in H0.
  - unfold _executeElementSql, modify in H0. injection H0 as H0. subst w6.
    now destruct w5 as [? ? ? ? ? ? ? ? ? ? []].
  - injection H0 as _ H0. subst w6. now rewrite app_nil_r.
Qed.

End DatabaseCalls.

(** X10.  The calls a session that returns makes on the database, in
    order.  Offline the four next ids are requested at [open]; online they
    are requested in [finalizePartial], once the script is assembled, and
    the statements that reserve the ids are executed next; the script is
    executed last, and only if [_executeSql] is set.  Writing elements
    makes no call, and a session without elements makes none in
    [finalizePartial]. *)
Theorem database_calls_of_a_session `{Ext : External} (elements : list Element)
  (mode : QString) (userId maxChangesetSize : Z) (executeSql ndebug : bool)
  (db : Database) (o : option QString) (w : OsmApiDbBulkWriter) :
  session elements (newWriter mode userId maxChangesetSize executeSql ndebug db) = Ok o w ->
  exists lock,
    db_events (_database w)
    = db_events db
      ++ (if String.eqb (toLower mode) "offline" then id_requests else [])
      ++ match o with
         | None => []
         | Some script =>
             (if String.eqb (toLower mode) "online"
              then id_requests ++ [SqlExecuted lock] else [])
             ++ (if executeSql then [ScriptExecuted script] else [])
         end.
Proof.
  intros H. unfold session in H.
  apply bind_Ok in H as ([] & w1 & Hopen & H).
  apply bind_Ok in H as ([] & w2 & Hrun & Hfin).
  apply open_events in Hopen as (E1 & M1 & X1).
  assert (V2 : (_database w2, _mode w2, _executeSql w2)
               = (_database w1, _mode w1, _executeSql w1))
    by keeps (fun w => (_database w, _mode w, _executeSql w)) Hrun.
  injection V2 as D2 M2 X2.
  apply finalize_events in Hfin as (lock & Hfin). exists lock.
  rewrite Hfin, D2, E1, M2, M1, X2, X1, <- app_assoc. reflexivity.
Qed.

Lemma database_calls_of_a_session_witness :
  let r := session (Ext := exactExternal) Scenario.three_nodes
             (newWriter "online" 17 2 true false Scenario.busyDb) in
  let o := match r with Ok o _ => o | Throw _ _ => None end in
  exists lock,
    db_events (_database (final_state r))
    = db_events Scenario.busyDb
      ++ (if String.eqb (toLower "online") "offline" then id_requests else [])
      ++ match o with
         | None => []
         | Some script =>
             (if String.eqb (toLower "online") "online"
              then id_requests ++ [SqlExecuted lock] else [])
             ++ (if true then [ScriptExecuted script] else [])
         end.
Proof.
  intros r o.
  apply (database_calls_of_a_session Scenario.three_nodes "online" 17 2 true false
           Scenario.busyDb o (final_state r)).
  vm_compute. reflexivity.
Defined.

(** ** Allocation of database ids *)

Section Allocation.
Context `{Ext : External}.

Lemma source_ids_app k l1 l2 :
  source_ids k (l1 ++ l2) = source_ids k l1 ++ source_ids k l2.
Proof. unfold source_ids. now rewrite List.filter_app, map_app. Qed.

Lemma source_ids_length k l : Z.of_nat (List.length (source_ids k l)) = count_kind k l.
Proof. unfold source_ids, count_kind. now rewrite length_map. Qed.

Lemma source_ids_one k e :
  source_ids k [e] = if bool_decide (kind_of e = k) then [snd (getElementId e)] else [].
Proof. unfold source_ids. simpl. now destruct (bool_decide _). Qed.

Lemma writePartial_ids e w w' :
  writePartial e w = Ok tt w' ->
  (forall k, kind_of e <> k -> idMap k w' = idMap k w /\ current_id k w' = current_id k w)
  /\ exists m, idMap_in_use (kind_of e) w = Some m
       /\ m !! snd (getElementId e) = None
       /\ idMap (kind_of e) w'
          = Some (<[snd (getElementId e) := current_id (kind_of e) w]> m)
       /\ current_id (kind_of e) w' = long_incr (current_id (kind_of e) w).
Proof.
  intros H. destruct e as [n|y|r]; unfold writePartial in H.
  - destruct (writePartial_Node_idMappings n w w' H) as (m & Hm & Hid & Hi). split.
    + intros [] Hk; unfold kind_of in *; simpl in *; try congruence; rewrite ?Hi; auto.
    + exists m. unfold kind_of. simpl. rewrite Hi. auto.
  - destruct (writePartial_Way_idMappings y w w' H) as (m & Hm & Hid & Hi). split.
    + intros [] Hk; unfold kind_of in *; simpl in *; try congruence; rewrite ?Hi; auto.
    + exists m. unfold kind_of. simpl. rewrite Hi. auto.
  - destruct (writePartial_Relation_idMappings r w w' H) as (m & Hm & Hid & Hi). split.
    + intros [] Hk; unfold kind_of in *; simpl in *; try congruence; rewrite ?Hi; auto.
    + exists m. unfold kind_of. simpl. rewrite Hi. auto.
Qed.

Lemma allocated_snoc first ids m id :
  allocated first ids m -> m !! id = None ->
  allocated first (ids ++ [id])
    (<[id := wrap64 (first + Z.of_nat (List.length ids))]> m).
Proof.
  intros Hm Hid id' v. split.
  - intros H. destruct (decide (id = id')) as [<- | Hne].
    + rewrite lookup_insert_eq in H. injection H as <-.
      exists (List.length ids). split; [| reflexivity].
      rewrite lookup_app_r by reflexivity. now rewrite Nat.sub_diag.
    + rewrite lookup_insert_ne in H by exact Hne.
      apply Hm in H as (i & Hi & ->). exists i. split; [| reflexivity].
      apply lookup_app_l_Some, Hi.
  - intros (i & Hi & ->). apply lookup_app_Some in Hi as [Hi | [Hlen Hi]].
    + assert (Hin : m !! id' = Some (wrap64 (first + Z.of_nat i))) by (apply Hm; eauto).
      rewrite lookup_insert_ne; [exact Hin |]. intros <-. congruence.
    + apply list_lookup_singleton_Some in Hi as [Hi <-].
      rewrite lookup_insert_eq. do 3 f_equal. lia.
Qed.

Lemma allocated_in first ids m id :
  allocated first ids m -> In id ids -> is_Some (m !! id).
Proof.
  intros Hm Hin. apply list_elem_of_In, list_elem_of_lookup in Hin as [i Hi].
  exists (wrap64 (first + Z.of_nat i)). apply Hm. eauto.
Qed.

Lemma ids_state_step k first pre e w w' :
  Z.of_nat (List.length (pre ++ [e])) < 2 ^ 63 ->
  k <> ElementType.Unknown ->
  knows pre w -> ids_state k first pre w -> writePartial e w = Ok tt w' ->
  ids_state k first (pre ++ [e]) w'.
Proof.
  intros Hlen Hk Hknows (Hnd & Hcur & m & Hm & Hall) H.
  pose proof (knows_step pre e w w' Hlen Hknows H) as [Hcount' _].
  destruct Hknows as [Hcount _].
  destruct (writePartial_ids e w w' H) as (Hother & m0 & Hm0 & Hid & Hown & Hnext).
  rewrite List.length_app in Hlen. simpl in Hlen.
  pose proof (count_kind_nonneg k pre). pose proof (count_kind_le k pre).
  unfold ids_state. rewrite source_ids_app, source_ids_one, count_kind_app, count_kind_cons.
  change (count_kind k []) with 0.
  destruct (decide (kind_of e = k)) as [Heq | Hne].
  - subst k. rewrite bool_decide_eq_true_2 by reflexivity.
    rewrite Hm in Hm0. injection Hm0 as <-.
    split; [| split].
    + apply NoDup_ListNoDup, NoDup_app. split; [apply NoDup_ListNoDup, Hnd |].
      split; [| apply NoDup_singleton].
      intros x Hx Hx'. apply list_elem_of_singleton in Hx'. subst x.
      apply list_elem_of_In in Hx. apply (allocated_in _ _ _ _ Hall) in Hx.
      rewrite Hid in Hx. now destruct Hx.
    + rewrite Hnext, Hcur, long_incr_wrap. f_equal. lia.
    + exists (<[snd (getElementId e) := current_id (kind_of e) w]> m). split.
      * unfold idMap_in_use. rewrite (Hcount' _ Hk), count_kind_app, count_kind_cons.
        change (count_kind (kind_of e) []) with 0.
        rewrite bool_decide_eq_true_2 by reflexivity.
        destruct (_ =? 0) eqn:E0; [apply Z.eqb_eq in E0; lia | exact Hown].
      * rewrite Hcur, <- source_ids_length. now apply allocated_snoc.
  - rewrite bool_decide_eq_false_2 by exact Hne. rewrite app_nil_r, !Z.add_0_r.
    destruct (Hother k Hne) as [Hmap Hc].
    split; [exact Hnd |]. split; [now rewrite Hc |].
    exists m. split; [| exact Hall].
    unfold idMap_in_use in *. rewrite Hmap, (Hcount' _ Hk), count_kind_app, count_kind_cons.
    change (count_kind k []) with 0. rewrite bool_decide_eq_false_2 by exact Hne.
    rewrite (Hcount _ Hk) in Hm. now rewrite !Z.add_0_r.
Qed.

Lemma ids_state_opened k mode user max exec ndebug db w :
  k <> ElementType.Unknown ->
  - 2 ^ 63 <= first_id k (toLower mode) db < 2 ^ 63 ->
  open (newWriter mode user max exec ndebug db) = Ok tt w ->
  ids_state k (first_id k (toLower mode) db) [] w.
Proof.
  intros Hk Hfirst. unfold open, newWriter, bind, get. simpl.
  destruct (db_isOpen db); [discriminate |].
  unfold modify, first_id, db_nextId in *. simpl.
  destruct (String.eqb (toLower mode) "offline") eqn:Eoff; simpl.
  - unfold _getLatestIdsFromDb, getNextId, bind, get, modify, ret. simpl.
    apply String.eqb_eq in Eoff. rewrite Eoff. simpl. intros [= <-].
    unfold ids_state, idMap_in_use. change (count_kind k []) with 0. rewrite Z.add_0_r.
    rewrite wrap64_small by exact Hfirst.
    split; [constructor |]. split; [now destruct k |].
    exists ∅. split; [now destruct k |].
    intros id v. rewrite lookup_empty. split; [discriminate |].
    now intros (i & Hi & _).
  - intros [= <-].
    unfold ids_state, idMap_in_use. change (count_kind k []) with 0. rewrite Z.add_0_r.
    split; [constructor |]. split; [now destruct k |].
    exists ∅. split; [now destruct k |].
    intros id v. rewrite lookup_empty. split; [discriminate |].
    now intros (i & Hi & _).
Qed.

Lemma written_ids_state k elements mode user max exec ndebug db : forall w,
  Z.of_nat (List.length elements) < 2 ^ 63 ->
  k <> ElementType.Unknown ->
  - 2 ^ 63 <= first_id k (toLower mode) db < 2 ^ 63 ->
  written elements (newWriter mode user max exec ndebug db) = Ok tt w ->
  ids_state k (first_id k (toLower mode) db) elements w.
Proof.
  induction elements as [|e pre IH] using rev_ind; intros w Hlen Hk Hfirst H.
  - unfold written in H. apply bind_Ok in H as ([] & w1 & Hopen & H).
    injection H as <-. now apply (ids_state_opened k mode user max exec ndebug db).
  - apply written_snoc in H as (w1 & Hpre & He).
    assert (Hlen' : Z.of_nat (List.length pre) < 2 ^ 63)
      by (rewrite List.length_app in Hlen; simpl in Hlen; lia).
    eapply ids_state_step; [exact Hlen | exact Hk | | | exact He].
    + eapply written_knows; [exact Hlen' | exact Hpre].
    + now apply IH.
Qed.

End Allocation.

(** X11.  Database ids are handed out per kind in the order of the
    stream: after a run of fewer than 2^63 elements, the source ids of a
    kind are pairwise distinct, the id map of the kind sends the [i]-th of
    them to [first + i] (in 64 bits) and holds no other key, and the next
    id of the kind is [first] plus their number.  [first] is the next id
    of the database offline, and 1 in the other modes. *)
Theorem ids_allocated_in_stream_order `{Ext : External} (elements : list Element)
  (k : ElementType) (mode : QString) (userId maxChangesetSize : Z)
  (executeSql ndebug : bool) (db : Database) (w : OsmApiDbBulkWriter) :
  let first := first_id k (toLower mode) db in
  Z.of_nat (List.length elements) < 2 ^ 63 ->
  k <> ElementType.Unknown ->
  - 2 ^ 63 <= first < 2 ^ 63 ->
  written elements (newWriter mode userId maxChangesetSize executeSql ndebug db) = Ok tt w ->
  List.NoDup (source_ids k elements)
  /\ current_id k w = wrap64 (first + count_kind k elements)
  /\ (source_ids k elements <> [] ->
      exists m, idMap k w = Some m /\ allocated first (source_ids k elements) m).
Proof.
  intros first Hlen Hk Hfirst H.
  destruct (written_ids_state k elements mode userId maxChangesetSize executeSql ndebug db
              w Hlen Hk Hfirst H) as (Hnd & Hcur & m & Hm & Hall).
  split; [exact Hnd |]. split; [exact Hcur |].
  intros Hne. exists m. split; [| exact Hall].
  destruct (written_knows elements mode userId maxChangesetSize executeSql ndebug db
              w Hlen H) as [Hcount _].
  unfold idMap_in_use in Hm. rewrite (Hcount _ Hk) in Hm.
  destruct (count_kind k elements =? 0) eqn:E0; [| exact Hm].
  apply Z.eqb_eq in E0. rewrite <- source_ids_length in E0.
  destruct (source_ids k elements); [contradiction | simpl in E0; lia].
Qed.

Lemma ids_allocated_in_stream_order_witness :
  let elements := [Scenario.node 10 2 1; Scenario.way 7 [10]; Scenario.node 20 2 1] in
  let w := final_state (written elements
                          (newWriter "offline" 17 50000 false false Scenario.busyDb)) in
  List.NoDup (source_ids ElementType.Node elements)
  /\ current_id ElementType.Node w = wrap64 (1001 + count_kind ElementType.Node elements)
  /\ (source_ids ElementType.Node elements <> [] ->
      exists m, idMap ElementType.Node w = Some m
                /\ allocated 1001 (source_ids ElementType.Node elements) m).
Proof.
  intros elements w.
  apply (ids_allocated_in_stream_order elements ElementType.Node "offline" 17 50000
           false false Scenario.busyDb w).
  - vm_compute. reflexivity.
  - discriminate.
  - vm_compute. split; [discriminate | reflexivity].
  - vm_compute. reflexivity.
Defined.

(** ** Ways and their nodes *)

#[export] Hint Unfold present : views.

Section WayNodes.
Context `{Ext : External}.

Lemma preserves_stream_out_present t t' x : preserves (present t) (stream_out t' x).
Proof.
  intros w. unfold stream_out. destruct (_outputSections w !! t') as [c|] eqn:E; simpl;
    [| reflexivity].
  unfold present. simpl. destruct (decide (t' = t)) as [<- | Hne].
  - rewrite lookup_insert_eq, E. reflexivity.
  - now rewrite lookup_insert_ne.
Qed.

#[local] Hint Resolve preserves_stream_out_present : pres.

Lemma preserves_writeWaynodesToTables_loop_present t s l : forall i,
  preserves (present t) (_writeWaynodesToTables_loop s l i).
Proof. induction l as [|x l IH]; intros i; simpl; pres. Qed.

#[local] Hint Resolve preserves_writeWaynodesToTables_loop_present : pres.

Lemma writePartial_ways_ready e w w' :
  writePartial e w = Ok tt w' -> ways_ready w -> ways_ready w'.
Proof.
  intros H Hready Hw'. unfold way_tables.
  destruct e as [n|y|r]; unfold writePartial in H.
  - destruct (writePartial_Node_counts n w w' H) as (_ & Hw & _).
    rewrite Hw in Hw'. specialize (Hready Hw'). unfold way_tables in Hready.
    repeat match goal with
           | H0 : Forall _ (_ :: _) |- _ => apply Forall_cons in H0 as [? H0]
           end.
    repeat constructor;
      match goal with
      | Hp : present ?t w = true |- present ?t w' = true =>
          rewrite <- Hp; keeps (present t) H
      end.
  - unfold writePartial_Way in H.
    apply bind_Ok in H as (? & w0 & H0 & H). injection H0 as <- <-.
    apply bind_Ok in H as ([] & w1 & Hcreate & H).
    assert (H1 : Forall (fun t => present t w1 = true) way_tables).
    { destruct (waysWritten (_writeStats w) =? 0) eqn:E0; simpl in Hcreate.
      - injection Hcreate as <-. unfold way_tables.
        repeat constructor; unfold present; cbn;
          rewrite ?lookup_insert_ne
            by (let E := fresh in intro E; vm_compute in E; discriminate E);
          rewrite lookup_insert_eq; reflexivity.
      - injection Hcreate as <-. apply Hready. now apply Z.eqb_neq. }
    unfold way_tables in H1.
    repeat match goal with
           | H0 : Forall _ (_ :: _) |- _ => apply Forall_cons in H0 as [? H0]
           end.
    repeat constructor;
      match goal with
      | Hp : present ?t w1 = true |- present ?t w' = true =>
          rewrite <- Hp; keeps (present t) H
      end.
  - destruct (writePartial_Relation_counts r w w' H) as (_ & Hw & _).
    rewrite Hw in Hw'. specialize (Hready Hw'). unfold way_tables in Hready.
    repeat match goal with
           | H0 : Forall _ (_ :: _) |- _ => apply Forall_cons in H0 as [? H0]
           end.
    repeat constructor;
      match goal with
      | Hp : present ?t w = true |- present ?t w' = true =>
          rewrite <- Hp; keeps (present t) H
      end.
Qed.

Lemma written_ways_ready elements mode user max exec ndebug db : forall w,
  written elements (newWriter mode user max exec ndebug db) = Ok tt w -> ways_ready w.
Proof.
  induction elements as [|e pre IH] using rev_ind; intros w H.
  - unfold written in H. apply bind_Ok in H as ([] & w1 & Hopen & H).
    injection H as <-. intros Hw. exfalso. apply Hw.
    destruct (knows_opened _ _ _ _ _ _ _ Hopen) as [Hc _].
    now apply (Hc ElementType.Way).
  - apply written_snoc in H as (w1 & Hpre & He).
    eapply writePartial_ways_ready; [exact He | now apply IH].
Qed.

Lemma keys_step k pre e w w' :
  Z.of_nat (List.length (pre ++ [e])) < 2 ^ 63 ->
  k <> ElementType.Unknown ->
  knows pre w -> keys k pre w -> writePartial e w = Ok tt w' ->
  keys k (pre ++ [e]) w'.
Proof.
  intros Hlen Hk Hknows (m & Hm & Hall) H.
  pose proof (knows_step pre e w w' Hlen Hknows H) as [Hcount' _].
  destruct Hknows as [Hcount _].
  destruct (writePartial_ids e w w' H) as (Hother & m0 & Hm0 & Hid & Hown & Hnext).
  rewrite List.length_app in Hlen. simpl in Hlen.
  pose proof (count_kind_nonneg k pre). pose proof (count_kind_le k pre).
  unfold keys, idMap_in_use.
  rewrite (Hcount' _ Hk), source_ids_app, source_ids_one, count_kind_app, count_kind_cons.
  change (count_kind k []) with 0.
  destruct (decide (kind_of e = k)) as [Heq | Hne].
  - subst k. rewrite bool_decide_eq_true_2 by reflexivity.
    rewrite Hm in Hm0. injection Hm0 as <-.
    destruct (_ =? 0) eqn:E0; [apply Z.eqb_eq in E0; lia |].
    eexists. split; [exact Hown |]. intros id.
    rewrite lookup_insert_is_Some, Hall, in_app_iff. simpl.
    destruct (decide ((getElementId e).2 = id)) as [-> | Hn]; [tauto |]. tauto.
  - rewrite bool_decide_eq_false_2 by exact Hne. rewrite app_nil_r, !Z.add_0_r.
    destruct (Hother k Hne) as [Hmap _]. rewrite Hmap.
    unfold idMap_in_use in Hm. rewrite (Hcount _ Hk) in Hm. eauto.
Qed.

Lemma written_keys k elements mode user max exec ndebug db : forall w,
  Z.of_nat (List.length elements) < 2 ^ 63 ->
  k <> ElementType.Unknown ->
  written elements (newWriter mode user max exec ndebug db) = Ok tt w ->
  keys k elements w.
Proof.
  induction elements as [|e pre IH] using rev_ind; intros w Hlen Hk H.
  - unfold written in H. apply bind_Ok in H as ([] & w1 & Hopen & H).
    injection H as <-.
    destruct (knows_opened _ _ _ _ _ _ _ Hopen) as [Hc _].
    exists ∅. unfold idMap_in_use. rewrite (Hc k Hk). split; [reflexivity |].
    intros id. rewrite lookup_empty. split; [now intros [] | intros []].
  - apply written_snoc in H as (w1 & Hpre & He).
    assert (Hlen' : Z.of_nat (List.length pre) < 2 ^ 63)
      by (rewrite List.length_app in Hlen; simpl in Hlen; lia).
    eapply keys_step; [exact Hlen | exact Hk | | | exact He].
    + eapply written_knows; [exact Hlen' | exact Hpre].
    + now apply IH.
Qed.

(** Before the first node is written there is no node map. *)
Lemma written_without_nodes elements mode user max exec ndebug db : forall w,
  written elements (newWriter mode user max exec ndebug db) = Ok tt w ->
  count_kind ElementType.Node elements = 0 ->
  nodeIdMap (_idMappings w) = None.
Proof.
  induction elements as [|e pre IH] using rev_ind; intros w H Hc.
  - unfold written in H. apply bind_Ok in H as ([] & w1 & Hopen & H).
    injection H as <-.
    assert (E : nodeIdMap (_idMappings w1)
                = nodeIdMap (_idMappings (newWriter mode user max exec ndebug db)))
      by keeps (fun w => nodeIdMap (_idMappings w)) Hopen.
    exact E.
  - apply written_snoc in H as (w1 & Hpre & He).
    rewrite count_kind_app, count_kind_cons in Hc. change (count_kind _ []) with 0 in Hc.
    pose proof (count_kind_nonneg ElementType.Node pre).
    destruct (writePartial_ids e w1 w He) as (Hother & _).
    case_bool_decide as Hk; [lia |].
    destruct (Hother _ Hk) as [Hmap _]. simpl in Hmap. rewrite Hmap.
    apply IH; [exact Hpre | lia].
Qed.

Lemma stream_out_present t x w :
  present t w = true ->
  exists w', stream_out t x w = Ok tt w'
             /\ _idMappings w' = _idMappings w
             /\ forall t', present t' w = true -> present t' w' = true.
Proof.
  unfold present at 1. intros H. apply bool_decide_eq_true in H as [c Hc].
  unfold stream_out. rewrite Hc. eexists. split; [reflexivity |].
  split; [reflexivity |]. intros t' H'.
  rewrite <- H'. symmetry.
  pose proof (preserves_stream_out_present t' t x w) as P.
  unfold stream_out in P. rewrite Hc in P. symmetry. exact P.
Qed.

(** The loop over the node ids of a way stops at the first id the node
    map lacks. *)
Lemma writeWaynodesToTables_loop_unresolved s m ids : forall i w,
  nodeIdMap (_idMappings w) = Some m ->
  present ApiDb.getCurrentWayNodesTableName w = true ->
  present ApiDb.getWayNodesTableName w = true ->
  (exists id, In id ids /\ m !! id = None) ->
  exists w', _writeWaynodesToTables_loop s ids i w = Throw UnresolvedWayNode w'
             /\ _writeStats w' = _writeStats w /\ _idMappings w' = _idMappings w.
Proof.
  induction ids as [|it rest IH]; intros i w Hm H1 H2 (id & Hin & Hid); [destruct Hin |].
  simpl. unfold bind at 1. unfold bind at 1, get. rewrite Hm.
  destruct (m !! it) as [dbNodeId|] eqn:Eit.
  - destruct (stream_out_present _ (tsv [s; number dbNodeId; number i]) w H1)
      as (w1 & E1 & I1 & P1).
    unfold bind at 1. rewrite E1.
    destruct (stream_out_present _ (tsv [s; number dbNodeId; "1"; number i]) w1
                (P1 _ H2)) as (w2 & E2 & I2 & P2).
    rewrite E2.
    destruct (IH (wrap32u (i + 1)) w2) as (w' & Hw' & Hs' & Hi').
    + now rewrite I2, I1.
    + auto.
    + auto.
    + exists id. split; [| exact Hid]. destruct Hin as [<- | Hin]; [congruence | exact Hin].
    + exists w'. split; [exact Hw' |]. rewrite Hs', Hi'.
      assert (S2 : _writeStats w2 = _writeStats w1) by keeps _writeStats E2.
      assert (S1 : _writeStats w1 = _writeStats w) by keeps _writeStats E1.
      split; congruence.
  - exists w. repeat split; reflexivity.
Qed.

End WayNodes.

Section UnknownNode.
Context `{Ext : External}.

Lemma bind_get {B} (k : OsmApiDbBulkWriter -> M B) w : bind get k w = k w w.
Proof. reflexivity. Qed.

Lemma bind_modify {B} g (k : unit -> M B) w : bind (modify g) k w = k tt (g w).
Proof. reflexivity. Qed.

Lemma bind_ret {A B} (a : A) (k : A -> M B) w : bind (ret a) k w = k a w.
Proof. reflexivity. Qed.

Lemma writePartial_Way_unknown_node y w mw :
  idMap_in_use ElementType.Way w = Some mw ->
  mw !! Way_id y = None ->
  ways_ready w ->
  Way_nodeIds y <> [] ->
  match nodeIdMap (_idMappings w) with
  | Some m => exists id, In id (Way_nodeIds y) /\ m !! id = None
  | None => True
  end ->
  exists w',
    writePartial (EWay y) w
    = Throw (match nodeIdMap (_idMappings w) with
             | Some _ => UnresolvedWayNode
             | None => NullPointer
             end) w'
    /\ waysWritten (_writeStats w') = waysWritten (_writeStats w)
    /\ _idMappings w'
       = set_currentWayId (long_incr (currentWayId (_idMappings w)))
           (set_wayIdMap (Some (<[Way_id y := currentWayId (_idMappings w)]> mw))
              (_idMappings w)).
Proof.
  intros Hmw Hid Hready Hne Hnodes.
  unfold writePartial, writePartial_Way. rewrite bind_get.
  assert (Hw1 : exists w1,
             when (waysWritten (_writeStats w) =? 0)
               (bind _createWayTables
                  (fun _ => modify (with_idMappings (set_wayIdMap (Some ∅))))) w
             = Ok tt w1
             /\ _idMappings w1 = set_wayIdMap (Some mw) (_idMappings w)
             /\ _writeStats w1 = _writeStats w
             /\ _changesetData w1 = _changesetData w
             /\ Forall (fun t => present t w1 = true) way_tables).
  { unfold idMap_in_use in Hmw. simpl in Hmw.
    destruct (waysWritten (_writeStats w) =? 0) eqn:E0; simpl.
    - injection Hmw as <-. eexists. split; [reflexivity |].
      repeat split.
      unfold way_tables.
      repeat constructor; unfold present; cbn;
        rewrite ?lookup_insert_ne
          by (let E := fresh in intro E; vm_compute in E; discriminate E);
        rewrite lookup_insert_eq; reflexivity.
    - exists w. split; [reflexivity |]. split.
      + destruct w as [? ? ? ? ? ? [] ? ? ? ?]. simpl in *. now rewrite Hmw.
      + repeat split. apply Hready. now apply Z.eqb_neq. }
  destruct Hw1 as (w1 & E1 & I1 & S1 & C1 & P1).
  rewrite (bind_of_Ok _ _ _ _ _ E1). rewrite bind_get.
  unfold rejectKnown, BigMap_contains. rewrite I1. simpl wayIdMap.
  cbv iota.
  destruct (bool_decide (is_Some (mw !! Way_id y))) eqn:Hk;
    [apply bool_decide_eq_true in Hk; rewrite Hid in Hk; now destruct Hk |].
  rewrite bind_ret.
  assert (E2 : exists w2,
             _establishNewIdMapping (ElementType.Way, Way_id y) w1
             = Ok (currentWayId (_idMappings w)) w2
             /\ _idMappings w2
                = set_currentWayId (long_incr (currentWayId (_idMappings w)))
                    (set_wayIdMap (Some (<[Way_id y := currentWayId (_idMappings w)]> mw))
                       (_idMappings w))
             /\ _writeStats w2 = _writeStats w
             /\ Forall (fun t => present t w2 = true) way_tables).
  { unfold _establishNewIdMapping. rewrite bind_get. simpl fst. simpl snd.
    rewrite I1. simpl. eexists. split; [reflexivity |].
    destruct w1 as [? ? ? ? ? ? i1 ? ? ? ?]. simpl in *. subst i1.
    split; [reflexivity | split; [exact S1 | exact P1]]. }
  destruct E2 as (w2 & E2 & I2 & S2 & P2).
  rewrite (bind_of_Ok _ _ _ _ _ E2).
  assert (E3 : exists w3,
             _writeWayToTables (currentWayId (_idMappings w)) w2 = Ok tt w3
             /\ _idMappings w3 = _idMappings w2
             /\ _writeStats w3 = _writeStats w2
             /\ present ApiDb.getCurrentWayNodesTableName w3 = true
             /\ present ApiDb.getWayNodesTableName w3 = true).
  { unfold way_tables in P2.
    repeat match goal with
           | H0 : Forall _ (_ :: _) |- _ => apply Forall_cons in H0 as [? H0]
           end.
    unfold _writeWayToTables. rewrite bind_get.
    match goal with
    | |- context [bind (stream_out ?t ?x) _ w2] =>
        destruct (stream_out_present t x w2) as (w3 & E3 & I3 & P3); [assumption |]
    end.
    rewrite (bind_of_Ok _ _ _ _ _ E3).
    match goal with
    | |- context [stream_out ?t ?x w3] =>
        destruct (stream_out_present t x w3) as (w4 & E4 & I4 & P4); [auto |]
    end.
    exists w4. split; [exact E4 |]. split; [congruence |].
    assert (S4 : _writeStats w4 = _writeStats w3) by keeps _writeStats E4.
    assert (S3 : _writeStats w3 = _writeStats w2) by keeps _writeStats E3.
    split; [congruence |]. split; auto. }
  destruct E3 as (w3 & E3 & I3 & S3 & P3 & P3').
  rewrite (bind_of_Ok _ _ _ _ _ E3), bind_get, I3, I2. simpl wayIdMap.
  cbn [mbind option_bind]. rewrite lookup_insert_eq.
  unfold _writeWaynodesToTables.
  destruct (nodeIdMap (_idMappings w)) as [m|] eqn:En.
  - destruct (writeWaynodesToTables_loop_unresolved
                (number (currentWayId (_idMappings w))) m (Way_nodeIds y) 1 w3)
      as (w' & Hw' & Hs' & Hi'); [now rewrite I3, I2 | assumption | assumption | assumption |].
    exists w'. rewrite (bind_of_Throw _ _ _ _ _ Hw').
    split; [reflexivity |]. split; [congruence |]. now rewrite Hi', I3, I2.
  - exists w3. destruct (Way_nodeIds y) as [|it rest]; [contradiction |].
    split.
    + simpl. unfold bind, get. rewrite I3, I2. simpl. rewrite En. reflexivity.
    + split; [congruence |]. now rewrite I3, I2.
Qed.

End UnknownNode.

(** X12.  A way must come after its nodes.  After a run of fewer than
    2^63 elements, a way with a new source id that refers to a node id no
    written node carries is rejected: with [UnresolvedWayNode] if a node
    was written, and on the null node map if none was.  The way is not
    counted, but its database id is spent: the next way id has advanced
    and the way map holds the source id. *)
Theorem way_with_unknown_node_rejected `{Ext : External} (elements : list Element)
  (y : Way) (mode : QString) (userId maxChangesetSize : Z) (executeSql ndebug : bool)
  (db : Database) (w : OsmApiDbBulkWriter) :
  Z.of_nat (List.length elements) < 2 ^ 63 ->
  written elements (newWriter mode userId maxChangesetSize executeSql ndebug db) = Ok tt w ->
  ~ In (Way_id y) (source_ids ElementType.Way elements) ->
  (exists id, In id (Way_nodeIds y) /\ ~ In id (source_ids ElementType.Node elements)) ->
  exists w',
    writePartial (EWay y) w
    = Throw (if count_kind ElementType.Node elements =? 0
             then NullPointer else UnresolvedWayNode) w'
    /\ waysWritten (_writeStats w') = waysWritten (_writeStats w)
    /\ currentWayId (_idMappings w') = long_incr (currentWayId (_idMappings w))
    /\ exists m, wayIdMap (_idMappings w') = Some m
                 /\ m !! Way_id y = Some (currentWayId (_idMappings w)).
Proof.
  intros Hlen H Hnew (id & Hin & Hunknown).
  destruct (written_keys ElementType.Way elements _ _ _ _ _ _ w Hlen ltac:(discriminate) H)
    as (mw & Hmw & Kw).
  destruct (written_keys ElementType.Node elements _ _ _ _ _ _ w Hlen ltac:(discriminate) H)
    as (mn & Hmn & Kn).
  destruct (written_knows elements _ _ _ _ _ _ w Hlen H) as [Hcount _].
  assert (Hid : mw !! Way_id y = None).
  { destruct (mw !! Way_id y) eqn:E; [| reflexivity].
    exfalso. apply Hnew, Kw. rewrite E. eauto. }
  unfold idMap_in_use in Hmn. rewrite (Hcount ElementType.Node) in Hmn by discriminate.
  assert (Hn : nodeIdMap (_idMappings w)
               = if count_kind ElementType.Node elements =? 0 then None else Some mn).
  { destruct (count_kind ElementType.Node elements =? 0) eqn:E0; [| exact Hmn].
    apply Z.eqb_eq in E0. exact (written_without_nodes _ _ _ _ _ _ _ _ H E0). }
  destruct (writePartial_Way_unknown_node y w mw Hmw Hid) as (w' & Hw' & Hs' & Hi').
  - eapply written_ways_ready, H.
  - intros E. rewrite E in Hin. destruct Hin.
  - rewrite Hn. destruct (count_kind ElementType.Node elements =? 0); [exact I |].
    exists id. split; [exact Hin |].
    destruct (mn !! id) eqn:E; [| reflexivity].
    exfalso. apply Hunknown, Kn. rewrite E. eauto.
  - exists w'. split; [| split; [exact Hs' | split]].
    + rewrite Hw', Hn. now destruct (count_kind ElementType.Node elements =? 0).
    + now rewrite Hi'.
    + rewrite Hi'. eexists. split; [reflexivity |]. apply lookup_insert_eq.
Qed.

Lemma way_with_unknown_node_rejected_witness :
  let elements := [Scenario.node 1 2 1; Scenario.way 5 [1]] in
  let y := mkWay 6 [] [1; 2] in
  let w := final_state (written elements
                          (newWriter "offline" 17 50000 false false Scenario.busyDb)) in
  exists w',
    writePartial (EWay y) w
    = Throw (if count_kind ElementType.Node elements =? 0
             then NullPointer else UnresolvedWayNode) w'
    /\ waysWritten (_writeStats w') = waysWritten (_writeStats w)
    /\ currentWayId (_idMappings w') = long_incr (currentWayId (_idMappings w))
    /\ exists m, wayIdMap (_idMappings w') = Some m
                 /\ m !! Way_id y = Some (currentWayId (_idMappings w)).
Proof.
  intros elements y w.
  apply (way_with_unknown_node_rejected elements y "offline" 17 50000 false false
           Scenario.busyDb w).
  - vm_compute. reflexivity.
  - vm_compute. reflexivity.
  - vm_compute. intros [E | []]. discriminate E.
  - exists 2. split; [vm_compute; auto |].
    vm_compute. intros [E | []]. discriminate E.
Defined.

(** ** Counters *)

#[export] Hint Unfold tally_view : views.

Section Statistics.
Context `{Ext : External}.


Ltac tally :=
  unfold tally_view, long_add in *; simpl in *;
  repeat match goal with
         | E : (_, _) = (_, _) |- _ => injection E as ? ? ? ? ?
         end;
  repeat f_equal; congruence.

Lemma writePartial_tally e w w' :
  writePartial e w = Ok tt w' ->
  forall nt wt wn rt,
    tally_view w = (wrap64 nt, wrap64 wt, wrap64 wn, wrap64 rt, 0) ->
    tally_view w'
    = (wrap64 (nt + tag_count ElementType.Node [e]),
       wrap64 (wt + tag_count ElementType.Way [e]),
       wrap64 (wn + way_node_count [e]),
       wrap64 (rt + tag_count ElementType.Relation [e]), 0).
Proof.
  intros H nt wt wn rt Hv.
  unfold tag_count, way_node_count, kind_of.
  destruct e as [n|y|r]; unfold writePartial in H; simpl; rewrite !Z.add_0_r.
  - rewrite <- (wrap64_add_l nt).
    unfold writePartial_Node in H. inv_all tally_view H. tally.
  - rewrite <- (wrap64_add_l wt), <- (wrap64_add_l wn).
    unfold writePartial_Way in H. inv_all tally_view H. tally.
  - rewrite <- (wrap64_add_l rt).
    unfold writePartial_Relation in H. inv_all tally_view H. tally.
Qed.

Lemma forEach_tally elements : forall w w' nt wt wn rt,
  forEach elements writePartial w = Ok tt w' ->
  tally_view w = (wrap64 nt, wrap64 wt, wrap64 wn, wrap64 rt, 0) ->
  tally_view w'
  = (wrap64 (nt + tag_count ElementType.Node elements),
     wrap64 (wt + tag_count ElementType.Way elements),
     wrap64 (wn + way_node_count elements),
     wrap64 (rt + tag_count ElementType.Relation elements), 0).
Proof.
  induction elements as [|e l IH]; intros w w' nt wt wn rt H Hv.
  - injection H as <-. unfold tag_count, way_node_count. simpl.
    now rewrite !Z.add_0_r.
  - simpl in H. apply bind_Ok in H as ([] & w1 & H1 & H).
    rewrite (IH _ _ _ _ _ _ H (writePartial_tally e w w1 H1 _ _ _ _ Hv)).
    unfold tag_count, way_node_count. simpl. rewrite !Z.add_0_r.
    repeat match goal with
           | |- pair _ _ = pair _ _ => apply f_equal2
           | |- wrap64 _ = wrap64 _ => apply f_equal
           end; try reflexivity; lia.
Qed.

Lemma long_add_wrap_l a b : long_add (wrap64 a) b = wrap64 (a + b).
Proof. apply wrap64_add_l. Qed.

Lemma long_add_wraps a b : long_add (wrap64 a) (wrap64 b) = wrap64 (a + b).
Proof.
  unfold long_add. rewrite wrap64_add_l, Z.add_comm, wrap64_add_l. f_equal. lia.
Qed.

End Statistics.

(** X13.  The counters after a run, in 64 bits: the elements of each
    kind, their tags and the node references of the ways are counted as
    the stream holds them; the count of unresolved relation members is
    never raised; and the total of records is the number of elements, tags
    and way nodes plus the member rows counted and the changesets
    flushed. *)
Theorem statistics_of_a_run `{Ext : External} (elements : list Element)
  (mode : QString) (userId maxChangesetSize : Z) (executeSql ndebug : bool)
  (db : Database) (w : OsmApiDbBulkWriter) :
  written elements (newWriter mode userId maxChangesetSize executeSql ndebug db) = Ok tt w ->
  let s := _writeStats w in
  (forall k, k <> ElementType.Unknown -> written_count k w = wrap64 (count_kind k elements))
  /\ nodeTagsWritten s = wrap64 (tag_count ElementType.Node elements)
  /\ wayTagsWritten s = wrap64 (tag_count ElementType.Way elements)
  /\ wayNodesWritten s = wrap64 (way_node_count elements)
  /\ relationTagsWritten s = wrap64 (tag_count ElementType.Relation elements)
  /\ relationMembersUnresolved s = 0
  /\ _getTotalRecordsWritten w
     = wrap64 (Z.of_nat (List.length elements)
               + tag_count ElementType.Node elements + tag_count ElementType.Way elements
               + tag_count ElementType.Relation elements + way_node_count elements
               + relationMembersWritten s + changesetsWritten (_changesetData w)).
Proof.
  intros H s.
  destruct (written_counts _ _ _ _ _ _ _ _ H) as (Hn & Hw & Hr).
  unfold written in H. apply bind_Ok in H as ([] & w1 & Hopen & H).
  assert (E : tally_view w1
              = tally_view (newWriter mode userId maxChangesetSize executeSql ndebug db))
    by keeps tally_view Hopen.
  pose proof (forEach_tally elements w1 w 0 0 0 0 H E) as Ht.
  unfold tally_view in Ht. rewrite !Z.add_0_l in Ht. injection Ht as Hnt Hwt Hwn Hrt Hu.
  fold s in Hn, Hw, Hr, Hnt, Hwt, Hwn, Hrt, Hu.
  split; [intros [] Hk; [exact Hn | exact Hw | exact Hr | contradiction] |].
  repeat (split; [assumption |]).
  unfold _getTotalRecordsWritten. fold s.
  rewrite Hn, Hw, Hr, Hnt, Hwt, Hwn, Hrt, <- (count_kind_total elements).
  repeat first [rewrite long_add_wraps | rewrite long_add_wrap_l].
  f_equal. lia.
Qed.

Lemma statistics_of_a_run_witness :
  let elements := map ENode Scenario.tagged_nodes
                  ++ [EWay (mkWay 4 [("highway", "path")] [7; 9; 7])] in
  let w := final_state (written elements
                          (newWriter "online" 17 2 false false Scenario.busyDb)) in
  let s := _writeStats w in
  (forall k, k <> ElementType.Unknown -> written_count k w = wrap64 (count_kind k elements))
  /\ nodeTagsWritten s = wrap64 (tag_count ElementType.Node elements)
  /\ wayTagsWritten s = wrap64 (tag_count ElementType.Way elements)
  /\ wayNodesWritten s = wrap64 (way_node_count elements)
  /\ relationTagsWritten s = wrap64 (tag_count ElementType.Relation elements)
  /\ relationMembersUnresolved s = 0
  /\ _getTotalRecordsWritten w
     = wrap64 (Z.of_nat (List.length elements)
               + tag_count ElementType.Node elements + tag_count ElementType.Way elements
               + tag_count ElementType.Relation elements + way_node_count elements
               + relationMembersWritten s + changesetsWritten (_changesetData w)).
Proof.
  intros elements w.
  apply (statistics_of_a_run elements "online" 17 2 false false Scenario.busyDb w).
  vm_compute. reflexivity.
Defined.

(** ** Way node rows *)

Section WayNodeRows.
Context `{Ext : External}.

Lemma wrap32u_small z : 0 <= z < 2 ^ 32 -> wrap32u z = z.
Proof. intros H. unfold wrap32u. now apply Z.mod_small. Qed.

Lemma fmap_append_nil (o : option QString) : o = (fun c => c +:+ EmptyString) <$> o.
Proof. destruct o; simpl; [now rewrite app_nil_r_s | reflexivity]. Qed.

Lemma writeWaynodesToTables_loop_rows s ids : forall i w w',
  0 <= i -> i + Z.of_nat (List.length ids) <= 2 ^ 32 ->
  _writeWaynodesToTables_loop s ids i w = Ok tt w' ->
  exists m dbNodeIds,
    (ids <> [] -> nodeIdMap (_idMappings w) = Some m)
    /\ Forall2 (fun id dbNodeId => m !! id = Some dbNodeId) ids dbNodeIds
    /\ _outputSections w' !! ApiDb.getCurrentWayNodesTableName
       = (fun c => c +:+ unlines (current_way_node_rows s i dbNodeIds))
           <$> (_outputSections w !! ApiDb.getCurrentWayNodesTableName)
    /\ _outputSections w' !! ApiDb.getWayNodesTableName
       = (fun c => c +:+ unlines (way_node_rows s i dbNodeIds))
           <$> (_outputSections w !! ApiDb.getWayNodesTableName)
    /\ (forall t, t <> ApiDb.getCurrentWayNodesTableName ->
                  t <> ApiDb.getWayNodesTableName ->
                  _outputSections w' !! t = _outputSections w !! t)
    /\ with_outputSections (fun _ => _outputSections w) w' = w.
Proof.
  induction ids as [|it rest IH]; intros i w w' Hi Hlen H.
  - injection H as <-. exists ∅, []. simpl.
    split; [contradiction |]. split; [constructor |].
    split; [apply fmap_append_nil |]. split; [apply fmap_append_nil |].
    split; [reflexivity |]. now destruct w.
  - simpl in H. rewrite bind_get in H. apply bind_Ok in H as ([] & w1 & H1 & H).
    destruct (nodeIdMap (_idMappings w)) as [m|] eqn:Em; [| discriminate].
    destruct (m !! it) as [dbNodeId|] eqn:Eit; [| discriminate].
    apply bind_Ok in H1 as ([] & w2 & H1 & H2).
    apply stream_out_Ok in H1 as (c1 & Hc1 & ->).
    apply stream_out_Ok in H2 as (c2 & Hc2 & ->).
    simpl in Hc2. rewrite lookup_insert_ne in Hc2 by discriminate.
    simpl List.length in Hlen.
    assert (Hnext : 0 <= wrap32u (i + 1)
                    /\ wrap32u (i + 1) + Z.of_nat (List.length rest) <= 2 ^ 32
                    /\ (rest <> [] -> wrap32u (i + 1) = i + 1)).
    { destruct rest as [|x rest].
      - unfold wrap32u. pose proof (Z.mod_pos_bound (i + 1) (2 ^ 32) ltac:(lia)).
        simpl. split; [lia |]. split; [lia | contradiction].
      - simpl List.length in *. rewrite wrap32u_small by lia. lia. }
    destruct Hnext as (Hi' & Hlen' & Hnext).
    apply (IH _ _ _ Hi' Hlen') in H
      as (m' & dbs & Hm' & Hall & Hcur & Hhist & Hother & Hrest).
    clear IH. simpl in Hcur, Hhist, Hother, Hm', Hrest.
    rewrite lookup_insert_ne, lookup_insert_eq in Hcur by discriminate.
    rewrite lookup_insert_eq in Hhist.
    assert (Hm : Forall2 (fun id db => m !! id = Some db) rest dbs).
    { destruct rest as [|x rest]; [inversion Hall; constructor |].
      rewrite Em in Hm'. specialize (Hm' ltac:(discriminate)).
      injection Hm' as ->. exact Hall. }
    assert (Hrows : forall (f : Z -> QString -> QString),
               imap (fun k db => f (wrap32u (i + 1) + Z.of_nat k) (number db)) dbs
               = imap (fun k db => f (i + Z.of_nat (S k)) (number db)) dbs).
    { intros f. destruct rest as [|x rest].
      - inversion Hall. reflexivity.
      - rewrite Hnext by discriminate. apply imap_ext. intros k db _.
        f_equal. lia. }
    exists m, (dbNodeId :: dbs).
    split; [reflexivity |]. split; [constructor; assumption |].
    split; [| split; [| split]].
    + unfold current_way_node_rows in Hcur |- *.
      rewrite (Hrows (fun z db => join (chr TAB) [s; db; number z])) in Hcur.
      rewrite Hcur, Hc1, imap_cons. unfold compose, tsv. simpl.
      now rewrite Z.add_0_r, !app_assoc_s.
    + unfold way_node_rows in Hhist |- *.
      rewrite (Hrows (fun z db => join (chr TAB) [s; db; "1"; number z])) in Hhist.
      rewrite Hhist, Hc2, imap_cons. unfold compose, tsv. simpl.
      now rewrite Z.add_0_r, !app_assoc_s.
    + intros t Ht1 Ht2. rewrite Hother by assumption.
      now rewrite !lookup_insert_ne by congruence.
    + clear - Hrest. destruct w, w'. unfold with_outputSections in *. simpl in *.
      injection Hrest; intros; subst; reflexivity.
Qed.

End WayNodeRows.

(** X14.  [_writeWaynodesToTables] with fewer than 2^32 node ids, when it
    returns: every node id of the way is in the node map, and the call
    appends one row per node id to [current_way_nodes] and one to
    [way_nodes], in the order of the way, with the database id of the node
    and the places 1, 2, ...; nothing else of the writer changes. *)
Theorem way_nodes_written_in_order `{Ext : External} (dbWayId : Z) (waynodeIds : list Z)
  (w w' : OsmApiDbBulkWriter) :
  Z.of_nat (List.length waynodeIds) < 2 ^ 32 ->
  _writeWaynodesToTables dbWayId waynodeIds w = Ok tt w' ->
  exists m dbNodeIds,
    (waynodeIds <> [] -> nodeIdMap (_idMappings w) = Some m)
    /\ Forall2 (fun id dbNodeId => m !! id = Some dbNodeId) waynodeIds dbNodeIds
    /\ _outputSections w' !! ApiDb.getCurrentWayNodesTableName
       = (fun c => c +:+ unlines (current_way_node_rows (number dbWayId) 1 dbNodeIds))
           <$> (_outputSections w !! ApiDb.getCurrentWayNodesTableName)
    /\ _outputSections w' !! ApiDb.getWayNodesTableName
       = (fun c => c +:+ unlines (way_node_rows (number dbWayId) 1 dbNodeIds))
           <$> (_outputSections w !! ApiDb.getWayNodesTableName)
    /\ (forall t, t <> ApiDb.getCurrentWayNodesTableName ->
                  t <> ApiDb.getWayNodesTableName ->
                  _outputSections w' !! t = _outputSections w !! t)
    /\ with_outputSections (fun _ => _outputSections w) w' = w.
Proof.
  intros Hlen H. unfold _writeWaynodesToTables in H.
  apply (writeWaynodesToTables_loop_rows _ _ 1 w w'); [lia | lia | exact H].
Qed.

Lemma way_nodes_written_in_order_witness :
  let w := final_state (written [Scenario.node 10 2 1; Scenario.node 20 2 1;
                                  Scenario.way 5 [10]]
                          (newWriter "offline" 17 50000 false false Scenario.busyDb)) in
  let r := _writeWaynodesToTables 2002 [20; 10; 20] w in
  exists m dbNodeIds,
    ([20; 10; 20] <> [] -> nodeIdMap (_idMappings w) = Some m)
    /\ Forall2 (fun id dbNodeId => m !! id = Some dbNodeId) [20; 10; 20] dbNodeIds
    /\ _outputSections (final_state r) !! ApiDb.getCurrentWayNodesTableName
       = (fun c => c +:+ unlines (current_way_node_rows (number 2002) 1 dbNodeIds))
           <$> (_outputSections w !! ApiDb.getCurrentWayNodesTableName)
    /\ _outputSections (final_state r) !! ApiDb.getWayNodesTableName
       = (fun c => c +:+ unlines (way_node_rows (number 2002) 1 dbNodeIds))
           <$> (_outputSections w !! ApiDb.getWayNodesTableName)
    /\ (forall t, t <> ApiDb.getCurrentWayNodesTableName ->
                  t <> ApiDb.getWayNodesTableName ->
                  _outputSections (final_state r) !! t = _outputSections w !! t)
    /\ with_outputSections (fun _ => _outputSections w) (final_state r) = w.
Proof.
  intros w r.
  apply (way_nodes_written_in_order 2002 [20; 10; 20] w (final_state r)).
  - vm_compute. reflexivity.
  - vm_compute. reflexivity.
Defined.

(** ** Rows and headers *)

Section TableFiles.
Context `{Ext : External}.

Lemma keeps_files_ret {A} (a : A) : keeps_files (ret a).
Proof. intros w b w' [= _ <-]. auto. Qed.

Lemma keeps_files_throw {A} e : keeps_files (throw (A:=A) e).
Proof. intros w b w'. discriminate. Qed.

Lemma keeps_files_get : keeps_files get.
Proof. intros w b w' [= _ <-]. auto. Qed.

Lemma keeps_files_modify g :
  (forall w, _outputSections (g w) = _outputSections w) -> keeps_files (modify g).
Proof.
  intros Hg w b w' [= <- <-] H t c. rewrite Hg. apply H.
Qed.

Lemma keeps_files_bind {A B} (m : M A) (k : A -> M B) :
  keeps_files m -> (forall a, keeps_files (k a)) -> keeps_files (bind m k).
Proof.
  intros Hm Hk w b w' H Hw. apply bind_Ok in H as (a & w1 & H1 & H2).
  eapply Hk; [exact H2 |]. eapply Hm; eassumption.
Qed.

Lemma keeps_files_bind_ret {A B} (a : A) (k : A -> M B) :
  keeps_files (k a) -> keeps_files (bind (ret a) k).
Proof. intros H. exact H. Qed.

Lemma keeps_files_bind_throw {A B} e (k : A -> M B) : keeps_files (bind (throw e) k).
Proof. intros w b w'. discriminate. Qed.

Lemma keeps_files_when b m : keeps_files m -> keeps_files (when b m).
Proof. intros H. destruct b; [assumption | apply keeps_files_ret]. Qed.

Lemma keeps_files_forEach {A} (l : list A) body :
  (forall x, keeps_files (body x)) -> keeps_files (forEach l body).
Proof.
  intros H. induction l as [|x l IH]; simpl; [apply keeps_files_ret |].
  apply keeps_files_bind; auto.
Qed.

Lemma row_of_fields fields :
  fields <> [] ->
  Forall (fun f => forall_chars (not_char TAB) f = true
                   /\ forall_chars (not_char LF) f = true) fields ->
  row_of (List.length fields) (join (chr TAB) fields).
Proof.
  intros Hne H. split.
  - apply forall_chars_join; [reflexivity |].
    eapply Forall_impl; [exact H |]. now intros f [_ ?].
  - rewrite split_tab_join; [reflexivity | exact Hne |].
    eapply Forall_impl; [exact H |]. now intros f [? _].
Qed.

Lemma keeps_files_stream_out t fields :
  List.length fields = arity t ->
  fields <> [] ->
  Forall (fun f => forall_chars (not_char TAB) f = true
                   /\ forall_chars (not_char LF) f = true) fields ->
  keeps_files (stream_out t (tsv fields)).
Proof.
  intros Hn Hne Hf w [] w' H Hw t' c'.
  apply stream_out_Ok in H as (c & Hc & ->). simpl.
  destruct (decide (t = t')) as [<- | Hne'].
  - rewrite lookup_insert_eq. intros [= <-].
    destruct (Hw _ _ Hc) as (cols & rows & -> & Hcols & Hh & Hrows).
    exists cols, (rows ++ [join (chr TAB) fields]).
    split; [| split; [exact Hcols | split; [exact Hh |]]].
    + unfold tsv. now rewrite unlines_snoc, !app_assoc_s.
    + apply Forall_app. split; [exact Hrows |].
      constructor; [| constructor]. rewrite <- Hn. now apply row_of_fields.
  - rewrite lookup_insert_ne by exact Hne'. apply Hw.
Qed.

Lemma keeps_files_createTable t columns b :
  forall_chars (not_char LF) columns = true ->
  header_columns columns = arity t ->
  keeps_files (_createTable t (copy_header t columns) b).
Proof.
  intros Hcols Hh w [] w' [= <-] Hw t' c'. simpl.
  destruct (decide (t = t')) as [<- | Hne'].
  - rewrite lookup_insert_eq. intros [= <-].
    exists columns, []. simpl. rewrite app_nil_r_s. repeat split; auto.
  - rewrite lookup_insert_ne by exact Hne'. apply Hw.
Qed.

End TableFiles.

Ltac clean_fields :=
  repeat constructor;
  first [ apply number_no_TAB | apply number_no_LF
        | apply datestring_no_TAB | apply datestring_no_LF
        | apply escape_no_TAB | apply escape_no_LF | reflexivity ].

Ltac files_step :=
  lazymatch goal with
  | |- keeps_files (let _ := _ in _) => cbv zeta
  | |- keeps_files (bind (ret _) _) => apply keeps_files_bind_ret
  | |- keeps_files (bind (throw _) _) => apply keeps_files_bind_throw
  | |- keeps_files (bind (match ?x with _ => _ end) _) => destruct x
  | |- keeps_files (bind _ _) => apply keeps_files_bind; [| intros ?]
  | |- keeps_files (ret _) => apply keeps_files_ret
  | |- keeps_files get => apply keeps_files_get
  | |- keeps_files (throw _) => apply keeps_files_throw
  | |- keeps_files (modify _) => apply keeps_files_modify; intros ?; reflexivity
  | |- keeps_files (when _ _) => apply keeps_files_when
  | |- keeps_files (forEach _ _) => apply keeps_files_forEach; intros ?
  | |- keeps_files (stream_out _ (tsv _)) =>
      apply keeps_files_stream_out; [reflexivity | discriminate | clean_fields]
  | |- keeps_files (_createTable _ (copy_header _ _) _) =>
      apply keeps_files_createTable; vm_compute; reflexivity
  | |- keeps_files (match (match ?y with _ => _ end) with _ => _ end) => destruct y
  | |- keeps_files (match ?x with _ => _ end) => destruct x
  end.

Ltac files := repeat first [ assumption | solve [auto] | files_step ].

Section ElementFiles.
Context `{Ext : External}.

Lemma keeps_files_writeWaynodesToTables_loop d l : forall i,
  keeps_files (_writeWaynodesToTables_loop (number d) l i).
Proof. induction l as [|x l IH]; intros i; simpl; files. Qed.

Lemma keeps_files_writeRelationMember a b c d :
  keeps_files (_writeRelationMember a b c d).
Proof. unfold _writeRelationMember. files. Qed.

Lemma keeps_files_writeRelationMembersToTables_loop r d l : forall i,
  keeps_files (_writeRelationMembersToTables_loop r d l i).
Proof.
  pose proof keeps_files_writeRelationMember.
  induction l as [|x l IH]; intros i; simpl; files.
Qed.

Lemma keeps_files_writePartial e : keeps_files (writePartial e).
Proof.
  pose proof keeps_files_writeWaynodesToTables_loop.
  pose proof keeps_files_writeRelationMember.
  pose proof keeps_files_writeRelationMembersToTables_loop.
  destruct e as [n|y|r]; unfold_methods; unfold currentTagFormat, historicalTagFormat.
  all: files.
Qed.

Lemma forEach_table_files elements :
  keeps_files (forEach elements writePartial).
Proof. apply keeps_files_forEach, keeps_files_writePartial. Qed.

End ElementFiles.

(** X15.  The section files of a run are COPY files of their tables: each
    is the COPY header of its table, on one line, followed by rows that are
    one line each and have exactly as many tab-separated fields as the
    header lists columns. *)
Theorem rows_match_the_copy_header `{Ext : External} (elements : list Element)
  (mode : QString) (userId maxChangesetSize : Z) (executeSql ndebug : bool)
  (db : Database) (w : OsmApiDbBulkWriter) (table content : QString) :
  written elements (newWriter mode userId maxChangesetSize executeSql ndebug db) = Ok tt w ->
  _outputSections w !! table = Some content ->
  exists columns rows,
    content = copy_header table columns +:+ unlines rows
    /\ forall_chars (not_char LF) columns = true
    /\ Forall (row_of (header_columns columns)) rows.
Proof.
  intros H Hc. unfold written in H. apply bind_Ok in H as ([] & w1 & Hopen & H).
  assert (E : _outputSections w1
              = _outputSections (newWriter mode userId maxChangesetSize executeSql ndebug db))
    by keeps _outputSections Hopen.
  assert (H1 : table_files w1).
  { intros t c. rewrite E. simpl. now rewrite lookup_empty. }
  destruct (forEach_table_files elements w1 tt w H H1 table content Hc)
    as (columns & rows & -> & Hcols & Hn & Hrows).
  exists columns, rows. rewrite Hn. auto.
Qed.

Lemma rows_match_the_copy_header_witness :
  let elements := map ENode Scenario.tagged_nodes
                  ++ [EWay (mkWay 4 [("highway", "path")] [7; 9; 7])] in
  let w := final_state (written elements
                          (newWriter "online" 17 2 false false Scenario.busyDb)) in
  let content := default EmptyString (_outputSections w !! "current_node_tags") in
  exists columns rows,
    content = copy_header "current_node_tags" columns +:+ unlines rows
    /\ forall_chars (not_char LF) columns = true
    /\ Forall (row_of (header_columns columns)) rows.
Proof.
  intros elements w content.
  apply (rows_match_the_copy_header elements "online" 17 2 false false Scenario.busyDb w
           "current_node_tags" content).
  - vm_compute. reflexivity.
  - vm_compute. reflexivity.
Defined.

(** ** One row per element (C9) *)

#[export] Hint Unfold way_view relation_view : views.

Section ElementRows.
Context `{Ext : External}.

Lemma numbered_row_clean id fields :
  Forall (fun f => forall_chars (not_char TAB) f = true
                   /\ forall_chars (not_char LF) f = true) fields ->
  clean_row id (join (chr TAB) (number id :: fields)).
Proof.
  intros H. split.
  - apply forall_chars_join; [reflexivity |].
    constructor; [apply number_no_LF |].
    eapply Forall_impl; [exact H |]. now intros f [_ ?].
  - unfold first_field. rewrite split_tab_join; [reflexivity | discriminate |].
    constructor; [apply number_no_TAB |].
    eapply Forall_impl; [exact H |]. now intros f [? _].
Qed.

Lemma createWayTables_view w w' :
  bind _createWayTables (fun _ => modify (with_idMappings (set_wayIdMap (Some ∅)))) w
  = Ok tt w' ->
  way_view w'
  = (currentWayId (_idMappings w),
     Some (copy_header ApiDb.getCurrentWaysTableName
             ("id, changeset_id, " +:+ quoted_timestamp +:+ ", visible, version")),
     Some (copy_header ApiDb.getWaysTableName
             ("way_id, changeset_id, " +:+ quoted_timestamp
              +:+ ", version, visible, redaction_id"))).
Proof.
  unfold _createWayTables, _createTable, bind, modify. intros [= <-].
  unfold way_view. simpl. lookup_tables. reflexivity.
Qed.

Lemma establishNewIdMapping_way_view k w id w' :
  _establishNewIdMapping (ElementType.Way, k) w = Ok id w' ->
  id = currentWayId (_idMappings w)
  /\ _outputSections w' = _outputSections w.
Proof.
  unfold _establishNewIdMapping, bind, get. simpl.
  destruct (BigMap_insert k _ _); [discriminate |].
  unfold modify, ret. intros [= <- <-]. split; reflexivity.
Qed.

Lemma writeWayToTables_view id w w' :
  _writeWayToTables id w = Ok tt w' ->
  exists r1 r2 c1 c2,
    clean_row id r1 /\ clean_row id r2
    /\ _outputSections w !! ApiDb.getCurrentWaysTableName = Some c1
    /\ _outputSections w !! ApiDb.getWaysTableName = Some c2
    /\ _outputSections w' !! ApiDb.getCurrentWaysTableName = Some (c1 +:+ r1 +:+ NL)
    /\ _outputSections w' !! ApiDb.getWaysTableName = Some (c2 +:+ r2 +:+ NL).
Proof.
  unfold _writeWayToTables. intros H.
  apply bind_Ok in H as (? & ? & H1 & H). injection H1 as <- <-.
  apply bind_Ok in H as ([] & w1 & H1 & H).
  apply stream_out_Ok in H1 as (c1 & Hc1 & ->).
  apply stream_out_Ok in H as (c2 & Hc2 & ->).
  simpl in Hc2. rewrite lookup_insert_ne in Hc2
    by (let E := fresh in intro E; vm_compute in E; discriminate E).
  eexists _, _, c1, c2.
  refine (conj _ (conj _ (conj Hc1 (conj Hc2 _)))).
  3: { unfold with_outputSections. cbn [_outputSections]. lookup_tables.
       unfold tsv. split; reflexivity. }
  all: apply numbered_row_clean; clean_fields.
Qed.

Lemma createRelationTables_view w w' :
  bind _createRelationTables (fun _ => modify (with_idMappings (set_relationIdMap (Some ∅)))) w
  = Ok tt w' ->
  relation_view w'
  = (currentRelationId (_idMappings w),
     Some (copy_header ApiDb.getCurrentRelationsTableName
             ("id, changeset_id, " +:+ quoted_timestamp +:+ ", visible, version")),
     Some (copy_header ApiDb.getRelationsTableName
             ("relation_id, changeset_id, " +:+ quoted_timestamp
              +:+ ", version, visible, redaction_id"))).
Proof.
  unfold _createRelationTables, _createTable, bind, modify. intros [= <-].
  unfold relation_view. simpl. lookup_tables. reflexivity.
Qed.

Lemma establishNewIdMapping_relation_view k w id w' :
  _establishNewIdMapping (ElementType.Relation, k) w = Ok id w' ->
  id = currentRelationId (_idMappings w)
  /\ _outputSections w' = _outputSections w.
Proof.
  unfold _establishNewIdMapping, bind, get. simpl.
  destruct (BigMap_insert k _ _); [discriminate |].
  unfold modify, ret. intros [= <- <-]. split; reflexivity.
Qed.

Lemma writeRelationToTables_view id w w' :
  _writeRelationToTables id w = Ok tt w' ->
  exists r1 r2 c1 c2,
    clean_row id r1 /\ clean_row id r2
    /\ _outputSections w !! ApiDb.getCurrentRelationsTableName = Some c1
    /\ _outputSections w !! ApiDb.getRelationsTableName = Some c2
    /\ _outputSections w' !! ApiDb.getCurrentRelationsTableName = Some (c1 +:+ r1 +:+ NL)
    /\ _outputSections w' !! ApiDb.getRelationsTableName = Some (c2 +:+ r2 +:+ NL).
Proof.
  unfold _writeRelationToTables. intros H.
  apply bind_Ok in H as (? & ? & H1 & H). injection H1 as <- <-.
  apply bind_Ok in H as ([] & w1 & H1 & H).
  apply stream_out_Ok in H1 as (c1 & Hc1 & ->).
  apply stream_out_Ok in H as (c2 & Hc2 & ->).
  simpl in Hc2. rewrite lookup_insert_ne in Hc2
    by (let E := fresh in intro E; vm_compute in E; discriminate E).
  eexists _, _, c1, c2.
  refine (conj _ (conj _ (conj Hc1 (conj Hc2 _)))).
  3: { unfold with_outputSections. cbn [_outputSections]. lookup_tables.
       unfold tsv. split; reflexivity. }
  all: apply numbered_row_clean; clean_fields.
Qed.

Lemma copy_header_line t columns :
  forall_chars (not_char LF) t = true ->
  forall_chars (not_char LF) columns = true ->
  exists header, forall_chars (not_char LF) header = true
                 /\ copy_header t columns = header +:+ NL.
Proof.
  intros Ht Hc. exists ("COPY " +:+ t +:+ " (" +:+ columns +:+ ") FROM stdin;").
  split.
  - now rewrite !forall_chars_app, Ht, Hc.
  - unfold copy_header. now rewrite !app_assoc_s.
Qed.

Lemma writePartial_Way_rows y w w' t :
  writePartial_Way y w = Ok tt w' ->
  In t (element_tables ElementType.Way) ->
  exists base row,
    _outputSections w' !! t = Some (base +:+ row +:+ NL)
    /\ clean_row (currentWayId (_idMappings w)) row
    /\ (if waysWritten (_writeStats w) =? 0
        then exists header, forall_chars (not_char LF) header = true
                            /\ base = header +:+ NL
        else _outputSections w !! t = Some base).
Proof.
  intros H Ht. unfold writePartial_Way in H.
  inv_chain_keep way_view H. inv_last way_view H. destruct_unit.
  apply rejectKnown_Ok in H0 as (-> & _).
  apply establishNewIdMapping_way_view in H2 as (-> & S2).
  apply writeWayToTables_view in H3 as (r1 & r2 & c1 & c2 & R1 & R2 & Hc1 & Hc2 & S1 & S3).
  rewrite S2 in Hc1, Hc2.
  assert (V : way_view w7 = way_view w3)
    by (rewrite E2, E1; unfold way_view in *; simpl in *; congruence).
  unfold way_view in V. injection V as _ V1 V2. rewrite S1 in V1. rewrite S3 in V2.
  assert (Hid : currentWayId (_idMappings w0) = currentWayId (_idMappings w)
                /\ (if waysWritten (_writeStats w) =? 0
                    then (exists header, forall_chars (not_char LF) header = true
                                         /\ c1 = header +:+ NL)
                         /\ (exists header, forall_chars (not_char LF) header = true
                                            /\ c2 = header +:+ NL)
                    else _outputSections w !! ApiDb.getCurrentWaysTableName = Some c1
                         /\ _outputSections w !! ApiDb.getWaysTableName = Some c2)).
  { destruct (waysWritten (_writeStats w) =? 0); simpl in H1.
    - apply createWayTables_view in H1. unfold way_view in H1.
      injection H1 as I1 T1 T2. rewrite T1 in Hc1. rewrite T2 in Hc2.
      injection Hc1 as <-. injection Hc2 as <-.
      split; [exact I1 |]. split; apply copy_header_line; vm_compute; reflexivity.
    - injection H1 as <-. auto. }
  destruct Hid as [Hid Hbase]. rewrite Hid in R1, R2.
  destruct Ht as [<- | [<- | []]].
  - exists c1, r1. split; [exact V1 |]. split; [exact R1 |].
    destruct (waysWritten (_writeStats w) =? 0); apply Hbase.
  - exists c2, r2. split; [exact V2 |]. split; [exact R2 |].
    destruct (waysWritten (_writeStats w) =? 0); apply Hbase.
Qed.

Lemma writePartial_Relation_rows r w w' t :
  writePartial_Relation r w = Ok tt w' ->
  In t (element_tables ElementType.Relation) ->
  exists base row,
    _outputSections w' !! t = Some (base +:+ row +:+ NL)
    /\ clean_row (currentRelationId (_idMappings w)) row
    /\ (if relationsWritten (_writeStats w) =? 0
        then exists header, forall_chars (not_char LF) header = true
                            /\ base = header +:+ NL
        else _outputSections w !! t = Some base).
Proof.
  intros H Ht. unfold writePartial_Relation in H.
  inv_chain_keep relation_view H. inv_last relation_view H. destruct_unit.
  apply rejectKnown_Ok in H0 as (-> & _).
  apply establishNewIdMapping_relation_view in H2 as (-> & S2).
  apply writeRelationToTables_view in H3 as (r1 & r2 & c1 & c2 & R1 & R2 & Hc1 & Hc2 & S1 & S3).
  rewrite S2 in Hc1, Hc2.
  assert (V : relation_view w7 = relation_view w3)
    by (rewrite E2, E1; unfold relation_view in *; simpl in *; congruence).
  unfold relation_view in V. injection V as _ V1 V2. rewrite S1 in V1. rewrite S3 in V2.
  assert (Hid : currentRelationId (_idMappings w0) = currentRelationId (_idMappings w)
                /\ (if relationsWritten (_writeStats w) =? 0
                    then (exists header, forall_chars (not_char LF) header = true
                                         /\ c1 = header +:+ NL)
                         /\ (exists header, forall_chars (not_char LF) header = true
                                            /\ c2 = header +:+ NL)
                    else _outputSections w !! ApiDb.getCurrentRelationsTableName = Some c1
                         /\ _outputSections w !! ApiDb.getRelationsTableName = Some c2)).
  { destruct (relationsWritten (_writeStats w) =? 0); simpl in H1.
    - apply createRelationTables_view in H1. unfold relation_view in H1.
      injection H1 as I1 T1 T2. rewrite T1 in Hc1. rewrite T2 in Hc2.
      injection Hc1 as <-. injection Hc2 as <-.
      split; [exact I1 |]. split; apply copy_header_line; vm_compute; reflexivity.
    - injection H1 as <-. auto. }
  destruct Hid as [Hid Hbase]. rewrite Hid in R1, R2.
  destruct Ht as [<- | [<- | []]].
  - exists c1, r1. split; [exact V1 |]. split; [exact R1 |].
    destruct (relationsWritten (_writeStats w) =? 0); apply Hbase.
  - exists c2, r2. split; [exact V2 |]. split; [exact R2 |].
    destruct (relationsWritten (_writeStats w) =? 0); apply Hbase.
Qed.

Lemma writePartial_Node_rows n w w' t :
  writePartial_Node n w = Ok tt w' ->
  In t (element_tables ElementType.Node) ->
  exists base row,
    _outputSections w' !! t = Some (base +:+ row +:+ NL)
    /\ clean_row (currentNodeId (_idMappings w)) row
    /\ (if nodesWritten (_writeStats w) =? 0
        then exists header, forall_chars (not_char LF) header = true
                            /\ base = header +:+ NL
        else _outputSections w !! t = Some base).
Proof.
  intros H Ht.
  apply writePartial_Node_view in H as (d & rows & c1 & c3 & _ & Hbase & V).
  unfold node_view in V. injection V as _ _ V1 _ V3.
  destruct d as [[[lat lon] cs] tile].
  destruct Ht as [<- | [<- | []]].
  - exists c1, (current_nodes_line (currentNodeId (_idMappings w)) (lat, lon, cs, tile)).
    split; [exact V1 |].
    split; [apply numbered_row_clean; clean_fields |].
    destruct (nodesWritten (_writeStats w) =? 0); [| apply Hbase].
    destruct Hbase as [-> _]. apply copy_header_line; vm_compute; reflexivity.
  - exists c3, (nodes_line (currentNodeId (_idMappings w)) (lat, lon, cs, tile)).
    split; [exact V3 |].
    split; [apply numbered_row_clean; clean_fields |].
    destruct (nodesWritten (_writeStats w) =? 0); [| apply Hbase].
    destruct Hbase as [_ ->]. apply copy_header_line; vm_compute; reflexivity.
Qed.

(** The row [writePartial] adds to each table of the element's kind. *)
Lemma writePartial_rows e w w' t :
  writePartial e w = Ok tt w' ->
  In t (element_tables (kind_of e)) ->
  exists base row,
    _outputSections w' !! t = Some (base +:+ row +:+ NL)
    /\ clean_row (current_id (kind_of e) w) row
    /\ (if written_count (kind_of e) w =? 0
        then exists header, forall_chars (not_char LF) header = true
                            /\ base = header +:+ NL
        else _outputSections w !! t = Some base).
Proof.
  destruct e as [n|y|r]; unfold writePartial, kind_of; simpl.
  - apply writePartial_Node_rows.
  - apply writePartial_Way_rows.
  - apply writePartial_Relation_rows.
Qed.

(** [writePartial] leaves the tables of the other kinds as they are. *)
Lemma writePartial_other_rows e w w' k t :
  writePartial e w = Ok tt w' ->
  kind_of e <> k ->
  In t (element_tables k) ->
  _outputSections w' !! t = _outputSections w !! t.
Proof.
  intros H Hk Ht.
  destruct e as [n|y|r], k; unfold kind_of in Hk; simpl in Hk, Ht;
    try contradiction; destruct Ht as [<- | [<- | []]].
  all: match goal with
       | |- _ !! ?t = _ => keeps (fun w : OsmApiDbBulkWriter => _outputSections w !! t) H
       end.
Qed.

Lemma file_of_rows_read t rows w : file_of_rows t rows w -> file_rows t w = rows.
Proof.
  unfold file_of_rows, file_rows. intros [Hrows H].
  destruct (_outputSections w !! t) as [c|]; [| now subst].
  destruct H as (header & Hh & ->).
  rewrite readLines_line by exact Hh. simpl.
  rewrite <- (app_nil_r_s (unlines rows)), readLines_unlines by exact Hrows.
  apply app_nil_r.
Qed.

Lemma source_ids_In k s l :
  In s (source_ids k l) -> exists e, In e l /\ kind_of e = k /\ snd (getElementId e) = s.
Proof.
  unfold source_ids. intros H. apply in_map_iff in H as (e & <- & H).
  apply List.filter_In in H as [Hin Hk]. apply bool_decide_eq_true in Hk. eauto.
Qed.

Lemma written_rows elements mode user max exec ndebug db : forall w,
  Z.of_nat (List.length elements) < 2 ^ 63 ->
  written elements (newWriter mode user max exec ndebug db) = Ok tt w ->
  forall k t, In t (element_tables k) ->
    exists rows, file_of_rows t rows w
      /\ map first_field rows = map (printed_id k w) (source_ids k elements).
Proof.
  induction elements as [|e pre IH] using rev_ind; intros w Hlen H k t Ht.
  - unfold written in H. apply bind_Ok in H as ([] & w1 & Hopen & H).
    injection H as <-.
    assert (E : _outputSections w1
                = _outputSections (newWriter mode user max exec ndebug db))
      by keeps _outputSections Hopen.
    exists []. split; [| reflexivity]. split; [constructor |].
    rewrite E. simpl. now rewrite lookup_empty.
  - apply written_snoc in H as (w1 & Hpre & He).
    assert (Hlen' : Z.of_nat (List.length pre) < 2 ^ 63)
      by (rewrite List.length_app in Hlen; simpl in Hlen; lia).
    destruct (IH w1 Hlen' Hpre k t Ht) as (rows & [Hrows Hfile] & Hkeys).
    destruct (written_knows pre _ _ _ _ _ _ w1 Hlen' Hpre) as [Hcount Hmaps].
    destruct (writePartial_ids e w1 w He) as (Hother & m & Hm & Hnew & Hmap & _).
    rewrite source_ids_app, source_ids_one.
    destruct (decide (kind_of e = k)) as [<- | Hne].
    + rewrite bool_decide_eq_true_2 by reflexivity.
      destruct (writePartial_rows e w1 w t He Ht)
        as (base & row & Hsec & [Hrow Hfirst] & Hbase).
      exists (rows ++ [row]). split; [split |].
      * apply Forall_app. split; [exact Hrows |]. now constructor.
      * rewrite Hsec. unfold idMap_in_use in Hm.
        rewrite (Hcount _ (kind_of_known e)) in Hbase, Hm.
        destruct (count_kind (kind_of e) pre =? 0) eqn:E0.
        -- destruct Hbase as (header & Hh & ->). exists header. split; [exact Hh |].
           apply Z.eqb_eq in E0. rewrite <- source_ids_length in E0.
           destruct (source_ids (kind_of e) pre); [| simpl in E0; lia].
           destruct rows; [| discriminate Hkeys].
           simpl. now rewrite !app_assoc_s, app_nil_r_s.
        -- rewrite Hbase in Hfile. destruct Hfile as (header & Hh & ->).
           exists header. split; [exact Hh |].
           now rewrite unlines_snoc, !app_assoc_s.
      * rewrite !map_app. simpl. f_equal.
        -- rewrite Hkeys. apply map_ext_in. intros s Hs.
           unfold printed_id. rewrite Hmap. simpl.
           apply source_ids_In in Hs as (e' & Hin & Hk & <-).
           destruct (Hmaps e' Hin) as (m' & Hm' & Hknown).
           unfold idMap_in_use in Hm. rewrite (Hcount _ (kind_of_known e)) in Hm.
           pose proof (count_kind_pos (kind_of e) e' pre Hin Hk).
           destruct (count_kind (kind_of e) pre =? 0) eqn:E0;
             [apply Z.eqb_eq in E0; lia |].
           rewrite Hk, Hm in Hm'. injection Hm' as <-. rewrite Hm. simpl.
           rewrite lookup_insert_ne; [reflexivity |].
           intros E. rewrite <- E, Hnew in Hknown. now destruct Hknown.
        -- rewrite Hfirst. unfold printed_id. rewrite Hmap. simpl.
           now rewrite lookup_insert_eq.
    + rewrite bool_decide_eq_false_2 by exact Hne. rewrite app_nil_r.
      destruct (Hother k Hne) as [Hsame _].
      exists rows. split; [split; [exact Hrows |] |].
      * now rewrite (writePartial_other_rows e w1 w k t He Hne Ht).
      * rewrite Hkeys. apply map_ext. intros s. unfold printed_id. now rewrite Hsame.
Qed.

(** An element whose kind and source id are known is rejected before
    anything is written for it. *)
Lemma writePartial_known_untouched e w m :
  written_count (kind_of e) w <> 0 ->
  idMap (kind_of e) w = Some m ->
  is_Some (m !! snd (getElementId e)) ->
  exists w', writePartial e w = Throw UpdateNotSupported w'
             /\ with_changesetData
                  (set_changesetBounds (changesetBounds (_changesetData w))) w' = w.
Proof.
  intros Hc Hm Hin. apply Z.eqb_neq in Hc.
  destruct e as [n|y|r]; unfold kind_of in *; simpl in *;
    destruct_writer w; simpl in *; subst.
  - unfold writePartial_Node. repeat mstep. simpl. rewrite Hc. repeat mstep.
    unfold rejectKnown. simpl. rewrite bool_decide_eq_true_2 by assumption.
    eexists. split; reflexivity.
  - unfold writePartial_Way. repeat mstep. simpl. rewrite Hc. repeat mstep.
    unfold rejectKnown. simpl. rewrite bool_decide_eq_true_2 by assumption.
    eexists. split; reflexivity.
  - unfold writePartial_Relation. repeat mstep. simpl. rewrite Hc. repeat mstep.
    unfold rejectKnown. simpl. rewrite bool_decide_eq_true_2 by assumption.
    eexists. split; reflexivity.
Qed.

End ElementRows.

(** C9.  After a run of fewer than 2^63 elements, an element whose kind
    and source id were already written is rejected with
    [UpdateNotSupported], and the rejected call leaves the writer as it
    was but for the bounds of the open changeset, which a node expands
    before the check: no row is written, no id is handed out, no counter
    moves.  The kinds and source ids of the run are pairwise distinct, and
    each table of elements ([current_nodes] and [nodes], and the like for
    ways and relations) holds one row per written element of its kind, in
    the order of the stream: the first field of the [i]-th row is the
    database id the id map holds for the [i]-th source id of the kind.  So
    no two rows are written for one kind and source id. *)
Theorem duplicate_source_id_rejected `{Ext : External} (elements : list Element)
  (mode : QString) (userId maxChangesetSize : Z) (executeSql ndebug : bool)
  (db : Database) (w : OsmApiDbBulkWriter) :
  Z.of_nat (List.length elements) < 2 ^ 63 ->
  written elements (newWriter mode userId maxChangesetSize executeSql ndebug db)
  = Ok tt w ->
  (forall e, In (getElementId e) (map getElementId elements) ->
     exists w', writePartial e w = Throw UpdateNotSupported w'
                /\ with_changesetData
                     (set_changesetBounds (changesetBounds (_changesetData w))) w' = w)
  /\ NoDup (map getElementId elements)
  /\ (forall k t, In t (element_tables k) ->
        map first_field (file_rows t w)
        = map (printed_id k w) (source_ids k elements)).
Proof.
  assert (Hrej : forall els w1,
            Z.of_nat (List.length els) < 2 ^ 63 ->
            written els (newWriter mode userId maxChangesetSize executeSql ndebug db)
            = Ok tt w1 ->
            forall e, In (getElementId e) (map getElementId els) ->
              exists w', writePartial e w1 = Throw UpdateNotSupported w'
                         /\ with_changesetData
                              (set_changesetBounds (changesetBounds (_changesetData w1)))
                              w' = w1).
  { intros els w1 Hlen Hrun e Hin.
    destruct (written_knows els _ _ _ _ _ _ w1 Hlen Hrun) as [Hcount Hmaps].
    apply in_map_iff in Hin as (e' & Hkey & Hin).
    destruct (Hmaps e' Hin) as (m & Hm & Hid).
    assert (Hk : kind_of e' = kind_of e) by (unfold kind_of; now rewrite Hkey).
    apply (writePartial_known_untouched e w1 m).
    - rewrite (Hcount _ (kind_of_known e)).
      pose proof (count_kind_pos (kind_of e) e' els Hin Hk). lia.
    - now rewrite <- Hk.
    - now rewrite <- Hkey. }
  intros Hlen Hrun. split; [exact (Hrej elements w Hlen Hrun) |]. split.
  - revert w Hlen Hrun.
    induction elements as [|e pre IH] using rev_ind; intros w Hlen Hrun.
    + constructor.
    + apply written_snoc in Hrun as (w1 & Hpre & He).
      rewrite List.length_app in Hlen. simpl in Hlen.
      rewrite map_app. simpl. apply NoDup_app. split; [| split].
      * apply (IH w1); [lia | exact Hpre].
      * intros k Hk Hk'. apply list_elem_of_In in Hk, Hk'.
        destruct Hk' as [<- | []].
        destruct (Hrej pre w1 ltac:(lia) Hpre e Hk) as (w' & Hthrow & _).
        rewrite Hthrow in He. discriminate.
      * apply NoDup_singleton.
  - intros k t Ht.
    destruct (written_rows elements _ _ _ _ _ _ w Hlen Hrun k t Ht) as (rows & Hfile & Hkeys).
    now rewrite (file_of_rows_read t rows w Hfile).
Qed.

Lemma duplicate_source_id_rejected_witness :
  let elements := [Scenario.node 1 2 1; Scenario.way 2 [1]; Scenario.node 3 2 1] in
  let w0 := newWriter "online" 17 50000 false false Scenario.busyDb in
  let w := final_state (written elements w0) in
  (forall e, In (getElementId e) (map getElementId elements) ->
     exists w', writePartial e w = Throw UpdateNotSupported w'
                /\ with_changesetData
                     (set_changesetBounds (changesetBounds (_changesetData w))) w' = w)
  /\ NoDup (map getElementId elements)
  /\ (forall k t, In t (element_tables k) ->
        map first_field (file_rows t w)
        = map (printed_id k w) (source_ids k elements)).
Proof.
  intros elements w0 w.
  apply (duplicate_source_id_rejected elements "online" 17 50000 false false
           Scenario.busyDb w).
  - vm_compute. reflexivity.
  - vm_compute. reflexivity.
Defined.

(** ** Sequence updates *)

#[export] Hint Unfold next_ids_view mark_view : views.

Section Sequences.
Context `{Ext : External}.

Lemma writeSequenceUpdates_text a b c d w w' :
  _writeSequenceUpdates a b c d w = Ok tt w' ->
  _outputSections w' !! "sequence_updates" = Some (sequence_text a b c d).
Proof.
  unfold _writeSequenceUpdates, _createTable. intros H.
  rewrite bind_modify in H.
  apply bind_Ok in H as ([] & w1 & H1 & H). apply assert_Ok in H1 as ->.
  apply bind_Ok in H as ([] & w1 & H1 & H).
  apply stream_out_Ok in H1 as (c1 & Hc1 & ->).
  simpl in Hc1. rewrite lookup_insert_eq in Hc1. injection Hc1 as <-.
  apply bind_Ok in H as ([] & w1 & H1 & H). apply assert_Ok in H1 as ->.
  apply bind_Ok in H as ([] & w1 & H1 & H).
  apply stream_out_Ok in H1 as (c1 & Hc1 & ->).
  simpl in Hc1. rewrite lookup_insert_eq in Hc1. injection Hc1 as <-.
  apply bind_Ok in H as ([] & w1 & H1 & H).
  unfold sequence_text.
  destruct (0 <? c); simpl in H1.
  - apply stream_out_Ok in H1 as (c1 & Hc1 & ->).
    simpl in Hc1. rewrite lookup_insert_eq in Hc1. injection Hc1 as <-.
    destruct (0 <? d); simpl in H.
    + apply bind_Ok in H as ([] & w1 & H1 & H).
      apply stream_out_Ok in H1 as (c1 & Hc1 & ->).
      simpl in Hc1. rewrite lookup_insert_eq in Hc1. injection Hc1 as <-.
      apply stream_out_Ok in H as (c1 & Hc1 & ->).
      simpl in Hc1. rewrite lookup_insert_eq in Hc1. injection Hc1 as <-.
      simpl. rewrite lookup_insert_eq. f_equal. now rewrite !app_assoc_s.
    + injection H as <-. simpl. rewrite lookup_insert_eq. f_equal.
      now rewrite !app_assoc_s, app_nil_r_s.
  - injection H1 as <-.
    destruct (0 <? d); simpl in H.
    + apply bind_Ok in H as ([] & w1 & H1 & H).
      apply stream_out_Ok in H1 as (c1 & Hc1 & ->).
      simpl in Hc1. rewrite lookup_insert_eq in Hc1. injection Hc1 as <-.
      apply stream_out_Ok in H as (c1 & Hc1 & ->).
      simpl in Hc1. rewrite lookup_insert_eq in Hc1. injection Hc1 as <-.
      simpl. rewrite lookup_insert_eq. f_equal. now rewrite !app_assoc_s.
    + injection H as <-. simpl. rewrite lookup_insert_eq. f_equal.
      now rewrite !app_assoc_s, app_nil_r_s.
Qed.

Lemma writeCombinedSqlFile_loop_sequence_updates names : forall out w r w',
  _writeCombinedSqlFile_loop names out w = Ok r w' ->
  _outputSections w' !! "sequence_updates" = _outputSections w !! "sequence_updates".
Proof.
  induction names as [|it rest IH]; intros out w r w' H.
  - now injection H as _ <-.
  - simpl in H. rewrite bind_get in H.
    destruct (_outputSections w !! it) as [c|] eqn:Ec; [| eauto].
    destruct (String.eqb (_mode w) "online" && String.eqb it "sequence_updates"); [eauto |].
    apply bind_Ok in H as ([] & w1 & H1 & H). rewrite bind_get in H.
    destruct (negb (String.eqb it "byte_order_mark")
              && negb (String.eqb it "sequence_updates")) eqn:Eit; simpl in H1.
    + apply stream_out_Ok in H1 as (c1 & Hc1 & ->).
      simpl in H. rewrite lookup_insert_eq in H.
      apply IH in H. rewrite H. simpl. apply lookup_insert_ne.
      apply andb_true_iff in Eit as [_ Eit]. apply negb_true_iff, String.eqb_neq in Eit.
      exact Eit.
    + injection H1 as <-. rewrite Ec in H. eauto.
Qed.

Lemma long_sub_wrap a b : wrap64 a = wrap64 b -> long_sub a 1 = wrap64 (b - 1).
Proof.
  intros H. unfold long_sub.
  replace (a - 1) with (a + (-1)) by lia. replace (b - 1) with (b + (-1)) by lia.
  rewrite <- (wrap64_add_l a), H. apply wrap64_add_l.
Qed.

Lemma wrap64_idem a : wrap64 (wrap64 a) = wrap64 a.
Proof.
  pose proof (wrap64_add_l a 0) as H. now rewrite !Z.add_0_r in H.
Qed.

(** The next id of a kind after a run, in 64 bits. *)
Lemma forEach_current_id k elements : forall w w' first,
  k <> ElementType.Unknown ->
  forEach elements writePartial w = Ok tt w' ->
  wrap64 (current_id k w) = wrap64 first ->
  wrap64 (current_id k w') = wrap64 (first + count_kind k elements).
Proof.
  induction elements as [|e l IH]; intros w w' first Hk H Hc.
  - injection H as <-. change (count_kind k []) with 0. now rewrite Z.add_0_r.
  - simpl in H. apply bind_Ok in H as ([] & w1 & H1 & H).
    destruct (writePartial_ids e w w1 H1) as (Hother & m & _ & _ & _ & Hnext).
    rewrite count_kind_cons.
    replace (first + ((if bool_decide (kind_of e = k) then 1 else 0) + count_kind k l))
      with (first + (if bool_decide (kind_of e = k) then 1 else 0) + count_kind k l) by lia.
    apply (IH w1 w' _ Hk H).
    case_bool_decide as Hkind.
    + subst k. rewrite Hnext. unfold long_incr, long_add.
      now rewrite wrap64_idem, <- (wrap64_add_l (current_id _ w)), Hc, wrap64_add_l.
    + destruct (Hother k Hkind) as [_ ->]. now rewrite Z.add_0_r.
Qed.

Lemma open_current_id k mode user max exec ndebug db w :
  k <> ElementType.Unknown ->
  toLower mode = "offline" ->
  open (newWriter mode user max exec ndebug db) = Ok tt w ->
  current_id k w = db_nextId k db.
Proof.
  intros Hk Hmode. unfold open, newWriter, bind, get. simpl.
  destruct (db_isOpen db); [discriminate |].
  unfold modify. simpl. rewrite Hmode. simpl.
  unfold _getLatestIdsFromDb, getNextId, bind, get, modify, ret. simpl.
  intros [= <-]. now destruct k.
Qed.

Lemma getLatestIdsFromDb_current_ids w w' :
  _getLatestIdsFromDb w = Ok tt w' ->
  String.eqb (_mode w) "online" = true ->
  (forall k, k <> ElementType.Unknown ->
             current_id k w' = long_decr (db_nextId k (_database w)))
  /\ _writeStats w' = _writeStats w
  /\ changesetsWritten (_changesetData w') = changesetsWritten (_changesetData w).
Proof.
  unfold _getLatestIdsFromDb, getNextId, bind, get, modify, ret, when. simpl.
  intros H Hmode. rewrite Hmode in H. simpl in H. injection H as <-. simpl.
  split; [| split; reflexivity]. intros [] Hk; try reflexivity. contradiction.
Qed.

Lemma writeCombinedSqlFile_sequence_updates w sql w' :
  _writeCombinedSqlFile w = Ok sql w' ->
  _outputSections w' !! "sequence_updates" = _outputSections w !! "sequence_updates"
  /\ (_mode w', _writeStats w', _idMappings w', _changesetData w', next_ids_view w',
      _executeSql w')
     = (_mode w, _writeStats w, _idMappings w, _changesetData w, next_ids_view w,
        _executeSql w).
Proof.
  intros H. split.
  - unfold _writeCombinedSqlFile in H. rewrite bind_get in H.
    apply bind_Ok in H as (out & w1 & H1 & H). injection H as _ <-.
    eapply writeCombinedSqlFile_loop_sequence_updates, H1.
  - keeps (fun w => (_mode w, _writeStats w, _idMappings w, _changesetData w,
                     next_ids_view w, _executeSql w)) H.
Qed.

Lemma complete_lines_NL s : complete_lines (s +:+ NL) = true.
Proof.
  induction s as [|c s IH]; [reflexivity |].
  rewrite app_cons_s. cbn [complete_lines]. rewrite IH.
  destruct s; reflexivity.
Qed.

Lemma sequence_text_complete a b c d : complete_lines (sequence_text a b c d) = true.
Proof.
  unfold sequence_text, setval.
  destruct (0 <? c), (0 <? d); rewrite ?app_nil_r_s, <- !app_assoc_s;
    apply complete_lines_NL.
Qed.

Lemma copied_sequence_text a b c d :
  copied (sequence_text a b c d) = sequence_text a b c d +:+ NL.
Proof.
  rewrite copied_lines, unlines_readLines, sequence_text_complete.
  now rewrite app_nil_r_s.
Qed.

Lemma assembled_cons mode secs it names :
  assembled mode secs (it :: names) = piece mode secs it +:+ assembled mode secs names.
Proof. reflexivity. Qed.

Lemma finalize_sequence_updates w script w' :
  _sectionNames w = _createSectionNameList ->
  finalizePartial w = Ok (Some script) w' ->
  (_mode w = "offline" ->
   exists changesetId rest,
     script = ("BEGIN TRANSACTION;" +:+ NL) +:+ (NL +:+ NL)
              +:+ (sequence_text changesetId
                     (long_sub (currentNodeId (_idMappings w)) 1)
                     (long_sub (currentWayId (_idMappings w)) 1)
                     (long_sub (currentRelationId (_idMappings w)) 1) +:+ NL)
              +:+ rest)
  /\ (_mode w = "online" ->
      exists changesetId,
        let text :=
          sequence_text changesetId
            (long_add (long_decr (db_nextNodeId (_database w))) (nodesWritten (_writeStats w)))
            (long_add (long_decr (db_nextWayId (_database w))) (waysWritten (_writeStats w)))
            (long_add (long_decr (db_nextRelationId (_database w)))
               (relationsWritten (_writeStats w))) in
        _outputSections w' !! "sequence_updates" = Some text
        /\ In (SqlExecuted text) (db_events (_database w'))).
Proof.
  intros Hnames H. unfold finalizePartial in H. rewrite bind_get in H.
  destruct ((nodesWritten (_writeStats w) =? 0) && (waysWritten (_writeStats w) =? 0)
            && (relationsWritten (_writeStats w) =? 0)); [discriminate |].
  apply bind_Ok in H as ([] & w1 & H1 & H). rewrite bind_get in H.
  apply bind_Ok in H as ([] & w2 & H2 & H). rewrite bind_get in H.
  apply bind_Ok in H as ([] & w3 & H3 & H). rewrite bind_get in H.
  assert (B1 : mark_view w1 = (Some NL, _sectionNames w)).
  { unfold _createTable, modify in H1. injection H1 as <-. unfold mark_view. simpl.
    now rewrite lookup_insert_eq. }
  assert (B2 : mark_view w2 = mark_view w1) by keeps mark_view H2.
  assert (B3 : mark_view w3 = mark_view w2) by keeps mark_view H3.
  rewrite B2, B1, Hnames in B3. clear B1 B2.
  assert (E1 : finalize_view w1 = finalize_view w) by keeps finalize_view H1.
  assert (E2 : finalize_view w2 = finalize_view w1) by keeps finalize_view H2.
  assert (E3 : finalize_view w3 = finalize_view w2) by keeps finalize_view H3.
  assert (E : finalize_view w3 = finalize_view w) by congruence.
  clear E1 E2 E3 H1 H2 H3 w1 w2. unfold finalize_view in E.
  injection E as Em Es Ei Enn Enw Enr Ex.
  apply bind_Ok in H as ([] & w4 & H4 & H).
  apply bind_Ok in H as (sql & w5 & H5 & H). rewrite bind_get in H.
  pose proof H5 as Hsql.
  apply writeCombinedSqlFile_sequence_updates in H5 as (S5 & V5).
  injection V5 as Em5 Es5 Ei5 Ec5 Enn5 Enw5 Enr5 Ex5.
  apply bind_Ok in H as (final & w6 & H6 & H).
  apply bind_Ok in H as ([] & w7 & H7 & H). injection H as Hscript <-.
  assert (S7 : sequence_updates_section w7 = sequence_updates_section w6)
    by keeps sequence_updates_section H7.
  unfold sequence_updates_section in S7.
  split; intros Hmode.
  - rewrite Em, Hmode in H4. simpl in H4.
    assert (M4 : _mode w4 = _mode w3) by keeps _mode H4.
    assert (B4 : mark_view w4 = mark_view w3) by keeps mark_view H4.
    rewrite B3 in B4. unfold mark_view in B4. injection B4 as Hbom Hn4.
    apply writeSequenceUpdates_text in H4.
    rewrite Em5, M4, Em, Hmode in H6. simpl in H6. injection H6 as <- _.
    subst script.
    unfold _writeCombinedSqlFile in Hsql. rewrite bind_get, Hn4 in Hsql.
    apply bind_Ok in Hsql as (out & w8 & Hloop & Hsql). injection Hsql as <- _.
    apply (writeCombinedSqlFile_loop_output _ sectionNames_NoDup) in Hloop. subst out.
    rewrite M4, Em, Hmode.
    change _createSectionNameList
      with ("byte_order_mark" :: "sequence_updates"
            :: List.tl (List.tl _createSectionNameList)).
    rewrite !assembled_cons, (piece_byte_order_mark _ _ Hbom).
    unfold piece at 1. rewrite H4. cbn [String.eqb Ascii.eqb Bool.eqb andb negb].
    rewrite copied_sequence_text, Ei.
    eexists. eexists. rewrite !app_assoc_s. reflexivity.
  - rewrite Em, Hmode in H4. simpl in H4. injection H4 as <-.
    rewrite Em5, Em, Hmode in H6. simpl in H6.
    apply bind_Ok in H6 as ([] & w8 & HL & HU).
    assert (E8 : w6 = w8) by keeps (fun w : OsmApiDbBulkWriter => w) HU.
    subst w8. clear HU.
    unfold _lockIds in HL. rewrite bind_get in HL.
    destruct (nodesWritten (_writeStats w5) =? 0); [discriminate |].
    apply bind_Ok in HL as ([] & w9 & H9 & HL). rewrite bind_get in HL.
    apply getLatestIdsFromDb_current_ids in H9 as (I9 & S9 & C9);
      [| now rewrite Em5, Em, Hmode].
    apply bind_Ok in HL as ([] & w10 & H10 & HL). rewrite bind_get in HL.
    apply writeSequenceUpdates_text in H10.
    pose proof (I9 ElementType.Node ltac:(discriminate)) as In9.
    pose proof (I9 ElementType.Way ltac:(discriminate)) as Iw9.
    pose proof (I9 ElementType.Relation ltac:(discriminate)) as Ir9.
    simpl in In9, Iw9, Ir9.
    rewrite In9, Iw9, Ir9, S9, Es5, Es, Enn5, Enw5, Enr5, Enn, Enw, Enr in H10.
    rewrite H10 in HL. injection HL as <-.
    eexists. cbv zeta. split.
    + rewrite S7. simpl. exact H10.
    + destruct (_executeSql w5); simpl in H7.
      * unfold _executeElementSql, modify in H7. injection H7 as <-. simpl.
        destruct (_database w10). simpl. rewrite !in_app_iff. simpl. auto.
      * injection H7 as <-. simpl.
        destruct (_database w10). simpl. rewrite !in_app_iff. simpl. auto.
Qed.

End Sequences.



(** ** Relation members *)

Section Members.
Context `{Ext : External}.

Lemma member_rows_cons h rel first ids e rest :
  member_rows h rel first ids (e :: rest)
  = match resolve ids e with
    | Some db => [member_row h rel first e db]
    | None => []
    end ++ member_rows h rel (first + 1) ids rest.
Proof.
  unfold member_rows. simpl List.length. rewrite seqZ_cons by lia.
  replace (Z.pred (Z.of_nat (S (List.length rest)))) with (Z.of_nat (List.length rest)) by lia.
  replace (Z.succ first) with (first + 1) by lia.
  simpl. now destruct (resolve ids e).
Qed.

Lemma writeRelationMember_Ok rel e db place w w' :
  _writeRelationMember rel e db place w = Ok tt w' ->
  exists c1 c2,
    _outputSections w !! ApiDb.getCurrentRelationMembersTableName = Some c1
    /\ _outputSections w !! ApiDb.getRelationMembersTableName = Some c2
    /\ fst (Entry_elementId e) <> ElementType.Unknown
    /\ w' = with_writeStats
              (fun s => set_relationMembersWritten (long_incr (relationMembersWritten s)) s)
              (with_outputSections
                 (<[ApiDb.getRelationMembersTableName :=
                      c2 +:+ member_row true rel place e db +:+ NL]>)
                 (with_outputSections
                    (<[ApiDb.getCurrentRelationMembersTableName :=
                         c1 +:+ member_row false rel place e db +:+ NL]>) w)).
Proof.
  unfold _writeRelationMember. cbv zeta. intros H.
  unfold member_row, member_type.
  destruct (fst (Entry_elementId e)); try discriminate H; rewrite bind_ret in H.
  all: apply bind_Ok in H as ([] & w1 & H1 & H);
    apply bind_Ok in H as ([] & w2 & H2 & H); injection H as <-;
    apply stream_out_Ok in H1 as (c1 & Hc1 & ->);
    apply stream_out_Ok in H2 as (c2 & Hc2 & ->);
    simpl in Hc2; rewrite lookup_insert_ne in Hc2 by discriminate;
    exists c1, c2; repeat split; try assumption; try discriminate.
Qed.

Lemma writeRelationMembersToTables_loop_step relationId rel e rest i w w' :
  _writeRelationMembersToTables_loop relationId rel (e :: rest) i w = Ok tt w' ->
  fst (Entry_elementId e) <> ElementType.Unknown
  /\ exists w1,
       match resolve (_idMappings w) e with
       | Some memberDbId => _writeRelationMember rel e memberDbId i
       | None =>
           modify (with_unresolvedRefs (set_unresolvedRelationRefs
             (Some (map_insert (Entry_elementId e)
                      (mkUnresolvedRelationReference relationId rel e i)
                      (default ∅ (unresolvedRelationRefs (_unresolvedRefs w)))))))
       end w = Ok tt w1
       /\ _writeRelationMembersToTables_loop relationId rel rest (wrap32u (i + 1)) w1
          = Ok tt w'.
Proof.
  simpl. cbv zeta. rewrite bind_get. unfold resolve.
  destruct (fst (Entry_elementId e)); try discriminate; rewrite bind_ret; intros H.
  all: apply bind_Ok in H as ([] & w1 & H1 & H); split; [discriminate | eauto].
Qed.

Lemma map_insert_is_Some {V} (k k' : ElementType * Z) (v : V)
  (m : gmap (ElementType * Z) V) :
  is_Some (m !! k) \/ k = k' -> is_Some (map_insert k' v m !! k).
Proof.
  intros H. unfold map_insert. destruct (m !! k') as [u|] eqn:E.
  - destruct H as [H | ->]; [exact H | rewrite E; eauto].
  - destruct (decide (k = k')) as [-> | Hne].
    + rewrite lookup_insert_eq. eauto.
    + rewrite lookup_insert_ne by congruence. destruct H as [H | H]; [exact H | contradiction].
Qed.

Lemma awaited_insert id id' ref w :
  awaited id w \/ id = id' ->
  awaited id
    (with_unresolvedRefs (set_unresolvedRelationRefs
       (Some (map_insert id' ref (default ∅ (unresolvedRelationRefs (_unresolvedRefs w))))))
       w).
Proof.
  intros H. unfold awaited. simpl. eexists. split; [reflexivity |].
  apply map_insert_is_Some. destruct H as [(refs & Hr & Hin) | H]; [left | now right].
  rewrite Hr. exact Hin.
Qed.

Lemma writeRelationMembersToTables_loop_rows relationId rel members : forall i w w',
  0 <= i -> i + Z.of_nat (List.length members) <= 2 ^ 32 ->
  _writeRelationMembersToTables_loop relationId rel members i w = Ok tt w' ->
  Forall (fun e => fst (Entry_elementId e) <> ElementType.Unknown) members
  /\ _outputSections w' !! ApiDb.getCurrentRelationMembersTableName
     = (fun c => c +:+ unlines (member_rows false rel i (_idMappings w) members))
         <$> (_outputSections w !! ApiDb.getCurrentRelationMembersTableName)
  /\ _outputSections w' !! ApiDb.getRelationMembersTableName
     = (fun c => c +:+ unlines (member_rows true rel i (_idMappings w) members))
         <$> (_outputSections w !! ApiDb.getRelationMembersTableName)
  /\ (forall t, t <> ApiDb.getCurrentRelationMembersTableName ->
                t <> ApiDb.getRelationMembersTableName ->
                _outputSections w' !! t = _outputSections w !! t)
  /\ _idMappings w' = _idMappings w
  /\ wrap64 (relationMembersWritten (_writeStats w'))
     = wrap64 (relationMembersWritten (_writeStats w)
               + Z.of_nat (List.length (member_rows false rel i (_idMappings w) members)))
  /\ (forall e, In e members -> resolve (_idMappings w) e = None ->
                awaited (Entry_elementId e) w')
  /\ (forall id, awaited id w -> awaited id w').
Proof.
  induction members as [|e rest IH]; intros i w w' Hi Hlen H.
  - injection H as <-. unfold member_rows. simpl. rewrite Z.add_0_r.
    split; [constructor |].
    split; [apply fmap_append_nil |]. split; [apply fmap_append_nil |].
    repeat split; auto. intros e [].
  - apply writeRelationMembersToTables_loop_step in H as (Hkind & w1 & H1 & H).
    simpl List.length in Hlen.
    assert (Hnext : 0 <= wrap32u (i + 1)
                    /\ wrap32u (i + 1) + Z.of_nat (List.length rest) <= 2 ^ 32
                    /\ (rest <> [] -> wrap32u (i + 1) = i + 1)).
    { destruct rest as [|x rest].
      - unfold wrap32u. pose proof (Z.mod_pos_bound (i + 1) (2 ^ 32) ltac:(lia)).
        simpl. split; [lia |]. split; [lia | contradiction].
      - simpl List.length in *. rewrite wrap32u_small by lia. lia. }
    destruct Hnext as (Hi' & Hlen' & Hnext).
    apply (IH _ _ _ Hi' Hlen') in H
      as (Hkinds & Hcur & Hhist & Hother & Hids & Hcount & Hwait & Hkeep).
    clear IH.
    assert (Hrows : forall h ids,
               member_rows h rel (wrap32u (i + 1)) ids rest
               = member_rows h rel (i + 1) ids rest).
    { intros h ids. destruct rest as [|x rest]; [reflexivity |].
      now rewrite Hnext by discriminate. }
    rewrite !Hrows in *. rewrite !member_rows_cons.
    split; [constructor; assumption |].
    destruct (resolve (_idMappings w) e) as [db|] eqn:Er.
    + apply writeRelationMember_Ok in H1 as (c1 & c2 & Hc1 & Hc2 & _ & ->).
      simpl in Hcur, Hhist, Hother, Hids, Hcount, Hwait, Hkeep.
      rewrite lookup_insert_ne, lookup_insert_eq in Hcur by discriminate.
      rewrite lookup_insert_eq in Hhist.
      split; [| split; [| split; [| split; [| split; [| split]]]]].
      * rewrite Hcur, Hc1. simpl. now rewrite !app_assoc_s.
      * rewrite Hhist, Hc2. simpl. now rewrite !app_assoc_s.
      * intros t Ht1 Ht2. rewrite Hother by assumption.
        now rewrite !lookup_insert_ne by congruence.
      * exact Hids.
      * rewrite Hcount. unfold long_incr, long_add. rewrite wrap64_add_l.
        f_equal. simpl List.length. lia.
      * intros e' [<- | Hin] He'; [congruence |]. now apply Hwait.
      * intros id Hid. apply Hkeep. exact Hid.
    + injection H1 as <-.
      simpl in Hcur, Hhist, Hother, Hids, Hcount, Hwait, Hkeep.
      split; [| split; [| split; [| split; [| split; [| split]]]]]; try assumption.
      * intros e' [<- | Hin] He'; [| now apply Hwait].
        apply Hkeep, awaited_insert. now right.
      * intros id Hid. apply Hkeep, awaited_insert. now left.
Qed.

End Members.

(** X17.  [_writeRelationMembersToTables] for a relation of fewer than
    2^32 members, when it returns: the members whose element was written
    before get their rows at once, in the order of the members, each with
    the database id of its element and with its place among all members
    counted from 1; the element id of every other member is a key of the
    unresolved references afterwards.  The counter of member rows grows by
    the rows written, and the id maps and the other section files stay. *)
Theorem relation_members_written_or_awaited `{Ext : External} (relation : Relation)
  (w w' : OsmApiDbBulkWriter) :
  Z.of_nat (List.length (Relation_members relation)) < 2 ^ 32 ->
  _writeRelationMembersToTables relation w = Ok tt w' ->
  exists dbRelationId,
    relationIdMap (_idMappings w) ≫= (fun m => m !! Relation_id relation)
    = Some dbRelationId
    /\ _outputSections w' !! ApiDb.getCurrentRelationMembersTableName
       = (fun c => c +:+ unlines (member_rows false dbRelationId 1 (_idMappings w)
                                    (Relation_members relation)))
           <$> (_outputSections w !! ApiDb.getCurrentRelationMembersTableName)
    /\ _outputSections w' !! ApiDb.getRelationMembersTableName
       = (fun c => c +:+ unlines (member_rows true dbRelationId 1 (_idMappings w)
                                    (Relation_members relation)))
           <$> (_outputSections w !! ApiDb.getRelationMembersTableName)
    /\ (forall t, t <> ApiDb.getCurrentRelationMembersTableName ->
                  t <> ApiDb.getRelationMembersTableName ->
                  _outputSections w' !! t = _outputSections w !! t)
    /\ _idMappings w' = _idMappings w
    /\ wrap64 (relationMembersWritten (_writeStats w'))
       = wrap64 (relationMembersWritten (_writeStats w)
                 + Z.of_nat (List.length (member_rows false dbRelationId 1 (_idMappings w)
                                            (Relation_members relation))))
    /\ (forall e, In e (Relation_members relation) -> resolve (_idMappings w) e = None ->
                  awaited (Entry_elementId e) w')
    /\ (forall id, awaited id w -> awaited id w').
Proof.
  intros Hlen H. unfold _writeRelationMembersToTables in H. cbv zeta in H.
  rewrite bind_get in H.
  destruct (relationIdMap (_idMappings w)) as [m|]; [| discriminate].
  simpl. destruct (m !! Relation_id relation) as [dbRelationId|]; [| discriminate].
  exists dbRelationId. split; [reflexivity |].
  apply (writeRelationMembersToTables_loop_rows _ _ _ 1 w w') in H; [| lia | lia].
  destruct H as (_ & H). exact H.
Qed.

Lemma relation_members_written_or_awaited_witness :
  let members := [mkEntry "outer" (ElementType.Way, 9); mkEntry "stop" (ElementType.Node, 1)] in
  let w := final_state (written [Scenario.node 1 2 1; Scenario.relation (-100) []]
                          (newWriter "offline" 17 50000 false false Scenario.busyDb)) in
  let relation := mkRelation (-100) [] members in
  let w' := final_state (_writeRelationMembersToTables relation w) in
  exists dbRelationId,
    relationIdMap (_idMappings w) ≫= (fun m => m !! Relation_id relation)
    = Some dbRelationId
    /\ _outputSections w' !! ApiDb.getCurrentRelationMembersTableName
       = (fun c => c +:+ unlines (member_rows false dbRelationId 1 (_idMappings w)
                                    (Relation_members relation)))
           <$> (_outputSections w !! ApiDb.getCurrentRelationMembersTableName)
    /\ _outputSections w' !! ApiDb.getRelationMembersTableName
       = (fun c => c +:+ unlines (member_rows true dbRelationId 1 (_idMappings w)
                                    (Relation_members relation)))
           <$> (_outputSections w !! ApiDb.getRelationMembersTableName)
    /\ (forall t, t <> ApiDb.getCurrentRelationMembersTableName ->
                  t <> ApiDb.getRelationMembersTableName ->
                  _outputSections w' !! t = _outputSections w !! t)
    /\ _idMappings w' = _idMappings w
    /\ wrap64 (relationMembersWritten (_writeStats w'))
       = wrap64 (relationMembersWritten (_writeStats w)
                 + Z.of_nat (List.length (member_rows false dbRelationId 1 (_idMappings w)
                                            (Relation_members relation))))
    /\ (forall e, In e (Relation_members relation) -> resolve (_idMappings w) e = None ->
                  awaited (Entry_elementId e) w')
    /\ (forall id, awaited id w -> awaited id w').
Proof.
  intros members w relation w'.
  apply (relation_members_written_or_awaited relation w w').
  - vm_compute. reflexivity.
  - vm_compute. reflexivity.
Defined.

(** ** Offline sessions and the changeset id *)

Section OfflineChangesets.
Context `{Ext : External}.

Lemma unflushed_view n id w w' :
  changeset_view w' = changeset_view w -> unflushed n id w -> unflushed n id w'.
Proof.
  unfold changeset_view, unflushed. intros [= _ _ -> -> ->]. tauto.
Qed.

Lemma open_unflushed mode user max exec ndebug db w :
  toLower mode = "offline" ->
  open (newWriter mode user max exec ndebug db) = Ok tt w ->
  unflushed 0 (db_nextChangesetId db) w.
Proof.
  intros Hmode. unfold open, newWriter, bind, get. simpl.
  destruct (db_isOpen db); [discriminate |].
  unfold modify. simpl. rewrite Hmode. simpl.
  unfold _getLatestIdsFromDb, getNextId, bind, get, modify, ret. simpl.
  intros [= <-]. unfold unflushed. simpl. rewrite lookup_empty. auto.
Qed.

(** A changeset whose id is not 1 cannot be flushed while there is no
    changesets table. *)
Lemma writeChangesetToTable_unflushed n id w w' :
  id <> 1 -> unflushed n id w -> _writeChangesetToTable w = Ok tt w' -> False.
Proof.
  intros Hid (_ & Hc & Hs) H.
  apply writeChangesetToTable_Ok in H as (base & Hbase & _).
  rewrite Hc in Hbase. apply Z.eqb_neq in Hid. rewrite Hid, Hs in Hbase. discriminate.
Qed.

Lemma writePartial_unflushed n id e w w' :
  id <> 1 -> 0 <= n -> n + 1 < 2 ^ 63 ->
  unflushed n id w -> writePartial e w = Ok tt w' -> unflushed (n + 1) id w'.
Proof.
  intros Hid Hn Hn' Hu H.
  destruct (writePartial_changeset_view e w w' H) as (w1 & w2 & E1 & Hi & E2).
  apply (unflushed_view _ _ _ _ E1) in Hu.
  apply (unflushed_view _ _ w2 _ E2).
  apply incrementChangesInChangeset_Ok in Hi.
  destruct Hu as (Hc & Hcur & Hs).
  destruct Hi as [(_ & Hview) | (_ & base & Hbase & _)].
  - unfold changeset_view in Hview. injection Hview as _ _ V1 V2 V3.
    unfold unflushed. rewrite V1, V2, V3, Hc. split; [| auto].
    unfold long_incr, long_add. apply wrap64_small. lia.
  - rewrite Hcur in Hbase. apply Z.eqb_neq in Hid. rewrite Hid, Hs in Hbase.
    discriminate.
Qed.

Lemma forEach_unflushed id elements : forall n w w',
  id <> 1 -> 0 <= n -> n + Z.of_nat (List.length elements) < 2 ^ 63 ->
  unflushed n id w -> forEach elements writePartial w = Ok tt w' ->
  unflushed (n + Z.of_nat (List.length elements)) id w'.
Proof.
  induction elements as [|e l IH]; intros n w w' Hid Hn Hlen Hu H.
  - injection H as <-. simpl. now rewrite Z.add_0_r.
  - simpl in H. apply bind_Ok in H as ([] & w1 & H1 & H).
    simpl List.length in *.
    replace (n + Z.of_nat (S (List.length l)))
      with (n + 1 + Z.of_nat (List.length l)) by lia.
    apply (IH (n + 1) w1 w' Hid ltac:(lia) ltac:(lia)); [| exact H].
    apply (writePartial_unflushed n id e w w1 Hid Hn ltac:(lia) Hu H1).
Qed.

End OfflineChangesets.

(** X19.  Offline, on a database whose next changeset id is not 1, no
    session of one element or more (and fewer than 2^63) returns:
    [_writeChangesetToTable] creates the changesets table for changeset 1
    only, so the first flush of a changeset, at the latest the one of
    [finalizePartial], streams to a table that is not there (or finds the
    user id unset). *)
Theorem offline_session_needs_changeset_one `{Ext : External} (elements : list Element)
  (mode : QString) (userId maxChangesetSize : Z) (executeSql ndebug : bool)
  (db : Database) :
  toLower mode = "offline" ->
  db_nextChangesetId db <> 1 ->
  elements <> [] ->
  Z.of_nat (List.length elements) < 2 ^ 63 ->
  exists e w,
    session elements (newWriter mode userId maxChangesetSize executeSql ndebug db)
    = Throw e w.
Proof.
  intros Hmode Hid Hne Hlen.
  destruct (session elements _) as [o w|e w] eqn:H; [exfalso | eauto].
  unfold session in H.
  apply bind_Ok in H as ([] & w1 & Hopen & H).
  apply bind_Ok in H as ([] & w2 & Hrun & Hfin).
  assert (Hwritten : written elements
                       (newWriter mode userId maxChangesetSize executeSql ndebug db)
                     = Ok tt w2).
  { unfold written. rewrite (bind_of_Ok _ _ _ _ _ Hopen). exact Hrun. }
  destruct (written_counts _ _ _ _ _ _ _ _ Hwritten) as (Hn & Hw & Hr).
  pose proof (count_kind_total elements) as Htotal.
  pose proof (count_kind_nonneg ElementType.Node elements) as Hnn.
  pose proof (count_kind_nonneg ElementType.Way elements) as Hwn.
  pose proof (count_kind_nonneg ElementType.Relation elements) as Hrn.
  rewrite wrap64_small in Hn, Hw, Hr by lia.
  assert (Hpos : 0 < Z.of_nat (List.length elements))
    by (destruct elements; [contradiction | simpl List.length; lia]).
  apply (open_unflushed _ _ _ _ _ _ _ Hmode) in Hopen.
  apply (forEach_unflushed _ elements 0 w1 w2 Hid ltac:(lia) ltac:(lia) Hopen) in Hrun.
  rewrite Z.add_0_l in Hrun.
  unfold finalizePartial in Hfin.
  apply bind_Ok in Hfin as (? & ? & H1 & Hfin). injection H1 as <- <-.
  destruct ((nodesWritten (_writeStats w2) =? 0) && (waysWritten (_writeStats w2) =? 0)
            && (relationsWritten (_writeStats w2) =? 0)) eqn:Enone.
  { apply andb_true_iff in Enone as [Enone Er]. apply andb_true_iff in Enone as [En Ew].
    apply Z.eqb_eq in En, Ew, Er. lia. }
  apply bind_Ok in Hfin as ([] & w3 & H1 & Hfin).
  assert (E1 : changeset_view w3 = changeset_view w2)
    by (refine (preserves_Ok changeset_view _ w2 _ w3 _ H1); pres).
  apply (unflushed_view _ _ _ _ E1) in Hrun. clear H1 E1.
  apply bind_Ok in Hfin as (? & ? & H1 & Hfin). injection H1 as <- <-.
  apply bind_Ok in Hfin as ([] & w4 & Hflush & _).
  destruct Hrun as (Hc & Hrun).
  rewrite Hc in Hflush.
  replace (0 <? Z.of_nat (List.length elements)) with true in Hflush
    by (symmetry; apply Z.ltb_lt; lia).
  simpl in Hflush.
  eapply (writeChangesetToTable_unflushed _ _ w3 w4 Hid); [| exact Hflush].
  split; [exact Hc | exact Hrun].
Qed.

Lemma offline_session_needs_changeset_one_witness :
  exists e w,
    session Scenario.three_nodes (newWriter "offline" 17 2 false false Scenario.busyDb)
    = Throw e w.
Proof.
  apply (offline_session_needs_changeset_one Scenario.three_nodes "offline" 17 2
           false false Scenario.busyDb).
  - vm_compute. reflexivity.
  - vm_compute. discriminate.
  - discriminate.
  - vm_compute. reflexivity.
Defined.
